(* ===== verification/_CoqProject ===== *)
-Q . S2P
Prelude.v
Base64.v
Msp.v
Model.v
Database.v
Orm.v
Store.v
Session.v
Ports.v
Allocator.v
AllocatorRemoval.v
AllocatorAdd.v
AllocatorSpec.v
AllocatorProperties.v
Members.v
Secrets.v
Projections.v
Deployer.v
Strconv.v
Rpc.v
Notifier.v
NotifierMain.v
Schema.v
TestDatabases.v
ProcessManager.v
Configurator.v
MemberLists.v
ConfiguratorProperties.v
Controller.v
BusyTable.v
Monitor.v
Observation.v
Recording.v
Cluster.v
ObservationProperties.v
MonitorRound.v
Bus.v
ProblemManager.v
Api.v
ApiServer.v
ApiHandlers.v
ApiInvariant.v
ApiRules.v
ApiSlaves.v
ApiReplicaSets.v
ApiRiskGroups.v
ApiReads.v
ApiRequests.v
ApiProperties.v
Coherence.v
DesiredStates.v
MonitorSafety.v
System.v
Problems.v
ControlLoop.v
Removal.v
Convergence.v
EndToEnd.v
LoopClosed.v
Types.v
EntryPoints.v
Startup.v
