(* ===== verification/Prelude.v ===== *)
(** * MAMID: a verification development

    MAMID keeps MongoDB replica sets running on a set of slave machines.  The
    master computes which mongod should run where ([master/cluster_allocator.go]),
    tells the slaves ([master/deployer.go]), asks them what is running
    ([master/monitor.go]) and compares; its parts exchange messages on a bus
    ([model/messages.go]) and share a PostgreSQL database ([model/db.go],
    [model/sql/mamid_postgresql.sql]).  Master and slaves speak the protocol of the
    package [msp].  A slave ([slave/]) turns a request into processes, files and
    database commands.  The notifier ([notifier/]) polls the master's API for
    problems and mails them.

    This library translates these parts into Rocq definitions that follow the Go
    source function by function, and proves what makes them correct.

    ** How Go is modelled

    - A function with effects is a [GoM S A]: a state transformer that returns a
      value, panics with a Go value, or (only in loops with fuel) runs out of fuel.
      [wp] is total correctness: a theorem with postcondition [Q] and panic
      condition [False] says that the function returns.
    - [error] results are [option gerror] or [gres A]; [*msp.Error] results are
      [option msp.Error] or [mres A].
    - [uint16] ports are [Z] with the wrap-around written out ([port_wrap],
      [mod 65536]); [float64] is the Standard Library's [spec_float];
      [sql.NullInt64] is [option Z]; Go maps are [gmap]s.
    - The database is a record of finite maps from primary keys to rows; a SQL
      statement is its translation into a function on it, with three-valued
      [NOT IN], integer division and the referential actions of the schema.
    - Code that is not in the repository is a parameter, with its documented
      behaviour as laws and a concrete instance: the SQL server ([Engine]: which
      statement fails, row order) and gorm ([Gorm], [GormUpsert], [GormStore],
      [GormAssociations]), JSON ([Json]), the router ([Mux]), certificates ([X509]), the
      mail system and INI parser (module [notifier]), the operating system ([OS]),
      the mongod behind a connection ([Mongo]), random bytes.

    ** Files

    - [Prelude]: errors, the monad and its rules, [ORDER BY], counting.
    - [Base64]: the encoding used for generated secrets and mail bodies.
    - [Msp]: [msp/dataobjects.go].  [Rpc]: [msp/protocolclient.go] and
      [msp/protocolserver.go], the client, the listener with its routes and
      certificates, and the network between them.
    - [Model]: structs, enumerations and messages of [model/db.go],
      [model/messages.go].  [Schema]: opening and migrating a database;
      [TestDatabases]: the databases of the tests.
    - [Database]: tables, views and [ON DELETE] actions of the schema; the invariant
      [db_ok]; deletion preserves it.
    - [Orm]: statements, the parameters [Engine] and [Gorm], their rules.
    - [Store]: the remaining tables, the deferred foreign keys, [Save] and [Delete];
      [Session]: transactions of deployer, monitor and problem manager, [Commit]
      checking the foreign keys.
    - [Ports]: [findUnusedPort].
    - [Allocator]: [CompileMongodLayout] and everything it calls; [AllocatorRemoval],
      [AllocatorAdd]: what its two halves do; [AllocatorSpec]: the abstract
      specification (the database is [cleaned] of destroyed mongods, loses excess
      members, and is then [grown] by well-placed mongods until nobody can be
      served) and the refinement, [compiled];
      [AllocatorProperties]: the theorems about the whole, and a concrete cluster.
    - [Members]: the desired members of a replica set, priorities and votes.
    - [Secrets]: keyfile and root credential of the cluster.
    - [Projections]: conversions between the database model and the protocol, and
      the comparisons of [master/monitor.go] that need no database.
    - [Deployer]: [master/deployer.go].
    - [Monitor]: status messages, degradation, mongods no longer reported;
      [Observation]: the writing part of [master/monitor.go], [handleObservation] and
      a round of [Run]; [Recording]: the reported mongods, with the abstract
      specification [recorded] of the loop; [ObservationProperties], [MonitorRound]:
      the theorems about an answer and about a round.  [Cluster]: the replica sets,
      slave usage and busy rates the allocator's helpers compute.
    - [Notifier]: polling, diffing, mails and configuration of the notifier;
      [NotifierMain]: its [main].
    - [Strconv]: the parts of [strconv] and [strings] the slave uses.
    - [ProcessManager]: [slave/processmanager.go], [slave/procmgr_fs.go],
      [slave/procmgr_cmdline.go] over a model of the file system.
    - [Configurator]: [slave/mongodconfigurator.go] and [slave/mongodb.go]; the
      commands sent to a mongod are recorded with their replies.  [MemberLists]: the
      member documents; [ConfiguratorProperties]: the theorems.
    - [Controller]: [slave/controller.go], proved against the interface
      [MongodConfigurator] and its laws, which [ConcreteMongodConfigurator] meets.
    - [BusyTable]: [slave/controller_synchronization.go] as a step relation of any
      number of concurrent handlers.
    - [Bus]: [master/bus.go] as a step relation of writers, readers and the loop
      [Run].
    - [ProblemManager]: [master/problem_manager.go], the problems table as a
      function of the status messages.
    - [Api]: the structs, conversions and permission checks of [master/masterapi];
      [ApiServer]: requests as transactions with deferred foreign keys and calls on
      the response writer; [ApiHandlers]: the handlers of [slaves.go],
      [replicaSets.go], [riskGroup.go], [mongods.go], [problems.go], [system.go];
      [ApiInvariant]: the invariant [consistent] of the whole database, kept by every
      change of a handler and by the allocator; [ApiRules]: proof rules and tactics;
      [ApiSlaves], [ApiReplicaSets], [ApiRiskGroups]: one specification per handler
      that changes something, [ApiReads]: the others commit nothing; [ApiRequests]:
      the router [serve] and the abstract specification [api_change] of a request;
      [ApiProperties]: the theorems about all requests.
    - [Coherence]: what holds inside a transaction of the monitor and which changes of
      rows keep it; [MonitorSafety]: the monitor keeps it whatever fails, and leaves
      all decisions alone; [DesiredStates]: everything that is desired can be pushed.
    - [System]: the master as one transition system ([master_step]): requests, ticks of
      the allocator, the rounds of the monitor, the messages the deployer and the
      problem manager take from their queues, restarts; the abstract specification
      [event_allows] of each step; an executable schedule ([run_actions]).
      [ControlLoop]: from an answer of a slave to the calls of the deployer;
      [Convergence]: an answer as pushed leads to no call; [Removal]: what is to go
      and confirmed gone is forgotten.
    - [EndToEnd]: a pushed message over the network, through controller, configurator and mongod to the
      next report, against the interface [MongodDocs]; [LoopClosed]: back to the monitor.
    - [Problems]: the problems table over the whole run of the master.
    - [Types]: the values of the columns in every reachable database.
    - [EntryPoints]: flags and listening of [master/cmd/master.go] and
      [slave/cmd/slave.go]; [Startup]: their [main] functions, which put the components
      together.

    ** What is proved

    - The master as a whole: in any interleaving of its components, under any failures,
      answers and restarts, the database stays consistent and well typed, and every step changes only
      what its component is there to change; slaves in service or hosting mongods and
      the identity of replica sets are protected from all of them; and when a slave
      answers, every mongod on it is reported, and exactly the mismatches make the
      deployer call it, with what is desired.  A slave that reports what was pushed is
      left alone; a mongod that is to go is forgotten once its slave answers without it,
      and nothing else is; what a primary was told, it reports, unless it refuses to; and for a
      slave with one mongod the whole loop, from the deployer over the network to the
      slave and back to the monitor, is closed in one round.
    - Allocator: the layout computation ends and keeps the database well-formed; it
      removes members only in excess of the desired number; new members respect
      persistence, slave state, risk groups, distinct slaves, port ranges and
      capacity; no replica set gets more members than asked for; it gets all it
      asks for unless no suitable slave is left; every replica set is reported.
      What the program does differently from its comments is proved too: errors are
      always re-panicked, the queue of degraded replica sets is not ordered, a NULL
      risk group blocks all others, a port used twice blocks the port search.
    - Members, secrets, projections: the members of a replica set are its mongods that
      should run, those on observed slaves first, each with its address, priority and
      votes, and exactly the first seven vote; secrets are created once; the member
      comparison
      is exact when the members are pairwise different (and not symmetric in general).
    - Deployer: the message to a slave represents the desired state, a replica set
      is recorded as initiated only after the slave confirmed it, errors of the
      representation are pushed all the same.
    - Monitor: one status per mongod, a match exactly when observed and desired
      state agree; degradation; unreported mongods become destroyed, nothing else
      changes.  A report without a name, as the slave sends for a mongod it cannot
      query, makes the monitor record that mongod as destroyed; the theorems about the
      content of answers ask for names.
    - Bus: a reader gets, in order, every message copied since it joined except
      those counted as dropped, and only a full channel drops; the loop never misses a
      wake-up.
    - Problem manager: in every reachable state a subject has at most one problem, and
      only slaves and replica sets that exist have one; a message leaves a problem
      exactly when it reports trouble, and a late one about a removed subject does nothing.
    - HTTP API: under any server and mapper failures, a request either commits nothing
      or a change its specification permits, completed by the allocator; the list of
      slaves is complete, and what it shows can be sent back.  Two misleading answers are
      proved: a created slave is announced before a commit that may fail, and
      deleting the replica set 0 deletes all.
    - Slave: every command a mongod gets is justified by the request and the earlier
      replies; member ids are kept and never reused, and a configured replica set is
      read back as configured; data is deleted only below the directory of a stopped
      mongod that should be destroyed, and one to be destroyed by force is sent the
      signal first; a start fails only for a reason, and panics when the version of
      mongod cannot be asked for through a pipe; the status covers every directory, and
      fails exactly when they cannot be read; handlers
      of one port exclude each other and never block for good.
    - Protocol: over a trusted connection the three calls of the client are calls of the
      slave's controller, with the message and its answer unchanged (except an
      error beside a list of mongods, which is lost, one without identifier, and a
      message the client refuses), and only the holder of a certificate
      of the slave's CA changes the state of a slave.
    - Start: a master that serves has an up-to-date schema, all components running and
      the secrets, unless their commit was the statement that failed, which goes
      unnoticed, and a start fails only for a named obstacle; a slave that serves has its
      directories and an empty controller; creating the schema is idempotent except for a failure
      between its two statements, after which every start is refused.
    - Notifier: in any run a problem is mailed in the rounds in which it is reported and
      was not in the round before, with its description, through the configured relay,
      to the contacts of the file, in order, up to the first failed delivery; a start is
      refused only for a configuration, contacts or certificates that cannot be used.

    The theorems about what a step achieves (allocator, monitor, control loop) suppose
    that the server executes the statements ([reliable], [reliable_monitor]) and name
    their other conditions: no two mongods of a slave on one port, reports with a port
    and a name, host names without colons, stored secrets.  Those about what a step may
    do at all (invariants, permissions, specifications of the components) hold for any
    failures.  [MongodDocs] lets a mongod complete a configuration with defaults, refuse
    it, and elect another primary.

    ** Bounds and fuel

    The allocation loop has fuel [allocation_fuel]: one more than the number of
    replica sets plus the number of free ports; every iteration gives up a replica
    set or takes a port, and the termination theorem shows it is enough.
    The loop of [findUnusedPort] has one round more than the range has ports, and
    every round moves to the next port.  The deletion cascade has one round per
    mongod.  No other loop needs fuel.

    ** What is not modelled

    The tickers and the scheduling of goroutines ([System] interleaves whole
    transactions, in any order), signals, the parsing of flags, the routes of static
    files, logging; the GUI.  Chains of certificates and the handshake are the parameter
    [X509]; a request is answered before the next one is sent.  Transactions are taken to be serializable: two that
    overlap are not modelled, and neither are two handlers of the deployer at once.
    Errors of [rows.Scan] and [ScanRows] are taken not to occur; writing an answer to
    the connection does not fail, and the texts of bodies are kept as the calls that
    produce them.  What exactly the monitor records is proved for runs in which no
    statement fails; that it keeps the database consistent and decides nothing, for all
    runs. *)

From stdpp Require Import base gmap sets list strings sorting fin_maps.
From Stdlib Require Import QArith Lia.

Set Default Goal Selector "!".

Declare Scope mamid_scope.
Delimit Scope mamid_scope with mamid.
Open Scope Z_scope.
Open Scope mamid_scope.

Set Warnings "-clear-no-such-hyp".

(** ** Go errors and panic values *)

(** The [error] values the modelled code tells apart: gorm's two sentinel
    errors, an error reported by the PostgreSQL driver (its SQLSTATE class is
    what [IsIntegrityConstraintViolation] inspects), and the errors built with
    [fmt.Errorf] or returned by other libraries, of which only the text
    matters. *)
Inductive gerror :=
  | ErrRecordNotFound
  | ErrInvalidTransaction
  | PqError (class : string) (text : string)
  | TextError (text : string).

#[export] Instance gerror_eq_dec : EqDecision gerror.
Proof. solve_decision. Defined.

(** [err.Error()] *)
Definition error_text (e : gerror) : string :=
  match e with
  | ErrRecordNotFound => "record not found"
  | ErrInvalidTransaction => "no valid transaction"
  | PqError _ text => "pq: " +:+ text
  | TextError text => text
  end.

Lemma string_app_assoc (a b c : string) : (a +:+ b) +:+ c = a +:+ (b +:+ c).
Proof. induction a as [|x a IH]; [done|]. exact (f_equal (String x) IH). Qed.

(** Dynamic values a Go [panic] can carry in this program. *)
Inductive goval :=
  | VError (e : gerror)
  | VString (s : string)
  | VBool (b : bool).

#[export] Instance goval_eq_dec : EqDecision goval.
Proof. solve_decision. Defined.

(** The result of a fallible call: Go's [(value, err)] pair where exactly one
    component is meaningful. *)
Inductive gres (A : Type) :=
  | Ok (a : A)
  | Err (e : gerror).
Arguments Ok {A} a.
Arguments Err {A} e.

(** ** The state-and-panic monad of the handlers *)

(** How a Go function activation ends: it returns, it panics, or the fuel of a
    modelled loop is used up (theorems show that this last case is unreachable). *)
Inductive outcome (A : Type) :=
  | Returned (a : A)
  | Panicked (v : goval)
  | OutOfFuel.
Arguments Returned {A} a.
Arguments Panicked {A} v.
Arguments OutOfFuel {A}.

Definition GoM (S A : Type) : Type := S → S * outcome A.

#[export] Instance gom_ret {S} : MRet (GoM S) := λ A a s, (s, Returned a).
#[export] Instance gom_bind {S} : MBind (GoM S) := λ A B f m s,
  match m s with
  | (s', Returned a) => f a s'
  | (s', Panicked v) => (s', Panicked v)
  | (s', OutOfFuel) => (s', OutOfFuel)
  end.

Section operations.
Context {S : Type}.

Definition panic {A} (v : goval) : GoM S A := λ s, (s, Panicked v).
Definition out_of_fuel {A} : GoM S A := λ s, (s, OutOfFuel).
Definition get_state : GoM S S := λ s, (s, Returned s).
Definition modify_state (f : S → S) : GoM S unit := λ s, (f s, Returned tt).

(** [if err != nil { panic(err) }] *)
Definition or_panic {A} (r : gres A) : GoM S A :=
  match r with
  | Ok a => mret a
  | Err e => panic (VError e)
  end.

(** [for _, x := range l { body }] *)
Fixpoint range {A} (l : list A) (body : A → GoM S unit) : GoM S unit :=
  match l with
  | [] => mret tt
  | x :: l => _ ← body x; range l body
  end.
End operations.

(** Weakest precondition of total correctness: [Q] holds if the computation
    returns, [E] if it panics, and it never runs out of fuel. *)
Definition wp {S A} (m : GoM S A) (Q : A → S → Prop) (E : goval → S → Prop) (s : S) : Prop :=
  match m s with
  | (s', Returned a) => Q a s'
  | (s', Panicked v) => E v s'
  | (_, OutOfFuel) => False
  end.

Section wp.
Context {S : Type}.
Implicit Types (s : S) (E : goval → S → Prop).

Lemma wp_ret {A} (a : A) Q E s : Q a s → wp (mret a) Q E s.
Proof. done. Qed.

Lemma wp_bind {A B} (m : GoM S A) (f : A → GoM S B) Q E s :
  wp m (λ a s', wp (f a) Q E s') E s → wp (m ≫= f) Q E s.
Proof.
  unfold wp, mbind, gom_bind. by destruct (m s) as [s' [a|v|]].
Qed.

(** A call and the check of its error, as one step. *)
Lemma wp_bind_assoc {A B C} (m : GoM S A) (f : A → GoM S B) (k : B → GoM S C) Q E s :
  wp (m ≫= f) (λ b s', wp (k b) Q E s') E s → wp (m ≫= λ a, f a ≫= k) Q E s.
Proof.
  unfold wp, mbind, gom_bind. destruct (m s) as [s' [a|v|]]; [|done|done].
  by destruct (f a s') as [s'' [b|v|]].
Qed.

Lemma wp_panic {A} v (Q : A → S → Prop) E s : E v s → wp (panic v) Q E s.
Proof. done. Qed.

Lemma wp_get Q E s : Q s s → wp get_state Q E s.
Proof. done. Qed.

Lemma wp_modify f Q E s : Q tt (f s) → wp (modify_state f) Q E s.
Proof. done. Qed.

Lemma wp_mono {A} (m : GoM S A) (Q Q' : A → S → Prop) E E' s :
  wp m Q E s → (∀ a s', Q a s' → Q' a s') → (∀ v s', E v s' → E' v s') →
  wp m Q' E' s.
Proof.
  unfold wp. destruct (m s) as [s' [a|v|]]; naive_solver.
Qed.

Lemma wp_or_panic {A} (r : gres A) Q E s :
  (∀ a, r = Ok a → Q a s) → (∀ e, r = Err e → E (VError e) s) →
  wp (or_panic r) Q E s.
Proof. destruct r; intros HQ HE; [by apply wp_ret, HQ | by apply wp_panic, HE]. Qed.

(** Loop rule: an invariant indexed by the items already processed. *)
Lemma wp_range {A} (l : list A) (body : A → GoM S unit) (I : list A → S → Prop) E s :
  I [] s →
  (∀ pre x todo s', l = pre ++ x :: todo → I pre s' →
     wp (body x) (λ _ s'', I (pre ++ [x]) s'') E s') →
  wp (range l body) (λ _ s', I l s') E s.
Proof.
  intros HI Hbody.
  cut (∀ todo pre s', l = pre ++ todo → I pre s' →
         wp (range todo body) (λ _ s'', I l s'') E s').
  { intros H. by eapply (H l []). }
  induction todo as [|x todo IH]; intros pre s' -> Hpre; simpl.
  - apply wp_ret. by rewrite app_nil_r.
  - apply wp_bind. eapply wp_mono; [by apply (Hbody pre x todo)| |done].
    intros [] s'' Hs''. apply (IH (pre ++ [x])); [by rewrite <- app_assoc | done].
Qed.

(** What a triple says about the run itself. *)
Lemma wp_returns {A} (m : GoM S A) Q s :
  wp m Q (λ _ _, False) s → ∃ a s', m s = (s', Returned a) ∧ Q a s'.
Proof. unfold wp. destruct (m s) as [s' [a|v|]]; naive_solver. Qed.

(** Computations that return or panic in every state. *)
Definition ends {A} (m : GoM S A) : Prop := ∀ s, (m s).2 ≠ OutOfFuel.

Lemma ends_ret {A} (a : A) : ends (mret a).
Proof. by intros s. Qed.
Lemma ends_panic {A} v : ends (A := A) (panic v).
Proof. by intros s. Qed.
Lemma ends_get : ends get_state.
Proof. by intros s. Qed.
Lemma ends_bind {A B} (m : GoM S A) (f : A → GoM S B) : ends m → (∀ a, ends (f a)) → ends (m ≫= f).
Proof.
  intros Hm Hf s. specialize (Hm s). unfold mbind, gom_bind. destruct (m s) as [s' [a|v|]]; simpl in *; [apply Hf|done..].
Qed.

Lemma wp_ends {A} (m : GoM S A) (Q : A → S → Prop) E s :
  ends m → (∀ a s', Q a s') → (∀ v s', E v s') → wp m Q E s.
Proof. intros Hm HQ HE. specialize (Hm s). unfold wp. destruct (m s) as [s' [a|v|]]; [apply HQ|apply HE|done]. Qed.

(** Calls on a part of the state. *)
Definition in_part {P A} (get : S → P) (put : P → S → S) (f : GoM P A) : GoM S A := λ s,
  let '(x, r) := f (get s) in (put x s, r).

Lemma wp_in_part {P A} (get : S → P) (put : P → S → S) (f : GoM P A) Q E s :
  wp f (λ a x, Q a (put x s)) (λ v x, E v (put x s)) (get s) → wp (in_part get put f) Q E s.
Proof. unfold wp, in_part. by destruct (f (get s)) as [x [a|v|]]. Qed.
End wp.

Create HintDb mamid discriminated.
#[export] Hint Resolve wp_ret wp_panic wp_get wp_modify : mamid.
#[export] Hint Resolve ends_ret ends_panic ends_get ends_bind : mamid.

(** One symbolic-execution step of the monad. *)
Ltac wp_step :=
  lazymatch goal with
  | |- wp (mbind _ _) _ _ _ => apply wp_bind
  | |- wp (mret _) _ _ _ => apply wp_ret
  | |- wp (panic _) _ _ _ => apply wp_panic
  | |- wp get_state _ _ _ => apply wp_get
  | |- wp (modify_state _) _ _ _ => apply wp_modify
  | |- wp (or_panic _) _ _ _ => apply wp_or_panic
  end.
Ltac wp_steps := repeat wp_step.

(** ** [ORDER BY] *)

(** Sort keys of up to three columns, all ascending: [DESC] on a column is the
    negated column. *)
Definition sort_key : Type := Z * Z * Q.

Definition key_le (x y : sort_key) : Prop :=
  x.1.1 < y.1.1 ∨
  (x.1.1 = y.1.1 ∧ (x.1.2 < y.1.2 ∨ (x.1.2 = y.1.2 ∧ (x.2 <= y.2)%Q))).

#[export] Instance Qle_decision (a b : Q) : Decision (a <= b)%Q.
Proof.
  destruct (Qle_bool a b) eqn:H; [left; by apply Qle_bool_iff|right].
  intros Hle%Qle_bool_iff. congruence.
Defined.
#[export] Instance key_le_dec x y : Decision (key_le x y).
Proof. unfold key_le. apply _. Defined.

#[export] Instance key_le_total : Total key_le.
Proof.
  intros x y. unfold key_le.
  destruct (Z.lt_trichotomy x.1.1 y.1.1) as [?|[H1|?]]; [by left; left| |by right; left].
  destruct (Z.lt_trichotomy x.1.2 y.1.2) as [?|[H2|?]]; [left; right; by auto| |right; right; by auto].
  destruct (Qlt_le_dec x.2 y.2) as [?%Qlt_le_weak|?]; [left|right]; right; by auto.
Qed.

#[export] Instance key_le_trans : Transitive key_le.
Proof.
  intros x y z. unfold key_le.
  intros [H1|[E1 [H1|[E1' H1]]]] [H2|[E2 [H2|[E2' H2]]]];
    try (left; lia); right; (split; [lia|]); try (left; lia).
  right. split; [lia|]. by eapply Qle_trans.
Qed.

(** [ORDER BY key] of rows that come in some order. *)
Definition by_key {A} (key : A → sort_key) : relation A := λ a b, key_le (key a) (key b).

#[export] Instance by_key_dec {A} (key : A → sort_key) a b : Decision (by_key key a b).
Proof. unfold by_key. apply _. Defined.
#[export] Instance by_key_total {A} (key : A → sort_key) : Total (by_key key).
Proof. intros a b. apply key_le_total. Qed.
#[export] Instance by_key_trans {A} (key : A → sort_key) : Transitive (by_key key).
Proof. intros a b c. apply key_le_trans. Qed.

Definition order_by {A} (key : A → sort_key) (l : list A) : list A := merge_sort (by_key key) l.

Lemma StronglySorted_weaken {A} (R R' : relation A) (l : list A) :
  (∀ a b, R a b → R' a b) → StronglySorted R l → StronglySorted R' l.
Proof.
  intros HR. induction 1 as [|x l _ IH Hall]; constructor; [done|]. eapply Forall_impl; [done|]. simpl. auto.
Qed.

Section order_by.
Context {A : Type} (key : A → sort_key).

Lemma order_by_perm l : order_by key l ≡ₚ l.
Proof. apply merge_sort_Permutation. Qed.

Lemma elem_of_order_by l x : x ∈ order_by key l ↔ x ∈ l.
Proof. by rewrite order_by_perm. Qed.

(** An order that tells all rows apart leaves the server no choice. *)
Lemma order_by_unique l l' :
  (∀ x y, x ∈ l → y ∈ l → key_le (key x) (key y) → key_le (key y) (key x) → x = y) →
  l ≡ₚ l' → order_by key l = order_by key l'.
Proof.
  intros Hkey Hp. apply (StronglySorted_unique_strong (by_key key)).
  - intros x y. rewrite !elem_of_order_by, <- Hp. apply Hkey.
  - apply (StronglySorted_merge_sort _).
  - apply (StronglySorted_merge_sort _).
  - by rewrite !order_by_perm.
Qed.

(** [LIMIT 1] of an ordered query: no row exactly when there is none, and
    otherwise a row with a least key. *)
Lemma order_by_head l :
  match head (order_by key l) with
  | Some x => x ∈ l ∧ ∀ y, y ∈ l → key_le (key x) (key y)
  | None => l = []
  end.
Proof.
  pose proof (order_by_perm l) as Hperm.
  pose proof (StronglySorted_merge_sort (by_key key) l) as Hsort. fold (order_by key l) in Hsort.
  destruct (order_by key l) as [|x l'] eqn:Heq; simpl.
  - by apply Permutation_nil_l in Hperm.
  - split; [rewrite <- Hperm; left|]. intros y Hy. rewrite <- Hperm in Hy.
    apply elem_of_cons in Hy as [->|Hy]; [by destruct (key_le_total (key x) (key x))|].
    inversion Hsort as [|? ? _ Hall]; subst. by eapply Forall_forall in Hall.
Qed.
End order_by.

(** Renaming rows that keep their key renames the ordered rows. *)
Lemma order_by_fmap {A} (key : A → sort_key) (g : A → A) l :
  (∀ x, key (g x) = key x) →
  (∀ x y, x ∈ l → y ∈ l → key_le (key x) (key y) → key_le (key y) (key x) → g x = g y) →
  g <$> order_by key l = order_by key (g <$> l).
Proof.
  intros Hg Hkey. apply (StronglySorted_unique_strong (by_key key)).
  - intros x y. rewrite elem_of_order_by, !list_elem_of_fmap. intros (x0 & -> & Hx) (y0 & -> & Hy). rewrite elem_of_order_by in Hx.
    unfold by_key. rewrite !Hg. by apply Hkey.
  - pose proof (StronglySorted_merge_sort (by_key key) l) as Hs. fold (order_by key l) in Hs.
    induction Hs as [|x l' _ IH Hall]; csimpl; constructor; [done|]. apply Forall_fmap. eapply Forall_impl; [exact Hall|].
    intros y. unfold by_key. simpl. by rewrite !Hg.
  - apply (StronglySorted_merge_sort _).
  - by rewrite !order_by_perm.
Qed.

(** ** Updates of one row *)

Lemma alter_as_insert {A} (f : A → A) (t : gmap Z A) i x : t !! i = Some x → alter f i t = <[i := f x]> t.
Proof. intros Hx. rewrite <- (insert_id t i x Hx) at 1. by rewrite alter_insert_eq. Qed.

(** ** Counting *)

Lemma size_list_to_set_le (l : list Z) : (size (list_to_set (C := gset Z) l) ≤ length l)%nat.
Proof.
  induction l as [|x l IH]; [done|]. rewrite list_to_set_cons.
  rewrite size_union_alt, size_singleton. simpl.
  assert (size (list_to_set (C := gset Z) l ∖ {[x]}) ≤ size (list_to_set (C := gset Z) l))%nat
    by (apply subseteq_size; set_solver). lia.
Qed.

Lemma sum_list_le {A} (f g : A → nat) (l : list A) :
  (∀ x, x ∈ l → (f x ≤ g x)%nat) → (sum_list_with f l ≤ sum_list_with g l)%nat.
Proof.
  induction l as [|x l IH]; intros H; simpl; [done|].
  pose proof (H x (list_elem_of_here _ _)).
  assert (sum_list_with f l ≤ sum_list_with g l)%nat by (apply IH; intros; apply H; by right). lia.
Qed.

Lemma sum_list_lt {A} (f g : A → nat) (l : list A) y :
  (∀ x, x ∈ l → (f x ≤ g x)%nat) → y ∈ l → (f y < g y)%nat →
  (sum_list_with f l < sum_list_with g l)%nat.
Proof.
  intros H Hy Hlt. induction Hy as [y l|y x l Hy IH]; simpl.
  - assert (sum_list_with f l ≤ sum_list_with g l)%nat; [|lia].
    apply sum_list_le. intros x Hx. apply H. by right.
  - pose proof (H x (list_elem_of_here _ _)).
    assert (sum_list_with f l < sum_list_with g l)%nat; [|lia].
    apply IH; [|done]. intros z Hz. apply H. by right.
Qed.
