(* ===== verification/Base64.v ===== *)
(** * Base64

    [encoding/base64]'s [StdEncoding.EncodeToString], which the master uses for
    secrets and the notifier for mail subjects. *)

From Stdlib Require Import Ascii.
From stdpp Require Import base list strings.
From Stdlib Require Import Lia.
From S2P Require Import Prelude.

Open Scope Z_scope.
Set Warnings "-clear-no-such-hyp".

Definition base64_alphabet : list Ascii.ascii :=
  String.list_ascii_of_string "ABCDEFGHIJKLMNOPQRSTUVWXYZabcdefghijklmnopqrstuvwxyz0123456789+/".
Definition base64_char (v : Z) : Ascii.ascii := default "="%char (base64_alphabet !! Z.to_nat (Z.land v 63)).

(** [EncodeToString]: three bytes become four characters, the rest is padded. *)
Fixpoint base64_encode (bytes : list Z) : list Ascii.ascii :=
  match bytes with
  | [] => []
  | [a] => [base64_char (Z.shiftr a 2); base64_char (Z.shiftl a 4); "="%char; "="%char]
  | [a; b] => [base64_char (Z.shiftr a 2); base64_char (Z.lor (Z.shiftl a 4) (Z.shiftr b 4));
               base64_char (Z.shiftl b 2); "="%char]
  | a :: b :: c :: bytes =>
      base64_char (Z.shiftr a 2) :: base64_char (Z.lor (Z.shiftl a 4) (Z.shiftr b 4)) ::
      base64_char (Z.lor (Z.shiftl b 2) (Z.shiftr c 6)) :: base64_char c :: base64_encode bytes
  end.

Example base64_Man : String.string_of_list_ascii (base64_encode [77; 97; 110]) = "TWFu".
Proof. reflexivity. Qed.
Example base64_Ma : String.string_of_list_ascii (base64_encode [77; 97]) = "TWE=".
Proof. reflexivity. Qed.

(** ** A prefix no longer than the input is never padded *)

Lemma base64_char_alphabet v : base64_char v ∈ base64_alphabet.
Proof.
  unfold base64_char.
  assert (0 ≤ Z.land v 63 < 64) as Hv.
  { change 63 with (Z.ones 6). rewrite Z.land_ones by lia. apply Z.mod_pos_bound. lia. }
  destruct (lookup_lt_is_Some_2 base64_alphabet (Z.to_nat (Z.land v 63))) as [x Hx].
  { change (length base64_alphabet) with 64%nat. lia. }
  rewrite Hx. simpl. by eapply list_elem_of_lookup_2.
Qed.

(** Three-byte induction. *)
Lemma chunk_ind (P : list Z → Prop) :
  P [] → (∀ a, P [a]) → (∀ a b, P [a; b]) → (∀ a b c l, P l → P (a :: b :: c :: l)) → ∀ l, P l.
Proof.
  intros H0 H1 H2 H3. fix IH 1. intros [|a [|b [|c l]]]; [done|apply H1|apply H2|apply H3, IH].
Qed.

Ltac alphabet := repeat (apply Forall_cons_2; [apply base64_char_alphabet|]); try apply Forall_nil_2.

Lemma base64_encode_prefix bytes :
  (length bytes ≤ length (base64_encode bytes))%nat ∧
  Forall (λ x, x ∈ base64_alphabet) (take (length bytes) (base64_encode bytes)).
Proof.
  enough (∀ k, (k ≤ length bytes)%nat → (k ≤ length (base64_encode bytes))%nat ∧
            Forall (λ x, x ∈ base64_alphabet) (take k (base64_encode bytes))) as H by by apply H.
  induction bytes as [|a|a b|a b c bytes IH] using chunk_ind; intros k Hk; simpl in *.
  - assert (k = 0%nat) as -> by lia. split; [lia|constructor].
  - split; [lia|]. destruct k as [|[|k]]; [constructor| |lia]. simpl. alphabet.
  - split; [lia|]. destruct k as [|[|[|k]]]; [constructor| | |lia]; simpl; alphabet.
  - destruct k as [|[|[|[|k]]]]; simpl; [split; [lia|constructor]|..].
    1-3: split; [lia|]; alphabet.
    destruct (IH k ltac:(lia)) as [Hlen Hall]. split; [lia|].
    alphabet. done.
Qed.
