(* ===== verification/Msp.v ===== *)
(** * The master/slave protocol: data objects

    [msp/dataobjects.go].  [encoding/json] on them is the class [Json]; the client and
    the server are in [Rpc]. *)

From stdpp Require Import base gmap sets list strings pretty.
From Stdlib Require Import SpecFloat.
From S2P Require Import Prelude.

(** Decimal formatting, [fmt.Sprintf("%d", _)]. *)
Definition fmt_d (n : Z) : string := pretty n.

(** The double quote character. *)
Definition dquote : string := String (Ascii.ascii_of_nat 34) EmptyString.

(** IEEE binary64 values, Go's [float64]. *)
Abbreviation float64 := spec_float (only parsing).
Definition float64_of_int (n : Z) : float64 := binary_normalize 53 1024 n 0 false.
Definition float64_eqb (a b : float64) : bool := SFeqb a b.

#[export] Instance spec_float_eq_dec : EqDecision spec_float.
Proof. solve_decision. Defined.

Module msp.

(** ** dataobjects.go *)

Abbreviation MongodState := string (only parsing).
Definition MongodStateForceDestroyed : MongodState := "forcedestroyed".
Definition MongodStateDestroyed : MongodState := "destroyed".
Definition MongodStateNotRunning : MongodState := "notrunning".
Definition MongodStateUninitialized : MongodState := "uninitiated".
Definition MongodStateRecovering : MongodState := "recovering".
Definition MongodStateRunning : MongodState := "running".
Definition MongodStateRemoved : MongodState := "removed".

Definition IsProcessExecuting (s : MongodState) : bool :=
  if decide (s = MongodStateForceDestroyed ∨ s = MongodStateDestroyed ∨ s = MongodStateNotRunning)
  then false else true.

(** [type PortNumber uint16] *)
Abbreviation PortNumber := Z (only parsing).

Record HostPort := mkHostPort { Hostname : string; Port : PortNumber }.

Abbreviation ShardingRole := string (only parsing).
Definition ShardingRoleNone : ShardingRole := "none".
Definition ShardingRoleShardServer : ShardingRole := "shardsvr".
Definition ShardingRoleConfigServer : ShardingRole := "configsvr".

Record MongodCredential := mkMongodCredential { Username : string; Password : string }.

Record ReplicaSetMember := mkReplicaSetMember {
  Member_HostPort : HostPort;
  Member_Priority : float64;
  Member_Votes : Z
}.

Record ReplicaSetConfig := mkReplicaSetConfig {
  ReplicaSetName : string;
  ReplicaSetMembers : list ReplicaSetMember;
  Config_ShardingRole : ShardingRole;
  RootCredential : MongodCredential
}.

Record Error := mkError {
  Identifier : string;
  Description : string;
  LongDescription : string
}.

Record Mongod := mkMongod {
  Mongod_Port : PortNumber;
  KeyfileContent : string;
  Mongod_ReplicaSetConfig : ReplicaSetConfig;
  StatusError : option Error;
  LastEstablishStateError : option Error;
  State : MongodState
}.

Record RsInitiateMessage := mkRsInitiateMessage {
  RsInitiate_Port : PortNumber;
  RsInitiate_ReplicaSetConfig : ReplicaSetConfig
}.

(** Zero values of the struct types. *)
Definition zero_HostPort : HostPort := mkHostPort "" 0.
Definition zero_Credential : MongodCredential := mkMongodCredential "" "".
Definition zero_ReplicaSetConfig : ReplicaSetConfig := mkReplicaSetConfig "" [] "" zero_Credential.
Definition zero_Mongod : Mongod := mkMongod 0 "" zero_ReplicaSetConfig None None "".
Definition zero_Error : Error := mkError "" "" "".
Definition zero_RsInitiate : RsInitiateMessage := mkRsInitiateMessage 0 zero_ReplicaSetConfig.

#[export] Instance HostPort_eq_dec : EqDecision HostPort.
Proof. solve_decision. Defined.
#[export] Instance MongodCredential_eq_dec : EqDecision MongodCredential.
Proof. solve_decision. Defined.
#[export] Instance ReplicaSetMember_eq_dec : EqDecision ReplicaSetMember.
Proof. solve_decision. Defined.
#[export] Instance ReplicaSetConfig_eq_dec : EqDecision ReplicaSetConfig.
Proof. solve_decision. Defined.
#[export] Instance Error_eq_dec : EqDecision Error.
Proof. solve_decision. Defined.
#[export] Instance Mongod_eq_dec : EqDecision Mongod.
Proof. solve_decision. Defined.

(** [func (m MongodCredential) GoString() string] *)
Definition MongodCredential_GoString (m : MongodCredential) : string :=
  "msp.MongodCredential{Username:" +:+ dquote +:+ Username m +:+ dquote +:+
  ", Password:" +:+ dquote +:+ "<redacted>" +:+ dquote +:+ "}".

(** [func (e Error) String() string] *)
Definition Error_String (e : Error) : string :=
  "{" +:+ Identifier e +:+ ": " +:+ Description e +:+ " : " +:+ LongDescription e +:+ "}".

(** [func (e *Error) validateFields() error] *)
Definition validateFields (e : Error) : option string :=
  if decide (Identifier e = "")
  then Some "invalid msp.Error: `Identifier` is a mandatory field"
  else None.

(** Error identifiers *)
Definition CommunicationError : string := "COMM".
Definition BadStateDescription : string := "BADSTATE".
Definition SlaveSpawnError : string := "SLAVESPAWN".
Definition SlaveConnectMongodError : string := "SLAVECONERR".
Definition SlaveGetMongodStatusError : string := "SLAVEGETSTATUSERR".
Definition SlaveReplicaSetInitError : string := "SLAVEREPLSETINIT".
Definition SlaveReplicaSetCreateRootUserError : string := "SLAVEREPLSETCREATEROOTUSER".
Definition SlaveReplicaSetConfigError : string := "SLAVEREPLSETCONFIG".
Definition SlaveMongodProtocolError : string := "SLAVEMONGODPROTOERR".
Definition NotImplementedError : string := "NOTIMPLEMENTED".
Definition SlaveShutdownError : string := "SLAVESHUTDOWNERR".

End msp.

(** ** Transport and serialisation, as used by the package *)

(** [encoding/json] on the message types.  An encoder of a request returns the text or
    an error, that of an answer what it has written (nothing, if it fails).  A decoder
    returns the decoded value or the text of the decoding error; where the caller drops
    the error, it returns what the decoder left in the variable along with it.

    The laws are the documented round trip of [json.Marshal] and [json.Unmarshal] on
    exported struct fields.  It holds for the values JSON can carry, here called
    faithful: those whose strings are valid UTF-8 and whose numbers are finite.  A
    slice of mongods ([nil] is sent as [null] and decodes to [nil]), an error (a [nil]
    pointer is sent as [null], which leaves the decoded struct zero). *)
Class Json := {
  body : Type;
  encode_status : option (list msp.Mongod) → body;
  decode_status : body → option (list msp.Mongod) + string;
  encode_error : option msp.Error → body;
  decode_error : body → msp.Error + string;
  encode_mongod : msp.Mongod → gres body;
  decode_mongod : body → msp.Mongod * option string;
  encode_rsInitiate : msp.RsInitiateMessage → gres body;
  decode_rsInitiate : body → msp.RsInitiateMessage * option string;
  empty_body : body;
  faithful_status : option (list msp.Mongod) → Prop;
  faithful_error : option msp.Error → Prop;
  faithful_mongod : msp.Mongod → Prop;
  faithful_rsInitiate : msp.RsInitiateMessage → Prop;
  status_roundtrip st : faithful_status st → decode_status (encode_status st) = inl st;
  status_empty : faithful_status (Some []);
  error_none : faithful_error None;
  error_roundtrip e : faithful_error e → decode_error (encode_error e) = inl (default msp.zero_Error e);
  mongod_roundtrip m : faithful_mongod m → ∃ b, encode_mongod m = Ok b ∧ decode_mongod b = (m, None);
  rsInitiate_roundtrip m : faithful_rsInitiate m → ∃ b, encode_rsInitiate m = Ok b ∧ decode_rsInitiate b = (m, None)
}.

Record response `{Json} := mkResponse { StatusCode : Z; Body : body }.

Definition StatusOK : Z := 200.
Definition StatusInternalServerError : Z := 500.

(** What [http.Client.Get]/[Do] hands back: a response or a transport error. *)
Definition http_result `{Json} : Type := response + string.
