(* ===== verification/Model.v ===== *)
(** * The data model

    The structs and enumerations of [model/db.go], the bus messages of
    [model/messages.go], and the helpers of [model/db.go] that need no database.
    A [sql.NullInt64] column is an [option Z]: [Valid] is [is_Some]. *)

From stdpp Require Import base gmap sets list strings.
From S2P Require Import Prelude Msp.

(** [type PortNumber uint16]; arithmetic on it wraps at [2^16]. *)
Abbreviation PortNumber := Z (only parsing).
Definition PortNumberMin : Z := 1.
Definition PortNumberMax : Z := 65535.
Definition port_wrap (p : Z) : PortNumber := p `mod` 65536.
Definition is_port (p : Z) : Prop := 0 ≤ p < 65536.

(** [type SlaveState uint] *)
Abbreviation SlaveState := Z (only parsing).
Definition SlaveStateActive : SlaveState := 1.
Definition SlaveStateMaintenance : SlaveState := 2.
Definition SlaveStateDisabled : SlaveState := 3.

(** [type ShardingRole string] *)
Abbreviation ShardingRole := string (only parsing).
Definition ShardingRoleNone : ShardingRole := "none".
Definition ShardingRoleShardServer : ShardingRole := "shardsvr".
Definition ShardingRoleConfigServer : ShardingRole := "configsvr".

(** [type MongodExecutionState uint] *)
Abbreviation MongodExecutionState := Z (only parsing).
Definition MongodExecutionStateForceDestroyed : MongodExecutionState := 1.
Definition MongodExecutionStateDestroyed : MongodExecutionState := 2.
Definition MongodExecutionStateNotRunning : MongodExecutionState := 3.
Definition MongodExecutionStateUninitiated : MongodExecutionState := 4.
Definition MongodExecutionStateRecovering : MongodExecutionState := 5.
Definition MongodExecutionStateRunning : MongodExecutionState := 6.

(** [type ProblemType uint] *)
Abbreviation ProblemType := Z (only parsing).
Definition ProblemTypeConnection : ProblemType := 1.
Definition ProblemTypeMismatch : ProblemType := 2.
Definition ProblemTypeDesiredReplicaSetConstraint : ProblemType := 3.
Definition ProblemTypeObservedReplicaSetConstraint : ProblemType := 4.

Record Slave := mkSlave {
  Slave_ID : Z;
  Slave_Hostname : string;
  Slave_Port : PortNumber;
  Slave_MongodPortRangeBegin : PortNumber;
  Slave_MongodPortRangeEnd : PortNumber;
  Slave_PersistentStorage : bool;
  Slave_ConfiguredState : SlaveState;
  Slave_RiskGroupID : option Z;
  Slave_ObservationErrorID : option Z
}.

Record ReplicaSet := mkReplicaSet {
  ReplicaSet_ID : Z;
  ReplicaSet_Name : string;
  ReplicaSet_PersistentMemberCount : Z;
  ReplicaSet_VolatileMemberCount : Z;
  ReplicaSet_ShardingRole : ShardingRole;
  ReplicaSet_Initiated : bool
}.

Record RiskGroup := mkRiskGroup { RiskGroup_ID : Z; RiskGroup_Name : string }.

Record Mongod := mkMongod {
  Mongod_ID : Z;
  Mongod_Port : PortNumber;
  Mongod_ReplSetName : string;
  Mongod_ObservationErrorID : option Z;
  Mongod_LastEstablishStateErrorID : option Z;
  Mongod_ParentSlaveID : Z;
  Mongod_ReplicaSetID : option Z;
  Mongod_DesiredStateID : Z;
  Mongod_ObservedStateID : option Z
}.

Record MongodState := mkMongodState {
  MongodState_ID : Z;
  MongodState_ParentMongodID : Z;
  MongodState_ShardingRole : ShardingRole;
  MongodState_ExecutionState : MongodExecutionState
}.

Record MSPError := mkMSPError {
  MSPError_ID : Z;
  MSPError_Identifier : string;
  MSPError_Description : string;
  MSPError_LongDescription : string
}.

(** Times are opaque instants. *)
Record Problem := mkProblem {
  Problem_ID : Z;
  Problem_Description : string;
  Problem_LongDescription : string;
  Problem_ProblemType : ProblemType;
  Problem_FirstOccurred : Z;
  Problem_LastUpdated : Z;
  Problem_SlaveID : option Z;
  Problem_ReplicaSetID : option Z;
  Problem_MongodID : option Z
}.

Record MamidMetadata := mkMamidMetadata { Metadata_Key : string; Metadata_Value : string }.

Record MongodKeyfile := mkMongodKeyfile { Keyfile_ID : Z; Keyfile_Content : string }.

Record MongodbCredential := mkMongodbCredential {
  Credential_ID : Z;
  Credential_Username : string;
  Credential_Password : string
}.

#[export] Instance Slave_eq_dec : EqDecision Slave.
Proof. solve_decision. Defined.
#[export] Instance ReplicaSet_eq_dec : EqDecision ReplicaSet.
Proof. solve_decision. Defined.
#[export] Instance RiskGroup_eq_dec : EqDecision RiskGroup.
Proof. solve_decision. Defined.
#[export] Instance Mongod_eq_dec : EqDecision Mongod.
Proof. solve_decision. Defined.
#[export] Instance MongodState_eq_dec : EqDecision MongodState.
Proof. solve_decision. Defined.
#[export] Instance MSPError_eq_dec : EqDecision MSPError.
Proof. solve_decision. Defined.
#[export] Instance Problem_eq_dec : EqDecision Problem.
Proof. solve_decision. Defined.

Definition zero_Mongod : Mongod := mkMongod 0 0 "" None None 0 None 0 None.
Definition zero_Slave : Slave := mkSlave 0 "" 0 0 0 false 0 None None.

(** ** Bus messages, [model/messages.go] *)

Record ConnectionStatus := mkConnectionStatus {
  Connection_Unreachable : bool;
  Connection_Slave : Slave;
  Connection_CommunicationError : msp.Error
}.

Record MongodMatchStatus := mkMongodMatchStatus {
  Match_Mismatch : bool;
  Match_Mongod : Mongod
}.

Record DesiredReplicaSetConstraintStatus := mkDesiredReplicaSetConstraintStatus {
  Desired_Unsatisfied : bool;
  Desired_ReplicaSet : ReplicaSet;
  Desired_ConfiguredVolatileCount : Z;
  Desired_ConfiguredPersistentCount : Z
}.

Record ObservedReplicaSetConstraintStatus := mkObservedReplicaSetConstraintStatus {
  Observed_Unsatisfied : bool;
  Observed_ReplicaSet : ReplicaSet;
  Observed_ConfiguredVolatileCount : Z;
  Observed_ConfiguredPersistentCount : Z;
  Observed_ActualVolatileCount : Z;
  Observed_ActualPersistentCount : Z
}.

Record ReplicaSetInitiationStatus := mkReplicaSetInitiationStatus {
  Initiation_Initiated : bool;
  Initiation_ReplicaSet : ReplicaSet
}.

(** [type StatusMessage interface{}]: the dynamic types sent on the bus. *)
Inductive StatusMessage :=
  | MsgConnection (m : ConnectionStatus)
  | MsgMatch (m : MongodMatchStatus)
  | MsgDesiredConstraint (m : DesiredReplicaSetConstraintStatus)
  | MsgObservedConstraint (m : ObservedReplicaSetConstraintStatus)
  | MsgInitiation (m : ReplicaSetInitiationStatus).

(** ** Helpers *)

Definition NullIntValue (value : Z) : option Z := Some value.
Definition NullInt : option Z := None.
Definition NullIntToPtr (nullint : option Z) : option Z :=
  match nullint with Some value => Some value | None => None end.
Definition PtrToNullInt (value : option Z) : option Z :=
  match value with Some v => NullIntValue v | None => NullInt end.

(** [func IsIntegrityConstraintViolation(err error) bool]; [None] is [nil]. *)
Definition IsIntegrityConstraintViolation (err : option gerror) : bool :=
  match err with
  | Some (PqError class _) => bool_decide (class = "23")
  | _ => false
  end.

(** ** The version of the schema *)

Definition SCHEMA_VERSION : string := "0.0.1".
