(* ===== verification/Database.v ===== *)
(** * The database: tables, views and referential actions

    The schema of [model/sql/mamid_postgresql.sql] as a record of finite maps
    from primary keys to rows (the structs of [model/db.go]), the four views the
    Go code queries, SQL's three-valued [NOT IN], the [ON DELETE] actions, and
    the well-formedness invariant that links [mongods] and [mongod_states]. *)

From stdpp Require Import base gmap sets list strings fin_maps.
From Stdlib Require Import QArith Lia.
From S2P Require Import Prelude Msp Model.

Open Scope Z_scope.

Record db := mkDb {
  slaves : gmap Z Slave;
  mongods : gmap Z Mongod;
  mongod_states : gmap Z MongodState;
  replica_sets : gmap Z ReplicaSet;
  risk_groups : gmap Z RiskGroup;
  msp_errors : gmap Z MSPError;
  problems : gmap Z Problem;
  mongod_keyfiles : gmap Z MongodKeyfile;
  mongodb_root_credentials : gmap Z MongodbCredential
}.

Definition empty_db : db := mkDb ∅ ∅ ∅ ∅ ∅ ∅ ∅ ∅ ∅.

Definition set_slaves t d := mkDb t (mongods d) (mongod_states d) (replica_sets d)
  (risk_groups d) (msp_errors d) (problems d) (mongod_keyfiles d) (mongodb_root_credentials d).
Definition set_mongods t d := mkDb (slaves d) t (mongod_states d) (replica_sets d)
  (risk_groups d) (msp_errors d) (problems d) (mongod_keyfiles d) (mongodb_root_credentials d).
Definition set_mongod_states t d := mkDb (slaves d) (mongods d) t (replica_sets d)
  (risk_groups d) (msp_errors d) (problems d) (mongod_keyfiles d) (mongodb_root_credentials d).
Definition set_replica_sets t d := mkDb (slaves d) (mongods d) (mongod_states d) t
  (risk_groups d) (msp_errors d) (problems d) (mongod_keyfiles d) (mongodb_root_credentials d).
Definition set_risk_groups t d := mkDb (slaves d) (mongods d) (mongod_states d) (replica_sets d)
  t (msp_errors d) (problems d) (mongod_keyfiles d) (mongodb_root_credentials d).
Definition set_msp_errors t d := mkDb (slaves d) (mongods d) (mongod_states d) (replica_sets d)
  (risk_groups d) t (problems d) (mongod_keyfiles d) (mongodb_root_credentials d).
Definition set_problems t d := mkDb (slaves d) (mongods d) (mongod_states d) (replica_sets d)
  (risk_groups d) (msp_errors d) t (mongod_keyfiles d) (mongodb_root_credentials d).
Definition set_mongod_keyfiles t d := mkDb (slaves d) (mongods d) (mongod_states d) (replica_sets d)
  (risk_groups d) (msp_errors d) (problems d) t (mongodb_root_credentials d).
Definition set_mongodb_root_credentials t d := mkDb (slaves d) (mongods d) (mongod_states d)
  (replica_sets d) (risk_groups d) (msp_errors d) (problems d) (mongod_keyfiles d) t.

(** Column updates used by the statements of the master. *)
Definition Mongod_set_ReplicaSetID v m := mkMongod (Mongod_ID m) (Mongod_Port m) (Mongod_ReplSetName m)
  (Mongod_ObservationErrorID m) (Mongod_LastEstablishStateErrorID m) (Mongod_ParentSlaveID m)
  v (Mongod_DesiredStateID m) (Mongod_ObservedStateID m).
Definition Mongod_set_DesiredStateID v m := mkMongod (Mongod_ID m) (Mongod_Port m) (Mongod_ReplSetName m)
  (Mongod_ObservationErrorID m) (Mongod_LastEstablishStateErrorID m) (Mongod_ParentSlaveID m)
  (Mongod_ReplicaSetID m) v (Mongod_ObservedStateID m).
Definition Mongod_set_ObservedStateID v m := mkMongod (Mongod_ID m) (Mongod_Port m) (Mongod_ReplSetName m)
  (Mongod_ObservationErrorID m) (Mongod_LastEstablishStateErrorID m) (Mongod_ParentSlaveID m)
  (Mongod_ReplicaSetID m) (Mongod_DesiredStateID m) v.
Definition Mongod_set_ObservationErrorID v m := mkMongod (Mongod_ID m) (Mongod_Port m) (Mongod_ReplSetName m)
  v (Mongod_LastEstablishStateErrorID m) (Mongod_ParentSlaveID m)
  (Mongod_ReplicaSetID m) (Mongod_DesiredStateID m) (Mongod_ObservedStateID m).
Definition Mongod_set_ID v m := mkMongod v (Mongod_Port m) (Mongod_ReplSetName m)
  (Mongod_ObservationErrorID m) (Mongod_LastEstablishStateErrorID m) (Mongod_ParentSlaveID m)
  (Mongod_ReplicaSetID m) (Mongod_DesiredStateID m) (Mongod_ObservedStateID m).
Definition ReplicaSet_set_Initiated (b : bool) (r : ReplicaSet) : ReplicaSet :=
  mkReplicaSet (ReplicaSet_ID r) (ReplicaSet_Name r) (ReplicaSet_PersistentMemberCount r)
    (ReplicaSet_VolatileMemberCount r) (ReplicaSet_ShardingRole r) b.

Definition MongodState_set_ExecutionState v st := mkMongodState (MongodState_ID st)
  (MongodState_ParentMongodID st) (MongodState_ShardingRole st) v.

(** ** Queries over [mongods] *)

(** The ids of the mongods satisfying a row predicate, [COUNT] is its size. *)
Definition members_where (d : db) (P : Mongod → bool) : gset Z :=
  dom (filter (λ kv : Z * Mongod, P kv.2 = true) (mongods d)).

Lemma elem_of_members_where d P id :
  id ∈ members_where d P ↔ ∃ m, mongods d !! id = Some m ∧ P m = true.
Proof.
  unfold members_where. rewrite elem_of_dom. unfold is_Some.
  setoid_rewrite map_lookup_filter_Some. done.
Qed.

(** [mongods m JOIN replica_sets r JOIN slaves s JOIN mongod_states desired]:
    every join is on a primary key, so a mongod contributes at most one row. *)
Definition member_join (d : db) (m : Mongod) : option (Z * Slave * MongodState) :=
  rid ← Mongod_ReplicaSetID m;
  _ ← replica_sets d !! rid;
  s ← slaves d !! Mongod_ParentSlaveID m;
  desired ← mongod_states d !! Mongod_DesiredStateID m;
  Some (rid, s, desired).

Definition observed_state (d : db) (m : Mongod) : option MongodState :=
  o ← Mongod_ObservedStateID m; mongod_states d !! o.

(** Rows of [replica_set_effective_members] for a replica set and a persistence. *)
Definition effective_member (d : db) (rid : Z) (p : bool) (m : Mongod) : bool :=
  match member_join d m, observed_state d m with
  | Some (r, s, desired), Some observed =>
      bool_decide (r = rid) && bool_decide (Slave_PersistentStorage s = p) &&
      bool_decide (MongodState_ExecutionState observed = 6) &&
      bool_decide (MongodState_ExecutionState desired = 6)
  | _, _ => false
  end.

Definition replica_set_effective_members d rid p : gset Z := members_where d (effective_member d rid p).

(** [replica_set_effective_members_for_monitoring] also asks for a slave without
    observation error. *)
Definition effective_member_for_monitoring (d : db) (rid : Z) (p : bool) (m : Mongod) : bool :=
  match member_join d m, observed_state d m with
  | Some (r, s, desired), Some observed =>
      bool_decide (r = rid) && bool_decide (Slave_PersistentStorage s = p) &&
      bool_decide (MongodState_ExecutionState observed = 6) &&
      bool_decide (Slave_ObservationErrorID s = None) &&
      bool_decide (MongodState_ExecutionState desired = 6)
  | _, _ => false
  end.

Definition replica_set_effective_members_for_monitoring d rid p : gset Z :=
  members_where d (effective_member_for_monitoring d rid p).

(** Rows of [replica_set_configured_members]. *)
Definition configured_member (d : db) (rid : Z) (p : bool) (m : Mongod) : bool :=
  match member_join d m with
  | Some (r, s, desired) =>
      bool_decide (r = rid) && bool_decide (Slave_PersistentStorage s = p) &&
      bool_decide (Slave_ConfiguredState s ≠ 3) &&
      bool_decide (MongodState_ExecutionState desired ∉ [3; 2; 1])
  | None => false
  end.

Definition replica_set_configured_members d rid p : gset Z := members_where d (configured_member d rid p).

(** ** The [slave_utilization] view *)

Definition hosted_on (sid : Z) (m : Mongod) : bool := bool_decide (Mongod_ParentSlaveID m = sid).

Definition max_mongods (s : Slave) : Z := Slave_MongodPortRangeEnd s - Slave_MongodPortRangeBegin s.
Definition current_mongods (d : db) (s : Slave) : Z :=
  Z.of_nat (size (members_where d (hosted_on (Slave_ID s)))).
Definition free_mongods (d : db) (s : Slave) : Z := max_mongods s - current_mongods d s.

(** [CASE WHEN max_mongods = 0 THEN 1 ELSE current_mongods*1.0/max_mongods END] *)
Definition utilization (d : db) (s : Slave) : Q :=
  if decide (max_mongods s = 0) then 1%Q
  else Qdiv (inject_Z (current_mongods d s)) (inject_Z (max_mongods s)).

(** ** SQL's [x NOT IN (list)] with NULLs; [None] is the truth value unknown. *)
Definition sql_not_in (x : option Z) (l : list (option Z)) : option bool :=
  match l with
  | [] => Some true
  | _ => match x with
         | None => None
         | Some v =>
             if decide (Some v ∈ l) then Some false
             else if decide (None ∈ l) then None
             else Some true
         end
  end.

(** A [WHERE] condition keeps a row when it is true, not when it is unknown. *)
Definition sql_true (b : option bool) : bool := match b with Some true => true | _ => false end.

(** [UPDATE t SET ... WHERE id IN (...)] *)
Definition update_where {R} (P : Z → Prop) `{∀ k, Decision (P k)} (f : R → R) (t : gmap Z R) : gmap Z R :=
  map_imap (λ k r, Some (if decide (P k) then f r else r)) t.

Lemma lookup_update_where {R} (P : Z → Prop) `{∀ k, Decision (P k)} (f : R → R) (t : gmap Z R) k :
  update_where P f t !! k = (λ r, if decide (P k) then f r else r) <$> t !! k.
Proof. unfold update_where. rewrite map_lookup_imap. by destruct (t !! k). Qed.

(** ** Referential actions ([ON DELETE]) *)

(** A nullable foreign key that points into a set of rows. *)
Definition refers (fk : option Z) (M : gset Z) : Prop :=
  match fk with Some i => i ∈ M | None => False end.

#[export] Instance refers_dec fk M : Decision (refers fk M).
Proof. destruct fk; simpl; apply _. Defined.

Section deletion.
Context (d : db).

(** [mongod_states.parent_mongod_id ... ON DELETE CASCADE] *)
Definition states_of (M : gset Z) : gset Z :=
  dom (filter (λ kv : Z * MongodState, MongodState_ParentMongodID kv.2 ∈ M) (mongod_states d)).

(** [mongods.desired_state_id ... ON DELETE CASCADE] *)
Definition mongods_desiring (S : gset Z) : gset Z :=
  dom (filter (λ kv : Z * Mongod, Mongod_DesiredStateID kv.2 ∈ S) (mongods d)).

(** The cascade between the two tables; every round before the last adds a row. *)
Fixpoint cascade (fuel : nat) (M : gset Z) : gset Z :=
  match fuel with
  | O => M
  | S fuel => cascade fuel (M ∪ mongods_desiring (states_of M))
  end.

(** [mongods.observed_state_id ... ON DELETE SET NULL] *)
Definition null_observed (S : gset Z) (m : Mongod) : Mongod :=
  match Mongod_ObservedStateID m with
  | Some o => if decide (o ∈ S) then Mongod_set_ObservedStateID None m else m
  | None => m
  end.

(** [DELETE FROM mongods WHERE id IN (M0)] *)
Definition delete_mongods (M0 : gset Z) : db :=
  let M := cascade (size (mongods d)) M0 in
  let S := states_of M in
  mkDb (slaves d)
    (null_observed S <$> filter (λ kv : Z * Mongod, kv.1 ∉ M) (mongods d))
    (filter (λ kv : Z * MongodState, kv.1 ∉ S) (mongod_states d))
    (replica_sets d) (risk_groups d) (msp_errors d)
    (filter (λ kv : Z * Problem, ¬ refers (Problem_MongodID kv.2) M) (problems d))
    (mongod_keyfiles d) (mongodb_root_credentials d).

(** [DELETE FROM slaves WHERE id = sid]: [mongods.parent_slave_id] and
    [problems.slave_id] cascade. *)
Definition delete_slave (sid : Z) : db :=
  let d' := delete_mongods (members_where d (hosted_on sid)) in
  set_problems (filter (λ kv : Z * Problem, Problem_SlaveID kv.2 ≠ Some sid) (problems d'))
    (set_slaves (delete sid (slaves d')) d').

(** [DELETE FROM replica_sets WHERE id = rid]: [mongods.replica_set_id] is set
    to NULL, [problems.replica_set_id] cascades. *)
Definition delete_replica_set (rid : Z) : db :=
  set_problems (filter (λ kv : Z * Problem, Problem_ReplicaSetID kv.2 ≠ Some rid) (problems d))
    (set_mongods ((λ m, if decide (Mongod_ReplicaSetID m = Some rid)
                        then Mongod_set_ReplicaSetID None m else m) <$> mongods d)
       (set_replica_sets (delete rid (replica_sets d)) d)).
End deletion.

(** ** Well-formedness *)

(** Primary keys, foreign keys, the back reference of a [mongod_states] row to
    the mongod that owns it, and the value ranges of the Go types. *)
Record db_ok (d : db) : Prop := mkDbOk {
  ok_slave_key id s : slaves d !! id = Some s → Slave_ID s = id;
  ok_slave_ports id s : slaves d !! id = Some s →
    is_port (Slave_MongodPortRangeBegin s) ∧ is_port (Slave_MongodPortRangeEnd s);
  ok_mongod_key id m : mongods d !! id = Some m → Mongod_ID m = id;
  ok_rs_key id r : replica_sets d !! id = Some r → ReplicaSet_ID r = id ∧ 0 < id;
  ok_rs_counts id r : replica_sets d !! id = Some r →
    0 ≤ ReplicaSet_PersistentMemberCount r ∧ 0 ≤ ReplicaSet_VolatileMemberCount r;
  ok_parent id m : mongods d !! id = Some m → is_Some (slaves d !! Mongod_ParentSlaveID m);
  ok_rs id m r : mongods d !! id = Some m → Mongod_ReplicaSetID m = Some r →
    is_Some (replica_sets d !! r);
  ok_desired id m : mongods d !! id = Some m →
    ∃ st, mongod_states d !! Mongod_DesiredStateID m = Some st ∧ MongodState_ParentMongodID st = id;
  ok_observed id m o : mongods d !! id = Some m → Mongod_ObservedStateID m = Some o →
    o ≠ Mongod_DesiredStateID m ∧
    ∃ st, mongod_states d !! o = Some st ∧ MongodState_ParentMongodID st = id
}.

#[export] Hint Resolve ok_slave_key ok_mongod_key ok_rs_key ok_parent ok_rs ok_desired : mamid.

Section ok.
Context (d : db) (Hok : db_ok d).

(** Two mongods never share a state row. *)
Lemma desired_inj id1 id2 m1 m2 :
  mongods d !! id1 = Some m1 → mongods d !! id2 = Some m2 →
  Mongod_DesiredStateID m1 = Mongod_DesiredStateID m2 → id1 = id2.
Proof.
  intros H1 H2 Heq.
  destruct (ok_desired _ Hok _ _ H1) as (st1 & Hs1 & <-).
  destruct (ok_desired _ Hok _ _ H2) as (st2 & Hs2 & <-). congruence.
Qed.

Lemma observed_not_desired id1 id2 m1 m2 o :
  mongods d !! id1 = Some m1 → mongods d !! id2 = Some m2 →
  Mongod_ObservedStateID m1 = Some o → o ≠ Mongod_DesiredStateID m2.
Proof.
  intros H1 H2 Ho ->.
  destruct (ok_observed _ Hok _ _ _ H1 Ho) as (Hne & st1 & Hs1 & Hp1).
  destruct (ok_desired _ Hok _ _ H2) as (st2 & Hs2 & Hp2).
  assert (id1 = id2) as -> by congruence. congruence.
Qed.

Lemma cascade_ok fuel M : cascade d fuel M = M.
Proof.
  revert M. induction fuel as [|fuel IH]; intros M; simpl; [done|].
  rewrite IH.
  enough (mongods_desiring d (states_of d M) ⊆ M) by set_solver.
  intros id. unfold mongods_desiring. rewrite elem_of_dom. intros [m Hm].
  apply map_lookup_filter_Some in Hm as [Hm Hdes]; simpl in Hdes.
  unfold states_of in Hdes. rewrite elem_of_dom in Hdes. destruct Hdes as [st Hst].
  apply map_lookup_filter_Some in Hst as [Hst Hpar]; simpl in Hpar.
  destruct (ok_desired _ Hok _ _ Hm) as (st' & Hst' & <-). by simplify_eq.
Qed.

Lemma elem_of_states_of sid M :
  sid ∈ states_of d M ↔ ∃ st, mongod_states d !! sid = Some st ∧ MongodState_ParentMongodID st ∈ M.
Proof.
  unfold states_of. rewrite elem_of_dom. unfold is_Some.
  by setoid_rewrite map_lookup_filter_Some.
Qed.

(** In a well-formed database a [DELETE FROM mongods] removes exactly the
    selected rows and leaves every other mongod as it is. *)
Lemma delete_mongods_lookup M id m :
  mongods (delete_mongods d M) !! id = Some m ↔ mongods d !! id = Some m ∧ id ∉ M.
Proof.
  unfold delete_mongods; simpl. rewrite cascade_ok, lookup_fmap.
  assert (∀ m0, mongods d !! id = Some m0 → id ∉ M → null_observed (states_of d M) m0 = m0) as Hsame.
  { intros m0 Hm0 Hid. unfold null_observed. destruct (Mongod_ObservedStateID m0) as [o|] eqn:Ho; [|done].
    rewrite decide_False; [done|]. rewrite elem_of_states_of. intros (st & Hst & Hpar).
    destruct (ok_observed _ Hok _ _ _ Hm0 Ho) as (_ & st' & Hst' & Hpar'). by simplify_eq. }
  rewrite fmap_Some. setoid_rewrite map_lookup_filter_Some. simpl. split.
  - intros (m0 & [Hm0 Hid] & ->). by rewrite Hsame.
  - intros [Hm Hid]. exists m. by rewrite Hsame.
Qed.

Lemma delete_mongods_states M sid st :
  mongod_states (delete_mongods d M) !! sid = Some st ↔
  mongod_states d !! sid = Some st ∧ MongodState_ParentMongodID st ∉ M.
Proof.
  unfold delete_mongods; simpl. rewrite cascade_ok, map_lookup_filter_Some; simpl.
  rewrite elem_of_states_of. split.
  - intros [Hst Hno]. split; [done|]. contradict Hno. by exists st.
  - intros [Hst Hno]. split; [done|]. intros (st' & Hst' & Hin). by simplify_eq.
Qed.

Lemma delete_mongods_ok M : db_ok (delete_mongods d M).
Proof.
  assert (slaves (delete_mongods d M) = slaves d) as Es by done.
  assert (replica_sets (delete_mongods d M) = replica_sets d) as Er by done.
  split; rewrite ?Es, ?Er; try apply Hok.
  - intros id m [Hm _]%delete_mongods_lookup. by eapply ok_mongod_key.
  - intros id m [Hm _]%delete_mongods_lookup. by eapply ok_parent.
  - intros id m r [Hm _]%delete_mongods_lookup. by eapply ok_rs.
  - intros id m [Hm Hid]%delete_mongods_lookup.
    destruct (ok_desired _ Hok _ _ Hm) as (st & Hst & Hpar). exists st.
    rewrite delete_mongods_states, Hpar. done.
  - intros id m o [Hm Hid]%delete_mongods_lookup Ho.
    destruct (ok_observed _ Hok _ _ _ Hm Ho) as (Hne & st & Hst & Hpar). split; [done|].
    exists st. by rewrite delete_mongods_states, Hpar.
Qed.
End ok.

(** ** Checking well-formedness *)

#[export] Instance is_port_dec p : Decision (is_port p).
Proof. unfold is_port. apply _. Defined.

Definition db_okb (d : db) : bool :=
  bool_decide (map_Forall (λ id s, Slave_ID s = id ∧
    is_port (Slave_MongodPortRangeBegin s) ∧ is_port (Slave_MongodPortRangeEnd s)) (slaves d)) &&
  bool_decide (map_Forall (λ id r, (ReplicaSet_ID r = id ∧ 0 < id) ∧
    0 ≤ ReplicaSet_PersistentMemberCount r ∧ 0 ≤ ReplicaSet_VolatileMemberCount r) (replica_sets d)) &&
  bool_decide (map_Forall (λ id m, Mongod_ID m = id ∧ is_Some (slaves d !! Mongod_ParentSlaveID m) ∧
    MongodState_ParentMongodID <$> mongod_states d !! Mongod_DesiredStateID m = Some id) (mongods d)) &&
  bool_decide (map_Forall (λ _ m, match Mongod_ReplicaSetID m with
    | Some r => bool_decide (is_Some (replica_sets d !! r)) | None => true end = true) (mongods d)) &&
  bool_decide (map_Forall (λ id m, match Mongod_ObservedStateID m with
    | Some o => bool_decide (o ≠ Mongod_DesiredStateID m ∧
                             MongodState_ParentMongodID <$> mongod_states d !! o = Some id)
    | None => true end = true) (mongods d)).

Lemma db_okb_sound d : db_okb d = true → db_ok d.
Proof.
  unfold db_okb. rewrite !andb_true_iff, !bool_decide_eq_true.
  intros [[[[Hs Hr] Hm] Hrs] Ho].
  split.
  - intros id s H. by apply (Hs id s).
  - intros id s H. by apply (Hs id s).
  - intros id m H. by apply (Hm id m).
  - intros id r H. by apply (Hr id r).
  - intros id r H. by apply (Hr id r).
  - intros id m H. by apply (Hm id m).
  - intros id m r H E. specialize (Hrs id m H). simpl in Hrs. rewrite E in Hrs.
    by apply bool_decide_eq_true in Hrs.
  - intros id m H. destruct (Hm id m H) as (_ & _ & (st & E1 & E2)%fmap_Some). eauto.
  - intros id m o H E. specialize (Ho id m H). simpl in Ho. rewrite E in Ho.
    apply bool_decide_eq_true in Ho as [Hne (st & E1 & E2)%fmap_Some]. eauto.
Qed.

(** Every state is stored under its primary key. *)
Definition states_keyed (d : db) : Prop := ∀ sid st, mongod_states d !! sid = Some st → MongodState_ID st = sid ∧ 0 < sid.

(** No two mongods claim the same port of the same slave. *)
Definition slots_distinct (d : db) : Prop := ∀ id1 id2 m1 m2,
  mongods d !! id1 = Some m1 → mongods d !! id2 = Some m2 →
  Mongod_ParentSlaveID m1 = Mongod_ParentSlaveID m2 → Mongod_Port m1 = Mongod_Port m2 → id1 = id2.

Definition slots_distinctb (d : db) : bool :=
  bool_decide (map_Forall (λ id1 m1, map_Forall (λ id2 m2,
    Mongod_ParentSlaveID m1 = Mongod_ParentSlaveID m2 → Mongod_Port m1 = Mongod_Port m2 → id1 = id2)
    (mongods d)) (mongods d)).

Lemma slots_distinctb_sound d : slots_distinctb d = true → slots_distinct d.
Proof.
  unfold slots_distinctb. rewrite bool_decide_eq_true. intros H id1 id2 m1 m2 H1 H2.
  by apply (H id1 m1 H1 id2 m2 H2).
Qed.
