(* ===== verification/Orm.v ===== *)
(** * The database connection: SQL statements and gorm

    A transaction of the master is a [conn]: the database it sees, the number of
    statements it has sent, and the messages sent on the bus meanwhile.  Two
    parameters stand for code that is not part of the repository:

    - [Engine], the PostgreSQL server: which statement fails (at any point a
      statement may return an error instead of being executed) and in which order
      rows come back where the query leaves it open.  What a statement computes
      is its SQL text, translated where it is used.
    - [Gorm], the object-relational mapper: the calls the master makes on it,
      with their documented effect as laws.

    [ref_engine] and [ref_gorm] are concrete instances of the two. *)

From stdpp Require Import base gmap sets list strings sorting fin_maps.
From Stdlib Require Import Lia.
From S2P Require Import Prelude Msp Model Database.

Set Warnings "-clear-no-such-hyp".

(** ** Connection state *)

Record conn := mkConn {
  cdb : db;
  cstmts : nat;
  cbus : list StatusMessage
}.

(** The connection after one more statement left the database as [d]. *)
Definition with_db (d : db) (c : conn) : conn := mkConn d (S (cstmts c)) (cbus c).
Definition tick (c : conn) : conn := with_db (cdb c) c.

(** ** Parameters *)

Class Engine := {
  eng_fault : nat → option gerror;
  eng_order : ∀ {A : Type}, nat → list A → list A;
  eng_order_perm {A : Type} n (l : list A) : eng_order n l ≡ₚ l
}.

(** What gorm and the schema know about a struct: its table, its primary key and
    the value of its [UNIQUE] column, if it has one. *)
Class Table (R : Type) := {
  table : db → gmap Z R;
  set_table : gmap Z R → db → db;
  row_id : R → Z;
  set_row_id : Z → R → R;
  row_unique : R → option string
}.

#[export] Instance Slave_table : Table Slave := {|
  table := slaves; set_table := set_slaves; row_id := Slave_ID;
  set_row_id id s := mkSlave id (Slave_Hostname s) (Slave_Port s) (Slave_MongodPortRangeBegin s)
    (Slave_MongodPortRangeEnd s) (Slave_PersistentStorage s) (Slave_ConfiguredState s)
    (Slave_RiskGroupID s) (Slave_ObservationErrorID s);
  row_unique s := Some (Slave_Hostname s) |}.
#[export] Instance Mongod_table : Table Mongod := {|
  table := mongods; set_table := set_mongods; row_id := Mongod_ID; set_row_id := Mongod_set_ID;
  row_unique _ := None |}.
#[export] Instance MongodState_table : Table MongodState := {|
  table := mongod_states; set_table := set_mongod_states; row_id := MongodState_ID;
  set_row_id id st := mkMongodState id (MongodState_ParentMongodID st)
    (MongodState_ShardingRole st) (MongodState_ExecutionState st);
  row_unique _ := None |}.
#[export] Instance ReplicaSet_table : Table ReplicaSet := {|
  table := replica_sets; set_table := set_replica_sets; row_id := ReplicaSet_ID;
  set_row_id id r := mkReplicaSet id (ReplicaSet_Name r) (ReplicaSet_PersistentMemberCount r)
    (ReplicaSet_VolatileMemberCount r) (ReplicaSet_ShardingRole r) (ReplicaSet_Initiated r);
  row_unique r := Some (ReplicaSet_Name r) |}.
#[export] Instance MongodKeyfile_table : Table MongodKeyfile := {|
  table := mongod_keyfiles; set_table := set_mongod_keyfiles; row_id := Keyfile_ID;
  set_row_id id k := mkMongodKeyfile id (Keyfile_Content k);
  row_unique _ := None |}.
#[export] Instance MongodbCredential_table : Table MongodbCredential := {|
  table := mongodb_root_credentials; set_table := set_mongodb_root_credentials;
  row_id := Credential_ID;
  set_row_id id k := mkMongodbCredential id (Credential_Username k) (Credential_Password k);
  row_unique _ := None |}.

(** The row [r], written under the key [id], would break the [UNIQUE] constraint
    of its table. *)
Definition conflicts {R} `{Table R} (d : db) (id : Z) (r : R) : Prop :=
  match row_unique r with
  | Some v => map_Exists (λ id' (r' : R), id' ≠ id ∧ row_unique r' = Some v) (table d)
  | None => False
  end.

#[export] Instance conflicts_dec {R} `{Table R} d id (r : R) : Decision (conflicts d id r).
Proof. unfold conflicts. destruct (row_unique r); apply _. Defined.

(** [nat] is the position of the call among the statements of the connection,
    so that an instance may fail at some calls and not at others. *)
Class Gorm := {
  (** [tx.Create(&r)] *)
  gorm_create {R} `{Table R} : nat → db → R → db * gres R;
  (** [tx.First(&r, id)] *)
  gorm_first_id {R} `{Table R} : nat → db → Z → gres R;
  (** [tx.First(&r)] *)
  gorm_first {R} `{Table R} : nat → db → gres R;
  (** [tx.Model(&r).Update(column, value)], the column assignment as a function *)
  gorm_update {R} `{Table R} : nat → db → R → (R → R) → db * option gerror;

  gorm_create_law {R} `{Table R} n d (r : R) : row_id r = 0 →
    match gorm_create n d r with
    | (d', Ok r') => ∃ id, 0 < id ∧ table d !! id = None ∧ ¬ conflicts d id r ∧ r' = set_row_id id r ∧
                           d' = set_table (<[id := r']> (table d)) d
    | (d', Err _) => d' = d
    end;
  gorm_first_id_law {R} `{Table R} n d id :
    match gorm_first_id (R := R) n d id with
    | Ok r => table d !! id = Some r
    | Err ErrRecordNotFound => table (R := R) d !! id = None
    | Err _ => True
    end;
  gorm_first_law {R} `{Table R} n d :
    match gorm_first (R := R) n d with
    | Ok r => ∃ id, table d !! id = Some r ∧ ∀ id', is_Some (table (R := R) d !! id') → id ≤ id'
    | Err ErrRecordNotFound => table (R := R) d = ∅
    | Err _ => True
    end;
  gorm_update_law {R} `{Table R} n d (r : R) f :
    match gorm_update n d r f with
    | (d', None) => d' = set_table (alter f (row_id r) (table d)) d
    | (d', Some _) => d' = d
    end
}.

(** A server that executes every statement, and a mapper that reports no error
    but [ErrRecordNotFound]; rows with a [UNIQUE] column may still be refused. *)
Record reliable (ENG : Engine) (ORM : Gorm) : Prop := {
  reliable_eng n : eng_fault n = None;
  reliable_create {R} `{Table R} n d (r : R) e : row_unique r = None → (gorm_create n d r).2 ≠ Err e;
  reliable_first_id {R} `{Table R} n d id e :
    gorm_first_id (R := R) n d id = Err e → e = ErrRecordNotFound;
  reliable_first {R} `{Table R} n d e :
    gorm_first (R := R) n d = Err e → e = ErrRecordNotFound;
  reliable_update {R} `{Table R} n d (r : R) f : (gorm_update n d r f).2 = None
}.

(** ** Statements *)

Section statements.
Context `{ENG : Engine} `{ORM : Gorm}.

(** [tx.Exec] of a data-changing statement *)
Definition sql_exec (f : db → db) : GoM conn (gres unit) := λ c,
  match eng_fault (cstmts c) with
  | Some e => (tick c, Returned (Err e))
  | None => (with_db (f (cdb c)) c, Returned (Ok tt))
  end.

(** [tx.Raw] of a query; its first argument is the statement's position, for
    the row order. *)
Definition sql_query {A} (q : nat → db → A) : GoM conn (gres A) := λ c,
  match eng_fault (cstmts c) with
  | Some e => (tick c, Returned (Err e))
  | None => (tick c, Returned (Ok (q (cstmts c) (cdb c))))
  end.

Definition orm_create {R} `{Table R} (r : R) : GoM conn (gres R) := λ c,
  let '(d', res) := gorm_create (cstmts c) (cdb c) r in (with_db d' c, Returned res).
Definition orm_first_id {R} `{Table R} (id : Z) : GoM conn (gres R) := λ c,
  (tick c, Returned (gorm_first_id (cstmts c) (cdb c) id)).
Definition orm_first {R} `{Table R} : GoM conn (gres R) := λ c,
  (tick c, Returned (gorm_first (cstmts c) (cdb c))).
Definition orm_update {R} `{Table R} (r : R) (f : R → R) : GoM conn (option gerror) := λ c,
  let '(d', err) := gorm_update (cstmts c) (cdb c) r f in (with_db d' c, Returned err).

(** [channel <- message] *)
Definition send (m : StatusMessage) : GoM conn unit := λ c,
  (mkConn (cdb c) (cstmts c) (cbus c ++ [m]), Returned tt).

Implicit Types (c : conn) (E : goval → conn → Prop).

Lemma wp_sql_exec f Q E c :
  Q (Ok tt) (with_db (f (cdb c)) c) →
  (∀ e, ¬ reliable ENG ORM → Q (Err e) (tick c)) →
  wp (sql_exec f) Q E c.
Proof.
  intros HOk HErr. unfold wp, sql_exec. destruct (eng_fault (cstmts c)) eqn:Hf; [|done].
  apply HErr. intros Hrel. by rewrite (reliable_eng _ _ Hrel) in Hf.
Qed.

Lemma wp_sql_query {A} (q : nat → db → A) Q E c :
  Q (Ok (q (cstmts c) (cdb c))) (tick c) →
  (∀ e, ¬ reliable ENG ORM → Q (Err e) (tick c)) →
  wp (sql_query q) Q E c.
Proof.
  intros HOk HErr. unfold wp, sql_query. destruct (eng_fault (cstmts c)) eqn:Hf; [|done].
  apply HErr. intros Hrel. by rewrite (reliable_eng _ _ Hrel) in Hf.
Qed.

Lemma wp_orm_create_unique {R} `{Table R} (r : R) Q E c :
  row_id r = 0 →
  (∀ id, 0 < id → table (cdb c) !! id = None → ¬ conflicts (cdb c) id r →
     Q (Ok (set_row_id id r)) (with_db (set_table (<[id := set_row_id id r]> (table (cdb c))) (cdb c)) c)) →
  (∀ e, (row_unique r = None → ¬ reliable ENG ORM) → Q (Err e) (tick c)) →
  wp (orm_create r) Q E c.
Proof.
  intros Hid HOk HErr. unfold wp, orm_create.
  pose proof (gorm_create_law (cstmts c) (cdb c) r Hid) as Hlaw.
  pose proof (λ Hrel, reliable_create ENG ORM Hrel (cstmts c) (cdb c) r) as Hrel.
  destruct (gorm_create (cstmts c) (cdb c) r) as [d' [r'|e]]; simpl in Hrel.
  - destruct Hlaw as (id & Hpos & Hnone & Hfree & -> & ->). by apply HOk.
  - subst d'. apply HErr. intros Hno H'. by apply (Hrel H' e Hno).
Qed.

Lemma wp_orm_create {R} `{Table R} (r : R) Q E c :
  row_id r = 0 → row_unique r = None →
  (∀ id, 0 < id → table (cdb c) !! id = None →
     Q (Ok (set_row_id id r)) (with_db (set_table (<[id := set_row_id id r]> (table (cdb c))) (cdb c)) c)) →
  (∀ e, ¬ reliable ENG ORM → Q (Err e) (tick c)) →
  wp (orm_create r) Q E c.
Proof.
  intros Hid Hno HOk HErr. apply wp_orm_create_unique; [done| |].
  - intros id Hpos Hnone _. by apply HOk.
  - intros e He. by apply HErr, He.
Qed.

Lemma wp_orm_first_id {R} `{Table R} (id : Z) Q E c :
  (∀ r, table (cdb c) !! id = Some r → Q (Ok r) (tick c)) →
  (table (R := R) (cdb c) !! id = None → Q (Err ErrRecordNotFound) (tick c)) →
  (∀ e, e ≠ ErrRecordNotFound → ¬ reliable ENG ORM → Q (Err e) (tick c)) →
  wp (orm_first_id (R := R) id) Q E c.
Proof.
  intros HOk HNone HErr. unfold wp, orm_first_id.
  pose proof (gorm_first_id_law (R := R) (cstmts c) (cdb c) id) as Hlaw.
  pose proof (λ Hrel, reliable_first_id ENG ORM Hrel (R := R) (cstmts c) (cdb c) id) as Hrel.
  destruct (gorm_first_id (cstmts c) (cdb c) id) as [r|e]; [by apply HOk|].
  destruct (decide (e = ErrRecordNotFound)) as [->|Hne]; [by apply HNone|].
  apply HErr; [done|]. intros H'. by specialize (Hrel H' e eq_refl).
Qed.

Lemma wp_orm_first {R} `{Table R} Q E c :
  (∀ r id, table (cdb c) !! id = Some r →
     (∀ id', is_Some (table (R := R) (cdb c) !! id') → id ≤ id') → Q (Ok r) (tick c)) →
  (table (R := R) (cdb c) = ∅ → Q (Err ErrRecordNotFound) (tick c)) →
  (∀ e, e ≠ ErrRecordNotFound → ¬ reliable ENG ORM → Q (Err e) (tick c)) →
  wp (orm_first (R := R)) Q E c.
Proof.
  intros HOk HNone HErr. unfold wp, orm_first.
  pose proof (gorm_first_law (R := R) (cstmts c) (cdb c)) as Hlaw.
  pose proof (λ Hrel, reliable_first ENG ORM Hrel (R := R) (cstmts c) (cdb c)) as Hrel.
  destruct (gorm_first (cstmts c) (cdb c)) as [r|e].
  - destruct Hlaw as (id & Hid & Hmin). by apply (HOk r id).
  - destruct (decide (e = ErrRecordNotFound)) as [->|Hne]; [by apply HNone|].
    apply HErr; [done|]. intros H'. by specialize (Hrel H' e eq_refl).
Qed.

Lemma wp_orm_update {R} `{Table R} (r : R) f Q E c :
  Q None (with_db (set_table (alter f (row_id r) (table (cdb c))) (cdb c)) c) →
  (∀ e, ¬ reliable ENG ORM → Q (Some e) (tick c)) →
  wp (orm_update r f) Q E c.
Proof.
  intros HOk HErr. unfold wp, orm_update.
  pose proof (gorm_update_law (cstmts c) (cdb c) r f) as Hlaw.
  pose proof (λ Hrel, reliable_update ENG ORM Hrel (cstmts c) (cdb c) r f) as Hrel.
  destruct (gorm_update (cstmts c) (cdb c) r f) as [d' [e|]]; simpl in Hrel; subst d'; [|done].
  apply HErr. intros H'. by specialize (Hrel H').
Qed.

Lemma wp_send m Q E c : Q tt (mkConn (cdb c) (cstmts c) (cbus c ++ [m])) → wp (send m) Q E c.
Proof. done. Qed.
End statements.

(** ** Read-only computations *)

(** A computation that always returns and leaves the database and the bus alone. *)
Definition read_only {A} (m : GoM conn A) : Prop := ∀ c,
  wp m (λ _ c', cdb c' = cdb c ∧ cbus c' = cbus c) (λ _ _, False) c.

Section read_only.
Context `{ENG : Engine} `{ORM : Gorm}.

Lemma read_only_ret {A} (a : A) : read_only (mret a).
Proof. intros c. by apply wp_ret. Qed.

Lemma read_only_bind {A B} (m : GoM conn A) (f : A → GoM conn B) :
  read_only m → (∀ a, read_only (f a)) → read_only (m ≫= f).
Proof.
  intros Hm Hf c. apply wp_bind. eapply wp_mono; [apply Hm| |done].
  intros a c1 [E1 B1]. eapply wp_mono; [apply Hf| |done]. intros b c2 [E2 B2]. split; congruence.
Qed.

Lemma read_only_query {A} (q : nat → db → A) : read_only (sql_query q).
Proof. intros c. by apply wp_sql_query. Qed.

Lemma read_only_first_id {R} `{Table R} id : read_only (orm_first_id (R := R) id).
Proof. intros c. by apply wp_orm_first_id. Qed.

Lemma read_only_first {R} `{Table R} : read_only (orm_first (R := R)).
Proof. intros c. by apply wp_orm_first. Qed.
End read_only.

#[export] Hint Resolve read_only_ret read_only_bind read_only_query read_only_first_id read_only_first : mamid.

(** Proves that a block of reads and branches is read-only. *)
Ltac read_only_tac :=
  repeat match goal with
  | |- read_only (mret _) => apply read_only_ret
  | |- read_only (mbind _ _) => apply read_only_bind; [|intros ?]
  | |- read_only (sql_query _) => apply read_only_query
  | |- read_only (orm_first_id _) => apply read_only_first_id
  | |- read_only orm_first => apply read_only_first
  | |- read_only _ => progress auto with mamid
  | |- read_only _ => case_match
  end.

(** The rows of a table satisfying a condition, in the order the server returns them. *)
Definition select `{ENG : Engine} {R} (n : nat) (P : R → bool) (t : gmap Z R) : list R :=
  eng_order n (snd <$> map_to_list (filter (λ kv : Z * R, P kv.2 = true) t)).

Lemma elem_of_select `{ENG : Engine} {R} n P (t : gmap Z R) r :
  r ∈ select n P t ↔ ∃ id, t !! id = Some r ∧ P r = true.
Proof.
  unfold select. rewrite eng_order_perm, list_elem_of_fmap. split.
  - intros ([id r'] & -> & Hin). apply elem_of_map_to_list, map_lookup_filter_Some in Hin. by exists id.
  - intros (id & Hid & HP). exists (id, r). split; [done|].
    by apply elem_of_map_to_list, map_lookup_filter_Some.
Qed.

Lemma select_all `{ENG : Engine} {R} n (t : gmap Z R) : select n (λ _, true) t ≡ₚ (map_to_list t).*2.
Proof. unfold select. rewrite eng_order_perm, map_filter_id; done. Qed.

Lemma NoDup_select `{ENG : Engine} {R B} n P (t : gmap Z R) (key : R → B) :
  (∀ i j r1 r2, t !! i = Some r1 → t !! j = Some r2 → key r1 = key r2 → i = j) →
  NoDup (key <$> select n P t).
Proof.
  intros Hinj. unfold select. rewrite eng_order_perm, <- list_fmap_compose.
  apply NoDup_fmap_2_strong; [|apply NoDup_map_to_list].
  intros [i r1] [j r2] H1%elem_of_map_to_list H2%elem_of_map_to_list Heq.
  apply map_lookup_filter_Some in H1 as [H1 _], H2 as [H2 _]. simpl in Heq.
  assert (i = j) as -> by by eapply Hinj. by simplify_eq.
Qed.

(** ** A concrete server and mapper *)

Definition ref_engine : Engine := {|
  eng_fault _ := None;
  eng_order _ _ l := l;
  eng_order_perm _ _ _ := reflexivity _
|}.

(** [BIGSERIAL]: one more than the largest key in use. *)
Definition next_id {R} (t : gmap Z R) : Z := 1 + foldr Z.max 0 (elements (dom t)).

Lemma foldr_max_ge (l : list Z) x : x ∈ l → x ≤ foldr Z.max 0 l.
Proof. induction 1; simpl; lia. Qed.

Lemma foldr_max_nonneg (l : list Z) : 0 ≤ foldr Z.max 0 l.
Proof. induction l; simpl; lia. Qed.

Lemma next_id_fresh {R} (t : gmap Z R) : t !! next_id t = None.
Proof.
  destruct (t !! next_id t) eqn:H; [|done].
  assert (next_id t ∈ elements (dom t)) as Hin%foldr_max_ge by (apply elem_of_elements, elem_of_dom; eauto).
  unfold next_id in Hin at 1. lia.
Qed.

Lemma next_id_pos {R} (t : gmap Z R) : 0 < next_id t.
Proof. unfold next_id. pose proof (foldr_max_nonneg (elements (dom t))). lia. Qed.

(** The key [First] returns without a condition: the smallest one. *)
Definition first_key {R} (t : gmap Z R) : option Z := head (merge_sort Z.le (elements (dom t))).

Lemma first_key_spec {R} (t : gmap Z R) :
  match first_key t with
  | Some id => is_Some (t !! id) ∧ ∀ id', is_Some (t !! id') → id ≤ id'
  | None => t = ∅
  end.
Proof.
  unfold first_key.
  pose proof (merge_sort_Permutation Z.le (elements (dom t))) as Hperm.
  pose proof (StronglySorted_merge_sort Z.le (elements (dom t))) as Hsort.
  assert (∀ i, i ∈ merge_sort Z.le (elements (dom t)) ↔ is_Some (t !! i)) as Hin.
  { intros i. by rewrite Hperm, elem_of_elements, elem_of_dom. }
  destruct (merge_sort Z.le (elements (dom t))) as [|id l]; simpl.
  - apply map_eq. intros i. rewrite lookup_empty, eq_None_not_Some, <- Hin. apply not_elem_of_nil.
  - split; [apply Hin; left|]. intros id' Hid'%Hin.
    apply elem_of_cons in Hid' as [->|Hid']; [lia|].
    inversion Hsort as [|? ? _ Hall]; subst. by eapply Forall_forall in Hall.
Qed.

Definition ref_gorm : Gorm.
Proof.
  refine {|
    gorm_create R H n d r :=
      let r' := set_row_id (next_id (table d)) r in
      if decide (conflicts d (next_id (table d)) r) then (d, Err (PqError "23" "duplicate key value"))
      else (set_table (<[next_id (table d) := r']> (table d)) d, Ok r');
    gorm_first_id R H n d id :=
      match table d !! id with Some r => Ok r | None => Err ErrRecordNotFound end;
    gorm_first R H n d :=
      match first_key (table d) ≫= (table d !!.) with Some r => Ok r | None => Err ErrRecordNotFound end;
    gorm_update R H n d r f := (set_table (alter f (row_id r) (table d)) d, None)
  |}.
  - intros R H n d r _. destruct (decide _) as [|Hfree]; [done|]. exists (next_id (table d)).
    split_and!; [apply next_id_pos|apply next_id_fresh|done..].
  - intros R H n d id. by destruct (table d !! id).
  - intros R H n d. pose proof (first_key_spec (table (R := R) d)) as Hs.
    destruct (first_key (table d)) as [id|]; simpl; [|done].
    destruct Hs as [[r Hr] Hmin]. rewrite Hr. eauto.
  - done.
Defined.

Lemma ref_reliable : reliable ref_engine ref_gorm.
Proof.
  split; simpl; try done.
  - intros R H n d r e Hno. destruct (decide _) as [Hconf|]; [|done]. unfold conflicts in Hconf. by rewrite Hno in Hconf.
  - intros R H n d id e. destruct (table d !! id); by intros [= <-].
  - intros R H n d e. destruct (_ ≫= _); by intros [= <-].
Qed.
