(* ===== verification/Store.v ===== *)
(** * The database connection: all tables and their constraints

    What the API and the monitor need of the schema and of gorm beyond [Orm]: the
    remaining tables, the foreign keys that [COMMIT] checks, deletion with the
    referential actions, and the parameter [GormStore] for [Save] and [Delete]. *)

From stdpp Require Import base gmap sets list strings fin_maps.
From Stdlib Require Import QArith Lia.
From S2P Require Import Prelude Msp Model Database Orm.

Open Scope Z_scope.
Set Warnings "-clear-no-such-hyp".

(** ** Tables *)

Definition Problem_set_ID (id : Z) (p : Problem) : Problem :=
  mkProblem id (Problem_Description p) (Problem_LongDescription p) (Problem_ProblemType p)
    (Problem_FirstOccurred p) (Problem_LastUpdated p) (Problem_SlaveID p) (Problem_ReplicaSetID p) (Problem_MongodID p).
#[export] Instance Problem_table : Table Problem := {|
  table := problems; set_table := set_problems; row_id := Problem_ID; set_row_id := Problem_set_ID;
  row_unique _ := None |}.
#[export] Instance MSPError_table : Table MSPError := {|
  table := msp_errors; set_table := set_msp_errors; row_id := MSPError_ID;
  set_row_id id e := mkMSPError id (MSPError_Identifier e) (MSPError_Description e) (MSPError_LongDescription e);
  row_unique _ := None |}.
#[export] Instance RiskGroup_table : Table RiskGroup := {|
  table := risk_groups; set_table := set_risk_groups; row_id := RiskGroup_ID;
  set_row_id id r := mkRiskGroup id (RiskGroup_Name r);
  row_unique r := Some (RiskGroup_Name r) |}.

(** ** Constraints checked by [COMMIT]

    Every foreign key of the schema is [DEFERRABLE INITIALLY DEFERRED]. *)

Definition references {R} (fk : option Z) (t : gmap Z R) : Prop :=
  match fk with Some i => is_Some (t !! i) | None => True end.
#[export] Instance references_dec {R} fk (t : gmap Z R) : Decision (references fk t).
Proof. destruct fk; simpl; apply _. Defined.

Definition slave_keys (d : db) (s : Slave) : Prop :=
  references (Slave_RiskGroupID s) (risk_groups d) ∧ references (Slave_ObservationErrorID s) (msp_errors d).
Definition mongod_keys (d : db) (m : Mongod) : Prop :=
  references (Mongod_ObservationErrorID m) (msp_errors d) ∧ references (Mongod_LastEstablishStateErrorID m) (msp_errors d) ∧
  references (Some (Mongod_ParentSlaveID m)) (slaves d) ∧ references (Mongod_ReplicaSetID m) (replica_sets d) ∧
  references (Some (Mongod_DesiredStateID m)) (mongod_states d) ∧ references (Mongod_ObservedStateID m) (mongod_states d).
Definition state_keys (d : db) (st : MongodState) : Prop := references (Some (MongodState_ParentMongodID st)) (mongods d).
Definition problem_keys (d : db) (p : Problem) : Prop :=
  references (Problem_SlaveID p) (slaves d) ∧ references (Problem_ReplicaSetID p) (replica_sets d) ∧
  references (Problem_MongodID p) (mongods d).

#[export] Instance slave_keys_dec d s : Decision (slave_keys d s).
Proof. unfold slave_keys. apply _. Defined.
#[export] Instance mongod_keys_dec d m : Decision (mongod_keys d m).
Proof. unfold mongod_keys. apply _. Defined.
#[export] Instance state_keys_dec d st : Decision (state_keys d st).
Proof. unfold state_keys. apply _. Defined.
#[export] Instance problem_keys_dec d p : Decision (problem_keys d p).
Proof. unfold problem_keys. apply _. Defined.

Definition foreign_keys (d : db) : Prop :=
  map_Forall (λ _ s, slave_keys d s) (slaves d) ∧ map_Forall (λ _ m, mongod_keys d m) (mongods d) ∧
  map_Forall (λ _ st, state_keys d st) (mongod_states d) ∧ map_Forall (λ _ p, problem_keys d p) (problems d).
#[export] Instance foreign_keys_dec d : Decision (foreign_keys d).
Proof. unfold foreign_keys. apply _. Defined.

(** ** More of gorm *)

(** [DELETE FROM t WHERE id = ?] with the referential actions of the schema. *)
Class Deletable (R : Type) `{Table R} := { delete_row : Z → db → db }.
#[export] Instance Slave_deletable : Deletable Slave := {| delete_row id d := delete_slave d id |}.
#[export] Instance ReplicaSet_deletable : Deletable ReplicaSet := {| delete_row id d := delete_replica_set d id |}.
(** [ON DELETE SET NULL] of the three columns that refer to [msp_errors]. *)
Definition set_null (id : Z) (fk : option Z) : option Z := if decide (fk = Some id) then None else fk.
Definition Slave_set_ObservationErrorID (v : option Z) (s : Slave) : Slave :=
  mkSlave (Slave_ID s) (Slave_Hostname s) (Slave_Port s) (Slave_MongodPortRangeBegin s) (Slave_MongodPortRangeEnd s)
    (Slave_PersistentStorage s) (Slave_ConfiguredState s) (Slave_RiskGroupID s) v.
Definition Mongod_set_LastEstablishStateErrorID (v : option Z) (m : Mongod) : Mongod :=
  mkMongod (Mongod_ID m) (Mongod_Port m) (Mongod_ReplSetName m) (Mongod_ObservationErrorID m) v
    (Mongod_ParentSlaveID m) (Mongod_ReplicaSetID m) (Mongod_DesiredStateID m) (Mongod_ObservedStateID m).
Definition slave_forgets (id : Z) (s : Slave) : Slave :=
  Slave_set_ObservationErrorID (set_null id (Slave_ObservationErrorID s)) s.
Definition mongod_forgets (id : Z) (m : Mongod) : Mongod :=
  Mongod_set_ObservationErrorID (set_null id (Mongod_ObservationErrorID m))
    (Mongod_set_LastEstablishStateErrorID (set_null id (Mongod_LastEstablishStateErrorID m)) m).
Definition delete_msp_error (d : db) (id : Z) : db :=
  set_msp_errors (delete id (msp_errors d))
    (set_slaves (slave_forgets id <$> slaves d) (set_mongods (mongod_forgets id <$> mongods d) d)).

#[export] Instance RiskGroup_deletable : Deletable RiskGroup := {|
  delete_row id d := set_risk_groups (delete id (risk_groups d)) d |}.

Definition table_keys {R} `{Table R} (d : db) : list Z := elements (dom (table (R := R) d)).

(** [tx.Save(&r)] of a struct with a primary key, and [tx.Delete(&R{ID: id})], which
    returns [RowsAffected] and [Error].  Whether [Save] inserts a row that does not
    exist is left open.  A [Delete] of a struct without primary key has no [WHERE]
    clause: it is documented to delete all records. *)
Class GormStore := {
  gorm_save {R} `{Table R} : nat → db → R → db * option gerror;
  gorm_delete {R} `{Deletable R} : nat → db → Z → db * (Z * option gerror);

  gorm_save_law {R} `{Table R} n d (r : R) : row_id r ≠ 0 →
    match gorm_save n d r with
    | (d', None) => ¬ conflicts d (row_id r) r ∧
        (d' = set_table (<[row_id r := r]> (table d)) d ∨ table (R := R) d !! row_id r = None ∧ d' = d)
    | (d', Some _) => d' = d
    end;
  gorm_delete_law {R} `{Deletable R} n d id :
    match gorm_delete (R := R) n d id with
    | (d', (rows, None)) =>
        if decide (id = 0)
        then d' = foldr delete_row d (table_keys (R := R) d) ∧ rows = Z.of_nat (size (table (R := R) d))
        else d' = delete_row id d ∧ rows = (if decide (is_Some (table (R := R) d !! id)) then 1 else 0)
    | (d', (rows, Some _)) => d' = d ∧ rows = 0
    end
}.

Section store.
Context `{ENG : Engine} `{STORE : GormStore}.

(** [tx.Exec] with the number of rows it affected. *)
Definition sql_exec_rows (f : db → db * Z) : GoM conn (gres Z) := λ c,
  match eng_fault (cstmts c) with
  | Some e => (tick c, Returned (Err e))
  | None => (with_db (f (cdb c)).1 c, Returned (Ok (f (cdb c)).2))
  end.

Definition orm_save {R} `{Table R} (r : R) : GoM conn (option gerror) := λ c,
  let '(d', err) := gorm_save (cstmts c) (cdb c) r in (with_db d' c, Returned err).
Definition orm_delete (R : Type) `{Deletable R} (id : Z) : GoM conn (Z * option gerror) := λ c,
  let '(d', res) := gorm_delete (R := R) (cstmts c) (cdb c) id in (with_db d' c, Returned res).
(** [tx.Find(&rows)] with a condition, without and with [Order("id")]. *)
Definition orm_find {R} `{Table R} (P : R → bool) : GoM conn (gres (list R)) :=
  sql_query (λ n d, select n P (table d)).
Definition orm_find_ordered {R} `{Table R} (P : R → bool) : GoM conn (gres (list R)) :=
  sql_query (λ n d, order_by (λ r, (row_id r, 0, 0%Q)) (select n P (table d))).

Lemma wp_sql_exec_rows f (Q : gres Z → conn → Prop) E c :
  Q (Ok (f (cdb c)).2) (with_db (f (cdb c)).1 c) → (∀ e, eng_fault (cstmts c) = Some e → Q (Err e) (tick c)) →
  wp (sql_exec_rows f) Q E c.
Proof. intros HOk HErr. unfold wp, sql_exec_rows. destruct (eng_fault _) as [e|]; [by apply HErr|done]. Qed.

Lemma wp_orm_save_any {R} `{Table R} (r : R) (Q : option gerror → conn → Prop) E c :
  row_id r ≠ 0 →
  (¬ conflicts (cdb c) (row_id r) r → Q None (with_db (set_table (<[row_id r := r]> (table (cdb c))) (cdb c)) c)) →
  (table (R := R) (cdb c) !! row_id r = None → Q None (tick c)) →
  (∀ e, (gorm_save (cstmts c) (cdb c) r).2 = Some e → Q (Some e) (tick c)) →
  wp (orm_save r) Q E c.
Proof.
  intros Hid HQ HNone HF. unfold wp, orm_save. pose proof (gorm_save_law (cstmts c) (cdb c) r Hid) as Hlaw.
  destruct (gorm_save _ _ _) as [d' [e|]]; [subst; by apply HF|]. destruct Hlaw as [Hfree [->|[Hnone ->]]]; [by apply HQ|by apply HNone].
Qed.

(** A row that exists is overwritten. *)
Lemma wp_orm_save {R} `{Table R} (r : R) (Q : option gerror → conn → Prop) E c :
  row_id r ≠ 0 → is_Some (table (R := R) (cdb c) !! row_id r) →
  (¬ conflicts (cdb c) (row_id r) r → Q None (with_db (set_table (<[row_id r := r]> (table (cdb c))) (cdb c)) c)) →
  (∀ e, (gorm_save (cstmts c) (cdb c) r).2 = Some e → Q (Some e) (tick c)) →
  wp (orm_save r) Q E c.
Proof. intros Hid [r0 Hin] HQ HF. apply wp_orm_save_any; [done..| |done]. intros Hnone. congruence. Qed.
End store.

(** ** A concrete mapper *)

Definition ref_store : GormStore.
Proof.
  refine {|
    gorm_save R H n d r :=
      if decide (conflicts d (row_id r) r) then (d, Some (PqError "23" "duplicate key value"))
      else (set_table (<[row_id r := r]> (table d)) d, None);
    gorm_delete R H HD n d id :=
      if decide (id = 0) then (foldr delete_row d (table_keys (R := R) d), (Z.of_nat (size (table (R := R) d)), None))
      else (delete_row id d, (if decide (is_Some (table (R := R) d !! id)) then 1 else 0, None))
  |}.
  - intros R H n d r _. destruct (decide _); [done|]. split; [done|by left].
  - intros R H HD n d id. by destruct (decide (id = 0)).
Defined.
