(* ===== verification/Session.v ===== *)
(** * Transactions of the master's loops

    The deployer, the monitor and the problem manager open a transaction, work on it
    and commit it or roll it back: a transaction sees its own copy of the database,
    [Commit] checks the deferred foreign keys and publishes the copy, [Rollback]
    drops it.  The calls they make to slaves meanwhile are recorded. *)

From stdpp Require Import base gmap sets list strings fin_maps.
From Stdlib Require Import Lia.
From S2P Require Import Prelude Msp Model Database Orm Store.

Open Scope Z_scope.
Set Warnings "-clear-no-such-hyp".

Inductive msp_call :=
  | CallEstablishMongodState (target : msp.HostPort) (m : msp.Mongod)
  | CallInitiateReplicaSet (target : msp.HostPort) (msg : msp.RsInitiateMessage).

(** [d.DB] (what is committed), the open transaction and the calls made so far. *)
Record session := mkSession {
  committed : db;
  tx : conn;
  calls : list msp_call
}.

Section session.
Context `{ENG : Engine}.

Definition Begin : GoM session unit :=
  modify_state (λ s, mkSession (committed s) (mkConn (committed s) (cstmts (tx s)) (cbus (tx s))) (calls s)).
Definition Rollback : GoM session unit :=
  modify_state (λ s, mkSession (committed s) (mkConn (committed s) (cstmts (tx s)) (cbus (tx s))) (calls s)).

(** [tx.Commit()]: it may fail like any statement, and it fails when a reference of
    the transaction dangles. *)
Definition Commit : GoM session (option gerror) := λ s,
  match eng_fault (cstmts (tx s)) with
  | Some e => (mkSession (committed s) (tick (tx s)) (calls s), Returned (Some e))
  | None =>
      if decide (foreign_keys (cdb (tx s)))
      then (mkSession (cdb (tx s)) (tick (tx s)) (calls s), Returned None)
      else (mkSession (committed s) (tick (tx s)) (calls s), Returned (Some (PqError "23" "violates foreign key constraint")))
  end.

(** A computation on the open transaction. *)
Definition in_tx {A} (m : GoM conn A) : GoM session A := λ s,
  let '(c, res) := m (tx s) in (mkSession (committed s) c (calls s), res).

Definition call (k : msp_call) : GoM session unit :=
  modify_state (λ s, mkSession (committed s) (tx s) (calls s ++ [k])).

Lemma wp_in_tx {A} (m : GoM conn A) (Q : A → session → Prop) E s :
  wp m (λ a c, Q a (mkSession (committed s) c (calls s))) (λ v c, E v (mkSession (committed s) c (calls s))) (tx s) →
  wp (in_tx m) Q E s.
Proof. unfold wp, in_tx. by destruct (m (tx s)) as [c [a|v|]]. Qed.

Lemma wp_session_begin (Q : unit → session → Prop) E s :
  Q tt (mkSession (committed s) (mkConn (committed s) (cstmts (tx s)) (cbus (tx s))) (calls s)) → wp Begin Q E s.
Proof. done. Qed.

Lemma wp_Rollback (Q : unit → session → Prop) E s :
  Q tt (mkSession (committed s) (mkConn (committed s) (cstmts (tx s)) (cbus (tx s))) (calls s)) → wp Rollback Q E s.
Proof. done. Qed.

Lemma wp_Commit (Q : option gerror → session → Prop) E s :
  (eng_fault (cstmts (tx s)) = None → foreign_keys (cdb (tx s)) →
     Q None (mkSession (cdb (tx s)) (tick (tx s)) (calls s))) →
  (∀ e, (eng_fault (cstmts (tx s)) = None → ¬ foreign_keys (cdb (tx s))) →
     Q (Some e) (mkSession (committed s) (tick (tx s)) (calls s))) →
  wp Commit Q E s.
Proof.
  intros HOk HErr. unfold wp, Commit. destruct (eng_fault _) as [e|]; [by apply HErr|].
  destruct (decide _); [by apply HOk|by apply HErr].
Qed.
End session.
