(* ===== verification/Ports.v ===== *)
(** * Port allocation

    [findUnusedPort] of [master/cluster_allocator.go]: the merge-join-like scan
    for a free port in [minPort, maxPort), and the port-range arithmetic on
    slaves next to it. *)

From stdpp Require Import base gmap sets list strings sorting.
From Stdlib Require Import Lia.
From S2P Require Import Prelude Msp Model.

Set Warnings "-clear-no-such-hyp".

(** The first loop: make [usedPortIndex] satisfy the invariant. *)
Fixpoint skip_below (fuel : nat) (usedPorts : list PortNumber) (minPort : PortNumber)
    (usedPortIndex : nat) : nat :=
  match fuel with
  | O => usedPortIndex
  | S fuel =>
      match usedPorts !! usedPortIndex with
      | None => usedPortIndex
      | Some p => if p >=? minPort then usedPortIndex
                  else skip_below fuel usedPorts minPort (S usedPortIndex)
      end
  end.

(** The second loop; [None] is running out of fuel. *)
Fixpoint scan_ports (fuel : nat) (usedPorts : list PortNumber) (usedPortIndex : nat)
    (currentPort maxPort : PortNumber) : option (PortNumber * bool) :=
  match fuel with
  | O => None
  | S fuel =>
      if currentPort <? maxPort then
        match usedPorts !! usedPortIndex with
        | None => Some (currentPort, true)
        | Some p =>
            if p =? currentPort
            then scan_ports fuel usedPorts (S usedPortIndex) (port_wrap (currentPort + 1)) maxPort
            else if p >? currentPort
            then Some (currentPort, true)
            else scan_ports fuel usedPorts usedPortIndex (port_wrap (currentPort + 1)) maxPort
        end
      else Some (0, false)
  end.

(** [func findUnusedPort(usedPorts []PortNumber, minPort, maxPort PortNumber)
    (unusedPort PortNumber, found bool)] *)
Definition findUnusedPort (usedPorts : list PortNumber) (minPort maxPort : PortNumber)
    : option (PortNumber * bool) :=
  let usedPortIndex := skip_below (length usedPorts) usedPorts minPort 0 in
  scan_ports (S (Z.to_nat (maxPort - minPort))) usedPorts usedPortIndex minPort maxPort.

(** [func slaveMaxNumberOfMongods(s *Slave) PortNumber]: the subtraction wraps
    and the result is unsigned. *)
Definition slaveMaxNumberOfMongods (s : Slave) : PortNumber + goval :=
  let res := port_wrap (Slave_MongodPortRangeEnd s - Slave_MongodPortRangeBegin s) in
  if res <=? 0
  then inr (VString "datastructure invariant violated: the range of Mongod ports for a slave must be sized greater than 0")
  else inl res.

(** The cases of the test [TestClutserAllocator_findUnusedPort]. *)
Example findUnusedPort_1 : findUnusedPort [2; 3; 5] 2 6 = Some (4, true).
Proof. reflexivity. Qed.
Example findUnusedPort_2 : findUnusedPort [] 2 5 = Some (2, true).
Proof. reflexivity. Qed.
Example findUnusedPort_3 : findUnusedPort [0] 2 5 = Some (2, true).
Proof. reflexivity. Qed.
Example findUnusedPort_4 : findUnusedPort [2; 3; 4] 2 5 = Some (0, false).
Proof. reflexivity. Qed.

(** ** The scan *)

Section scan.
Context (used : list PortNumber).

Lemma sorted_lookup (R : relation Z) (i j : nat) x y :
  StronglySorted R used → (i < j)%nat → used !! i = Some x → used !! j = Some y → R x y.
Proof.
  intros Hs Hij Hi Hj. revert i j Hij Hi Hj.
  induction Hs as [|z l _ IH Hall]; intros i j Hij Hi Hj; [done|].
  destruct j as [|j]; [lia|]. simpl in Hj. destruct i as [|i]; simpl in Hi.
  - simplify_eq. eapply Forall_forall in Hall; [done|]. by eapply list_elem_of_lookup_2.
  - apply (IH i j); [lia|done|done].
Qed.

(** Everything before the index is below [c]. *)
Definition below (i : nat) (c : Z) : Prop := ∀ k x, (k < i)%nat → used !! k = Some x → x < c.
(** Everything from the index on is at least [c]. *)
Definition from (i : nat) (c : Z) : Prop := ∀ k x, (i ≤ k)%nat → used !! k = Some x → c ≤ x.

Lemma skip_below_spec (fuel i : nat) minPort :
  (length used ≤ fuel + i)%nat → below i minPort → StronglySorted Z.le used →
  below (skip_below fuel used minPort i) minPort ∧ from (skip_below fuel used minPort i) minPort.
Proof.
  revert i. induction fuel as [|fuel IH]; intros i Hlen Hb Hs; simpl.
  - split; [done|]. intros k x Hk Hx. apply lookup_lt_Some in Hx. lia.
  - destruct (used !! i) as [p|] eqn:Hi.
    + destruct (Z.geb_spec p minPort).
      * split; [done|]. intros k x Hk Hx. destruct (decide (k = i)) as [->|]; [simplify_eq; lia|].
        assert (p ≤ x) by (eapply (sorted_lookup _ i k); [done|lia|done|done]). lia.
      * apply IH; [lia| |done]. intros k x Hk Hx.
        destruct (decide (k = i)) as [->|]; [by simplify_eq|]. apply (Hb k); [lia|done].
    + split; [done|]. intros k x Hk Hx. apply lookup_ge_None in Hi. apply lookup_lt_Some in Hx. lia.
Qed.

Lemma skip_below_below (fuel i : nat) minPort :
  below i minPort → below (skip_below fuel used minPort i) minPort.
Proof.
  revert i. induction fuel as [|fuel IH]; intros i Hb; simpl; [done|].
  destruct (used !! i) as [p|] eqn:Hi; [|done].
  destruct (Z.geb_spec p minPort); [done|]. apply IH. intros k x Hk Hx.
  destruct (decide (k = i)) as [->|]; [by simplify_eq|]. apply (Hb k); [lia|done].
Qed.

Lemma port_wrap_next c maxPort : is_port maxPort → 0 ≤ c < maxPort → port_wrap (c + 1) = c + 1.
Proof. unfold is_port, port_wrap. intros. apply Z.mod_small. lia. Qed.

Lemma not_used (i : nat) c :
  StronglySorted Z.le used → below i c →
  (∀ p, used !! i = Some p → c < p) → c ∉ used.
Proof.
  intros Hs Hb Hi [k Hk]%list_elem_of_lookup.
  destruct (decide (k < i)%nat) as [Hlt|Hge]; [specialize (Hb k c Hlt Hk); lia|].
  destruct (decide (k = i)) as [->|Hne]; [specialize (Hi c Hk); lia|].
  assert (is_Some (used !! i)) as [p Hp].
  { apply lookup_lt_is_Some. apply lookup_lt_Some in Hk. lia. }
  specialize (Hi p Hp). assert (p ≤ c) by (eapply (sorted_lookup _ i k); [done|lia|done|done]). lia.
Qed.

(** Soundness of the scan on sorted input, whatever was passed over before. *)
Lemma scan_ports_sound (fuel i : nat) c maxPort :
  StronglySorted Z.le used → is_port maxPort → 0 ≤ c →
  (Z.to_nat (maxPort - c) < fuel)%nat → below i c →
  match scan_ports fuel used i c maxPort with
  | Some (p, true) => c ≤ p < maxPort ∧ p ∉ used
  | Some (p, false) => p = 0
  | None => False
  end.
Proof.
  intros Hs Hmax. revert i c. induction fuel as [|fuel IH]; intros i c Hc Hf Hb; [lia|]; simpl.
  destruct (Z.ltb_spec c maxPort) as [Hlt|]; [|done].
  destruct (used !! i) as [p|] eqn:Hi.
  - destruct (Z.eqb_spec p c) as [->|Hne]; [|rewrite Z.gtb_ltb; destruct (Z.ltb_spec c p)].
    + rewrite (port_wrap_next _ _ Hmax) by lia.
      assert (below (S i) (c + 1)) as Hb'.
      { intros k x Hk Hx. destruct (decide (k = i)) as [->|]; [simplify_eq; lia|].
        assert (x < c) by (apply (Hb k); [lia|done]). lia. }
      specialize (IH (S i) (c + 1)). destruct (scan_ports _ _ _ _ _) as [[q []]|];
        [|by apply IH; [lia|lia|]..]. destruct IH as [? ?]; [lia|lia|done|]. split; [lia|done].
    + split; [lia|]. apply (not_used i c); [done|done|]. intros q Hq. by simplify_eq.
    + rewrite (port_wrap_next _ _ Hmax) by lia.
      assert (below i (c + 1)) as Hb' by (intros k x Hk Hx; specialize (Hb k x Hk Hx); lia).
      specialize (IH i (c + 1)). destruct (scan_ports _ _ _ _ _) as [[q []]|];
        [|by apply IH; [lia|lia|]..]. destruct IH as [? ?]; [lia|lia|done|]. split; [lia|done].
  - split; [lia|]. apply (not_used i c); [done|done|]. intros q Hq. by simplify_eq.
Qed.

(** On duplicate-free input the scan passes over used ports only. *)
Lemma scan_ports_least (fuel i : nat) c maxPort :
  StronglySorted Z.lt used → is_port maxPort → 0 ≤ c → from i c →
  match scan_ports fuel used i c maxPort with
  | Some (p, true) => ∀ q, c ≤ q < p → q ∈ used
  | Some (_, false) => ∀ q, c ≤ q < maxPort → q ∈ used
  | None => True
  end.
Proof.
  intros Hs Hmax. revert i c. induction fuel as [|fuel IH]; intros i c Hc Hfrom; [done|]; simpl.
  destruct (Z.ltb_spec c maxPort) as [Hlt|]; [|intros; lia].
  destruct (used !! i) as [p|] eqn:Hi; [|intros; lia].
  assert (c ≤ p) as Hcp by (apply (Hfrom i); [lia|done]).
  destruct (Z.eqb_spec p c) as [->|Hne]; [|rewrite Z.gtb_ltb; destruct (Z.ltb_spec c p); intros; lia].
  rewrite (port_wrap_next _ _ Hmax) by lia.
  assert (from (S i) (c + 1)) as Hfrom'.
  { intros k x Hk Hx. assert (c < x) by (eapply (sorted_lookup _ i k); [done|lia|done|done]). lia. }
  assert (∀ q, c ≤ q → (c + 1 ≤ q → q ∈ used) → q ∈ used) as Hstep.
  { intros q Hq Hrest. destruct (decide (q = c)) as [->|]; [by eapply list_elem_of_lookup_2|].
    apply Hrest. lia. }
  specialize (IH (S i) (c + 1)). destruct (scan_ports _ _ _ _ _) as [[q []]|]; [..|done];
    intros q' Hq'; (apply Hstep; [lia|]; intros; apply IH; [lia|done|lia]).
Qed.
End scan.

Lemma sorted_lt_le (l : list Z) : StronglySorted Z.lt l → StronglySorted Z.le l.
Proof. apply StronglySorted_weaken. lia. Qed.

Lemma findUnusedPort_sound used minPort maxPort :
  StronglySorted Z.le used → is_port minPort → is_port maxPort →
  match findUnusedPort used minPort maxPort with
  | Some (p, true) => minPort ≤ p < maxPort ∧ p ∉ used
  | Some (p, false) => p = 0
  | None => False
  end.
Proof.
  intros Hs Hmin Hmax. apply scan_ports_sound; [done|done|apply Hmin|lia|].
  apply skip_below_below. intros k x Hk. lia.
Qed.

Lemma findUnusedPort_least used minPort maxPort :
  StronglySorted Z.lt used → is_port minPort → is_port maxPort →
  match findUnusedPort used minPort maxPort with
  | Some (p, true) => ∀ q, minPort ≤ q < p → q ∈ used
  | Some (_, false) => ∀ q, minPort ≤ q < maxPort → q ∈ used
  | None => True
  end.
Proof.
  intros Hs Hmin Hmax. apply scan_ports_least; [done|done|apply Hmin|].
  apply skip_below_spec; [lia| |by apply sorted_lt_le]. intros k x Hk. lia.
Qed.

(** A free port is found whenever fewer ports are in use than the range holds. *)
Lemma findUnusedPort_room used minPort maxPort :
  StronglySorted Z.lt used → is_port minPort → is_port maxPort →
  Z.of_nat (length used) < maxPort - minPort →
  ∃ p, findUnusedPort used minPort maxPort = Some (p, true).
Proof.
  intros Hs Hmin Hmax Hroom.
  pose proof (findUnusedPort_sound used minPort maxPort (sorted_lt_le _ Hs) Hmin Hmax) as Hsound.
  pose proof (findUnusedPort_least used minPort maxPort Hs Hmin Hmax) as Hleast.
  destruct (findUnusedPort used minPort maxPort) as [[p []]|]; [by eexists| |done].
  exfalso. assert (seqZ minPort (maxPort - minPort) ⊆+ used) as Hsub.
  { apply NoDup_submseteq; [apply NoDup_seqZ|]. intros q Hq%elem_of_seqZ. apply Hleast. lia. }
  apply submseteq_length in Hsub. rewrite length_seqZ in Hsub. lia.
Qed.

(** C23: Given the ports in use in ascending order without duplicates, and bounds
    that are [uint16] values, [findUnusedPort] terminates and returns the lowest
    port from [minPort] up to, but not including, [maxPort] that is not in use, or
    [(0, false)] exactly when there is none. *)
Theorem findUnusedPort_correct used minPort maxPort :
  StronglySorted Z.lt used → is_port minPort → is_port maxPort →
  match findUnusedPort used minPort maxPort with
  | Some (p, true) => minPort ≤ p < maxPort ∧ p ∉ used ∧ (∀ q, minPort ≤ q < p → q ∈ used)
  | Some (p, false) => p = 0 ∧ (∀ q, minPort ≤ q < maxPort → q ∈ used)
  | None => False
  end.
Proof.
  intros Hs Hmin Hmax.
  pose proof (findUnusedPort_sound used minPort maxPort (sorted_lt_le _ Hs) Hmin Hmax) as Hsound.
  pose proof (findUnusedPort_least used minPort maxPort Hs Hmin Hmax) as Hleast.
  destruct (findUnusedPort used minPort maxPort) as [[p []]|]; [|done..].
  destruct Hsound. done.
Qed.

Lemma findUnusedPort_correct_witness :
  4 ∉ [2; 3; 5] ∧ (∀ q, 2 ≤ q < 4 → q ∈ [2; 3; 5]).
Proof.
  assert (findUnusedPort [2; 3; 5] 2 6 = Some (4, true)) as Hrun by reflexivity.
  pose proof (findUnusedPort_correct [2; 3; 5] 2 6) as H. rewrite Hrun in H.
  apply H.
  - repeat constructor; lia.
  - split; lia.
  - split; lia.
Defined.


(** ** Duplicates *)

Section duplicates.
Context (pre rest : list Z) (q : Z) (maxPort : Z).
Context (Hs : StronglySorted Z.lt pre) (Hmax : is_port maxPort) (Hq : 0 ≤ q < maxPort).
Context (Hlast : ∀ k x, pre !! k = Some x → x ≤ q).

(** Once the index points below the current port it stays there. *)
Lemma scan_ports_stuck (used : list Z) (fuel i : nat) c p :
  used !! i = Some p → p < c → 0 ≤ c → (Z.to_nat (maxPort - c) < fuel)%nat →
  scan_ports fuel used i c maxPort = Some (0, false).
Proof.
  intros Hi. revert c. induction fuel as [|fuel IH]; intros c Hp Hc Hf; [lia|]; simpl.
  destruct (Z.ltb_spec c maxPort) as [Hlt|]; [|done].
  rewrite Hi. destruct (Z.eqb_spec p c); [lia|].
  rewrite Z.gtb_ltb. destruct (Z.ltb_spec c p); [lia|].
  rewrite (port_wrap_next _ _ Hmax) by lia. apply IH; lia.
Qed.

(** At a port in use the index points to it. *)
Lemma pointed_at (i : nat) c : below pre i c → from pre i c → c ∈ pre → pre !! i = Some c.
Proof.
  intros Hb Hfrom [k Hk]%list_elem_of_lookup.
  destruct (decide (k < i)%nat) as [Hlt|Hge]; [specialize (Hb k c Hlt Hk); lia|].
  destruct (decide (k = i)) as [->|Hne]; [done|].
  assert (is_Some (pre !! i)) as [x Hx].
  { apply lookup_lt_is_Some. apply lookup_lt_Some in Hk. lia. }
  assert (x < c) by (eapply (sorted_lookup _ Z.lt i k); [done|lia|done|done]).
  specialize (Hfrom i x (le_n i) Hx). lia.
Qed.

Lemma scan_ports_through (fuel i : nat) c :
  (Z.to_nat (maxPort - c) < fuel)%nat → 0 ≤ c ≤ q → below pre i c → from pre i c →
  (∀ p, c ≤ p ≤ q → p ∈ pre) →
  scan_ports fuel (pre ++ q :: rest) i c maxPort = Some (0, false).
Proof.
  revert i c. induction fuel as [|fuel IH]; intros i c Hf Hc Hb Hfrom Hall; [lia|]; simpl.
  destruct (Z.ltb_spec c maxPort) as [Hlt|]; [|lia].
  assert (pre !! i = Some c) as Hi by (apply pointed_at; [done..|apply Hall; lia]).
  rewrite (lookup_app_l_Some _ _ _ _ Hi), Z.eqb_refl.
  rewrite (port_wrap_next _ _ Hmax) by lia.
  destruct (decide (c = q)) as [->|Hne].
  - apply (scan_ports_stuck _ _ _ _ q); [|lia..].
    destruct (pre !! S i) as [x|] eqn:Hx.
    + assert (q < x) by (eapply (sorted_lookup _ Z.lt i (S i)); [done|lia|done|done]).
      specialize (Hlast (S i) x Hx). lia.
    + apply lookup_ge_None in Hx. apply lookup_lt_Some in Hi.
      rewrite lookup_app_r by done. by replace (S i - length pre)%nat with 0%nat by lia.
  - apply IH; [lia|lia| | |intros p Hp; apply Hall; lia].
    + intros k x Hk Hx. destruct (decide (k = i)) as [->|]; [simplify_eq; lia|].
      assert (x < c) by (apply (Hb k); [lia|done]). lia.
    + intros k x Hk Hx.
      assert (c < x) by (eapply (sorted_lookup _ Z.lt i k); [done|lia|done|done]). lia.
Qed.
End duplicates.

Lemma skip_below_app used rest (fuel i : nat) minPort q :
  minPort ≤ q → (i ≤ length used)%nat → StronglySorted Z.le used → last used = Some q →
  (length used ≤ fuel + i)%nat → below used i minPort →
  let j := skip_below fuel (used ++ rest) minPort i in below used j minPort ∧ from used j minPort.
Proof.
  intros Hq. revert i. induction fuel as [|fuel IH]; intros i Hi Hs Hlast Hlen Hb; simpl.
  - split; [done|]. intros k x Hk Hx%lookup_lt_Some. lia.
  - destruct (decide (i < length used)%nat) as [Hlt|Hge].
    + rewrite lookup_app_l by done.
      apply lookup_lt_is_Some in Hlt as [p Hp]. rewrite Hp.
      destruct (Z.geb_spec p minPort) as [Hge|Hlow].
      * split; [done|]. intros k x Hk Hx. destruct (decide (k = i)) as [->|]; [simplify_eq; lia|].
        assert (p ≤ x) by (eapply (sorted_lookup used Z.le i k); [done|lia|done|done]). lia.
      * apply IH; [by apply lookup_lt_Some in Hp|done|done|lia|].
        intros k x Hk Hx. destruct (decide (k = i)) as [->|]; [by simplify_eq|].
        apply (Hb k); [lia|done].
    + rewrite last_lookup in Hlast. specialize (Hb (pred (length used)) q).
      exfalso. apply lookup_lt_Some in Hlast as Hl. assert (q < minPort) by (apply Hb; [lia|done]). lia.
Qed.

(** The duplicate-free input is needed.  When a port of the range is listed
    a second time and every port of the range up to it is in use, the scan never
    gets past the second copy and reports that no port is free, whatever is free
    above it. *)
Theorem findUnusedPort_duplicate_blocks (pre rest : list Z) q minPort maxPort :
  StronglySorted Z.lt pre → last pre = Some q → is_port minPort → is_port maxPort →
  minPort ≤ q < maxPort → (∀ p, minPort ≤ p ≤ q → p ∈ pre) →
  findUnusedPort (pre ++ q :: rest) minPort maxPort = Some (0, false).
Proof.
  intros Hs Hlast Hmin Hmax Hq Hall. unfold findUnusedPort.
  destruct (skip_below_app pre (q :: rest) (length (pre ++ q :: rest)) 0 minPort q) as [Hb Hfrom];
    [lia|lia|by apply sorted_lt_le|done|rewrite length_app; lia|intros k x Hk; lia|].
  unfold is_port in *. apply scan_ports_through; [done|done|lia| |lia|lia|done|done|done].
  intros k x Hx. rewrite last_lookup in Hlast.
  destruct (decide (k = pred (length pre))) as [->|Hne]; [simplify_eq; lia|].
  assert (x < q); [|lia]. eapply (sorted_lookup pre Z.lt k); [done| |done|done].
  apply lookup_lt_Some in Hx. lia.
Qed.

Lemma findUnusedPort_duplicate_blocks_witness :
  findUnusedPort [2; 2; 3] 2 60 = Some (0, false).
Proof.
  apply (findUnusedPort_duplicate_blocks [2] [3] 2 2 60).
  - repeat constructor.
  - reflexivity.
  - split; lia.
  - split; lia.
  - lia.
  - intros p Hp. assert (p = 2) as -> by lia. left.
Defined.
