(* ===== verification/Allocator.v ===== *)
(** * The cluster allocator

    [master/cluster_allocator.go]: [CompileMongodLayout] and its phases, in the
    order the function runs them.  Each phase is a computation on the
    transaction ([conn]); the SQL text of a statement is the function applied to
    the database. *)

From stdpp Require Import base gmap sets list strings sorting fin_maps.
From Stdlib Require Import QArith Lia.
From S2P Require Import Prelude Msp Model Database Orm Ports.

Open Scope Z_scope.

(** [type persistence uint] with its two values *)
Inductive persistence := Persistent | Volatile.

#[export] Instance persistence_eq_dec : EqDecision persistence.
Proof. solve_decision. Defined.

(** [func (p persistence) PersistentStorage() bool] *)
Definition PersistentStorage (p : persistence) : bool :=
  match p with Persistent => true | Volatile => false end.

(** [func (p persistence) String() string] *)
Definition persistence_String (p : persistence) : string :=
  match p with Persistent => "persistent" | Volatile => "volatile" end.

(** [func slavePersistence(s *Slave) persistence] *)
Definition slavePersistence (s : Slave) : persistence :=
  if Slave_PersistentStorage s then Persistent else Volatile.

(** The column [memberCountColumnName] of a replica set. *)
Definition member_count (p : persistence) (r : ReplicaSet) : Z :=
  match p with
  | Persistent => ReplicaSet_PersistentMemberCount r
  | Volatile => ReplicaSet_VolatileMemberCount r
  end.

(** ** Orphaned and destroyed mongods *)

(** [SELECT desired_state_id FROM mongods m WHERE replica_set_id IS NULL] *)
Definition orphaned_desired_states (d : db) : gset Z :=
  list_to_set ((λ kv : Z * Mongod, Mongod_DesiredStateID kv.2) <$>
    map_to_list (filter (λ kv : Z * Mongod, Mongod_ReplicaSetID kv.2 = None) (mongods d))).

(** [UPDATE mongod_states SET execution_state=? WHERE id IN (...)] *)
Definition mark_orphaned (d : db) : db :=
  set_mongod_states
    (update_where (λ sid, sid ∈ orphaned_desired_states d)
       (MongodState_set_ExecutionState MongodExecutionStateForceDestroyed) (mongod_states d)) d.

(** The [WHERE] clause of the [DELETE FROM mongods]; a missing state row of a
    [LEFT OUTER JOIN] is all NULL and satisfies no comparison. *)
Definition destroyed_mongod (d : db) (m : Mongod) : bool :=
  match mongod_states d !! Mongod_DesiredStateID m, observed_state d m with
  | Some desired, Some observed =>
      (bool_decide (MongodState_ExecutionState desired = MongodExecutionStateDestroyed)
       || bool_decide (MongodState_ExecutionState desired = MongodExecutionStateForceDestroyed)) &&
      (bool_decide (MongodState_ExecutionState observed = MongodExecutionStateDestroyed) &&
       bool_decide (Mongod_ObservationErrorID m = None))
  | _, _ => false
  end.

Definition remove_destroyed (d : db) : db :=
  delete_mongods d (members_where d (destroyed_mongod d)).

(** ** Excess members *)

Record excessMongodsRow := mkExcessMongodsRow {
  replicaSetID : Z;
  deletable_persistent : Z;
  deletable_volatile : Z
}.

Definition deletable (p : persistence) (row : excessMongodsRow) : Z :=
  if PersistentStorage p then deletable_persistent row else deletable_volatile row.

Definition excess_row (d : db) (r : ReplicaSet) : excessMongodsRow :=
  mkExcessMongodsRow (ReplicaSet_ID r)
    (Z.of_nat (size (replica_set_effective_members d (ReplicaSet_ID r) true))
       - ReplicaSet_PersistentMemberCount r)
    (Z.of_nat (size (replica_set_effective_members d (ReplicaSet_ID r) false))
       - ReplicaSet_VolatileMemberCount r).

(** The mongods the removal query joins: of the replica set, on a slave of the
    persistence that is not in maintenance. *)
Definition removal_candidate (d : db) (rid : Z) (p : bool) (m : Mongod) : bool :=
  match slaves d !! Mongod_ParentSlaveID m with
  | Some s =>
      bool_decide (Mongod_ReplicaSetID m = Some rid) && bool_decide (is_Some (replica_sets d !! rid)) &&
      bool_decide (Slave_PersistentStorage s = p) &&
      bool_decide (Slave_ConfiguredState s ≠ SlaveStateMaintenance)
  | None => false
  end.

(** [ORDER BY (disabled first) ASC, (observation error first) DESC, utilization DESC] *)
Definition removal_key (d : db) (m : Mongod) : sort_key :=
  let s := default zero_Slave (slaves d !! Mongod_ParentSlaveID m) in
  (if decide (Slave_ConfiguredState s = SlaveStateDisabled) then 1 else 2,
   - (if decide (Slave_ObservationErrorID s = None) then 0 else 1),
   Qopp (utilization d s)).

(** [UPDATE mongod_states SET execution_state=? WHERE id=?] *)
Definition set_execution_state (sid : Z) (e : MongodExecutionState) (d : db) : db :=
  set_mongod_states (alter (MongodState_set_ExecutionState e) sid (mongod_states d)) d.

(** ** Degraded replica sets and suitable slaves *)

Definition configured_count (d : db) (p : persistence) (r : ReplicaSet) : Z :=
  Z.of_nat (size (replica_set_configured_members d (ReplicaSet_ID r) (PersistentStorage p))).

(** [WHERE]/[HAVING] of the query for the head of the degraded replica sets. *)
Definition degraded (d : db) (p : persistence) (unsatisfiable : list Z) (r : ReplicaSet) : bool :=
  bool_decide (member_count p r ≠ 0) && bool_decide (ReplicaSet_ID r ∉ unsatisfiable) &&
  bool_decide (configured_count d p r < member_count p r).

(** [ORDER BY COUNT(DISTINCT members.mongod_id) / r.member_count]: a [bigint]
    divided by an [integer], that is truncating integer division. *)
Definition degraded_key (d : db) (p : persistence) (r : ReplicaSet) : sort_key :=
  (Z.quot (configured_count d p r) (member_count p r), 0, 0%Q).

(** Risk groups and slaves that already host a member of the replica set. *)
Definition member_mongods (d : db) (rid : Z) : list Mongod :=
  (map_to_list (filter (λ kv : Z * Mongod, Mongod_ReplicaSetID kv.2 = Some rid) (mongods d))).*2.
Definition hosting_risk_groups (d : db) (rid : Z) : list (option Z) :=
  omap (λ m, Slave_RiskGroupID <$> slaves d !! Mongod_ParentSlaveID m) (member_mongods d rid).
Definition hosting_slaves (d : db) (rid : Z) : list (option Z) :=
  (λ m, Some (Mongod_ParentSlaveID m)) <$> member_mongods d rid.

(** The [WHERE] clause of the query for the least busy suitable slave. *)
Definition suitable_slave (d : db) (p : persistence) (rid : Z) (s : Slave) : bool :=
  bool_decide (Slave_PersistentStorage s = PersistentStorage p) &&
  bool_decide (0 < free_mongods d s) &&
  bool_decide (Slave_ConfiguredState s = SlaveStateActive) &&
  (sql_true (sql_not_in (Slave_RiskGroupID s) (hosting_risk_groups d rid))
   || bool_decide (Slave_RiskGroupID s = None)) &&
  sql_true (sql_not_in (Some (Slave_ID s)) (hosting_slaves d rid)).

(** [ORDER BY (no observation error first) ASC, utilization ASC] *)
Definition suitable_key (d : db) (s : Slave) : sort_key :=
  (if decide (Slave_ObservationErrorID s = None) then 0 else 1, 0, utilization d s).

(** Bound on the iterations of the allocation loop: each one either gives up on
    a replica set or takes one of the free ports. *)
Definition total_free (d : db) : nat :=
  sum_list_with (λ s, Z.to_nat (free_mongods d s)) (map_to_list (slaves d)).*2.
Definition allocation_fuel (d : db) : nat := S (size (replica_sets d) + total_free d).

Section allocator.
Context `{ENG : Engine} `{ORM : Gorm}.

Definition markOrphanedMongods : GoM conn unit :=
  markOrphanedMongodsDestroyedRes ← sql_exec mark_orphaned;
  or_panic markOrphanedMongodsDestroyedRes.

Definition removeDestroyedMongods : GoM conn unit :=
  removeDestroyedMongodsRes ← sql_exec remove_destroyed;
  or_panic removeDestroyedMongodsRes.

Definition excessMongods : GoM conn (list excessMongodsRow) :=
  replicaSets ← sql_query (λ n d, excess_row d <$> select n (λ _, true) (replica_sets d));
  or_panic replicaSets.

Definition deletableMongods (rid : Z) (p : persistence) (deletable_count : Z) : GoM conn (list Mongod) :=
  res ← sql_query (λ n d,
    take (Z.to_nat deletable_count)
      (order_by (removal_key d)
         (select n (removal_candidate d rid (PersistentStorage p)) (mongods d))));
  or_panic res.

Definition destroyMongod (m : Mongod) : GoM conn unit :=
  res ← sql_exec (set_execution_state (Mongod_DesiredStateID m) MongodExecutionStateDestroyed);
  or_panic res.

Definition removeExcessOf (row : excessMongodsRow) (p : persistence) : GoM conn unit :=
  let deletable_count := deletable p row in
  if decide (deletable_count <= 0) then mret tt
  else
    deletableMongds ← deletableMongods (replicaSetID row) p deletable_count;
    range deletableMongds destroyMongod.

Definition removeExcess (excessMongodsRows : list excessMongodsRow) : GoM conn unit :=
  range excessMongodsRows (λ r, range [Persistent; Volatile] (removeExcessOf r)).

(** The ports in use on a slave, ascending. *)
Definition usedPorts_query (s : Slave) (n : nat) (d : db) : list PortNumber :=
  merge_sort Z.le (Mongod_Port <$> select n (hosted_on (Slave_ID s)) (mongods d)).

(** [func (c *ClusterAllocator) spawnMongodOnSlave(tx, s, r)] *)
Definition spawnMongodOnSlave (s : Slave) (r : ReplicaSet) : GoM conn (gres Mongod) :=
  res ← sql_query (usedPorts_query s);
  usedPorts ← or_panic res;
  match findUnusedPort usedPorts (Slave_MongodPortRangeBegin s) (Slave_MongodPortRangeEnd s) with
  | None => out_of_fuel
  | Some (_, false) =>
      mret (Err (TextError ("could not spawn Mongod: no free port on slave `" +:+ Slave_Hostname s +:+ "`")))
  | Some (unusedPort, true) =>
      created ← orm_create (mkMongod 0 unusedPort (ReplicaSet_Name r) None None (Slave_ID s)
                              (NullIntValue (ReplicaSet_ID r)) 0 None);
      m ← or_panic created;
      createdState ← orm_create (mkMongodState 0 (Mongod_ID m) (ReplicaSet_ShardingRole r)
                                   MongodExecutionStateRunning);
      desiredState ← or_panic createdState;
      err ← orm_update m (Mongod_set_DesiredStateID (MongodState_ID desiredState));
      match err with
      | Some e => panic (VError e)
      | None => mret (Ok (Mongod_set_DesiredStateID (MongodState_ID desiredState) m))
      end
  end.

Definition degradedHead (p : persistence) (unsatisfiable : list Z) : GoM conn (gres (option ReplicaSet)) :=
  sql_query (λ n d,
    head (order_by (degraded_key d p) (select n (degraded d p unsatisfiable) (replica_sets d)))).

Definition leastBusySuitableSlave (p : persistence) (r : ReplicaSet) : GoM conn (gres (option Slave)) :=
  sql_query (λ n d,
    head (order_by (suitable_key d) (select n (suitable_slave d p (ReplicaSet_ID r)) (slaves d)))).

(** The [for] loop that repairs degraded replica sets of one persistence; it
    returns the replica sets given up, [unsatisfiable_replica_set_ids]. *)
Fixpoint addMembers (fuel : nat) (p : persistence) (by_persistence unsatisfiable : list Z)
    : GoM conn (list Z) :=
  match fuel with
  | O => out_of_fuel
  | S fuel =>
      res ← degradedHead p by_persistence;
      replicaSet ← or_panic res;
      match replicaSet with
      | None => mret unsatisfiable
      | Some replicaSet =>
          res ← leastBusySuitableSlave p replicaSet;
          slave ← or_panic res;
          match slave with
          | None => addMembers fuel p (by_persistence ++ [ReplicaSet_ID replicaSet])
                      (unsatisfiable ++ [ReplicaSet_ID replicaSet])
          | Some slave =>
              spawned ← spawnMongodOnSlave slave replicaSet;
              _ ← or_panic spawned;
              addMembers fuel p by_persistence unsatisfiable
          end
      end
  end.

(** [unsatisfiable_replica_set_ids_by_persistance] starts as [[]int64{0}]. *)
Definition addNewMembers : GoM conn (list Z) :=
  c ← get_state;
  unsatisfiable ← addMembers (allocation_fuel (cdb c)) Persistent [0] [];
  c ← get_state;
  addMembers (allocation_fuel (cdb c)) Volatile [0] unsatisfiable.

Definition constraint_status (d : db) (unsatisfiable : list Z) (r : ReplicaSet) : StatusMessage :=
  MsgDesiredConstraint (mkDesiredReplicaSetConstraintStatus
    (bool_decide (ReplicaSet_ID r ∈ unsatisfiable)) r
    (configured_count d Volatile r) (configured_count d Persistent r)).

Definition sendConstraintStatus (unsatisfiable : list Z) : GoM conn unit :=
  res ← sql_query (λ n d, constraint_status d unsatisfiable <$> select n (λ _, true) (replica_sets d));
  rows ← or_panic res;
  range rows send.

(** The body of [CompileMongodLayout] after the [defer]; [has_bus] is
    [c.BusWriteChannel != nil].  Every error is a panic, so [err] is [nil] at
    the final [return err]. *)
Definition compileBody (has_bus : bool) : GoM conn (option gerror) :=
  _ ← markOrphanedMongods;
  _ ← removeDestroyedMongods;
  excessMongodsRows ← excessMongods;
  _ ← removeExcess excessMongodsRows;
  unsatisfiable ← addNewMembers;
  _ ← (if has_bus then sendConstraintStatus unsatisfiable else mret tt);
  mret None.

(** The deferred [recover]: [switch r] compares the panic value with the
    booleans [r == nil] (false here) and [r == gorm.ErrInvalidTransaction]. *)
Definition deferred_recover (r : goval) (err : option gerror) : outcome (option gerror) :=
  if decide (r = VBool false) then Returned err
  else if decide (r = VBool (bool_decide (r = VError ErrInvalidTransaction))) then
    match r with
    | VError e => Returned (Some e)
    | _ => Panicked (VString "interface conversion: r is not error")
    end
  else Panicked r.

(** [func (c *ClusterAllocator) CompileMongodLayout(tx *gorm.DB) (err error)] *)
Definition CompileMongodLayout (has_bus : bool) : GoM conn (option gerror) := λ c,
  match compileBody has_bus c with
  | (c', Panicked v) => (c', deferred_recover v None)
  | r => r
  end.
End allocator.
