(* ===== verification/AllocatorRemoval.v ===== *)
(** * The allocator's clean-up and removal phases

    What [markOrphanedMongods], [removeDestroyedMongods] and [removeExcess] of
    [Allocator.v] do to a well-formed database; the central fact is a lower
    bound on the effective members every replica set keeps. *)

From stdpp Require Import base gmap sets list strings sorting fin_maps.
From Stdlib Require Import QArith Lia.
From S2P Require Import Prelude Msp Model Database Orm Ports Allocator.

Open Scope Z_scope.
Set Warnings "-clear-no-such-hyp".

(** The effective members a phase must not lose. *)
Abbreviation effective d rid p := (replica_set_effective_members d rid (PersistentStorage p)).

(** ** Databases that differ in execution states only *)

(** The execution states this part of the allocator writes. *)
Definition doomed (e : MongodExecutionState) : Prop :=
  e = MongodExecutionStateDestroyed ∨ e = MongodExecutionStateForceDestroyed.

(** The tables the allocator does not write. *)
Definition other_tables (d : db) := (risk_groups d, msp_errors d, problems d).

Record same_layout (d d' : db) : Prop := mkSameLayout {
  same_slaves : slaves d' = slaves d;
  same_mongods : mongods d' = mongods d;
  same_replica_sets : replica_sets d' = replica_sets d;
  same_others : other_tables d' = other_tables d;
  same_parents sid : MongodState_set_ExecutionState 0 <$> mongod_states d' !! sid = MongodState_set_ExecutionState 0 <$> mongod_states d !! sid;
  same_or_doomed sid st : mongod_states d' !! sid = Some st →
    mongod_states d !! sid = Some st ∨ doomed (MongodState_ExecutionState st)
}.

Lemma same_layout_refl d : same_layout d d.
Proof. split; [done..|]. by left. Qed.

Lemma same_layout_trans d1 d2 d3 : same_layout d1 d2 → same_layout d2 d3 → same_layout d1 d3.
Proof.
  intros [Es Em Er Eo Ep Ed] [Es' Em' Er' Eo' Ep' Ed']. split; [congruence..| |].
  - intros sid. by rewrite Ep'.
  - intros sid st [Hst|Hst]%Ed'; [by apply Ed|by right].
Qed.

#[export] Hint Resolve same_layout_refl same_layout_trans : mamid.

Lemma same_layout_parent d d' sid st :
  same_layout d d' → mongod_states d !! sid = Some st →
  ∃ st', mongod_states d' !! sid = Some st' ∧ MongodState_ParentMongodID st' = MongodState_ParentMongodID st.
Proof.
  intros Hsame Hst. pose proof (same_parents _ _ Hsame sid) as Hpar. rewrite Hst in Hpar.
  destruct (mongod_states d' !! sid) as [st'|]; [|done]. injection Hpar as _ Hpar _. eauto.
Qed.

Lemma same_layout_keyed d d' : same_layout d d' → states_keyed d → states_keyed d'.
Proof.
  intros Hsame Hk sid st Hst. pose proof (same_parents _ _ Hsame sid) as Hpar. rewrite Hst in Hpar.
  destruct (mongod_states d !! sid) as [st0|] eqn:Hst0; [|done]. injection Hpar as -> _ _. by apply Hk.
Qed.

Lemma same_layout_ok d d' : same_layout d d' → db_ok d → db_ok d'.
Proof.
  intros Hsame Hok. pose proof (λ sid st, same_layout_parent d d' sid st Hsame) as Hpar.
  destruct Hsame as [Es Em Er _ _ _].
  split; rewrite ?Es, ?Em, ?Er; try apply Hok.
  - intros id m Hm. destruct (ok_desired _ Hok _ _ Hm) as (st & Hst & <-).
    by apply (Hpar _ st).
  - intros id m o Hm Ho. destruct (ok_observed _ Hok _ _ _ Hm Ho) as (Hne & st & Hst & <-).
    split; [done|]. by apply (Hpar _ st).
Qed.

(** A mongod whose two state rows are untouched stays effective. *)
Lemma effective_member_same d d' rid p m :
  slaves d' = slaves d → replica_sets d' = replica_sets d →
  mongod_states d' !! Mongod_DesiredStateID m = mongod_states d !! Mongod_DesiredStateID m →
  (∀ o, Mongod_ObservedStateID m = Some o → mongod_states d' !! o = mongod_states d !! o) →
  effective_member d' rid p m = effective_member d rid p m.
Proof.
  intros Es Er Ed Eo. unfold effective_member, member_join, observed_state.
  rewrite Es, Er, Ed. destruct (Mongod_ObservedStateID m) as [o|]; simpl; [|done].
  by rewrite (Eo o).
Qed.

Lemma effective_member_true d rid p m :
  effective_member d rid p m = true →
  ∃ s desired observed o,
    Mongod_ReplicaSetID m = Some rid ∧ slaves d !! Mongod_ParentSlaveID m = Some s ∧
    Slave_PersistentStorage s = p ∧
    mongod_states d !! Mongod_DesiredStateID m = Some desired ∧
    MongodState_ExecutionState desired = MongodExecutionStateRunning ∧
    Mongod_ObservedStateID m = Some o ∧ mongod_states d !! o = Some observed ∧
    MongodState_ExecutionState observed = MongodExecutionStateRunning.
Proof.
  unfold effective_member, member_join, observed_state. intros H.
  repeat (case_match; simplify_option_eq); try discriminate.
  repeat (apply andb_prop in H as [H ?]). repeat case_bool_decide; simplify_eq; try discriminate.
  by eexists _, _, _, _.
Qed.

(** No mongod becomes configured. *)
Lemma same_layout_configured d d' rid p :
  same_layout d d' → replica_set_configured_members d' rid p ⊆ replica_set_configured_members d rid p.
Proof.
  intros [Es Em Er _ _ Ed] id. unfold replica_set_configured_members. rewrite !elem_of_members_where, Em.
  intros (m & Hm & Hc). exists m. split; [done|]. revert Hc.
  unfold configured_member, member_join. rewrite Es, Er.
  destruct (Mongod_ReplicaSetID m) as [rid'|]; simpl; [|done].
  destruct (replica_sets d !! rid'); simpl; [|done].
  destruct (slaves d !! _); simpl; [|done].
  destruct (mongod_states d' !! _) as [st|] eqn:Hst; simpl; [|done].
  apply Ed in Hst as [->|Hdoomed]; [done|]. intros [_ Hnot%bool_decide_eq_true]%andb_prop.
  destruct Hnot. unfold doomed in Hdoomed. destruct Hdoomed as [-> | ->]; set_solver.
Qed.

(** ** One [UPDATE mongod_states SET execution_state] *)

Section set_execution_state.
Context (d : db) (Hok : db_ok d) (id0 : Z) (m0 : Mongod) (Hm0 : mongods d !! id0 = Some m0).

Lemma set_execution_state_layout e :
  doomed e → same_layout d (set_execution_state (Mongod_DesiredStateID m0) e d).
Proof.
  intros He. split; [done..| |]; intros sid; simpl; rewrite lookup_alter.
  - case_decide; [subst|done]. by destruct (mongod_states d !! _).
  - intros st. case_decide; [subst|by left].
    destruct (mongod_states d !! _) as [st'|]; [|done]. intros [= <-]. by right.
Qed.

(** It can take the effective status away from that mongod only. *)
Lemma set_execution_state_effective e rid p :
  replica_set_effective_members d rid p ∖ {[id0]} ⊆
  replica_set_effective_members (set_execution_state (Mongod_DesiredStateID m0) e d) rid p.
Proof.
  intros id. rewrite elem_of_difference, elem_of_singleton. unfold replica_set_effective_members.
  rewrite !elem_of_members_where. simpl. intros [(m & Hm & Heff) Hne].
  exists m. split; [done|]. rewrite <- Heff. apply effective_member_same; [done..| |].
  - simpl. rewrite lookup_alter_ne; [done|]. intros Heq. apply Hne.
    symmetry. by apply (desired_inj d Hok id0 id m0 m).
  - intros o Ho. simpl. rewrite lookup_alter_ne; [done|]. intros <-.
    by apply (observed_not_desired d Hok id id0 m m0 (Mongod_DesiredStateID m0)).
Qed.
End set_execution_state.

(** ** Orphans and destroyed mongods *)

Lemma elem_of_orphaned d sid :
  sid ∈ orphaned_desired_states d ↔
  ∃ id m, mongods d !! id = Some m ∧ Mongod_ReplicaSetID m = None ∧ Mongod_DesiredStateID m = sid.
Proof.
  unfold orphaned_desired_states. rewrite elem_of_list_to_set, list_elem_of_fmap. split.
  - intros ([id m] & -> & Hin). apply elem_of_map_to_list, map_lookup_filter_Some in Hin as [Hm Hnone].
    by exists id, m.
  - intros (id & m & Hm & Hnone & <-). exists (id, m). split; [done|].
    by apply elem_of_map_to_list, map_lookup_filter_Some.
Qed.

Lemma mark_orphaned_layout d : same_layout d (mark_orphaned d).
Proof.
  split; [done..| |]; intros sid; simpl; rewrite lookup_update_where;
    destruct (mongod_states d !! sid) as [st'|]; simpl; [|done| |done].
  - by case_decide.
  - intros st [= <-]. case_decide; [right; by right|by left].
Qed.

Lemma mark_orphaned_effective d rid p :
  db_ok d → replica_set_effective_members d rid p ⊆ replica_set_effective_members (mark_orphaned d) rid p.
Proof.
  intros Hok id. unfold replica_set_effective_members. rewrite !elem_of_members_where. simpl.
  intros (m & Hm & Heff). exists m. split; [done|].
  destruct (effective_member_true _ _ _ _ Heff) as (s & st1 & st2 & o & Hrid & _ & _ & Hst1 & _ & Ho & Hst2 & _).
  rewrite <- Heff. apply effective_member_same; [done..| |].
  - simpl. rewrite lookup_update_where, Hst1. simpl. rewrite decide_False; [done|].
    rewrite elem_of_orphaned. intros (id' & m' & Hm' & Hnone & Heq).
    assert (id' = id) as -> by by apply (desired_inj d Hok id' id m' m). congruence.
  - intros o' Ho'. assert (o' = o) as -> by congruence. simpl. rewrite lookup_update_where, Hst2. simpl.
    rewrite decide_False; [done|]. rewrite elem_of_orphaned. intros (id' & m' & Hm' & _ & Heq).
    by apply (observed_not_desired d Hok id id' m m' o).
Qed.

Lemma remove_destroyed_effective d rid p :
  db_ok d →
  replica_set_effective_members d rid p ⊆ replica_set_effective_members (remove_destroyed d) rid p.
Proof.
  intros Hok id. unfold replica_set_effective_members. rewrite !elem_of_members_where.
  intros (m & Hm & Heff). exists m.
  destruct (effective_member_true _ _ _ _ Heff)
    as (s & st1 & st2 & o & _ & _ & _ & Hst1 & Hrun1 & Ho & Hst2 & Hrun2).
  assert (id ∉ members_where d (destroyed_mongod d)) as Hnot.
  { rewrite elem_of_members_where. intros (m' & Hm' & Hdes). simplify_eq.
    unfold destroyed_mongod, observed_state in Hdes. rewrite Hst1, Ho in Hdes. simpl in Hdes.
    rewrite Hst2, Hrun2 in Hdes. simpl in Hdes. by rewrite andb_false_r in Hdes. }
  split; [by apply delete_mongods_lookup|]. rewrite <- Heff.
  destruct (ok_desired _ Hok _ _ Hm) as (st & Hst & Hpar).
  apply effective_member_same; [done..| |].
  - unfold remove_destroyed. rewrite Hst.
    apply delete_mongods_states; [done|]. split; [done|congruence].
  - intros o' Ho'. destruct (ok_observed _ Hok _ _ _ Hm Ho') as (_ & sto & Hsto & Hparo).
    unfold remove_destroyed. rewrite Hsto.
    apply delete_mongods_states; [done|]. split; [done|congruence].
Qed.

Lemma remove_destroyed_ok d : db_ok d → db_ok (remove_destroyed d).
Proof. intros Hok. by apply delete_mongods_ok. Qed.

(** ** The removal loops *)

Section removal.
Context `{ENG : Engine} `{ORM : Gorm}.
(** Panics are admitted only under [bad], which covers the failure of a statement. *)
Context (bad : Prop) (Hbad : ¬ reliable ENG ORM → bad).

Definition error_panic : goval → conn → Prop := λ v _, bad ∧ ∃ e, v = VError e.

Lemma wp_exec_or_panic f Q c :
  Q tt (with_db (f (cdb c)) c) →
  wp (res ← sql_exec f; or_panic res) Q error_panic c.
Proof.
  intros HQ. wp_steps. apply wp_sql_exec.
  - wp_steps; [by intros [] _|done].
  - intros e He. wp_steps; [done|]. intros e' [= <-]. split; eauto.
Qed.

Lemma wp_query_or_panic {A} (q : nat → db → A) Q c :
  (∀ c', cdb c' = cdb c → cbus c' = cbus c → Q (q (cstmts c) (cdb c)) c') →
  wp (res ← sql_query q; or_panic res) Q error_panic c.
Proof.
  intros HQ. wp_steps. apply wp_sql_query.
  - wp_steps; [by intros a [= <-]; apply HQ|done].
  - intros e He. wp_steps; [done|]. intros e' [= <-]. split; eauto.
Qed.

Lemma destroyMongod_spec m Q c :
  Q tt (with_db (set_execution_state (Mongod_DesiredStateID m) MongodExecutionStateDestroyed (cdb c)) c) →
  wp (destroyMongod m) Q error_panic c.
Proof. apply wp_exec_or_panic. Qed.

(** Setting a list of mongods to [destroyed] can only take those mongods out of
    the effective members. *)
Lemma destroy_range_spec (ids : Mongod → Z) ms c :
  db_ok (cdb c) → (∀ m, m ∈ ms → mongods (cdb c) !! ids m = Some m) →
  wp (range ms destroyMongod)
    (λ _ c', same_layout (cdb c) (cdb c') ∧ cbus c' = cbus c ∧
       ∀ rid p, replica_set_effective_members (cdb c) rid p ∖ list_to_set (ids <$> ms) ⊆
                replica_set_effective_members (cdb c') rid p)
    error_panic c.
Proof.
  intros Hok Hms.
  apply (wp_range ms destroyMongod (λ pre c', same_layout (cdb c) (cdb c') ∧ cbus c' = cbus c ∧
       ∀ rid p, replica_set_effective_members (cdb c) rid p ∖ list_to_set (ids <$> pre) ⊆
                replica_set_effective_members (cdb c') rid p)).
  { split_and!; [auto with mamid|done|set_solver]. }
  intros pre m todo c' -> (Hsame & Hbus & Heff). apply destroyMongod_spec. simpl.
  assert (mongods (cdb c') !! ids m = Some m) as Hm.
  { rewrite (same_mongods _ _ Hsame). apply Hms. set_solver. }
  assert (db_ok (cdb c')) as Hok' by by eapply same_layout_ok.
  split_and!; [|done|].
  - eapply same_layout_trans; [done|]. eapply set_execution_state_layout; by left.
  - intros rid p. pose proof (set_execution_state_effective _ Hok' _ _ Hm MongodExecutionStateDestroyed rid p).
    specialize (Heff rid p). rewrite fmap_app, list_to_set_app_L. simpl. set_solver.
Qed.

(** The rows of the removal query belong to the replica set and persistence. *)
Lemma removal_candidate_other d rid p m rid' p' :
  removal_candidate d rid p m = true → (rid', p') ≠ (rid, p) →
  effective_member d rid' p' m = false.
Proof.
  intros Hc Hne. apply not_true_iff_false. intros Heff.
  destruct (effective_member_true _ _ _ _ Heff) as (s & _ & _ & _ & Hrid & Hs & Hp & _).
  unfold removal_candidate in Hc. rewrite Hs in Hc.
  repeat (apply andb_prop in Hc as [Hc ?]). repeat case_bool_decide; try discriminate.
  apply Hne. congruence.
Qed.

(** Processing one (replica set, persistence): it costs at most the deletable
    count there and nothing anywhere else. *)
Lemma removeExcessOf_spec row p c :
  db_ok (cdb c) →
  wp (removeExcessOf row p)
    (λ _ c', same_layout (cdb c) (cdb c') ∧ cbus c' = cbus c ∧
       Z.of_nat (size (effective (cdb c) (replicaSetID row) p)) - Z.max 0 (deletable p row) ≤
         Z.of_nat (size (effective (cdb c') (replicaSetID row) p)) ∧
       ∀ rid p', (rid, p') ≠ (replicaSetID row, p) →
         effective (cdb c) rid p' ⊆ effective (cdb c') rid p')
    error_panic c.
Proof.
  intros Hok. unfold removeExcessOf. case_decide as Hdel.
  { wp_steps. split_and!; [auto with mamid|done|lia|done]. }
  wp_step. apply wp_query_or_panic. intros c1 Hc1 Hbus1.
  set (ms := take _ _).
  assert (∀ m, m ∈ ms → mongods (cdb c) !! Mongod_ID m = Some m ∧
            removal_candidate (cdb c) (replicaSetID row) (PersistentStorage p) m = true) as Hms.
  { intros m [i Hi]%list_elem_of_lookup. apply lookup_take_Some in Hi as [Hi _].
    apply list_elem_of_lookup_2, elem_of_order_by, elem_of_select in Hi as (id & Hid & Hc).
    by rewrite (ok_mongod_key _ Hok _ _ Hid). }
  rewrite <- Hc1 in Hms, Hok |- *. rewrite <- Hbus1.
  eapply wp_mono; [apply (destroy_range_spec Mongod_ID ms)|intros _ c' (Hsame & Hbus & Heff)|done].
  { done. } { intros m Hm. by apply Hms. }
  split_and!; [done|done| |].
  - specialize (Heff (replicaSetID row) (PersistentStorage p)). apply subseteq_size in Heff.
    rewrite size_difference_alt in Heff.
    assert (size (effective (cdb c1) (replicaSetID row) p ∩ list_to_set (Mongod_ID <$> ms))
            ≤ size (list_to_set (C := gset Z) (Mongod_ID <$> ms)))%nat by (apply subseteq_size; set_solver).
    assert (size (list_to_set (C := gset Z) (Mongod_ID <$> ms)) ≤ length ms)%nat.
    { rewrite <- (length_fmap Mongod_ID ms). by apply size_list_to_set_le. }
    assert (length ms ≤ Z.to_nat (deletable p row))%nat by (unfold ms; rewrite length_take; lia).
    lia.
  - intros rid p' Hne id Hid. apply Heff. rewrite elem_of_difference. split; [done|].
    rewrite elem_of_list_to_set, list_elem_of_fmap. intros (m & -> & Hm).
    apply Hms in Hm as [Hm Hc]. unfold replica_set_effective_members in Hid.
    apply elem_of_members_where in Hid as (m' & Hm' & Heff'). simplify_eq.
    rewrite (removal_candidate_other _ _ _ _ _ _ Hc) in Heff'; [done|].
    intros [= -> Hp]. apply Hne. by destruct p, p'.
Qed.

(** What the whole phase guarantees relative to the database it started from. *)
Definition kept (d1 d : db) : Prop := ∀ rid r p,
  replica_sets d1 !! rid = Some r →
  Z.min (Z.of_nat (size (effective d1 rid p))) (member_count p r) ≤ Z.of_nat (size (effective d rid p)).

Lemma kept_refl d : kept d d.
Proof. intros rid r p _. lia. Qed.

Lemma deletable_excess_row d r p :
  deletable p (excess_row d r) =
  Z.of_nat (size (effective d (ReplicaSet_ID r) p)) - member_count p r.
Proof. by destruct p. Qed.

(** State of the loops: replica sets and persistences not yet processed have
    all the effective members they had. *)
Definition removal_inv (c0 : conn) (untouched : Z → persistence → Prop) (c' : conn) : Prop :=
  same_layout (cdb c0) (cdb c') ∧ cbus c' = cbus c0 ∧ kept (cdb c0) (cdb c') ∧
  ∀ rid p, untouched rid p → effective (cdb c0) rid p ⊆ effective (cdb c') rid p.

Lemma removeExcessOf_inv c0 untouched r p c :
  db_ok (cdb c0) → replica_sets (cdb c0) !! ReplicaSet_ID r = Some r →
  untouched (ReplicaSet_ID r) p → removal_inv c0 untouched c →
  wp (removeExcessOf (excess_row (cdb c0) r) p)
    (λ _, removal_inv c0 (λ rid p', untouched rid p' ∧ (rid, p') ≠ (ReplicaSet_ID r, p))) error_panic c.
Proof.
  intros Hok Hr Hun (Hsame & Hbus & Hkept & Hall).
  assert (db_ok (cdb c)) as Hokc by by eapply same_layout_ok.
  eapply wp_mono; [by apply removeExcessOf_spec| |done].
  intros _ c' (Hsame' & Hbus' & Hcount & Hother). rewrite deletable_excess_row in Hcount. simpl in *.
  split_and!; [by eapply same_layout_trans|congruence| |].
  - intros rid r' p' Hr'. specialize (Hkept rid r' p' Hr').
    destruct (decide ((rid, p') = (ReplicaSet_ID r, p))) as [[= -> ->]|Hne].
    + simplify_eq. specialize (Hall (ReplicaSet_ID r) p Hun). apply subseteq_size in Hall. lia.
    + specialize (Hother rid p' Hne). apply subseteq_size in Hother. lia.
  - intros rid p' [Hun' Hne]. etransitivity; [by apply Hall|by apply Hother].
Qed.

Lemma removal_inv_weaken c0 (U U' : Z → persistence → Prop) c :
  (∀ rid p, U' rid p → U rid p) → removal_inv c0 U c → removal_inv c0 U' c.
Proof. intros HU (? & ? & ? & Hall). split_and!; [done..|]. intros rid p Hp. by apply Hall, HU. Qed.

Lemma removeExcess_spec rsl c :
  db_ok (cdb c) → NoDup (ReplicaSet_ID <$> rsl) →
  (∀ r, r ∈ rsl → replica_sets (cdb c) !! ReplicaSet_ID r = Some r) →
  wp (removeExcess (excess_row (cdb c) <$> rsl))
    (λ _ c', same_layout (cdb c) (cdb c') ∧ cbus c' = cbus c ∧ kept (cdb c) (cdb c')) error_panic c.
Proof.
  intros Hok Hnd Hrs. unfold removeExcess.
  pose (I := λ pre : list excessMongodsRow, removal_inv c (λ rid _, rid ∉ replicaSetID <$> pre)).
  eapply wp_mono; [apply (wp_range _ _ I)| |done].
  - split_and!; [auto with mamid|done|apply kept_refl|done].
  - intros pre x todo c1 Heq Hinv.
    assert (∃ r, x = excess_row (cdb c) r ∧ replica_sets (cdb c) !! ReplicaSet_ID r = Some r) as (r & -> & Hr).
    { assert (x ∈ excess_row (cdb c) <$> rsl) as (r & -> & Hin)%list_elem_of_fmap by (rewrite Heq; set_solver).
      eauto. }
    assert (ReplicaSet_ID r ∉ replicaSetID <$> pre) as Hfresh.
    { assert (ReplicaSet_ID <$> rsl = replicaSetID <$> (excess_row (cdb c) <$> rsl)) as E1
        by by rewrite <- list_fmap_compose.
      rewrite E1, Heq, fmap_app in Hnd. apply NoDup_app in Hnd as (_ & Hdis & _).
      intros Hin. apply (Hdis _ Hin). simpl. set_solver. }
    simpl. wp_step. eapply wp_mono; [by apply (removeExcessOf_inv c (λ rid _, rid ∉ replicaSetID <$> pre))| |done].
    intros [] c2 Hinv2. wp_step. eapply wp_mono; [refine (removeExcessOf_inv c _ r _ c2 Hok Hr _ Hinv2)| |done].
    { split; [done|]. by intros [=]. }
    intros [] c3 Hinv3. wp_step. eapply removal_inv_weaken; [|exact Hinv3].
    intros rid p. simpl. rewrite fmap_app, not_elem_of_app. intros [Hpre Hx]. split_and!; [done| |];
      intros [= -> _]; apply Hx; simpl; set_solver.
  - intros _ c' (Hsame & Hbus & Hkept & _). done.
Qed.
End removal.
