(* ===== verification/AllocatorAdd.v ===== *)
(** * The allocator's placement phase

    The loop that repairs degraded replica sets refines a step relation on
    databases, [alloc_step]: one step places one new mongod.  Safety properties
    are invariants of the relation, proved by induction on reachability; the loop
    itself is shown to terminate and to stop only when no replica set of the
    persistence is degraded or the remaining ones have no suitable slave. *)

From stdpp Require Import base gmap sets list strings sorting fin_maps relations.
From Stdlib Require Import QArith Lia.
From S2P Require Import Prelude Msp Model Database Orm Ports Allocator AllocatorRemoval.

Open Scope Z_scope.
Set Warnings "-clear-no-such-hyp".

(** ** One placement *)

(** The rows [spawnMongodOnSlave] leaves behind. *)
Definition new_mongod (mid sid : Z) (port : PortNumber) (s : Slave) (r : ReplicaSet) : Mongod :=
  mkMongod mid port (ReplicaSet_Name r) None None (Slave_ID s) (NullIntValue (ReplicaSet_ID r)) sid None.
Definition new_state (mid sid : Z) (r : ReplicaSet) : MongodState :=
  mkMongodState sid mid (ReplicaSet_ShardingRole r) MongodExecutionStateRunning.
Definition spawn_db (d : db) (mid sid : Z) (port : PortNumber) (s : Slave) (r : ReplicaSet) : db :=
  set_mongod_states (<[sid := new_state mid sid r]> (mongod_states d))
    (set_mongods (<[mid := new_mongod mid sid port s r]> (mongods d)) d).

(** The keys are fresh and the port is one of the slave's that nobody uses. *)
Record fresh_slot (d : db) (mid sid : Z) (port : PortNumber) (s : Slave) : Prop := {
  fresh_mongod : mongods d !! mid = None;
  fresh_state : mongod_states d !! sid = None;
  fresh_positive : 0 < sid;
  fresh_range : Slave_MongodPortRangeBegin s ≤ port < Slave_MongodPortRangeEnd s;
  fresh_port id m : mongods d !! id = Some m → Mongod_ParentSlaveID m = Slave_ID s → Mongod_Port m ≠ port
}.

(** One iteration that places a member of persistence [p]. *)
Inductive alloc_step (p : persistence) (d : db) : db → Prop :=
  | alloc_step_spawn r s mid sid port :
      replica_sets d !! ReplicaSet_ID r = Some r → slaves d !! Slave_ID s = Some s →
      member_count p r ≠ 0 → configured_count d p r < member_count p r →
      suitable_slave d p (ReplicaSet_ID r) s = true →
      (∀ s', slaves d !! Slave_ID s' = Some s' → suitable_slave d p (ReplicaSet_ID r) s' = true →
         key_le (suitable_key d s) (suitable_key d s')) →
      fresh_slot d mid sid port s →
      alloc_step p d (spawn_db d mid sid port s r).

(** What the two sub-queries of [suitable_slave] say, positively. *)
Record suitable (d : db) (p : persistence) (rid : Z) (s : Slave) : Prop := {
  suitable_persistence : Slave_PersistentStorage s = PersistentStorage p;
  suitable_free : 0 < free_mongods d s;
  suitable_active : Slave_ConfiguredState s = SlaveStateActive;
  suitable_slave_other id m : mongods d !! id = Some m → Mongod_ReplicaSetID m = Some rid →
    Mongod_ParentSlaveID m ≠ Slave_ID s;
  suitable_risk_group g : Slave_RiskGroupID s = Some g →
    ∀ id m s', mongods d !! id = Some m → Mongod_ReplicaSetID m = Some rid →
      slaves d !! Mongod_ParentSlaveID m = Some s' → ∃ g', Slave_RiskGroupID s' = Some g' ∧ g' ≠ g
}.

Lemma elem_of_member_mongods d rid m :
  m ∈ member_mongods d rid ↔ ∃ id, mongods d !! id = Some m ∧ Mongod_ReplicaSetID m = Some rid.
Proof.
  unfold member_mongods. rewrite list_elem_of_fmap. split.
  - intros ([id m'] & -> & Hin). apply elem_of_map_to_list, map_lookup_filter_Some in Hin. by exists id.
  - intros (id & Hm & Hr). exists (id, m). split; [done|]. by apply elem_of_map_to_list, map_lookup_filter_Some.
Qed.

Lemma sql_not_in_true v l :
  sql_true (sql_not_in (Some v) l) = true ↔ (Some v ∉ l) ∧ (None ∉ l).
Proof.
  destruct l as [|x l]; simpl; [split; [set_solver|done]|].
  repeat case_decide; simpl; split; set_solver.
Qed.

Lemma elem_of_hosting_slaves d rid x :
  x ∈ hosting_slaves d rid ↔
  ∃ id m, mongods d !! id = Some m ∧ Mongod_ReplicaSetID m = Some rid ∧ x = Some (Mongod_ParentSlaveID m).
Proof.
  unfold hosting_slaves. rewrite list_elem_of_fmap. split.
  - intros (m & -> & (id & Hm & Hr)%elem_of_member_mongods). eauto.
  - intros (id & m & Hm & Hr & ->). exists m. split; [done|]. apply elem_of_member_mongods. eauto.
Qed.

Lemma elem_of_hosting_risk_groups d rid x :
  x ∈ hosting_risk_groups d rid ↔
  ∃ id m s, mongods d !! id = Some m ∧ Mongod_ReplicaSetID m = Some rid ∧
            slaves d !! Mongod_ParentSlaveID m = Some s ∧ x = Slave_RiskGroupID s.
Proof.
  unfold hosting_risk_groups. rewrite list_elem_of_omap. split.
  - intros (m & (id & Hm & Hr)%elem_of_member_mongods & Hx).
    destruct (slaves d !! _) as [s|] eqn:Hs; [|done]. simpl in Hx. injection Hx as <-. by exists id, m, s.
  - intros (id & m & s & Hm & Hr & Hs & ->). exists m. rewrite Hs. split; [|done].
    apply elem_of_member_mongods. eauto.
Qed.

Lemma suitable_slave_spec d p rid s : suitable_slave d p rid s = true ↔ suitable d p rid s.
Proof.
  unfold suitable_slave. rewrite !andb_true_iff, orb_true_iff, sql_not_in_true, !bool_decide_eq_true.
  split.
  - intros [[[[Hp Hf] Ha] Hrisk] [Hhost _]]. split; [done..| |].
    + intros id m Hm Hr Heq. apply Hhost, elem_of_hosting_slaves. exists id, m. by rewrite Heq.
    + intros g Hg id m s' Hm Hr Hs'. rewrite Hg, sql_not_in_true in Hrisk.
      destruct Hrisk as [[Hnot Hnone]|?]; [|done].
      destruct (Slave_RiskGroupID s') as [g'|] eqn:Hg'.
      * exists g'. split; [done|]. intros ->. apply Hnot, elem_of_hosting_risk_groups. exists id, m, s'. done.
      * exfalso. apply Hnone, elem_of_hosting_risk_groups. exists id, m, s'. done.
  - intros [Hp Hf Ha Hhost Hrisk]. split_and!; [done..| | |].
    + destruct (Slave_RiskGroupID s) as [g|]; [left|by right]. rewrite sql_not_in_true. split.
      * intros (id & m & s' & Hm & Hr & Hs' & Hg)%elem_of_hosting_risk_groups.
        destruct (Hrisk g eq_refl id m s' Hm Hr Hs') as (g' & Hg' & Hne). congruence.
      * intros (id & m & s' & Hm & Hr & Hs' & Hg)%elem_of_hosting_risk_groups.
        destruct (Hrisk g eq_refl id m s' Hm Hr Hs') as (g' & Hg' & Hne). congruence.
    + intros (id & m & Hm & Hr & [= Heq])%elem_of_hosting_slaves. by apply (Hhost id m).
    + by intros (id & m & Hm & Hr & [=])%elem_of_hosting_slaves.
Qed.

(** ** What a placement does to the views *)

Section spawn.
Context (d : db) (Hok : db_ok d) (mid sid : Z) (port : PortNumber) (s : Slave) (r : ReplicaSet)
  (Hr : replica_sets d !! ReplicaSet_ID r = Some r) (Hs : slaves d !! Slave_ID s = Some s)
  (Hfresh : fresh_slot d mid sid port s).
Abbreviation d' := (spawn_db d mid sid port s r).

Lemma spawn_mongods id m :
  mongods d' !! id = Some m ↔ (id = mid ∧ m = new_mongod mid sid port s r) ∨ mongods d !! id = Some m.
Proof.
  simpl. rewrite lookup_insert_Some. split; [naive_solver|].
  intros [[-> ->]|Hm]; [by left|right]. split; [|done]. intros <-.
  by rewrite (fresh_mongod _ _ _ _ _ Hfresh) in Hm.
Qed.

Lemma spawn_states id st : mongod_states d !! id = Some st → mongod_states d' !! id = Some st.
Proof.
  intros Hst. simpl. rewrite lookup_insert_ne; [done|]. intros <-.
  by rewrite (fresh_state _ _ _ _ _ Hfresh) in Hst.
Qed.

Lemma spawn_new_rs : Mongod_ReplicaSetID (new_mongod mid sid port s r) = Some (ReplicaSet_ID r).
Proof. done. Qed.

Lemma spawn_ok : db_ok d'.
Proof.
  split; try apply Hok.
  - intros id m [[-> ->]|Hm]%spawn_mongods; [done|by apply (ok_mongod_key d Hok)].
  - intros id m [[-> ->]|Hm]%spawn_mongods; simpl; [by rewrite Hs|by apply (ok_parent d Hok id)].
  - intros id m rid [[-> ->]|Hm]%spawn_mongods; [|by apply (ok_rs d Hok id)].
    rewrite spawn_new_rs. intros [= <-]. simpl. by rewrite Hr.
  - intros id m [[-> ->]|Hm]%spawn_mongods.
    + simpl. rewrite lookup_insert_eq. by eexists.
    + destruct (ok_desired _ Hok _ _ Hm) as (st & Hst & Hpar). eauto using spawn_states.
  - intros id m o [[-> ->]|Hm]%spawn_mongods; [done|]. intros Ho.
    destruct (ok_observed _ Hok _ _ _ Hm Ho) as (Hne & st & Hst & Hpar). eauto using spawn_states.
Qed.

Lemma spawn_slots : slots_distinct d → slots_distinct d'.
Proof.
  intros Hslots id1 id2 m1 m2 [[-> ->]|H1]%spawn_mongods [[-> ->]|H2]%spawn_mongods Hpar Hport;
    [done| | |by eapply Hslots]; simpl in *; exfalso.
  - by apply (fresh_port _ _ _ _ _ Hfresh id2 m2).
  - by apply (fresh_port _ _ _ _ _ Hfresh id1 m1).
Qed.

(** A view over [mongods] gains the new row if the view selects it. *)
Lemma spawn_members_where (P P' : Mongod → bool) :
  (∀ id m, mongods d !! id = Some m → P' m = P m) →
  members_where d' P' =
  if P' (new_mongod mid sid port s r) then {[mid]} ∪ members_where d P else members_where d P.
Proof.
  intros HP. apply leibniz_equiv. intros id. rewrite elem_of_members_where.
  setoid_rewrite spawn_mongods.
  assert ((∃ m, mongods d !! id = Some m ∧ P' m = true) ↔ id ∈ members_where d P) as Hold.
  { rewrite elem_of_members_where. split; intros (m & Hm & HPm); exists m; (split; [done|]);
      [rewrite <- (HP id m Hm)|rewrite (HP id m Hm)]; done. }
  destruct (P' (new_mongod mid sid port s r)) eqn:Hnew.
  - rewrite elem_of_union, elem_of_singleton, <- Hold. split.
    + intros (m & [[-> ->]|Hm] & HPm); [by left|right; eauto].
    + intros [->|(m & Hm & HPm)]; eauto.
  - rewrite <- Hold. split; [|naive_solver].
    intros (m & [[-> ->]|Hm] & HPm); [congruence|eauto].
Qed.

Lemma spawn_count (P P' : Mongod → bool) :
  (∀ id m, mongods d !! id = Some m → P' m = P m) →
  Z.of_nat (size (members_where d' P')) =
  Z.of_nat (size (members_where d P)) + (if P' (new_mongod mid sid port s r) then 1 else 0).
Proof.
  intros HP. rewrite (spawn_members_where P P' HP). destruct (P' _); [|lia].
  rewrite size_union, size_singleton; [lia|]. rewrite disjoint_singleton_l, elem_of_members_where.
  intros (m & Hm & _). by rewrite (fresh_mongod _ _ _ _ _ Hfresh) in Hm.
Qed.

Lemma spawn_join id m : mongods d !! id = Some m → member_join d' m = member_join d m.
Proof.
  intros Hm. destruct (ok_desired _ Hok _ _ Hm) as (st & Hst & _).
  unfold member_join. by rewrite (spawn_states _ _ Hst), Hst.
Qed.

Lemma spawn_observed id m : mongods d !! id = Some m → observed_state d' m = observed_state d m.
Proof.
  intros Hm. unfold observed_state. destruct (Mongod_ObservedStateID m) as [o|] eqn:Ho; [|done].
  change (mongod_states d' !! o = mongod_states d !! o).
  destruct (ok_observed _ Hok _ _ _ Hm Ho) as (_ & st & Hst & _). by rewrite (spawn_states _ _ Hst), Hst.
Qed.

Lemma spawn_current s' :
  current_mongods d' s' = current_mongods d s' + (if decide (Slave_ID s' = Slave_ID s) then 1 else 0).
Proof.
  unfold current_mongods. rewrite (spawn_count (hosted_on (Slave_ID s')) (hosted_on (Slave_ID s'))); [|done].
  unfold hosted_on at 2. simpl. f_equal. case_decide as Heq.
  - by rewrite bool_decide_true.
  - by rewrite bool_decide_false by congruence.
Qed.

Lemma spawn_effective rid p :
  replica_set_effective_members d' rid p = replica_set_effective_members d rid p.
Proof.
  unfold replica_set_effective_members. rewrite (spawn_members_where (effective_member d rid p)).
  - unfold effective_member, observed_state. simpl. by destruct (member_join _ _) as [[[? ?] ?]|].
  - intros id m Hm. unfold effective_member. by rewrite (spawn_join id m Hm), (spawn_observed id m Hm).
Qed.

Lemma spawn_configured p r' :
  Slave_ConfiguredState s = SlaveStateActive →
  configured_count d' p r' =
  configured_count d p r' +
  (if decide (ReplicaSet_ID r' = ReplicaSet_ID r ∧ Slave_PersistentStorage s = PersistentStorage p) then 1 else 0).
Proof.
  intros Hactive. unfold configured_count, replica_set_configured_members.
  rewrite (spawn_count (configured_member d (ReplicaSet_ID r') (PersistentStorage p))).
  - f_equal. unfold configured_member, member_join. rewrite spawn_new_rs. simpl.
    rewrite Hr, Hs, lookup_insert_eq. simpl. rewrite Hactive.
    destruct (decide (ReplicaSet_ID r' = ReplicaSet_ID r ∧ _)) as [[-> ->]|Hne];
      [by rewrite !bool_decide_true by done|].
    destruct (decide (ReplicaSet_ID r = ReplicaSet_ID r')) as [He|];
      [|by rewrite (bool_decide_false (ReplicaSet_ID r = ReplicaSet_ID r'))].
    rewrite (bool_decide_false (Slave_PersistentStorage s = _)); [by rewrite andb_false_r|].
    intros Hp. by apply Hne.
  - intros id m Hm. unfold configured_member. by rewrite (spawn_join id m Hm).
Qed.

(** Placements never make a slave suitable that was not. *)
Lemma spawn_suitable p rid s' : suitable d' p rid s' → suitable d p rid s'.
Proof.
  intros [Hp Hf Ha Hhost Hrisk]. split; [done| |done| |].
  - unfold free_mongods in *. rewrite spawn_current in Hf. case_decide; lia.
  - intros id m Hm. apply (Hhost id m), spawn_mongods. by right.
  - intros g Hg id m s2 Hm. apply (Hrisk g Hg id m s2), spawn_mongods. by right.
Qed.
End spawn.

(** ** The code refines the step relation *)

(** A replica set that is given up: it is degraded and no slave suits it. *)
Definition stuck (d : db) (p : persistence) (rid : Z) : Prop :=
  (∃ r, replica_sets d !! rid = Some r ∧ configured_count d p r < member_count p r) ∧
  ∀ s, slaves d !! Slave_ID s = Some s → suitable_slave d p rid s = false.

Definition step_any (d d' : db) : Prop := ∃ p, alloc_step p d d'.

Lemma step_tables p d d' : alloc_step p d d' → slaves d' = slaves d ∧ replica_sets d' = replica_sets d.
Proof. by intros []. Qed.

Lemma step_ok p d d' : alloc_step p d d' → db_ok d → db_ok d'.
Proof. intros [] Hok. by apply spawn_ok. Qed.

Lemma step_slots p d d' : alloc_step p d d' → slots_distinct d → slots_distinct d'.
Proof. intros [] Hslots. by apply spawn_slots. Qed.

Lemma step_suitable p d d' p' rid s :
  alloc_step p d d' → suitable_slave d' p' rid s = true → suitable_slave d p' rid s = true.
Proof. intros []. rewrite !suitable_slave_spec. by eapply spawn_suitable. Qed.

(** A placement of one persistence does not touch the counts of the other, nor
    those of a replica set no slave suits. *)
Lemma step_stuck p d d' p' rid : db_ok d → alloc_step p d d' → stuck d p' rid → stuck d' p' rid.
Proof.
  intros Hok Hstep [(r' & Hr' & Hlow) Hnone].
  destruct (step_tables _ _ _ Hstep) as [Es Er]. split.
  - exists r'. rewrite Er. split; [done|].
    destruct Hstep as [r s mid sid port Hr Hs Hc0 Hc Hsuit Hbest Hfresh].
    pose proof Hsuit as [Hpers _ Hact _ _]%suitable_slave_spec.
    rewrite spawn_configured by done. case_decide as Hcase; [exfalso|lia].
    destruct Hcase as [Hid Hp]. destruct (ok_rs_key _ Hok _ _ Hr') as [Hk _].
    assert (p' = p) as -> by (rewrite Hpers in Hp; by destruct p, p').
    specialize (Hnone s Hs). rewrite <- Hk, Hid in Hnone. congruence.
  - intros s Hs. rewrite Es in Hs. apply not_true_is_false. intros Ht.
    apply (step_suitable _ _ _ _ _ _ Hstep) in Ht. rewrite (Hnone s Hs) in Ht. done.
Qed.

(** Ports in use, as the query returns them. *)
Section used_ports.
Context `{ENG : Engine} (d : db) (Hok : db_ok d) (s : Slave) (n : nat).

Lemma elem_of_usedPorts x :
  x ∈ usedPorts_query s n d ↔
  ∃ id m, mongods d !! id = Some m ∧ Mongod_ParentSlaveID m = Slave_ID s ∧ Mongod_Port m = x.
Proof.
  unfold usedPorts_query. rewrite merge_sort_Permutation, list_elem_of_fmap. unfold hosted_on. split.
  - intros (m & -> & (id & Hm & Hh%bool_decide_eq_true)%elem_of_select). eauto.
  - intros (id & m & Hm & Hh & <-). exists m. split; [done|]. apply elem_of_select.
    exists id. by rewrite bool_decide_true.
Qed.

Lemma usedPorts_sorted : StronglySorted Z.le (usedPorts_query s n d).
Proof. apply (StronglySorted_merge_sort Z.le). Qed.

Lemma usedPorts_strict : slots_distinct d → StronglySorted Z.lt (usedPorts_query s n d).
Proof.
  intros Hslots. assert (NoDup (usedPorts_query s n d)) as Hnd.
  { unfold usedPorts_query. rewrite merge_sort_Permutation. unfold select.
    rewrite eng_order_perm, <- list_fmap_compose. apply NoDup_fmap_2_strong; [|apply NoDup_map_to_list].
    intros [i m1] [j m2] H1%elem_of_map_to_list H2%elem_of_map_to_list Heq. unfold hosted_on in *.
    apply map_lookup_filter_Some in H1 as [H1 Hh1%bool_decide_eq_true], H2 as [H2 Hh2%bool_decide_eq_true].
    simpl in *. assert (i = j) as ->; [|by simplify_eq].
    by apply (Hslots i j m1 m2); [..|congruence|]. }
  pose proof usedPorts_sorted as Hs. induction Hs as [|x l Hs IH Hall]; [constructor|].
  apply NoDup_cons in Hnd as [Hx Hnd]. constructor; [by apply IH|].
  apply Forall_forall. intros y Hy. eapply Forall_forall in Hall; [|done].
  assert (x ≠ y) by (by intros ->). lia.
Qed.

Lemma usedPorts_length : Z.of_nat (length (usedPorts_query s n d)) = current_mongods d s.
Proof.
  unfold usedPorts_query. rewrite merge_sort_Permutation. unfold select.
  rewrite eng_order_perm, length_fmap, length_fmap, length_map_to_list.
  unfold current_mongods, members_where. by rewrite size_dom.
Qed.

Lemma usedPorts_room :
  slots_distinct d → slaves d !! Slave_ID s = Some s → 0 < free_mongods d s →
  ∃ port, findUnusedPort (usedPorts_query s n d) (Slave_MongodPortRangeBegin s)
            (Slave_MongodPortRangeEnd s) = Some (port, true).
Proof.
  intros Hslots Hs Hfree. destruct (ok_slave_ports _ Hok _ _ Hs).
  apply findUnusedPort_room; [by apply usedPorts_strict|done|done|].
  rewrite usedPorts_length. unfold free_mongods, max_mongods in Hfree. lia.
Qed.
End used_ports.

Section loop.
Context `{ENG : Engine} `{ORM : Gorm}.
Context (bad : Prop) (Hbad : ¬ reliable ENG ORM → bad).

Lemma spawnMongodOnSlave_spec s r Q c :
  db_ok (cdb c) → slaves (cdb c) !! Slave_ID s = Some s → 0 < free_mongods (cdb c) s →
  (¬ slots_distinct (cdb c) → bad) →
  (∀ mid sid port c', fresh_slot (cdb c) mid sid port s →
     cdb c' = spawn_db (cdb c) mid sid port s r → cbus c' = cbus c →
     Q (Ok (new_mongod mid sid port s r)) c') →
  (∀ e c', bad → Q (Err e) c') →
  wp (spawnMongodOnSlave s r) Q (error_panic bad) c.
Proof.
  intros Hok Hs Hfree Hslots HOk HErr. unfold spawnMongodOnSlave.
  destruct (ok_slave_ports _ Hok _ _ Hs) as [Hbegin Hend].
  wp_step. apply wp_sql_query; [|by intros e He; wp_steps; [|intros ? [= <-]; split; eauto]].
  wp_steps; [|done]. intros used [= <-].
  pose proof (findUnusedPort_sound _ _ _ (usedPorts_sorted (cdb c) s (cstmts c)) Hbegin Hend) as Hsound.
  pose proof (usedPorts_room (cdb c) Hok s (cstmts c)) as Hroom.
  destruct (findUnusedPort _ _ _) as [[port [|]]|]; [| |done].
  2:{ wp_steps. apply HErr, Hslots. intros Hd. by destruct (Hroom Hd Hs Hfree). }
  destruct Hsound as [Hrange Hunused]. wp_step.
  apply wp_orm_create; [done|done| |by intros e He; wp_steps; [|intros ? [= <-]; split; eauto]].
  intros mid Hmid Hmfresh. wp_steps; [|done]. intros m [= <-].
  wp_step. apply wp_orm_create; [done|done| |by intros e He; wp_steps; [|intros ? [= <-]; split; eauto]].
  intros sid Hsid Hsfresh. wp_steps; [|done]. intros st [= <-].
  wp_step. apply wp_orm_update; [|by intros e He; wp_steps; split; eauto].
  wp_steps. apply (HOk mid sid port); [| |done].
  - split; [done..|]. intros id m Hm Hpar Hport. apply Hunused, elem_of_usedPorts. eauto.
  - simpl. unfold spawn_db, set_mongod_states, set_mongods; simpl. f_equal. by rewrite alter_insert_eq.
Qed.

(** The head of the priority queue: some degraded replica set, if any. *)
Lemma wp_degradedHead p by_persistence Q c :
  db_ok (cdb c) →
  (∀ r c', replica_sets (cdb c) !! ReplicaSet_ID r = Some r →
     degraded (cdb c) p by_persistence r = true → cdb c' = cdb c → cbus c' = cbus c → Q (Some r) c') →
  (∀ c', (∀ rid r, replica_sets (cdb c) !! rid = Some r → degraded (cdb c) p by_persistence r = false) →
     cdb c' = cdb c → cbus c' = cbus c → Q None c') →
  wp (res ← degradedHead p by_persistence; or_panic res) Q (error_panic bad) c.
Proof.
  intros Hok Hsome Hnone. unfold degradedHead. apply wp_query_or_panic; [done|]. intros c' Hc Hb.
  pose proof (order_by_head (degraded_key (cdb c) p)
    (select (cstmts c) (degraded (cdb c) p by_persistence) (replica_sets (cdb c)))) as Hhead.
  destruct (head _) as [r|].
  - destruct Hhead as [(id & Hid & Hdeg)%elem_of_select _]. apply Hsome; [|done..].
    by destruct (ok_rs_key _ Hok _ _ Hid) as [-> _].
  - apply Hnone; [|done..]. intros rid r Hr. apply not_true_is_false. intros Hdeg.
    assert (r ∈ select (cstmts c) (degraded (cdb c) p by_persistence) (replica_sets (cdb c))) as Hin
      by (apply elem_of_select; eauto).
    rewrite Hhead in Hin. by apply not_elem_of_nil in Hin.
Qed.

(** The least busy suitable slave, if any is suitable. *)
Lemma wp_leastBusySuitableSlave p r Q c :
  db_ok (cdb c) →
  (∀ s c', slaves (cdb c) !! Slave_ID s = Some s → suitable_slave (cdb c) p (ReplicaSet_ID r) s = true →
     (∀ s', slaves (cdb c) !! Slave_ID s' = Some s' → suitable_slave (cdb c) p (ReplicaSet_ID r) s' = true →
        key_le (suitable_key (cdb c) s) (suitable_key (cdb c) s')) →
     cdb c' = cdb c → cbus c' = cbus c → Q (Some s) c') →
  (∀ c', (∀ s, slaves (cdb c) !! Slave_ID s = Some s → suitable_slave (cdb c) p (ReplicaSet_ID r) s = false) →
     cdb c' = cdb c → cbus c' = cbus c → Q None c') →
  wp (res ← leastBusySuitableSlave p r; or_panic res) Q (error_panic bad) c.
Proof.
  intros Hok Hsome Hnone. unfold leastBusySuitableSlave. apply wp_query_or_panic; [done|]. intros c' Hc Hb.
  set (P := suitable_slave (cdb c) p (ReplicaSet_ID r)).
  pose proof (order_by_head (suitable_key (cdb c)) (select (cstmts c) P (slaves (cdb c)))) as Hhead.
  assert (∀ s, slaves (cdb c) !! Slave_ID s = Some s → P s = true →
    s ∈ select (cstmts c) P (slaves (cdb c))) as Hin by (intros; apply elem_of_select; eauto).
  destruct (head _) as [s|].
  - destruct Hhead as [(id & Hid & Hsuit)%elem_of_select Hbest].
    apply Hsome; [by rewrite (ok_slave_key _ Hok _ _ Hid)|done| |done..].
    intros s' Hs' Hsuit'. by apply Hbest, Hin.
  - apply Hnone; [|done..]. intros s Hs. apply not_true_is_false. intros Hsuit.
    specialize (Hin s Hs Hsuit). rewrite Hhead in Hin. by apply not_elem_of_nil in Hin.
Qed.
End loop.

(** ** Termination measure *)

Definition not_given_up (d : db) (by_persistence : list Z) : nat :=
  size (filter (λ kv : Z * ReplicaSet, kv.1 ∉ by_persistence) (replica_sets d)).

Definition loop_measure (d : db) (by_persistence : list Z) : nat := not_given_up d by_persistence + total_free d.

Lemma loop_measure_fuel d by_persistence : (loop_measure d by_persistence < allocation_fuel d)%nat.
Proof.
  unfold loop_measure, allocation_fuel, not_given_up.
  assert (size (filter (λ kv : Z * ReplicaSet, kv.1 ∉ by_persistence) (replica_sets d)) ≤ size (replica_sets d))%nat; [|lia].
  apply map_size_filter.
Qed.

Lemma give_up_measure d by_persistence r :
  db_ok d → replica_sets d !! ReplicaSet_ID r = Some r → ReplicaSet_ID r ∉ by_persistence →
  (loop_measure d (by_persistence ++ [ReplicaSet_ID r]) < loop_measure d by_persistence)%nat.
Proof.
  intros Hok Hr Hnot. unfold loop_measure, not_given_up.
  enough (size (filter (λ kv : Z * ReplicaSet, kv.1 ∉ by_persistence ++ [ReplicaSet_ID r]) (replica_sets d)) <
          size (filter (λ kv : Z * ReplicaSet, kv.1 ∉ by_persistence) (replica_sets d)))%nat by lia.
  apply map_subset_size. rewrite map_subset_alt. split.
  - apply map_subseteq_spec. intros i x. rewrite !map_lookup_filter_Some. simpl. set_solver.
  - exists (ReplicaSet_ID r). split.
    + apply map_lookup_filter_None. right. intros x _. simpl. set_solver.
    + exists r. by apply map_lookup_filter_Some.
Qed.

Lemma step_measure p d d' by_persistence :
  db_ok d → alloc_step p d d' → (loop_measure d' by_persistence < loop_measure d by_persistence)%nat.
Proof.
  intros Hok [r s mid sid port Hr Hs _ _ Hsuit%suitable_slave_spec _ Hfresh].
  unfold loop_measure. change (not_given_up (spawn_db d mid sid port s r) by_persistence) with (not_given_up d by_persistence).
  apply Nat.add_lt_mono_l. unfold total_free. simpl.
  pose proof (suitable_free _ _ _ _ Hsuit) as Hfree.
  assert (∀ s', free_mongods (spawn_db d mid sid port s r) s' =
            free_mongods d s' - (if decide (Slave_ID s' = Slave_ID s) then 1 else 0)) as Hnew.
  { intros s'. unfold free_mongods. rewrite spawn_current by done. lia. }
  apply (sum_list_lt _ _ _ s).
  - intros s' _. rewrite Hnew. case_decide; lia.
  - apply list_elem_of_fmap. exists (Slave_ID s, s). split; [done|]. by apply elem_of_map_to_list.
  - rewrite Hnew, decide_True by done. lia.
Qed.

(** ** The loop *)

Section loops.
Context `{ENG : Engine} `{ORM : Gorm}.
Context (bad : Prop) (Hbad : ¬ reliable ENG ORM → bad).

(** What one persistence's loop establishes: placements only, and at the end
    every replica set is served or given up with no slave suitable. *)
Record repaired (p : persistence) (d : db) (unsat : list Z) (d' : db) (unsat' : list Z) : Prop := {
  repaired_steps : rtc (alloc_step p) d d';
  repaired_served rid r : replica_sets d' !! rid = Some r →
    configured_count d' p r < member_count p r → stuck d' p rid;
  repaired_unsat rid : rid ∈ unsat' ↔ rid ∈ unsat ∨ stuck d' p rid
}.

Record loop_inv (p : persistence) (d : db) (by_persistence unsat0 unsat : list Z) : Prop := {
  inv_ok : db_ok d;
  inv_by rid : rid ∈ by_persistence → rid = 0 ∨ rid ∈ unsat ∧ stuck d p rid;
  inv_unsat rid : rid ∈ unsat → rid ∈ unsat0 ∨ stuck d p rid;
  inv_unsat0 rid : rid ∈ unsat0 → rid ∈ unsat
}.

Lemma loop_inv_step p d d' by_persistence unsat0 unsat :
  alloc_step p d d' → loop_inv p d by_persistence unsat0 unsat → loop_inv p d' by_persistence unsat0 unsat.
Proof.
  intros Hstep [Hok Hby Hun H0]. split; [by eapply step_ok| | |done].
  - intros rid Hrid. destruct (Hby rid Hrid) as [?|[? ?]]; [by left|right]. eauto using step_stuck.
  - intros rid Hrid. destruct (Hun rid Hrid); [by left|right]. eauto using step_stuck.
Qed.

Lemma loop_inv_give_up p d by_persistence unsat0 unsat rid :
  stuck d p rid → loop_inv p d by_persistence unsat0 unsat →
  loop_inv p d (by_persistence ++ [rid]) unsat0 (unsat ++ [rid]).
Proof.
  intros Hstuck [Hok Hby Hun H0]. split; [done|set_solver..].
Qed.

Lemma addMembers_spec fuel p by_persistence unsat0 unsat c :
  (loop_measure (cdb c) by_persistence < fuel)%nat →
  loop_inv p (cdb c) by_persistence unsat0 unsat → (¬ slots_distinct (cdb c) → bad) →
  wp (addMembers fuel p by_persistence unsat)
    (λ unsat' c', repaired p (cdb c) unsat0 (cdb c') unsat' ∧ cbus c' = cbus c) (error_panic bad) c.
Proof.
  revert by_persistence unsat c. induction fuel as [|fuel IH]; intros by_persistence unsat c Hfuel Hinv Hslots; [lia|].
  simpl. pose proof (inv_ok _ _ _ _ _ Hinv) as Hok.
  apply wp_bind_assoc, wp_degradedHead; [done..| |].
  - intros r c1 Hr Hdeg Hc1 Hb1. unfold degraded in Hdeg.
    apply andb_prop in Hdeg as [[H1 H2]%andb_prop H3]. apply bool_decide_eq_true in H1, H2, H3.
    rewrite <- Hc1 in Hr, H3. rewrite <- Hc1, <- Hb1 in *. clear c Hc1 Hb1. rename c1 into c.
    apply wp_bind_assoc, wp_leastBusySuitableSlave; [done..| |].
    + intros s c1 Hs Hsuit Hbest Hc1 Hb1. rewrite <- Hc1, <- Hb1 in *. clear c Hc1 Hb1. rename c1 into c.
      apply wp_bind, spawnMongodOnSlave_spec; [done..|by apply suitable_slave_spec in Hsuit; destruct Hsuit|done| |].
      * intros mid sid port c' Hfresh Hc' Hb'. wp_steps; [|done]. intros _ _.
        assert (alloc_step p (cdb c) (cdb c')) as Hstep by (rewrite Hc'; by constructor).
        eapply wp_mono; [apply IH| |done].
        -- pose proof (step_measure _ _ _ by_persistence Hok Hstep). lia.
        -- by eapply loop_inv_step.
        -- intros Hn. apply Hslots. intros Hd. apply Hn. by eapply step_slots.
        -- intros unsat' c'' [[Hsteps Hserved Hun] Hb'']. split; [|congruence].
           split; [by eapply rtc_l|done..].
      * intros e c' He. wp_steps; [done|]. intros e' [= <-]. split; eauto.
    + intros c1 Hnone Hc1 Hb1. rewrite <- Hc1, <- Hb1 in *. clear c Hc1 Hb1. rename c1 into c.
      apply IH; [|apply loop_inv_give_up; [|done]|done].
      * pose proof (give_up_measure _ by_persistence r Hok Hr H2). lia.
      * split; [by exists r|done].
  - intros c1 Hnone Hc1 Hb1. rewrite <- Hc1, <- Hb1 in *. clear c Hc1 Hb1. rename c1 into c.
    wp_steps. split; [|done]. destruct Hinv as [_ Hby Hun H0].
    assert (∀ rid r, replica_sets (cdb c) !! rid = Some r → configured_count (cdb c) p r < member_count p r →
              rid ∈ unsat ∧ stuck (cdb c) p rid) as Hserved.
    { intros rid r Hr Hlow. specialize (Hnone rid r Hr). unfold degraded in Hnone.
      destruct (ok_rs_key _ Hok _ _ Hr) as [Hk Hpos].
      assert (member_count p r ≠ 0) by (unfold configured_count in Hlow; lia).
      rewrite (bool_decide_true (_ ≠ _)), (bool_decide_true (_ < _)), andb_true_r in Hnone by done.
      simpl in Hnone. apply bool_decide_eq_false in Hnone. rewrite Hk in Hnone. apply dec_stable in Hnone.
      destruct (Hby rid Hnone) as [?|?]; [lia|done]. }
    split; [apply rtc_refl| |].
    + intros rid r Hr Hlow. by apply (Hserved rid r).
    + intros rid. split; [apply Hun|]. intros [?%H0|Hst]; [done|].
      destruct Hst as [(r & Hr & Hlow) _]. by apply (Hserved rid r).
Qed.
End loops.
