(* ===== verification/AllocatorSpec.v ===== *)
(** * What [CompileMongodLayout] guarantees

    Invariants of the placement relation, the specification of the whole
    function composed from its phases, and the properties a caller relies on. *)

From stdpp Require Import base gmap sets list strings sorting fin_maps relations.
From Stdlib Require Import QArith Lia.
From S2P Require Import Prelude Msp Model Database Orm Ports Allocator AllocatorRemoval AllocatorAdd.

Open Scope Z_scope.
Set Warnings "-clear-no-such-hyp".

(** ** Invariants of reachable layouts *)

(** A layout reached by placements of both persistences. *)
Abbreviation grown := (rtc step_any).

Lemma alloc_steps_grown p d d' : rtc (alloc_step p) d d' → grown d d'.
Proof. apply rtc_subrel. intros x y Hxy. by exists p. Qed.

Section grown.
Context (d : db) (Hok : db_ok d).

(** Rule induction on reachability, extending at the end. *)
Lemma grown_ind (P : db → Prop) :
  P d → (∀ d1 d2 p, grown d d1 → alloc_step p d1 d2 → P d1 → P d2) → ∀ d', grown d d' → P d'.
Proof. intros H0 HS. apply rtc_ind_r; [done|]. intros d1 d2 Hg [p Hstep]. by eapply HS. Qed.

Lemma grown_tables d' : grown d d' → slaves d' = slaves d ∧ replica_sets d' = replica_sets d.
Proof.
  intros Hg. generalize dependent d'. apply grown_ind; [done|].
  intros d1 d2 p _ Hstep [Es Er].
  destruct (step_tables _ _ _ Hstep). split; congruence.
Qed.

Lemma grown_others d' : grown d d' → other_tables d' = other_tables d.
Proof.
  intros Hg. generalize dependent d'. apply grown_ind; [done|]. intros d1 d2 p _ [] IH. by rewrite <- IH.
Qed.

Lemma grown_ok d' : grown d d' → db_ok d'.
Proof. intros Hg. generalize dependent d'. apply grown_ind; [done|]. intros d1 d2 p _ Hstep IH. eauto using step_ok. Qed.

Lemma grown_slots d' : grown d d' → slots_distinct d → slots_distinct d'.
Proof.
  intros Hg Hslots. generalize dependent d'. apply grown_ind; [done|]. intros d1 d2 p _ Hstep IH. eauto using step_slots.
Qed.

Lemma grown_mongods d' id m : grown d d' → mongods d !! id = Some m → mongods d' !! id = Some m.
Proof.
  intros Hg Hm. generalize dependent d'. apply grown_ind; [done|].
  intros d1 d2 p _ Hstep IH.
  destruct Hstep. rewrite spawn_mongods by done. by right.
Qed.

Lemma grown_effective d' rid p :
  grown d d' → replica_set_effective_members d' rid p = replica_set_effective_members d rid p.
Proof.
  intros Hg. generalize dependent d'. apply grown_ind; [done|].
  intros d1 d2 p' Hg Hstep IH.
  rewrite <- IH. pose proof (grown_ok _ Hg). destruct Hstep. by apply spawn_effective.
Qed.

(** A slave is never given more mongods than its port range holds. *)
Lemma grown_capacity d' s :
  grown d d' → slaves d !! Slave_ID s = Some s →
  current_mongods d' s ≤ Z.max (current_mongods d s) (max_mongods s).
Proof.
  intros Hg Hin. generalize dependent d'. apply grown_ind; [lia|].
  intros d1 d2 p Hg Hstep IH.
  destruct (grown_tables _ Hg) as [Es _].
  destruct Hstep as [r s' mid sid port Hr Hs' _ _ Hsuit%suitable_slave_spec _ Hfresh].
  rewrite spawn_current by done. case_decide as Heq; [|lia].
  assert (s' = s) as -> by (rewrite Es, <- Heq in Hs'; congruence).
  pose proof (suitable_free _ _ _ _ Hsuit) as Hfree. unfold free_mongods in Hfree. lia.
Qed.

(** No replica set is given more members than it asks for. *)
Lemma grown_no_overshoot d' r p :
  grown d d' → replica_sets d !! ReplicaSet_ID r = Some r →
  configured_count d' p r ≤ Z.max (configured_count d p r) (member_count p r).
Proof.
  intros Hg Hin. generalize dependent d'. apply grown_ind; [lia|].
  intros d1 d2 p' Hg Hstep IH.
  destruct (grown_tables _ Hg) as [_ Er]. pose proof (grown_ok _ Hg) as Hok1.
  destruct Hstep as [r' s mid sid port Hr Hs _ Hlow Hsuit%suitable_slave_spec _ Hfresh].
  destruct Hsuit as [Hp _ Hact _ _]. rewrite spawn_configured by done.
  case_decide as Hcase; [|lia]. destruct Hcase as [Heq Hp'].
  assert (r' = r) as -> by (rewrite Er, <- Heq in Hr; congruence).
  assert (p = p') as -> by (rewrite Hp in Hp'; by destruct p, p'). lia.
Qed.

(** Where a new mongod of [d'] sits relative to the rest of [d']. *)
Record well_placed (d' : db) (id : Z) (m : Mongod) (s : Slave) (rid : Z) : Prop := {
  placed_slave : slaves d' !! Mongod_ParentSlaveID m = Some s;
  placed_active : Slave_ConfiguredState s = SlaveStateActive;
  placed_rs : Mongod_ReplicaSetID m = Some rid;
  placed_port : Slave_MongodPortRangeBegin s ≤ Mongod_Port m < Slave_MongodPortRangeEnd s;
  placed_alone id' m' : mongods d' !! id' = Some m' → id' ≠ id →
    Mongod_ParentSlaveID m' = Mongod_ParentSlaveID m → Mongod_Port m' ≠ Mongod_Port m;
  placed_slaves id' m' : mongods d' !! id' = Some m' → id' ≠ id →
    Mongod_ReplicaSetID m' = Some rid → Mongod_ParentSlaveID m' ≠ Mongod_ParentSlaveID m;
  placed_risk_groups id' m' s' : mongods d' !! id' = Some m' → id' ≠ id →
    Mongod_ReplicaSetID m' = Some rid → slaves d' !! Mongod_ParentSlaveID m' = Some s' →
    Slave_RiskGroupID s' = Slave_RiskGroupID s → Slave_RiskGroupID s = None
}.

Lemma spawn_well_placed d1 p mid sid port s r :
  suitable d1 p (ReplicaSet_ID r) s → slaves d1 !! Slave_ID s = Some s → fresh_slot d1 mid sid port s →
  well_placed (spawn_db d1 mid sid port s r) mid (new_mongod mid sid port s r) s (ReplicaSet_ID r).
Proof.
  intros Hsuit Hs Hfresh. split; simpl; [done|apply Hsuit|done|apply Hfresh| | |].
  - intros id' m' [[-> _]|Hm']%spawn_mongods; [done..| |done]. intros _ Hpar Hport.
    by apply (fresh_port _ _ _ _ _ Hfresh id' m').
  - intros id' m' [[-> _]|Hm']%spawn_mongods; [done..| |done]. intros _.
    by apply (suitable_slave_other _ _ _ _ Hsuit id' m').
  - intros id' m' s' [[-> _]|Hm']%spawn_mongods; [done..| |done]. intros _ Hrs Hs' Hrg.
    destruct (Slave_RiskGroupID s) as [g|] eqn:Hg; [|done].
    destruct (suitable_risk_group _ _ _ _ Hsuit g Hg id' m' s' Hm' Hrs Hs') as (g' & Hg' & Hne). congruence.
Qed.

Lemma step_well_placed p d1 d2 id m s rid :
  alloc_step p d1 d2 → mongods d1 !! id = Some m → well_placed d1 id m s rid → well_placed d2 id m s rid.
Proof.
  intros [r s1 mid sid port Hr Hs1 _ _ Hsuit%suitable_slave_spec _ Hfresh] Hm [Hs Ha Hrs Hport Hal Hsl Hrg].
  split; [done..| | |].
  - intros id' m' [[-> ->]|Hm']%spawn_mongods; [| |done]; [|by apply Hal]. simpl. intros _ Hpar Heq.
    by apply (fresh_port _ _ _ _ _ Hfresh id m).
  - intros id' m' [[-> ->]|Hm']%spawn_mongods; [| |done]; [|by apply Hsl]. simpl. intros _ [= Heq] Hpar.
    apply (suitable_slave_other _ _ _ _ Hsuit id m); congruence.
  - intros id' m' s' [[-> ->]|Hm']%spawn_mongods; [| |done]; [|by apply Hrg]. simpl.
    intros _ [= Heq] Hs' Hgrp. assert (s' = s1) as -> by congruence.
    destruct (Slave_RiskGroupID s1) as [g|] eqn:Hg; [|done].
    destruct (suitable_risk_group _ _ _ _ Hsuit g Hg id m s Hm ltac:(congruence) Hs) as (g' & Hg' & Hne).
    congruence.
Qed.

Lemma grown_well_placed d' id m :
  grown d d' → mongods d' !! id = Some m → mongods d !! id = None →
  ∃ s rid, well_placed d' id m s rid.
Proof.
  intros Hg. revert id m. generalize dependent d'.
  refine (grown_ind (λ d', ∀ id m, mongods d' !! id = Some m → mongods d !! id = None →
    ∃ s rid, well_placed d' id m s rid) _ _); [congruence|].
  intros d1 d2 p Hg Hstep IH id m Hm Hnone.
  destruct (mongods d1 !! id) as [m1|] eqn:Hm1.
  - assert (m1 = m) as ->.
    { destruct Hstep as [r s mid sid port Hr Hs Hc0 Hc Hsuit Hbest Hfresh].
      apply spawn_mongods in Hm as [[-> ->]|Hm]; [|congruence|done].
      by rewrite (fresh_mongod _ _ _ _ _ Hfresh) in Hm1. }
    destruct (IH id m Hm1 Hnone) as (s & rid & Hp). exists s, rid. by eapply step_well_placed.
  - destruct Hstep as [r s mid sid port Hr Hs _ _ Hsuit%suitable_slave_spec _ Hfresh].
    apply spawn_mongods in Hm as [[-> ->]|Hm]; [|congruence|done].
    exists s, (ReplicaSet_ID r). by eapply spawn_well_placed.
Qed.
End grown.

(** ** The two allocation loops together *)

Lemma member_count_nonneg d r rid p : db_ok d → replica_sets d !! rid = Some r → 0 ≤ member_count p r.
Proof. intros Hok Hr. destruct (ok_rs_counts _ Hok _ _ Hr). by destruct p. Qed.

(** Placements for one persistence leave the counts of the other alone. *)
Lemma steps_other_count d d' p p' r :
  db_ok d → p' ≠ p → rtc (alloc_step p) d d' → configured_count d' p' r = configured_count d p' r.
Proof.
  intros Hok Hne Hsteps. induction Hsteps as [|d1 d2 d3 Hstep _ IH]; [done|].
  rewrite IH by by eapply step_ok.
  destruct Hstep as [r' s mid sid port Hr Hs _ _ Hsuit%suitable_slave_spec _ Hfresh].
  destruct Hsuit as [Hp _ Hact _ _]. rewrite spawn_configured by done.
  rewrite decide_False; [lia|]. intros [_ Hp']. rewrite Hp in Hp'. by destruct p, p'.
Qed.

Lemma steps_stuck d d' p p' rid : db_ok d → rtc (alloc_step p) d d' → stuck d p' rid → stuck d' p' rid.
Proof.
  intros Hok Hsteps. induction Hsteps as [|d1 d2 d3 Hstep _ IH]; [done|]. eauto using step_ok, step_stuck.
Qed.

(** What both loops establish. *)
Record layout_served (d' : db) (unsat : list Z) : Prop := {
  served_or_stuck rid r p : replica_sets d' !! rid = Some r →
    member_count p r ≤ configured_count d' p r ∨ stuck d' p rid;
  unsat_iff rid : rid ∈ unsat ↔ ∃ p, stuck d' p rid
}.

Lemma repaired_both d d1 d2 unsat1 unsat2 :
  db_ok d → repaired Persistent d [] d1 unsat1 → repaired Volatile d1 unsat1 d2 unsat2 →
  grown d d2 ∧ layout_served d2 unsat2.
Proof.
  intros Hok [Hsteps1 Hserved1 Hun1] [Hsteps2 Hserved2 Hun2].
  assert (db_ok d1) as Hok1 by (eapply grown_ok; [done|]; by eapply alloc_steps_grown).
  destruct (grown_tables d1 d2) as [Es Er]; [by eapply alloc_steps_grown|].
  assert (∀ r, configured_count d2 Persistent r = configured_count d1 Persistent r) as Hpers.
  { intros r. by eapply (steps_other_count d1 d2 Volatile). }
  assert (∀ rid r, replica_sets d2 !! rid = Some r →
    configured_count d2 Persistent r < member_count Persistent r → stuck d1 Persistent rid) as Hst1.
  { intros rid r Hr Hlow. rewrite Er in Hr. rewrite Hpers in Hlow. by apply (Hserved1 rid r). }
  split; [etransitivity; by eapply alloc_steps_grown|]. split.
  - intros rid r p Hr.
    destruct (Z.le_gt_cases (member_count p r) (configured_count d2 p r)) as [|Hlow]; [by left|right].
    destruct p; [|by apply (Hserved2 rid r)]. eapply steps_stuck; [done..|]. by apply (Hst1 rid r).
  - intros rid. rewrite Hun2, Hun1. split.
    + intros [[Hin|Hs]|Hs]; [by apply not_elem_of_nil in Hin| |by exists Volatile].
      exists Persistent. by eapply steps_stuck.
    + intros [[] Hs]; [left; right|by right]. destruct Hs as [(r & Hr & Hlow) _]. by apply (Hst1 rid r).
Qed.

Section compile.
Context `{ENG : Engine} `{ORM : Gorm}.
Context (bad : Prop) (Hbad : ¬ reliable ENG ORM → bad).

Lemma addNewMembers_spec c :
  db_ok (cdb c) → (¬ slots_distinct (cdb c) → bad) →
  wp addNewMembers
    (λ unsat c', grown (cdb c) (cdb c') ∧ layout_served (cdb c') unsat ∧ cbus c' = cbus c)
    (error_panic bad) c.
Proof.
  intros Hok Hslots. unfold addNewMembers. wp_steps.
  eapply wp_mono; [apply (addMembers_spec bad Hbad _ Persistent [0] [] []); [|split|done]| |done];
    [apply loop_measure_fuel|done|set_solver..|].
  intros unsat1 c1 [Hrep1 Hb1]. wp_steps.
  assert (grown (cdb c) (cdb c1)) as Hg1 by (eapply alloc_steps_grown, repaired_steps; done).
  assert (db_ok (cdb c1)) as Hok1 by by eapply grown_ok.
  eapply wp_mono; [apply (addMembers_spec bad Hbad _ Volatile [0] unsat1 unsat1); [|split|]| |done];
    [apply loop_measure_fuel|done|set_solver|by left|done| |].
  - intros Hn. apply Hslots. intros Hd. apply Hn. by eapply grown_slots.
  - intros unsat2 c2 [Hrep2 Hb2].
    destruct (repaired_both _ _ _ _ _ Hok Hrep1 Hrep2). split_and!; [done..|congruence].
Qed.

Lemma range_send_spec ms c :
  wp (range ms send) (λ _ c', cdb c' = cdb c ∧ cbus c' = cbus c ++ ms) (error_panic bad) c.
Proof.
  apply (wp_range ms send (λ pre c', cdb c' = cdb c ∧ cbus c' = cbus c ++ pre)).
  - by rewrite app_nil_r.
  - intros pre x todo c' _ [Hc Hb]. apply wp_send. simpl. by rewrite Hb, app_assoc.
Qed.

(** The messages of the last phase: one per replica set. *)
Definition constraint_messages (d : db) (unsat : list Z) (ms : list StatusMessage) : Prop :=
  ms ≡ₚ constraint_status d unsat <$> (map_to_list (replica_sets d)).*2.

Lemma sendConstraintStatus_spec unsat c :
  wp (sendConstraintStatus unsat)
    (λ _ c', cdb c' = cdb c ∧ ∃ ms, cbus c' = cbus c ++ ms ∧ constraint_messages (cdb c) unsat ms)
    (error_panic bad) c.
Proof.
  unfold sendConstraintStatus. apply wp_bind_assoc, wp_query_or_panic; [done|]. intros c1 Hc1 Hb1.
  eapply wp_mono; [apply range_send_spec| |done]. intros _ c2 [Hc2 Hb2].
  rewrite Hc2, Hc1, Hb2, Hb1. split; [done|]. eexists. split; [done|].
  unfold constraint_messages. by rewrite select_all.
Qed.

(** The first two statements: what is left to allocate from. *)
Definition cleaned (d : db) : db := remove_destroyed (mark_orphaned d).

Lemma cleaned_ok d : db_ok d → db_ok (cleaned d).
Proof. intros Hok. eapply remove_destroyed_ok, same_layout_ok; [apply mark_orphaned_layout|done]. Qed.

Lemma cleaned_mongods d id m : db_ok d → mongods (cleaned d) !! id = Some m → mongods d !! id = Some m.
Proof.
  intros Hok Hm. unfold cleaned, remove_destroyed in Hm.
  apply delete_mongods_lookup in Hm as [Hm _]; [done|]. eapply same_layout_ok; [apply mark_orphaned_layout|done].
Qed.

Lemma cleaned_slots d : db_ok d → slots_distinct d → slots_distinct (cleaned d).
Proof. intros Hok Hslots id1 id2 m1 m2 H1%cleaned_mongods H2%cleaned_mongods; [by apply Hslots|done..]. Qed.

Lemma same_layout_slots d d' : same_layout d d' → slots_distinct d → slots_distinct d'.
Proof. intros [_ Em _ _ _ _] Hslots id1 id2 m1 m2. rewrite Em. apply Hslots. Qed.

Lemma cleaned_keyed d : db_ok d → states_keyed d → states_keyed (cleaned d).
Proof.
  intros Hok Hk sid st. unfold cleaned, remove_destroyed. intros [Hin _]%delete_mongods_states.
  - by apply (same_layout_keyed d _ (mark_orphaned_layout d) Hk).
  - eapply same_layout_ok; [apply mark_orphaned_layout|done].
Qed.

Lemma grown_keyed d d' : grown d d' → states_keyed d → states_keyed d'.
Proof.
  intros Hg Hk. generalize dependent d'. apply (grown_ind d _ Hk).
  intros d1 d2 p _ [r s mid sid port _ _ _ _ _ _ Hfresh] Hk1 sid' st. simpl.
  intros [[<- <-]|[_ ?]]%lookup_insert_Some; [split; [done|apply Hfresh]|by apply Hk1].
Qed.

(** The run of the function, phase by phase: [d1] is the database after the
    clean-up, [d2] after the removal of excess members, [d3] at the end. *)
Record compiled (has_bus : bool) (d0 d1 d2 d3 : db) (unsat : list Z) (ms : list StatusMessage) : Prop := {
  compiled_clean : d1 = cleaned d0;
  compiled_layout : same_layout d1 d2;
  compiled_kept : kept d1 d2;
  compiled_grown : grown d2 d3;
  compiled_served : layout_served d3 unsat;
  compiled_messages : if has_bus then constraint_messages d3 unsat ms else ms = []
}.

Lemma compileBody_spec has_bus c :
  db_ok (cdb c) → (¬ slots_distinct (cdb c) → bad) →
  wp (compileBody has_bus)
    (λ res c', res = None ∧ ∃ d1 d2 unsat ms, cbus c' = cbus c ++ ms ∧
                 compiled has_bus (cdb c) d1 d2 (cdb c') unsat ms)
    (error_panic bad) c.
Proof.
  intros Hok Hslots. unfold compileBody, markOrphanedMongods, removeDestroyedMongods, excessMongods.
  apply wp_bind, wp_exec_or_panic; [done|]. apply wp_bind, wp_exec_or_panic; [done|].
  apply wp_bind, wp_query_or_panic; [done|]. simpl. fold (cleaned (cdb c)). intros c1 Hc1 Hb1.
  pose proof (cleaned_ok _ Hok) as Hok1. rewrite <- Hc1 in Hok1 |- *. apply wp_bind.
  eapply wp_mono; [apply removeExcess_spec; [done..| |]| |done].
  { apply NoDup_select. intros i j r1 r2 H1 H2 Heq.
    destruct (ok_rs_key _ Hok _ _ H1) as [<- _], (ok_rs_key _ Hok _ _ H2) as [<- _]. done. }
  { intros r (id & Hid & _)%elem_of_select. destruct (ok_rs_key _ Hok _ _ Hid) as [-> _]. by rewrite Hc1. }
  intros [] c2 (Hsame & Hb2 & Hkept). apply wp_bind.
  eapply wp_mono; [apply addNewMembers_spec| |done].
  { by eapply same_layout_ok. }
  { intros Hn. apply Hslots. intros Hd. apply Hn. eapply same_layout_slots; [done|].
    rewrite Hc1. by apply cleaned_slots. }
  intros unsat c3 (Hg & Hserved & Hb3). apply wp_bind. destruct has_bus.
  - eapply wp_mono; [apply sendConstraintStatus_spec| |done]. intros _ c4 (Hc4 & ms & Hb4 & Hms).
    wp_steps. split; [done|]. exists (cdb c1), (cdb c2), unsat, ms. split; [congruence|].
    rewrite Hc4. by split.
  - wp_steps. split; [done|]. exists (cdb c1), (cdb c2), unsat, []. rewrite app_nil_r.
    split; [congruence|]. by split.
Qed.
End compile.
