(* ===== verification/AllocatorProperties.v ===== *)
(** * Properties of [CompileMongodLayout]

    Total correctness of the allocator under a server and a mapper that do what
    they are asked to, what every layout it produces satisfies, and how it fails
    otherwise. *)

From stdpp Require Import base gmap sets list strings sorting fin_maps relations.
From Stdlib Require Import QArith Lia.
From S2P Require Import Prelude Msp Model Database Orm Ports Allocator AllocatorRemoval AllocatorAdd AllocatorSpec.

Open Scope Z_scope.
Set Warnings "-clear-no-such-hyp".

(** ** Facts about the clean-up *)

Section cleaned.
Context (d : db) (Hok : db_ok d).

Lemma marked_ok : db_ok (mark_orphaned d).
Proof. eapply same_layout_ok; [apply mark_orphaned_layout|done]. Qed.

Lemma cleaned_effective rid p :
  replica_set_effective_members d rid p ⊆ replica_set_effective_members (cleaned d) rid p.
Proof.
  etransitivity; [by apply mark_orphaned_effective|]. apply remove_destroyed_effective, marked_ok.
Qed.

Lemma cleaned_members_where (P P' : Mongod → bool) :
  (∀ id m, mongods (cleaned d) !! id = Some m → P' m = true → P m = true) →
  members_where (cleaned d) P' ⊆ members_where d P.
Proof.
  intros HP id. rewrite !elem_of_members_where. intros (m & Hm & HPm).
  exists m. split; [by apply cleaned_mongods|by eapply HP].
Qed.

Lemma cleaned_current s : current_mongods (cleaned d) s ≤ current_mongods d s.
Proof. apply inj_le, subseteq_size, cleaned_members_where. done. Qed.

Lemma cleaned_configured p r : configured_count (cleaned d) p r ≤ configured_count d p r.
Proof.
  apply inj_le, subseteq_size. etransitivity; [|apply (same_layout_configured d (mark_orphaned d)), mark_orphaned_layout].
  intros id. unfold replica_set_configured_members. rewrite !elem_of_members_where.
  intros (m & Hm & Hc). unfold cleaned, remove_destroyed in Hm.
  apply delete_mongods_lookup in Hm as [Hm Hid]; [|apply marked_ok]. exists m. split; [done|].
  revert Hc. unfold configured_member, member_join.
  change (slaves (cleaned d)) with (slaves d). change (replica_sets (cleaned d)) with (replica_sets d).
  change (slaves (mark_orphaned d)) with (slaves d). change (replica_sets (mark_orphaned d)) with (replica_sets d).
  destruct (mongod_states (cleaned d) !! Mongod_DesiredStateID m) as [st|] eqn:Hst.
  - apply delete_mongods_states in Hst as [Hst _]; [|apply marked_ok]. by rewrite Hst.
  - destruct (Mongod_ReplicaSetID m) as [rid|]; [|done].
    cbn. destruct (replica_sets d !! rid); [|done]. by destruct (slaves d !! _).
Qed.
End cleaned.

Lemma same_layout_current d d' s : same_layout d d' → current_mongods d' s = current_mongods d s.
Proof. intros Hsame. unfold current_mongods, members_where. by rewrite (same_mongods _ _ Hsame). Qed.

Lemma same_layout_count d d' p r : same_layout d d' → configured_count d' p r ≤ configured_count d p r.
Proof. intros Hsame. by apply inj_le, subseteq_size, same_layout_configured. Qed.

(** ** A concrete cluster

    Three persistent slaves (one without a risk group) and a volatile one; replica set 1 has
    one member and asks for two persistent and one volatile; replica set 2 asks
    for one persistent member; mongod 2 is an orphan that is already gone. *)

Definition example_slave (id last : Z) (persistent : bool) (rg : option Z) : Slave :=
  mkSlave id "slave" 8081 18080 last persistent SlaveStateActive rg None.
Definition example_db : db := mkDb
  {[1 := example_slave 1 18082 true (Some 7); 2 := example_slave 2 18082 true (Some 8);
    3 := example_slave 3 18081 true None; 4 := example_slave 4 18090 false None]}
  {[1 := mkMongod 1 18080 "rs1" None None 1 (Some 1) 1 (Some 2);
    2 := mkMongod 2 18081 "old" None None 1 None 3 (Some 4)]}
  {[1 := mkMongodState 1 1 "none" 6; 2 := mkMongodState 2 1 "none" 6;
    3 := mkMongodState 3 2 "none" 6; 4 := mkMongodState 4 2 "none" 2]}
  {[1 := mkReplicaSet 1 "rs1" 2 1 "none" false; 2 := mkReplicaSet 2 "rs2" 4 0 "none" false]}
  ∅ ∅ ∅ ∅ ∅.
Definition example_conn : conn := mkConn example_db 0 [].

Lemma example_ok : db_ok example_db.
Proof. by apply db_okb_sound; vm_compute. Qed.

Lemma example_slots : slots_distinct example_db.
Proof. by apply slots_distinctb_sound; vm_compute. Qed.

(** ** Runs on a server that executes every statement *)

Section total.
Context (ENG : Engine) (ORM : Gorm) (Hrel : reliable ENG ORM).
Context (has_bus : bool) (c : conn) (Hok : db_ok (cdb c)) (Hslots : slots_distinct (cdb c)).


Lemma compile_run : ∃ c' d1 d2 unsat ms,
  CompileMongodLayout has_bus c = (c', Returned None) ∧ cbus c' = cbus c ++ ms ∧ compiled has_bus (cdb c) d1 d2 (cdb c') unsat ms.
Proof.
  assert (wp (compileBody has_bus) (λ res c', res = None ∧ ∃ d1 d2 unsat ms, cbus c' = cbus c ++ ms ∧
    compiled has_bus (cdb c) d1 d2 (cdb c') unsat ms) (λ _ _, False) c) as Hwp.
  { eapply wp_mono; [by apply (compileBody_spec False ltac:(auto) has_bus c)|done|].
    by intros v c' [? _]. }
  apply wp_returns in Hwp as (res & c' & Hrun & -> & d1 & d2 & unsat & ms & Hb & Hc).
  exists c', d1, d2, unsat, ms. unfold CompileMongodLayout. by rewrite Hrun.
Qed.

(** C1: On a well-formed database in which no two mongods of one slave have the same port,
    and when the database executes every statement, the allocator always terminates,
    returns no error, and leaves a database that is again well-formed and without shared
    ports, in which the slaves and replica sets are those it found. *)
Theorem CompileMongodLayout_total : ∃ c',
  CompileMongodLayout has_bus c = (c', Returned None) ∧ db_ok (cdb c') ∧ slots_distinct (cdb c') ∧
  slaves (cdb c') = slaves (cdb c) ∧ replica_sets (cdb c') = replica_sets (cdb c).
Proof.
  destruct compile_run as (c' & d1 & d2 & unsat & ms & Hrun & _ & [-> Hsame _ Hg _ _]).
  assert (db_ok d2) as Hok2 by (eapply same_layout_ok; [done|by apply cleaned_ok]).
  destruct (grown_tables _ _ Hg) as [Es Er]. pose proof (same_slaves _ _ Hsame) as Es'. pose proof (same_replica_sets _ _ Hsame) as Er'.
  exists c'. split_and!; [done|by eapply grown_ok| |by rewrite Es, Es'|by rewrite Er, Er'].
  eapply grown_slots; [done..|]. eapply same_layout_slots; [done|]. by apply cleaned_slots.
Qed.

(** C2: The allocator never takes a replica set below what it has or needs: at
    least the smaller of its effective members and its target stays effective,
    for each persistence, for a well-formed database in which no two mongods
    of one slave share a port, when every statement is executed. *)
Theorem CompileMongodLayout_keeps_members : ∃ c', CompileMongodLayout has_bus c = (c', Returned None) ∧
  ∀ rid r p, replica_sets (cdb c) !! rid = Some r →
    Z.min (Z.of_nat (size (replica_set_effective_members (cdb c) rid (PersistentStorage p)))) (member_count p r)
    ≤ Z.of_nat (size (replica_set_effective_members (cdb c') rid (PersistentStorage p))).
Proof.
  destruct compile_run as (c' & d1 & d2 & unsat & ms & Hrun & _ & [-> Hsame Hkept Hg _ _]).
  exists c'. split; [done|]. intros rid r p Hr.
  assert (db_ok d2) as Hok2 by (eapply same_layout_ok; [done|by apply cleaned_ok]).
  rewrite (grown_effective _ Hok2 _ _ _ Hg). specialize (Hkept rid r p Hr).
  pose proof (cleaned_effective _ Hok rid (PersistentStorage p)) as Heff%subseteq_size. lia.
Qed.

(** C3: Afterwards every replica set has the members it asks for, of each persistence, or no
    slave is suitable for one more of them, for a well-formed database in which no two
    mongods of one slave share a port, when every statement is executed. *)
Theorem CompileMongodLayout_serves : ∃ c', CompileMongodLayout has_bus c = (c', Returned None) ∧
  ∀ rid r p, replica_sets (cdb c) !! rid = Some r →
    member_count p r ≤ configured_count (cdb c') p r ∨
    ∀ s, slaves (cdb c) !! Slave_ID s = Some s → suitable_slave (cdb c') p rid s = false.
Proof.
  destruct compile_run as (c' & d1 & d2 & unsat & ms & Hrun & _ & [-> Hsame _ Hg Hserved _]).
  exists c'. split; [done|]. intros rid r p Hr.
  destruct (grown_tables _ _ Hg) as [Es Er].
  pose proof (same_slaves _ _ Hsame) as Es'. pose proof (same_replica_sets _ _ Hsame) as Er'.
  destruct (served_or_stuck _ _ Hserved rid r p) as [?|[_ Hnone]]; [by rewrite Er, Er'|by left|right].
  intros s Hs. apply Hnone. by rewrite Es, Es'.
Qed.

(** C4: Every mongod the allocator creates is on an active slave, on a port of the slave's
    range that no other mongod of the slave has; no other member of its replica set is on
    the same slave or in the same risk group, for a well-formed database in which no two
    mongods of one slave share a port, when every statement is executed. *)
Theorem CompileMongodLayout_placement : ∃ c', CompileMongodLayout has_bus c = (c', Returned None) ∧
  ∀ id m, mongods (cdb c') !! id = Some m → mongods (cleaned (cdb c)) !! id = None →
    ∃ s rid, well_placed (cdb c') id m s rid.
Proof.
  destruct compile_run as (c' & d1 & d2 & unsat & ms & Hrun & _ & [-> Hsame _ Hg _ _]).
  exists c'. split; [done|]. intros id m Hm Hnone. eapply (grown_well_placed d2); [done..|].
  by rewrite (same_mongods _ _ Hsame).
Qed.

(** C19: No slave ends up with more mongods than it has ports, unless it had
    more to begin with, for a well-formed database in which no two mongods
    of one slave share a port, when every statement is executed. *)
Theorem CompileMongodLayout_capacity : ∃ c', CompileMongodLayout has_bus c = (c', Returned None) ∧
  ∀ s, slaves (cdb c) !! Slave_ID s = Some s →
    current_mongods (cdb c') s ≤ Z.max (current_mongods (cdb c) s) (max_mongods s).
Proof.
  destruct compile_run as (c' & d1 & d2 & unsat & ms & Hrun & _ & [-> Hsame _ Hg _ _]).
  exists c'. split; [done|]. intros s Hs.
  assert (slaves d2 !! Slave_ID s = Some s) as Hs2 by by rewrite (same_slaves _ _ Hsame).
  pose proof (grown_capacity d2 _ s Hg Hs2) as Hcap. rewrite (same_layout_current _ _ s Hsame) in Hcap.
  pose proof (cleaned_current _ Hok s). lia.
Qed.

(** C20: No replica set ends up with more configured members of a persistence
    than it asks for, unless it had more to begin with, for a well-formed database in which no two mongods
    of one slave share a port, when every statement is executed. *)
Theorem CompileMongodLayout_no_overshoot : ∃ c', CompileMongodLayout has_bus c = (c', Returned None) ∧
  ∀ r p, replica_sets (cdb c) !! ReplicaSet_ID r = Some r →
    configured_count (cdb c') p r ≤ Z.max (configured_count (cdb c) p r) (member_count p r).
Proof.
  destruct compile_run as (c' & d1 & d2 & unsat & ms & Hrun & _ & [-> Hsame _ Hg _ _]).
  exists c'. split; [done|]. intros r p Hr.
  assert (db_ok d2) as Hok2 by (eapply same_layout_ok; [done|by apply cleaned_ok]).
  assert (replica_sets d2 !! ReplicaSet_ID r = Some r) as Hr2 by by rewrite (same_replica_sets _ _ Hsame).
  pose proof (grown_no_overshoot d2 Hok2 _ r p Hg Hr2).
  pose proof (same_layout_count _ _ p r Hsame). pose proof (cleaned_configured _ Hok p r). lia.
Qed.
End total.

Section messages.
Context (ENG : Engine) (ORM : Gorm) (Hrel : reliable ENG ORM).
Context (c : conn) (Hok : db_ok (cdb c)) (Hslots : slots_distinct (cdb c)).

(** C21: The allocator reports one constraint status per replica set, with the configured
    counts of the final layout, flagged unsatisfied exactly when the replica set lacks
    members of some persistence no slave is suitable for, for a well-formed database in
    which no two mongods of one slave share a port, when every statement is executed. *)
Theorem CompileMongodLayout_reports : ∃ c' (unsat : list Z) ms, CompileMongodLayout true c = (c', Returned None) ∧
  cbus c' = cbus c ++ ms ∧
  ms ≡ₚ (λ r, MsgDesiredConstraint (mkDesiredReplicaSetConstraintStatus (bool_decide (ReplicaSet_ID r ∈ unsat)) r
    (Z.of_nat (size (replica_set_configured_members (cdb c') (ReplicaSet_ID r) false)))
    (Z.of_nat (size (replica_set_configured_members (cdb c') (ReplicaSet_ID r) true)))))
    <$> (map_to_list (replica_sets (cdb c))).*2 ∧
  ∀ rid, rid ∈ unsat ↔ ∃ p, stuck (cdb c') p rid.
Proof.
  destruct (compile_run ENG ORM Hrel true c Hok Hslots)
    as (c' & d1 & d2 & unsat & ms & Hrun & Hb & [-> Hsame _ Hg Hserved Hms]).
  exists c', unsat, ms. split_and!; [done|done| |by apply unsat_iff].
  destruct (grown_tables _ _ Hg) as [_ Er]. pose proof (same_replica_sets _ _ Hsame) as Er'.
  simpl in Hms. unfold constraint_messages in Hms. by rewrite Er, Er' in Hms.
Qed.
End messages.

(** ** The properties on the concrete cluster *)

Lemma CompileMongodLayout_total_witness : ∃ c', @CompileMongodLayout ref_engine ref_gorm true example_conn = (c', Returned None) ∧ db_ok (cdb c') ∧ slots_distinct (cdb c') ∧
    slaves (cdb c') = slaves example_db ∧ replica_sets (cdb c') = replica_sets example_db.
Proof. apply (CompileMongodLayout_total ref_engine ref_gorm ref_reliable true example_conn example_ok example_slots). Defined.

Lemma CompileMongodLayout_keeps_members_witness : ∃ c', @CompileMongodLayout ref_engine ref_gorm true example_conn = (c', Returned None) ∧ ∀ rid r p,
    replica_sets example_db !! rid = Some r →
    Z.min (Z.of_nat (size (replica_set_effective_members example_db rid (PersistentStorage p)))) (member_count p r)
      ≤ Z.of_nat (size (replica_set_effective_members (cdb c') rid (PersistentStorage p))).
Proof. apply (CompileMongodLayout_keeps_members ref_engine ref_gorm ref_reliable true example_conn example_ok example_slots). Defined.

Lemma CompileMongodLayout_serves_witness : ∃ c', @CompileMongodLayout ref_engine ref_gorm true example_conn = (c', Returned None) ∧ ∀ rid r p,
    replica_sets example_db !! rid = Some r →
    member_count p r ≤ configured_count (cdb c') p r ∨
    ∀ s, slaves example_db !! Slave_ID s = Some s → suitable_slave (cdb c') p rid s = false.
Proof. apply (CompileMongodLayout_serves ref_engine ref_gorm ref_reliable true example_conn example_ok example_slots). Defined.

Lemma CompileMongodLayout_placement_witness : ∃ c', @CompileMongodLayout ref_engine ref_gorm true example_conn = (c', Returned None) ∧ ∀ id m,
    mongods (cdb c') !! id = Some m → mongods (cleaned example_db) !! id = None →
    ∃ s rid, well_placed (cdb c') id m s rid.
Proof. apply (CompileMongodLayout_placement ref_engine ref_gorm ref_reliable true example_conn example_ok example_slots). Defined.

Lemma CompileMongodLayout_capacity_witness : ∃ c', @CompileMongodLayout ref_engine ref_gorm true example_conn = (c', Returned None) ∧ ∀ s,
    slaves example_db !! Slave_ID s = Some s →
    current_mongods (cdb c') s ≤ Z.max (current_mongods example_db s) (max_mongods s).
Proof. apply (CompileMongodLayout_capacity ref_engine ref_gorm ref_reliable true example_conn example_ok example_slots). Defined.

Lemma CompileMongodLayout_no_overshoot_witness : ∃ c', @CompileMongodLayout ref_engine ref_gorm true example_conn = (c', Returned None) ∧ ∀ r p,
    replica_sets example_db !! ReplicaSet_ID r = Some r →
    configured_count (cdb c') p r ≤ Z.max (configured_count example_db p r) (member_count p r).
Proof. apply (CompileMongodLayout_no_overshoot ref_engine ref_gorm ref_reliable true example_conn example_ok example_slots). Defined.

Lemma CompileMongodLayout_reports_witness : ∃ c' (unsat : list Z) ms,
    @CompileMongodLayout ref_engine ref_gorm true example_conn = (c', Returned None) ∧ cbus c' = ms ∧
    ms ≡ₚ (λ r, MsgDesiredConstraint (mkDesiredReplicaSetConstraintStatus (bool_decide (ReplicaSet_ID r ∈ unsat)) r
    (Z.of_nat (size (replica_set_configured_members (cdb c') (ReplicaSet_ID r) false)))
    (Z.of_nat (size (replica_set_configured_members (cdb c') (ReplicaSet_ID r) true))))) <$> (map_to_list (replica_sets example_db)).*2 ∧
    ∀ rid, rid ∈ unsat ↔ ∃ p, stuck (cdb c') p rid.
Proof. apply (CompileMongodLayout_reports ref_engine ref_gorm ref_reliable example_conn example_ok example_slots). Defined.

(** The layout computed for the example.  Replica set 1 gets its second
    persistent member on slave 2 and a volatile one on slave 4.  Replica set 2
    gets one member of four: it goes to slave 3, which has no risk group, and from
    then on slaves 1 and 2, which have one, no longer count as suitable. *)
Example example_layout :
  let c' := (@CompileMongodLayout ref_engine ref_gorm true example_conn).1 in
  (λ m : Mongod, (Mongod_ParentSlaveID m, Mongod_Port m, Mongod_ReplicaSetID m)) <$>
    (map_to_list (mongods (cdb c'))).*2 =
  [(2, 18080, Some 1); (4, 18080, Some 1); (3, 18080, Some 2); (1, 18080, Some 1)].
Proof. vm_compute. reflexivity. Qed.

(** ** Failures *)

(** Whatever the server and the mapper answer, the allocator never returns an
    error and never loops forever: a failure always leaves it as a panic carrying
    that error, because the deferred [recover] compares the panic value with
    booleans. *)
Theorem CompileMongodLayout_never_reports_error (ENG : Engine) (ORM : Gorm) has_bus c :
  db_ok (cdb c) →
  match (CompileMongodLayout has_bus c).2 with
  | Returned err => err = None
  | Panicked v => ∃ e, v = VError e
  | OutOfFuel => False
  end.
Proof.
  intros Hok. pose proof (compileBody_spec True (λ _, I) has_bus c Hok (λ _, I)) as Hwp.
  unfold CompileMongodLayout. unfold wp in Hwp.
  destruct (compileBody has_bus c) as [c' [err|v|]]; simpl; [by destruct Hwp| |done].
  destruct Hwp as [_ [e ->]]. unfold deferred_recover. rewrite !decide_False by done. eauto.
Qed.

(** A server that reports [ErrInvalidTransaction], the error the [recover] means
    to turn into a return value, at the third statement. *)
Definition failing_engine : Engine := {|
  eng_fault n := if decide (n = 2%nat) then Some ErrInvalidTransaction else None;
  eng_order _ _ l := l;
  eng_order_perm _ _ _ := reflexivity _
|}.

Lemma CompileMongodLayout_never_reports_error_witness :
  (@CompileMongodLayout failing_engine ref_gorm true example_conn).2 = Panicked (VError ErrInvalidTransaction) ∧
  match (@CompileMongodLayout failing_engine ref_gorm true example_conn).2 with
  | Returned err => err = None
  | Panicked v => ∃ e, v = VError e
  | OutOfFuel => False
  end.
Proof.
  split; [reflexivity|].
  apply (CompileMongodLayout_never_reports_error failing_engine ref_gorm true example_conn example_ok).
Defined.

(** The priority queue of degraded replica sets has no priorities: its sort
    key is an integer quotient of a count by a larger one, 0 for every replica set
    the query selects. *)
Theorem degraded_key_constant d p unsatisfiable r :
  degraded d p unsatisfiable r = true → degraded_key d p r = (0, 0, 0%Q).
Proof.
  unfold degraded, degraded_key. intros [_ Hlow%bool_decide_eq_true]%andb_prop.
  rewrite Z.quot_small; [done|]. unfold configured_count in *. lia.
Qed.

Lemma degraded_key_constant_witness :
  degraded example_db Persistent [0] (mkReplicaSet 1 "rs1" 2 1 "none" false) = true ∧
  degraded_key example_db Persistent (mkReplicaSet 1 "rs1" 2 1 "none" false) = (0, 0, 0%Q).
Proof.
  assert (degraded example_db Persistent [0] (mkReplicaSet 1 "rs1" 2 1 "none" false) = true) as H
    by (vm_compute; reflexivity).
  split; [exact H|]. apply (degraded_key_constant _ _ _ _ H).
Defined.

(** Once a member of a replica set is on a slave without risk group, no slave
    with a risk group is suitable for it any more: [NOT IN] over a list with NULL
    is never true. *)
Theorem null_risk_group_blocks d p rid id m s' s g :
  mongods d !! id = Some m → Mongod_ReplicaSetID m = Some rid →
  slaves d !! Mongod_ParentSlaveID m = Some s' → Slave_RiskGroupID s' = None →
  Slave_RiskGroupID s = Some g → suitable_slave d p rid s = false.
Proof.
  intros Hm Hr Hs' Hnone Hg. apply not_true_is_false. intros Hsuit%suitable_slave_spec.
  destruct (suitable_risk_group _ _ _ _ Hsuit g Hg id m s' Hm Hr Hs') as (g' & Hg' & _). congruence.
Qed.

(** Replica set 2 of the example after its first member. *)
Definition blocked_db : db :=
  spawn_db example_db 3 5 18080 (example_slave 3 18081 true None) (mkReplicaSet 2 "rs2" 4 0 "none" false).

Lemma null_risk_group_blocks_witness :
  0 < free_mongods blocked_db (example_slave 2 18082 true (Some 8)) ∧
  suitable_slave blocked_db Persistent 2 (example_slave 2 18082 true (Some 8)) = false.
Proof.
  split; [reflexivity|].
  by apply (null_risk_group_blocks blocked_db Persistent 2 3
    (new_mongod 3 5 18080 (example_slave 3 18081 true None) (mkReplicaSet 2 "rs2" 4 0 "none" false))
    (example_slave 3 18081 true None) _ 8).
Defined.
