(* ===== verification/Members.v ===== *)
(** * The members of a replica set

    [DesiredMSPReplicaSetMembersForReplicaSetID] of [master/cluster_allocator.go]:
    which mongods a replica set should consist of, their priorities, who may vote
    and who initiates the set. *)

From stdpp Require Import base gmap sets list strings sorting fin_maps.
From Stdlib Require Import QArith Lia.
From S2P Require Import Prelude Msp Model Database Orm.

Open Scope Z_scope.
Set Warnings "-clear-no-such-hyp".

Definition ReplicaSetMemberPriorityVolatile : float64 := float64_of_int 500.
Definition ReplicaSetMemberPriorityPersistent : float64 := float64_of_int 10.
Definition ReplicaSetMemberPriorityToBeRemoved : float64 := float64_of_int 1.
Definition ReplicaSetMemberPriorityNone : float64 := float64_of_int 0.

(** A row of the query. *)
Record member_row := mkMemberRow {
  row_mongodId : Z;
  row_hostname : string;
  row_port : PortNumber;
  row_priority : float64
}.

(** The [WHERE] clause, after the joins. *)
Definition desired_member (d : db) (rid : Z) (m : Mongod) : bool :=
  match member_join d m with
  | Some (r, _, desired) =>
      bool_decide (r = rid) && bool_decide (MongodState_ExecutionState desired = MongodExecutionStateRunning)
  | None => false
  end.

Definition slave_of (d : db) (m : Mongod) : Slave := default zero_Slave (slaves d !! Mongod_ParentSlaveID m).

(** [ORDER BY (no observation error first) ASC, configured_state ASC, m.id ASC] *)
Definition desired_member_key (d : db) (m : Mongod) : sort_key :=
  (if decide (Slave_ObservationErrorID (slave_of d m) = None) then 0 else 1,
   Slave_ConfiguredState (slave_of d m), inject_Z (Mongod_ID m)).

(** The [CASE] expression of the column [priority]. *)
Definition member_priority (s : Slave) : float64 :=
  if decide (Slave_ConfiguredState s = SlaveStateDisabled) then ReplicaSetMemberPriorityToBeRemoved
  else if Slave_PersistentStorage s then ReplicaSetMemberPriorityPersistent
  else ReplicaSetMemberPriorityVolatile.

Definition member_of (d : db) (m : Mongod) : member_row :=
  mkMemberRow (Mongod_ID m) (Slave_Hostname (slave_of d m)) (Mongod_Port m) (member_priority (slave_of d m)).

Definition desired_member_rows `{ENG : Engine} (rid : Z) (n : nat) (d : db) : list member_row :=
  member_of d <$> order_by (desired_member_key d) (select n (desired_member d rid) (mongods d)).

(** The [for i := 0; rows.Next(); i++] loop; the accumulators are the Go
    variables [initiatorId] and [replicaSetMembers]. *)
Fixpoint scan_members (i : nat) (rows : list member_row) (initiatorId : Z)
    (replicaSetMembers : list msp.ReplicaSetMember) : Z * list msp.ReplicaSetMember :=
  match rows with
  | [] => (initiatorId, replicaSetMembers)
  | row :: rows =>
      let initiatorId := if decide (i = 0%nat) then row_mongodId row else initiatorId in
      let hostPort := msp.mkHostPort (row_hostname row) (row_port row) in
      let member :=
        if decide (i < 7)%nat then msp.mkReplicaSetMember hostPort (row_priority row) 1
        else msp.mkReplicaSetMember hostPort (float64_of_int 0) 0 in
      scan_members (S i) rows initiatorId (replicaSetMembers ++ [member])
  end.

(** The three results of the Go function. *)
Abbreviation members_result := (list msp.ReplicaSetMember * Mongod * option gerror)%type (only parsing).

Definition DesiredMSPReplicaSetMembersForReplicaSetID `{ENG : Engine} `{ORM : Gorm} (replicaSetID : Z)
    : GoM conn members_result :=
  res ← sql_query (desired_member_rows replicaSetID);
  match res with
  | Err e => mret ([], zero_Mongod, Some (TextError
      ("could not fetch ReplicaSetMembers for ReplicaSet.ID `" +:+ fmt_d replicaSetID +:+ "`: " +:+ error_text e)))
  | Ok rows =>
      let '(initiatorId, replicaSetMembers) := scan_members 0 rows 0 [] in
      initiator ← orm_first_id initiatorId;
      match initiator with
      | Ok initiator => mret (replicaSetMembers, initiator, None)
      | Err ErrRecordNotFound => mret (replicaSetMembers, zero_Mongod, None)
      | Err e => mret ([], zero_Mongod, Some e)
      end
  end.

Lemma DesiredMSPReplicaSetMembers_read_only `{ENG : Engine} `{ORM : Gorm} rid :
  read_only (DesiredMSPReplicaSetMembersForReplicaSetID rid).
Proof. unfold DesiredMSPReplicaSetMembersForReplicaSetID. read_only_tac. Qed.
#[export] Hint Resolve DesiredMSPReplicaSetMembers_read_only : mamid.

(** ** The loop computes positions *)

Definition member_at (i : nat) (row : member_row) : msp.ReplicaSetMember :=
  msp.mkReplicaSetMember (msp.mkHostPort (row_hostname row) (row_port row))
    (if decide (i < 7)%nat then row_priority row else float64_of_int 0)
    (if decide (i < 7)%nat then 1 else 0).

Lemma scan_members_imap i rows initiatorId acc :
  scan_members i rows initiatorId acc =
  (match rows, i with row :: _, O => row_mongodId row | _, _ => initiatorId end,
   acc ++ imap (λ j row, member_at (i + j) row) rows).
Proof.
  revert i initiatorId acc. induction rows as [|row rows IH]; intros i initiatorId acc; simpl.
  { by rewrite app_nil_r. }
  rewrite IH, <- app_assoc. f_equal.
  - destruct i; [by destruct rows|]. by destruct rows.
  - f_equal. simpl. rewrite Nat.add_0_r. f_equal; [unfold member_at; by case_decide|].
    apply imap_ext. intros j x _. simpl. by rewrite Nat.add_succ_r.
Qed.

Lemma order_by_sorted {A} (key : A → sort_key) l i j x y :
  (i < j)%nat → order_by key l !! i = Some x → order_by key l !! j = Some y → key_le (key x) (key y).
Proof.
  intros Hij Hi Hj. pose proof (StronglySorted_merge_sort (by_key key) l) as Hs. fold (order_by key l) in Hs.
  revert i j Hij Hi Hj. induction Hs as [|z l' _ IH Hall]; intros i j Hij Hi Hj; [done|].
  destruct j as [|j]; [lia|]. destruct i as [|i]; simpl in *.
  - simplify_eq. eapply Forall_forall in Hall; [done|]. by eapply list_elem_of_lookup_2.
  - apply (IH i j); [lia|done..].
Qed.

(** ** The members of a replica set, in order

    The identifier is the last key, so the rows come in one order whatever the server
    does. *)

Definition desired_rows (d : db) (rid : Z) : list Mongod :=
  order_by (desired_member_key d) (snd <$> map_to_list (filter (λ kv : Z * Mongod, desired_member d rid kv.2 = true) (mongods d))).

Definition wanted_members (d : db) (rid : Z) : list msp.ReplicaSetMember := imap member_at (member_of d <$> desired_rows d rid).

Lemma key_le_antisym d m m' : key_le (desired_member_key d m) (desired_member_key d m') →
  key_le (desired_member_key d m') (desired_member_key d m) → Mongod_ID m = Mongod_ID m'.
Proof.
  unfold key_le. simpl. unfold Qle. simpl. lia.
Qed.

Lemma desired_rows_select `{ENG : Engine} (d : db) rid n : db_ok d →
  order_by (desired_member_key d) (select n (desired_member d rid) (mongods d)) = desired_rows d rid.
Proof.
  intros Hok. apply order_by_unique.
  - intros x y (i & Hx & _)%elem_of_select (j & Hy & _)%elem_of_select H1 H2.
    pose proof (key_le_antisym _ _ _ H1 H2). rewrite (ok_mongod_key _ Hok _ _ Hx), (ok_mongod_key _ Hok _ _ Hy) in *. congruence.
  - unfold select. apply eng_order_perm.
Qed.

Lemma elem_of_desired_rows d rid m : m ∈ desired_rows d rid ↔ ∃ id, mongods d !! id = Some m ∧ desired_member d rid m = true.
Proof.
  unfold desired_rows. rewrite elem_of_order_by, list_elem_of_fmap. split.
  - intros ([i m'] & -> & Hin%elem_of_map_to_list). apply map_lookup_filter_Some in Hin. by exists i.
  - intros (id & Hm & Hd). exists (id, m). split; [done|]. by apply elem_of_map_to_list, map_lookup_filter_Some.
Qed.

(** ** What the function returns *)

(** A mongod of the replica set that should run. *)
Definition should_run (d : db) (rid : Z) (m : Mongod) : Prop :=
  Mongod_ReplicaSetID m = Some rid ∧ is_Some (replica_sets d !! rid) ∧ is_Some (slaves d !! Mongod_ParentSlaveID m) ∧
  ∃ desired, mongod_states d !! Mongod_DesiredStateID m = Some desired ∧
    MongodState_ExecutionState desired = MongodExecutionStateRunning.

(** Slaves without observation error come first, then the active ones (the states are
    active, maintenance, disabled), then the older mongods. *)
Definition unobservable (d : db) (m : Mongod) : Prop := Slave_ObservationErrorID (slave_of d m) ≠ None.
Definition ahead (d : db) (m m' : Mongod) : Prop :=
  let state x := Slave_ConfiguredState (slave_of d x) in
  ¬ unobservable d m ∧ unobservable d m' ∨
  (unobservable d m ↔ unobservable d m') ∧
  (state m < state m' ∨ state m = state m' ∧ Mongod_ID m ≤ Mongod_ID m').

(** The [i]th member of the configuration, for the mongod [m]. *)
Record member_for (d : db) (i : nat) (m : Mongod) (x : msp.ReplicaSetMember) : Prop := {
  member_address : msp.Member_HostPort x = msp.mkHostPort (Slave_Hostname (slave_of d m)) (Mongod_Port m);
  member_votes : msp.Member_Votes x = if decide (i < 7)%nat then 1 else 0;
  member_nonvoting : (7 ≤ i)%nat → msp.Member_Priority x = float64_of_int 0;
  member_disabled : (i < 7)%nat → Slave_ConfiguredState (slave_of d m) = SlaveStateDisabled →
    msp.Member_Priority x = float64_of_int 1;
  member_persistent : (i < 7)%nat → Slave_ConfiguredState (slave_of d m) ≠ SlaveStateDisabled →
    msp.Member_Priority x = if Slave_PersistentStorage (slave_of d m) then float64_of_int 10 else float64_of_int 500
}.

Lemma desired_member_spec d rid m : desired_member d rid m = true ↔ should_run d rid m.
Proof.
  unfold desired_member, should_run, member_join. split.
  - intros Hd. destruct (Mongod_ReplicaSetID m) as [r|]; simpl in Hd; [|done]. destruct (replica_sets d !! r) eqn:Hr; simpl in Hd; [|done].
    destruct (slaves d !! _) eqn:Hs; simpl in Hd; [|done]. destruct (mongod_states d !! _) as [st|] eqn:Hst; simpl in Hd; [|done].
    apply andb_true_iff in Hd as [->%bool_decide_eq_true Hrun%bool_decide_eq_true]. rewrite Hr. split_and!; [done..|by exists st].
  - intros (-> & [r Hr] & [s ->] & st & -> & Hrun). simpl. rewrite Hr. simpl. by rewrite !bool_decide_true.
Qed.

Lemma ahead_key d m m' : key_le (desired_member_key d m) (desired_member_key d m') → ahead d m m'.
Proof.
  unfold key_le, ahead, unobservable. simpl. unfold Qle. simpl. rewrite !Z.mul_1_r.
  destruct (decide (Slave_ObservationErrorID (slave_of d m) = None)), (decide (Slave_ObservationErrorID (slave_of d m') = None));
    intros [?|[? ?]]; try lia; tauto.
Qed.

Lemma member_at_for d i m : member_for d i m (member_at i (member_of d m)).
Proof.
  split; simpl; intros; repeat case_decide; try done; try lia; unfold member_priority; [by rewrite decide_True|].
  rewrite decide_False by done. by destruct (Slave_PersistentStorage _).
Qed.

Section spec.
Context (ENG : Engine) (ORM : Gorm) (Hrel : reliable ENG ORM).
Context (c : conn) (Hok : db_ok (cdb c)) (rid : Z).

Abbreviation rows := (desired_rows (cdb c) rid).

Lemma rows_NoDup : NoDup rows.
Proof.
  unfold desired_rows. rewrite order_by_perm. apply NoDup_fmap_1 with (f := Mongod_ID).
  rewrite <- list_fmap_compose. rewrite (list_fmap_ext _ fst); [apply NoDup_fst_map_to_list|].
  intros i [id m] Hi%list_elem_of_lookup_2%elem_of_map_to_list%map_lookup_filter_Some. simpl. by apply (ok_mongod_key _ Hok), Hi.
Qed.

Lemma members_run : ∃ c' initiator,
  DesiredMSPReplicaSetMembersForReplicaSetID rid c = (c', Returned (wanted_members (cdb c) rid, initiator, None)) ∧
  cdb c' = cdb c ∧ cbus c' = cbus c ∧
  (rows = [] ∨ head rows = Some initiator).
Proof.
  assert (wp (DesiredMSPReplicaSetMembersForReplicaSetID rid) (λ res c', cdb c' = cdb c ∧ cbus c' = cbus c ∧
    ∃ initiator, res = (wanted_members (cdb c) rid, initiator, None) ∧
      (rows = [] ∨ head rows = Some initiator)) (λ _ _, False) c) as Hwp.
  { unfold DesiredMSPReplicaSetMembersForReplicaSetID. wp_step. apply wp_sql_query; [|by intros e ?].
    unfold desired_member_rows. rewrite (desired_rows_select _ _ _ Hok), scan_members_imap. simpl.
    rewrite (imap_ext _ member_at) by done. wp_step.
    apply wp_orm_first_id; [| |by intros e _ ?]; simpl.
    - intros r Hr. wp_steps. split_and!; [done..|]. eexists. split; [done|].
      destruct rows as [|m l] eqn:Hrows; [by left|right]. simpl in *.
      assert (m ∈ rows) as Hin by (rewrite Hrows; left).
      apply elem_of_desired_rows in Hin as (id & Hid & _).
      rewrite (ok_mongod_key _ Hok _ _ Hid), Hid in Hr. by simplify_eq.
    - intros Hnone. wp_steps. split_and!; [done..|]. eexists. split; [done|].
      destruct rows as [|m l] eqn:Hrows; [by left|right]. simpl in *.
      assert (m ∈ rows) as Hin by (rewrite Hrows; left).
      apply elem_of_desired_rows in Hin as (id & Hid & _).
      rewrite (ok_mongod_key _ Hok _ _ Hid), Hid in Hnone. done. }
  apply wp_returns in Hwp as (res & c' & Hrun & Hc & Hb & initiator & -> & Hinit). eauto 10.
Qed.

(** C26: The members computed for a replica set are exactly its mongods that should run,
    each once: first those on slaves without observation error, then by the configured
    state of the slave (active, maintenance, disabled), then by identifier. Every member
    has the host name of its slave and the port of its mongod; the first seven have one
    vote and priority 1 on a disabled slave, else 10 with and 500 without persistent
    storage; all later ones have no vote and priority 0. The mongod that initiates the
    set is the first member. For a well-formed database and a server that executes the
    queries. *)
Theorem members_voting : ∃ c' members initiator ms,
  DesiredMSPReplicaSetMembersForReplicaSetID rid c = (c', Returned (members, initiator, None)) ∧ cdb c' = cdb c ∧
  NoDup ms ∧ (∀ m, m ∈ ms ↔ mongods (cdb c) !! Mongod_ID m = Some m ∧ should_run (cdb c) rid m) ∧
  (∀ i j mi mj, (i < j)%nat → ms !! i = Some mi → ms !! j = Some mj → ahead (cdb c) mi mj) ∧
  length members = length ms ∧
  (∀ i m x, ms !! i = Some m → members !! i = Some x → member_for (cdb c) i m x) ∧
  (ms ≠ [] → head ms = Some initiator).
Proof.
  destruct members_run as (c' & initiator & Hrun & Hc & _ & Hinit).
  exists c', (wanted_members (cdb c) rid), initiator, rows. unfold wanted_members. split_and!; [done|done|apply rows_NoDup| | | | |].
  - intros m. rewrite elem_of_desired_rows. split.
    + intros (id & Hid & Hd%desired_member_spec). by rewrite (ok_mongod_key _ Hok _ _ Hid).
    + intros [Hid Hd%desired_member_spec]. by eexists.
  - intros i j mi mj Hlt Hi Hj. apply ahead_key. by eapply order_by_sorted.
  - by rewrite length_imap, length_fmap.
  - intros i m x Hm Hx. rewrite list_lookup_imap, list_lookup_fmap, Hm in Hx. injection Hx as <-. apply member_at_for.
  - intros Hne. by destruct Hinit.
Qed.

End spec.

(** ** A replica set of nine members, two of them on a slave that cannot be observed *)

Definition nine_db : db :=
  let ids := [1; 2; 3; 4; 5; 6; 7; 8; 9] in
  mkDb
    (list_to_map ((λ i, (i, mkSlave i ("host" +:+ fmt_d i) 8081 18080 18090 (bool_decide (i < 5)) SlaveStateActive None
                              (if decide (i < 3) then Some 1 else None))) <$> ids))
    (list_to_map ((λ i, (i, mkMongod i 18080 "rs" None None i (Some 1) i None)) <$> ids))
    (list_to_map ((λ i, (i, mkMongodState i i "none" MongodExecutionStateRunning)) <$> ids))
    {[1 := mkReplicaSet 1 "rs" 4 5 "none" false]} ∅
    {[1 := mkMSPError 1 msp.CommunicationError "unreachable" "timeout"]} ∅ ∅ ∅.

Lemma nine_ok : db_ok nine_db.
Proof. by apply db_okb_sound; vm_compute. Qed.

Lemma members_voting_witness : ∃ c' members initiator ms,
  @DesiredMSPReplicaSetMembersForReplicaSetID ref_engine ref_gorm 1 (mkConn nine_db 0 []) =
    (c', Returned (members, initiator, None)) ∧ cdb c' = nine_db ∧
  NoDup ms ∧ (∀ m, m ∈ ms ↔ mongods nine_db !! Mongod_ID m = Some m ∧ should_run nine_db 1 m) ∧
  (∀ i j mi mj, (i < j)%nat → ms !! i = Some mi → ms !! j = Some mj → ahead nine_db mi mj) ∧
  length members = length ms ∧
  (∀ i m x, ms !! i = Some m → members !! i = Some x → member_for nine_db i m x) ∧
  (ms ≠ [] → head ms = Some initiator).
Proof. apply (members_voting ref_engine ref_gorm ref_reliable (mkConn nine_db 0 []) nine_ok 1). Defined.

(** The two members on unobserved slaves come last and lose their votes. *)
Example nine_votes :
  match (@DesiredMSPReplicaSetMembersForReplicaSetID ref_engine ref_gorm 1 (mkConn nine_db 0 [])).2 with
  | Returned (members, initiator, None) =>
      ((λ m, (msp.Hostname (msp.Member_HostPort m), msp.Member_Votes m)) <$> members, Mongod_ID initiator)
  | _ => ([], 0)
  end = ([("host3", 1); ("host4", 1); ("host5", 1); ("host6", 1); ("host7", 1); ("host8", 1); ("host9", 1);
          ("host1", 0); ("host2", 0)]%string, 3).
Proof. vm_compute. reflexivity. Qed.
