(* ===== verification/Secrets.v ===== *)
(** * Global secrets

    [InitializeGlobalSecrets] and [randomBase64] of [master/cluster_allocator.go]:
    the keyfile of the cluster and the credential MAMID manages it with are
    created once and never replaced.  [rand.Read] is a parameter. *)

From stdpp Require Import base gmap sets list strings fin_maps.
From Stdlib Require Import Lia.
From S2P Require Import Prelude Base64 Msp Model Database Orm.

Open Scope Z_scope.
Set Warnings "-clear-no-such-hyp".

Section secrets.
(** [rand.Read] of that many bytes, at that statement of the connection. *)
Context (rand_read : nat → nat → gres (list Z)).

(** [func randomBase64(len int) (str string, err error)]; slicing beyond the
    encoding would panic. *)
Definition randomBase64 (n len : nat) : gres string + goval :=
  match rand_read n len with
  | Err e => inl (Err (TextError ("error reading random bytes: " +:+ error_text e)))
  | Ok randBytes =>
      let encoded := base64_encode randBytes in
      if decide (len ≤ length encoded)%nat
      then inl (Ok (String.string_of_list_ascii (take len encoded)))
      else inr (VString "slice bounds out of range")
  end.

Definition MamidManagementUsername : string := "mamid".

Context `{ENG : Engine} `{ORM : Gorm}.

(** One of the two [switch] statements: the row exists, or it is created from
    fresh random text. *)
Definition ensure_secret {R} `{Table R} (len : nat) (build : string → R) (random_error create_error : string)
    : GoM conn (option gerror) :=
  res ← orm_first (R := R);
  match res with
  | Ok _ => mret None
  | Err ErrRecordNotFound =>
      c ← get_state;
      match randomBase64 (cstmts c) len with
      | inr v => panic v
      | inl (Err e) => mret (Some (TextError (random_error +:+ error_text e)))
      | inl (Ok content) =>
          created ← orm_create (build content);
          match created with
          | Err e => mret (Some (TextError (create_error +:+ error_text e)))
          | Ok _ => mret None
          end
      end
  | Err e => mret (Some e)
  end.

Definition ensure_keyfile : GoM conn (option gerror) :=
  ensure_secret 1024 (λ content, mkMongodKeyfile 0 content)
    "could not generate keyfile contents: "
    "could not create keyfile contents: error inserting into database: ".

Definition ensure_root_credential : GoM conn (option gerror) :=
  ensure_secret 40 (λ password, mkMongodbCredential 0 MamidManagementUsername password)
    "could not generate management user passphrase: "
    "could not create MongoDB root credential: ".

(** [func (c *ClusterAllocator) InitializeGlobalSecrets(tx *gorm.DB) (err error)] *)
Definition InitializeGlobalSecrets : GoM conn (option gerror) :=
  err ← ensure_keyfile;
  match err with
  | Some e => mret (Some e)
  | None => ensure_root_credential
  end.
End secrets.

(** ** The text is as long as asked for and never padded *)

(** [randomBase64] never slices out of range: given that many random bytes it
    returns a text of exactly the requested length over the base64 alphabet,
    without padding. *)
Theorem randomBase64_total rand_read n len bytes :
  rand_read n len = Ok bytes → length bytes = len →
  ∃ s, randomBase64 rand_read n len = inl (Ok s) ∧ String.length s = len ∧
       Forall (λ x, x ∈ base64_alphabet) (String.list_ascii_of_string s).
Proof.
  intros Hr Hlen. destruct (base64_encode_prefix bytes) as [Hle Hall]. rewrite Hlen in Hle, Hall.
  unfold randomBase64. rewrite Hr, decide_True by done. eexists. split; [done|].
  rewrite String.list_ascii_of_string_of_list_ascii. split; [|done].
  rewrite <- (String.list_ascii_of_string_of_list_ascii (take len (base64_encode bytes))) at 1.
  rewrite String.string_of_list_ascii_of_string.
  enough (∀ l, String.length (String.string_of_list_ascii l) = length l) as E by (rewrite E, length_take; lia).
  induction l; simpl; congruence.
Qed.

Lemma randomBase64_total_witness :
  ∃ s, randomBase64 (λ _ len, Ok (replicate len 255)) 0 40 = inl (Ok s) ∧ String.length s = 40%nat ∧
       Forall (λ x, x ∈ base64_alphabet) (String.list_ascii_of_string s).
Proof. apply (randomBase64_total (λ _ len, Ok (replicate len 255)) 0 40 (replicate 40 255)); reflexivity. Defined.

(** ** Whatever fails, a secret that exists is not replaced *)

Definition secrets_created (d d' : db) : Prop :=
  d' = set_mongod_keyfiles (mongod_keyfiles d') (set_mongodb_root_credentials (mongodb_root_credentials d') d) ∧
  (mongod_keyfiles d ≠ ∅ → mongod_keyfiles d' = mongod_keyfiles d) ∧
  (mongodb_root_credentials d ≠ ∅ → mongodb_root_credentials d' = mongodb_root_credentials d).

Lemma secrets_created_refl d : secrets_created d d.
Proof. split; [by destruct d|done]. Qed.

Lemma secrets_created_trans d1 d2 d3 : secrets_created d1 d2 → secrets_created d2 d3 → secrets_created d1 d3.
Proof.
  intros (E1 & Hk1 & Hc1) (E2 & Hk2 & Hc2). split_and!.
  - rewrite E2 at 1. rewrite E1 at 1. done.
  - intros Hne. specialize (Hk1 Hne). rewrite <- Hk1 in Hne |- *. by apply Hk2.
  - intros Hne. specialize (Hc1 Hne). rewrite <- Hc1 in Hne |- *. by apply Hc2.
Qed.

Section whatever_fails.
Context `{ENG : Engine} `{ORM : Gorm} (rand_read : nat → nat → gres (list Z)).

Lemma ensure_secret_any {R} `{Table R} len (build : string → R) e1 e2 c (P : conn → Prop) :
  (∀ s, row_id (build s) = 0) → (∀ c', cdb c' = cdb c → P c') →
  (∀ c' t, table (R := R) (cdb c) = ∅ → cdb c' = set_table t (cdb c) → P c') →
  wp (ensure_secret rand_read len build e1 e2) (λ _, P) (λ _, P) c.
Proof.
  intros Hid Hsame Hnew. unfold ensure_secret. wp_step. apply wp_orm_first.
  - intros r id _ _. by apply wp_ret, Hsame.
  - intros Hempty. wp_steps. destruct (randomBase64 _ _ _) as [[content|e]|v]; [|by apply wp_ret, Hsame|by apply wp_panic, Hsame].
    wp_step. unfold wp at 1, orm_create. pose proof (gorm_create_law (cstmts (tick c)) (cdb c) (build content) (Hid _)) as Hlaw.
    simpl in *. destruct (gorm_create _ _ _) as [d' [r|e]]; apply wp_ret.
    + destruct Hlaw as (id & _ & _ & _ & _ & ->). by eapply Hnew.
    + subst. by apply Hsame.
  - intros e Hne _. destruct e; try (by apply wp_ret, Hsame). done.
Qed.

Lemma InitializeGlobalSecrets_any c :
  wp (InitializeGlobalSecrets rand_read) (λ _ c', secrets_created (cdb c) (cdb c')) (λ _ c', secrets_created (cdb c) (cdb c')) c.
Proof.
  assert (∀ c1, wp (ensure_keyfile rand_read) (λ _ c2, secrets_created (cdb c1) (cdb c2)) (λ _ c2, secrets_created (cdb c1) (cdb c2)) c1) as H1.
  { intros c1. apply (ensure_secret_any _ _ _ _ _ (λ c2, secrets_created (cdb c1) (cdb c2))); [done| |].
    - intros c2 ->. apply secrets_created_refl.
    - intros c2 t Hempty ->. by split. }
  assert (∀ c1, wp (ensure_root_credential rand_read) (λ _ c2, secrets_created (cdb c1) (cdb c2)) (λ _ c2, secrets_created (cdb c1) (cdb c2)) c1) as H2.
  { intros c1. apply (ensure_secret_any _ _ _ _ _ (λ c2, secrets_created (cdb c1) (cdb c2))); [done| |].
    - intros c2 ->. apply secrets_created_refl.
    - intros c2 t Hempty ->. by split. }
  unfold InitializeGlobalSecrets. wp_step. eapply wp_mono; [apply H1| |done]. intros [e|] c1 Hc1; [by apply wp_ret|].
  eapply wp_mono; [apply H2|..]; intros ? c2 Hc2; by eapply secrets_created_trans.
Qed.

(** Success means that the secret is there. *)
Lemma ensure_secret_none {R} `{Table R} len (build : string → R) e1 e2 c : (∀ s, row_id (build s) = 0) → (∀ t d, table (set_table t d) = t) →
  wp (ensure_secret rand_read len build e1 e2) (λ err c', err = None → table (R := R) (cdb c') ≠ ∅) (λ _ _, True) c.
Proof.
  intros Hid Htable. unfold ensure_secret. wp_step. apply wp_orm_first.
  - intros r id Hr _. apply wp_ret. intros _ Hempty. simpl in Hempty. by rewrite Hempty, lookup_empty in Hr.
  - intros Hempty. wp_steps. destruct (randomBase64 _ _ _) as [[content|e]|v]; [|by apply wp_ret|by apply wp_panic].
    wp_step. unfold wp at 1, orm_create. pose proof (gorm_create_law (cstmts (tick c)) (cdb c) (build content) (Hid _)) as Hlaw.
    simpl in *. destruct (gorm_create _ _ _) as [d' [r|e]]; apply wp_ret; [|done].
    destruct Hlaw as (id & _ & _ & _ & _ & ->). intros _. change (table (set_table (<[id:=r]> (table (cdb c))) (cdb c)) ≠ ∅). rewrite Htable. apply insert_non_empty.
  - intros e Hne _. destruct e; by apply wp_ret.
Qed.

Lemma InitializeGlobalSecrets_none c :
  wp (InitializeGlobalSecrets rand_read)
    (λ err c', err = None → mongod_keyfiles (cdb c') ≠ ∅ ∧ mongodb_root_credentials (cdb c') ≠ ∅) (λ _ _, True) c.
Proof.
  unfold InitializeGlobalSecrets. wp_step. eapply wp_mono; [by apply ensure_secret_none| |done].
  intros [e|] c1 Hkey; [by apply wp_ret|]. specialize (Hkey eq_refl). unfold ensure_root_credential.
  pose proof (ensure_secret_none 40 (λ password, mkMongodbCredential 0 MamidManagementUsername password)
    "could not generate management user passphrase: " "could not create MongoDB root credential: " c1 (λ _, eq_refl) (λ _ _, eq_refl)) as Hcred.
  pose proof (ensure_secret_any (R := MongodbCredential) 40 (λ password, mkMongodbCredential 0 MamidManagementUsername password)
    "could not generate management user passphrase: " "could not create MongoDB root credential: " c1
    (λ c2, mongod_keyfiles (cdb c2) ≠ ∅)) as Hkept.
  specialize (Hkept (λ _, eq_refl) ltac:(intros c2 E; cbv beta; by rewrite E) ltac:(intros c2 t _ E; cbv beta; by rewrite E)). unfold wp in *.
  destruct (ensure_secret _ _ _ _ _ c1) as [c2 [err|v|]]; [|done..]. intros ->. split; [exact Hkept|by apply Hcred].
Qed.

Lemma ensure_secret_stmts {R} `{Table R} len (build : string → R) e1 e2 c :
  wp (ensure_secret rand_read len build e1 e2) (λ _ c', (cstmts c < cstmts c')%nat) (λ _ _, True) c.
Proof.
  unfold ensure_secret. wp_step. apply wp_orm_first.
  - intros r id _ _. apply wp_ret. simpl. lia.
  - intros _. wp_steps. destruct (randomBase64 _ _ _) as [[content|e]|v]; [|apply wp_ret; simpl; lia|by apply wp_panic].
    wp_step. unfold wp at 1, orm_create. destruct (gorm_create _ _ _) as [d' [r|e]]; apply wp_ret; simpl; lia.
  - intros e Hne _. destruct e; [done|apply wp_ret; simpl; lia..].
Qed.

(** The secrets are the only change, they are there unless an error is returned, and
    at least one statement has been executed. *)
Lemma InitializeGlobalSecrets_creates c :
  wp (InitializeGlobalSecrets rand_read) (λ err c', secrets_created (cdb c) (cdb c') ∧ (cstmts c < cstmts c')%nat ∧
    (err = None → mongod_keyfiles (cdb c') ≠ ∅ ∧ mongodb_root_credentials (cdb c') ≠ ∅)) (λ _ _, True) c.
Proof.
  assert (wp (InitializeGlobalSecrets rand_read) (λ _ c', (cstmts c < cstmts c')%nat) (λ _ _, True) c) as Hstmts.
  { unfold InitializeGlobalSecrets, ensure_keyfile, ensure_root_credential. wp_step.
    eapply wp_mono; [apply ensure_secret_stmts| |done]. intros [e|] c1 H1; simpl in H1; [by apply wp_ret|].
    eapply wp_mono; [apply ensure_secret_stmts| |done]. simpl. lia. }
  pose proof (InitializeGlobalSecrets_any c) as Hany. pose proof (InitializeGlobalSecrets_none c) as Hnone. unfold wp in *.
  by destruct (InitializeGlobalSecrets rand_read c) as [c' [err|v|]].
Qed.
End whatever_fails.

(** ** Created once, never replaced *)

Section initialize.
Context (rand_read : nat → nat → gres (list Z)).
Context (Hrand : ∀ n len, ∃ bytes, rand_read n len = Ok bytes ∧ length bytes = len).
Context (ENG : Engine) (ORM : Gorm) (Hrel : reliable ENG ORM).

Lemma randomBase64_ok n len : ∃ s, randomBase64 rand_read n len = inl (Ok s).
Proof.
  destruct (Hrand n len) as (bytes & Hr & Hlen). unfold randomBase64. rewrite Hr.
  destruct (base64_encode_prefix bytes) as [Hle _]. rewrite decide_True by lia. eauto.
Qed.

Lemma ensure_secret_spec {R} `{Table R} len (build : string → R) e1 e2 c :
  (∀ s, row_id (build s) = 0 ∧ row_unique (build s) = None) →
  wp (ensure_secret rand_read len build e1 e2)
    (λ err c', err = None ∧
       (table (R := R) (cdb c) ≠ ∅ ∧ cdb c' = cdb c ∨
        table (R := R) (cdb c) = ∅ ∧
        ∃ id s, cdb c' = set_table (<[id := set_row_id id (build s)]> (table (cdb c))) (cdb c)))
    (λ _ _, False) c.
Proof.
  intros Hid. unfold ensure_secret. wp_step. apply wp_orm_first; [| |by intros e _ ?].
  - intros r id Hr _. wp_steps. split; [done|left]. split; [|done]. intros Hempty.
    rewrite Hempty in Hr. by rewrite lookup_empty in Hr.
  - intros Hempty. wp_steps. destruct (randomBase64_ok (cstmts (tick c)) len) as [s ->].
    wp_step. apply wp_orm_create; [apply Hid|apply Hid| |by intros e ?].
    intros id _ _. wp_steps. split; [done|right]. split; [done|]. by exists id, s.
Qed.

Record secrets_kept (d d' : db) : Prop := {
  kept_keyfiles : mongod_keyfiles d' ≠ ∅;
  kept_credentials : mongodb_root_credentials d' ≠ ∅;
  kept_keyfile : mongod_keyfiles d ≠ ∅ → mongod_keyfiles d' = mongod_keyfiles d;
  kept_credential : mongodb_root_credentials d ≠ ∅ → mongodb_root_credentials d' = mongodb_root_credentials d;
  kept_rest : slaves d' = slaves d ∧ mongods d' = mongods d ∧ mongod_states d' = mongod_states d ∧
    replica_sets d' = replica_sets d ∧ risk_groups d' = risk_groups d ∧ msp_errors d' = msp_errors d ∧
    problems d' = problems d
}.

Lemma initialize_spec c :
  wp (InitializeGlobalSecrets rand_read)
    (λ err c', err = None ∧ secrets_kept (cdb c) (cdb c') ∧
       (mongod_keyfiles (cdb c) ≠ ∅ → mongodb_root_credentials (cdb c) ≠ ∅ → cdb c' = cdb c))
    (λ _ _, False) c.
Proof.
  unfold InitializeGlobalSecrets, ensure_keyfile, ensure_root_credential. wp_step.
  eapply wp_mono; [by apply ensure_secret_spec| |done]. intros err c1 [-> H1]. simpl in H1.
  eapply wp_mono; [by apply ensure_secret_spec| |done]. intros err c2 [-> H2]. simpl in H2.
  split; [done|].
  destruct H1 as [[Hk1 E1]|(Hk1 & id1 & s1 & E1)], H2 as [[Hk2 E2]|(Hk2 & id2 & s2 & E2)];
    rewrite E2; simpl; rewrite E1; simpl; rewrite E1 in Hk2; simpl in Hk2;
    (split; [split|]); simpl; try done; try (apply insert_non_empty); auto.
Qed.

(** Initialising the global secrets always succeeds and leaves a keyfile and
    a management credential; a secret that was there is never replaced, no other
    table is touched, and running it again changes nothing. *)
Theorem InitializeGlobalSecrets_idempotent c : ∃ c' c'',
  InitializeGlobalSecrets rand_read c = (c', Returned None) ∧ secrets_kept (cdb c) (cdb c') ∧
  InitializeGlobalSecrets rand_read c' = (c'', Returned None) ∧ cdb c'' = cdb c'.
Proof.
  destruct (wp_returns _ _ _ (initialize_spec c)) as (err & c' & Hrun & -> & Hkept & _).
  destruct (wp_returns _ _ _ (initialize_spec c')) as (err & c'' & Hrun' & -> & _ & Hsame).
  exists c', c''. split_and!; [done..|]. apply Hsame; apply Hkept.
Qed.
End initialize.

Lemma InitializeGlobalSecrets_idempotent_witness : ∃ c' c'',
  @InitializeGlobalSecrets (λ _ len, Ok (replicate len 77)) ref_gorm (mkConn empty_db 0 []) = (c', Returned None) ∧
  secrets_kept empty_db (cdb c') ∧
  @InitializeGlobalSecrets (λ _ len, Ok (replicate len 77)) ref_gorm c' = (c'', Returned None) ∧ cdb c'' = cdb c'.
Proof.
  apply (InitializeGlobalSecrets_idempotent (λ _ len, Ok (replicate len 77))
    (λ _ len, ex_intro _ (replicate len 77) (conj eq_refl (length_replicate len 77)))
    ref_engine ref_gorm ref_reliable (mkConn empty_db 0 [])).
Defined.
