(* ===== verification/Projections.v ===== *)
(** * Between the model and the protocol

    [master/projections.go] and the comparison functions of [master/monitor.go]:
    the conversions between database rows and protocol messages, and when the
    monitor considers a desired and an observed state the same. *)

From stdpp Require Import base gmap sets list strings.
From Stdlib Require Import Lia.
From S2P Require Import Prelude Msp Model Database Orm.

Open Scope Z_scope.
Set Warnings "-clear-no-such-hyp".

(** ** projections.go *)

Definition ProjectModelShardingRoleToMSPShardingRole (r : ShardingRole) : gres string :=
  if decide (r = Model.ShardingRoleNone) then Ok msp.ShardingRoleNone
  else if decide (r = Model.ShardingRoleShardServer) then Ok msp.ShardingRoleShardServer
  else if decide (r = Model.ShardingRoleConfigServer) then Ok msp.ShardingRoleConfigServer
  else Err (TextError ("cannot convert unknown model.ShardingRole `" +:+ r +:+ "`")).

Definition ProjectMSPShardingRoleToModelShardingRole (r : string) : gres ShardingRole :=
  if decide (r = msp.ShardingRoleNone) then Ok Model.ShardingRoleNone
  else if decide (r = msp.ShardingRoleShardServer) then Ok Model.ShardingRoleShardServer
  else if decide (r = msp.ShardingRoleConfigServer) then Ok Model.ShardingRoleConfigServer
  else Err (TextError ("cannot convert unknown msp.ShardingRole `" +:+ r +:+ "`")).

Definition mspMongodStateFromExecutionState (s : MongodExecutionState) : gres string :=
  if decide (s = MongodExecutionStateDestroyed) then Ok msp.MongodStateDestroyed
  else if decide (s = MongodExecutionStateNotRunning) then Ok msp.MongodStateNotRunning
  else if decide (s = MongodExecutionStateRecovering) then Ok msp.MongodStateRecovering
  else if decide (s = MongodExecutionStateRunning) then Ok msp.MongodStateRunning
  else if decide (s = MongodExecutionStateForceDestroyed) then Ok msp.MongodStateForceDestroyed
  else Err (TextError ("deployer: unable to map `" +:+ fmt_d s +:+ "` from model.ExecutionState to msp.MongodState")).

Definition ProjectModelMongodbCredentialToMSPMongodCredential (m : MongodbCredential) : msp.MongodCredential :=
  msp.mkMongodCredential (Credential_Username m) (Credential_Password m).

(** ** monitor.go *)

Definition MspMongodStateToModelExecutionState (e : string) : MongodExecutionState :=
  if decide (e = msp.MongodStateDestroyed) then MongodExecutionStateDestroyed
  else if decide (e = msp.MongodStateNotRunning) then MongodExecutionStateNotRunning
  else if decide (e = msp.MongodStateRecovering) then MongodExecutionStateRecovering
  else if decide (e = msp.MongodStateRunning) then MongodExecutionStateRunning
  else if decide (e = msp.MongodStateForceDestroyed) then MongodExecutionStateForceDestroyed
  else if decide (e = msp.MongodStateUninitialized) then MongodExecutionStateUninitiated
  else 0.

Definition mspErrorToModelMSPError (mspError : msp.Error) : MSPError :=
  mkMSPError 0 (msp.Identifier mspError) (msp.Description mspError) (msp.LongDescription mspError).

Definition MongodStatesEquivalent (a b : MongodState) : bool :=
  let e := bool_decide (MongodState_ExecutionState a = MongodState_ExecutionState b) in
  e && bool_decide (MongodState_ShardingRole a = MongodState_ShardingRole b).

(** Equality of struct values, [==]: floats compare as floats. *)
Definition HostPort_eqb (a b : msp.HostPort) : bool :=
  bool_decide (msp.Hostname a = msp.Hostname b) && bool_decide (msp.Port a = msp.Port b).
Definition ReplicaSetMember_eqb (a b : msp.ReplicaSetMember) : bool :=
  HostPort_eqb (msp.Member_HostPort a) (msp.Member_HostPort b) &&
  float64_eqb (msp.Member_Priority a) (msp.Member_Priority b) &&
  bool_decide (msp.Member_Votes a = msp.Member_Votes b).

(** The loops of [MSPReplicaSetMembersDeepEqualsIgnoringOrder]: [seen] is the key
    set of the Go map, compared with [==]. *)
Fixpoint all_seen (seen b : list msp.ReplicaSetMember) : bool :=
  match b with
  | [] => true
  | m :: b => if existsb (ReplicaSetMember_eqb m) seen then all_seen seen b else false
  end.

Definition MSPReplicaSetMembersDeepEqualsIgnoringOrder (a b : list msp.ReplicaSetMember) : bool :=
  if decide (length a ≠ length b) then false else all_seen a b.

Definition ReplicaSetMembersEquivalent (a b : msp.ReplicaSetMember) : bool :=
  HostPort_eqb (msp.Member_HostPort a) (msp.Member_HostPort b) &&
  float64_eqb (msp.Member_Priority a) (msp.Member_Priority b) &&
  bool_decide (msp.Member_Votes a = msp.Member_Votes b).

(** ** Round trips *)

(** The sharding roles of the model and of the protocol correspond one to
    one: a role converted to the protocol and back is unchanged, and the other
    way round, and a value outside the three roles is an error in both
    directions. *)
Theorem sharding_role_roundtrip r :
  match ProjectModelShardingRoleToMSPShardingRole r with
  | Ok r' => ProjectMSPShardingRoleToModelShardingRole r' = Ok r
  | Err _ => r ∉ [Model.ShardingRoleNone; Model.ShardingRoleShardServer; Model.ShardingRoleConfigServer]
  end ∧
  match ProjectMSPShardingRoleToModelShardingRole r with
  | Ok r' => ProjectModelShardingRoleToMSPShardingRole r' = Ok r
  | Err _ => r ∉ [msp.ShardingRoleNone; msp.ShardingRoleShardServer; msp.ShardingRoleConfigServer]
  end.
Proof.
  unfold ProjectModelShardingRoleToMSPShardingRole, ProjectMSPShardingRoleToModelShardingRole.
  split; repeat case_decide; subst; try done; rewrite !not_elem_of_cons; auto using not_elem_of_nil.
Qed.

(** Every execution state the master can push survives the trip to the
    protocol and back; the states it cannot push are [uninitiated] and the
    invalid value 0. *)
Theorem execution_state_roundtrip s :
  0 ≤ s ≤ 6 →
  match mspMongodStateFromExecutionState s with
  | Ok e => MspMongodStateToModelExecutionState e = s
  | Err _ => s = 0 ∨ s = MongodExecutionStateUninitiated
  end.
Proof.
  intros Hs. assert (s = 0 ∨ s = 1 ∨ s = 2 ∨ s = 3 ∨ s = 4 ∨ s = 5 ∨ s = 6) as Hcases by lia.
  destruct Hcases as [->|[->|[->|[->|[->|[->| ->]]]]]]; vm_compute; auto.
Qed.

Lemma execution_state_roundtrip_witness :
  mspMongodStateFromExecutionState 6 = Ok msp.MongodStateRunning ∧
  MspMongodStateToModelExecutionState msp.MongodStateRunning = 6.
Proof. split; [reflexivity|]. apply (execution_state_roundtrip 6). lia. Defined.

(** ** The member comparison *)

Lemma SFcompare_refl f : f ≠ SpecFloat.S754_nan → SpecFloat.SFcompare f f = Some Eq.
Proof.
  intros Hf. destruct f as [b|b| |b m e]; simpl; try (by destruct b); [done|].
  destruct b; rewrite Z.compare_refl, Pos.compare_refl; done.
Qed.

Lemma member_eqb_refl m : msp.Member_Priority m ≠ SpecFloat.S754_nan → ReplicaSetMember_eqb m m = true.
Proof.
  intros Hp. unfold ReplicaSetMember_eqb, HostPort_eqb, float64_eqb, SpecFloat.SFeqb.
  rewrite !bool_decide_true by done. by rewrite SFcompare_refl.
Qed.

Lemma all_seen_spec seen b :
  all_seen seen b = true ↔ ∀ m, m ∈ b → ∃ m', m' ∈ seen ∧ ReplicaSetMember_eqb m m' = true.
Proof.
  induction b as [|m b IH]; simpl; [split; [set_solver|done]|].
  destruct (existsb (ReplicaSetMember_eqb m) seen) eqn:He.
  - apply existsb_exists in He as (m' & Hin%list_elem_of_In & Heq). rewrite IH. split.
    + intros Hall x [->|Hx]%elem_of_cons; eauto.
    + intros Hall x Hx. apply Hall. by right.
  - split; [done|]. intros Hall. destruct (Hall m) as (m' & Hin & Heq); [left|].
    enough (existsb (ReplicaSetMember_eqb m) seen = true) by congruence.
    apply existsb_exists. exists m'. split; [by apply list_elem_of_In|done].
Qed.

(** The comparison accepts every reordering of the members (priorities being
    numbers), so the order in which a slave reports them is no mismatch. *)
Theorem members_equal_ignores_order a b :
  a ≡ₚ b → (∀ m, m ∈ a → msp.Member_Priority m ≠ SpecFloat.S754_nan) →
  MSPReplicaSetMembersDeepEqualsIgnoringOrder a b = true.
Proof.
  intros Hperm Hnan. unfold MSPReplicaSetMembersDeepEqualsIgnoringOrder.
  rewrite decide_False by (intros Hl; apply Hl; by rewrite Hperm).
  apply all_seen_spec. intros m Hm. exists m. rewrite Hperm. split; [done|].
  apply member_eqb_refl, Hnan. by rewrite Hperm.
Qed.

Definition example_member (host : string) : msp.ReplicaSetMember :=
  msp.mkReplicaSetMember (msp.mkHostPort host 18080) (float64_of_int 10) 1.

Lemma members_equal_ignores_order_witness :
  MSPReplicaSetMembersDeepEqualsIgnoringOrder [example_member "a"; example_member "b"]
    [example_member "b"; example_member "a"] = true.
Proof.
  apply members_equal_ignores_order; [apply perm_swap|].
  intros m [->|[->|[]%not_elem_of_nil]%elem_of_cons]%elem_of_cons; discriminate.
Defined.

(** The comparison is not an equality of sets: it is not symmetric, two
    members on the left can be answered by one of them reported twice. *)
Theorem members_equal_not_symmetric : ∃ a b,
  MSPReplicaSetMembersDeepEqualsIgnoringOrder a b = true ∧
  MSPReplicaSetMembersDeepEqualsIgnoringOrder b a = false.
Proof. exists [example_member "a"; example_member "b"], [example_member "a"; example_member "a"]. by vm_compute. Qed.

(** C40: The comparison decides the equality of two sets of members: if the members
    of each list are pairwise different (and told apart by [==], which priorities
    that are no numbers are not), it accepts exactly the reorderings. *)
Theorem members_equal_exact a b :
  NoDup a → NoDup b →
  (∀ m m', m ∈ a ++ b → m' ∈ a ++ b → ReplicaSetMember_eqb m m' = true ↔ m = m') →
  MSPReplicaSetMembersDeepEqualsIgnoringOrder a b = true ↔ a ≡ₚ b.
Proof.
  intros Ha Hb Heq. unfold MSPReplicaSetMembersDeepEqualsIgnoringOrder. case_decide as Hlen.
  - split; [done|]. intros Hp. by rewrite Hp in Hlen.
  - rewrite all_seen_spec. split.
    + intros Hall. symmetry. apply submseteq_length_Permutation; [|lia]. apply NoDup_submseteq; [done|].
      intros m Hm. destruct (Hall m Hm) as (m' & Hm' & E).
      by apply (Heq m m') in E as ->; [|set_solver..].
    + intros Hp m Hm. exists m. rewrite Hp. split; [done|]. apply Heq; set_solver.
Qed.

Lemma members_equal_exact_witness :
  MSPReplicaSetMembersDeepEqualsIgnoringOrder [example_member "a"; example_member "b"]
    [example_member "b"; example_member "a"] = true ↔
  [example_member "a"; example_member "b"] ≡ₚ [example_member "b"; example_member "a"].
Proof.
  apply members_equal_exact.
  - apply NoDup_cons. split; [by intros [=]%list_elem_of_singleton|apply NoDup_singleton].
  - apply NoDup_cons. split; [by intros [=]%list_elem_of_singleton|apply NoDup_singleton].
  - intros m m' Hm Hm'. simpl in Hm, Hm'.
    assert (m = example_member "a" ∨ m = example_member "b") as [-> | ->] by set_solver;
    assert (m' = example_member "a" ∨ m' = example_member "b") as [-> | ->] by set_solver;
    (split; [vm_compute; congruence|]); intros E; try (by vm_compute); discriminate E.
Defined.
