(* ===== verification/Deployer.v ===== *)
(** * The deployer

    [master/deployer.go]: reacting to bus messages by pushing the desired state of
    a mongod, or by initiating a replica set, through the protocol client.  The
    database handle and its transactions are explicit: a transaction works on its
    own copy, [Commit] publishes it, [Rollback] drops it. *)

From stdpp Require Import base gmap sets list strings fin_maps.
From Stdlib Require Import Lia.
From S2P Require Import Prelude Msp Model Database Orm Store Session Members Projections.

Open Scope Z_scope.
Set Warnings "-clear-no-such-hyp".

(** The interface [msp.MSPClient], as the deployer uses it. *)
Class MSPClient := {
  EstablishMongodState : msp.HostPort → msp.Mongod → option msp.Error;
  InitiateReplicaSet : msp.HostPort → msp.RsInitiateMessage → option msp.Error
}.


Section deployer.
Context `{ENG : Engine} `{ORM : Gorm} `{CLIENT : MSPClient}.

Definition managementMongodCredential : GoM conn (msp.MongodCredential * option gerror) :=
  res ← orm_first (R := MongodbCredential);
  match res with
  | Ok rootCredential => mret (ProjectModelMongodbCredentialToMSPMongodCredential rootCredential, None)
  | Err ErrRecordNotFound => mret (msp.zero_Credential, None)
  | Err e => mret (msp.zero_Credential, Some e)
  end.

Definition keyfileContents : GoM conn (string * option gerror) :=
  res ← orm_first (R := MongodKeyfile);
  match res with
  | Ok keyfile => mret (Keyfile_Content keyfile, None)
  | Err e => mret (EmptyString, Some e)
  end.

(** [func (d *Deployer) mspMongodStateRepresentation(...)]; the named results
    [hostPort] and [mspMongod] are assigned last, so they are zero on error. *)
Definition mspMongodStateRepresentation (mongod : Mongod) : GoM conn (msp.HostPort * msp.Mongod * option gerror) :=
  let fail e := mret (msp.zero_HostPort, msp.zero_Mongod, Some e) in
  slaveRes ← orm_first_id (R := Slave) (Mongod_ParentSlaveID mongod);
  match slaveRes with
  | Err e => fail e
  | Ok slave =>
    stateRes ← orm_first_id (R := MongodState) (Mongod_DesiredStateID mongod);
    match stateRes with
    | Err e => fail e
    | Ok desiredState =>
      match mspMongodStateFromExecutionState (MongodState_ExecutionState desiredState) with
      | Err e => fail e
      | Ok mspMongodState =>
        membersRes ← match Mongod_ReplicaSetID mongod with
                     | None => mret ([], zero_Mongod, None)
                     | Some rid => DesiredMSPReplicaSetMembersForReplicaSetID rid
                     end;
        match membersRes with
        | (_, _, Some e) => fail e
        | (replicaSetMembers, _, None) =>
          match ProjectModelShardingRoleToMSPShardingRole (MongodState_ShardingRole desiredState) with
          | Err e => fail e
          | Ok shardingRole =>
            credentialRes ← managementMongodCredential;
            match credentialRes with
            | (_, Some e) => fail e
            | (managementCredential, None) =>
              keyfileRes ← keyfileContents;
              match keyfileRes with
              | (_, Some e) => fail e
              | (keyfile, None) =>
                mret (msp.mkHostPort (Slave_Hostname slave) (Slave_Port slave),
                  msp.mkMongod (Mongod_Port mongod) keyfile
                    (msp.mkReplicaSetConfig (Mongod_ReplSetName mongod) replicaSetMembers shardingRole managementCredential)
                    None None mspMongodState,
                  None)
              end
            end
          end
        end
      end
    end
  end.

(** [func (d *Deployer) pushMongodState(mongod Mongod)]: the error of
    [mspMongodStateRepresentation] is only logged. *)
Definition pushMongodState (mongod : Mongod) : GoM session unit :=
  _ ← Begin;
  res ← in_tx (mspMongodStateRepresentation mongod);
  let '(hostPort, mspMongod, err) := res in
  _ ← Rollback;
  call (CallEstablishMongodState hostPort mspMongod).

Definition handleMatchStatus (m : MongodMatchStatus) : GoM session unit :=
  if Match_Mismatch m then pushMongodState (Match_Mongod m) else mret tt.

(** [func (d *Deployer) findInitiatorForReplicaSet(tx, r)] *)
Definition findInitiatorForReplicaSet (r : ReplicaSet) : GoM conn (Slave * Mongod * option gerror) :=
  res ← DesiredMSPReplicaSetMembersForReplicaSetID (ReplicaSet_ID r);
  match res with
  | (_, _, Some err) => mret (zero_Slave, zero_Mongod, Some err)
  | (_, initiator, None) =>
      if decide (Mongod_ID initiator = 0)
      then mret (zero_Slave, zero_Mongod, Some (TextError "Could not find initiator - Is replica set empty?"))
      else
        slaveRes ← orm_first_id (R := Slave) (Mongod_ParentSlaveID initiator);
        match slaveRes with
        | Err e => mret (zero_Slave, zero_Mongod, Some e)
        | Ok s => mret (s, initiator, None)
        end
  end.

(** [func (d *Deployer) replicaSetConfig(tx, r)] *)
Definition replicaSetConfig (r : ReplicaSet) : GoM conn (msp.ReplicaSetConfig * option gerror) :=
  match ProjectModelShardingRoleToMSPShardingRole (ReplicaSet_ShardingRole r) with
  | Err e => mret (msp.zero_ReplicaSetConfig, Some e)
  | Ok shardingRole =>
      credentialRes ← managementMongodCredential;
      match credentialRes with
      | (_, Some e) => mret (msp.zero_ReplicaSetConfig, Some e)
      | (managementCredential, None) =>
          res ← DesiredMSPReplicaSetMembersForReplicaSetID (ReplicaSet_ID r);
          let '(members, _, err) := res in
          mret (msp.mkReplicaSetConfig (ReplicaSet_Name r) members shardingRole managementCredential, err)
      end
  end.

Definition handleReplicaSetInitiationStatus (s : ReplicaSetInitiationStatus) : GoM session unit :=
  if Initiation_Initiated s then mret tt
  else
    let replicaSet := Initiation_ReplicaSet s in
    _ ← Begin;
    found ← in_tx (findInitiatorForReplicaSet replicaSet);
    match found with
    | (_, _, Some err) => Rollback
    | (slave, initiator, None) =>
        config ← in_tx (replicaSetConfig replicaSet);
        match config with
        | (_, Some err) => Rollback
        | (cfg, None) =>
            let target := msp.mkHostPort (Slave_Hostname slave) (Slave_Port slave) in
            let msg := msp.mkRsInitiateMessage (Mongod_Port initiator) cfg in
            _ ← call (CallInitiateReplicaSet target msg);
            match InitiateReplicaSet target msg with
            | Some mspErr => Rollback
            | None =>
                err ← in_tx (orm_update replicaSet (ReplicaSet_set_Initiated true));
                match err with
                | Some e => Rollback
                | None => _ ← Commit; mret tt
                end
            end
        end
    end.

(** [Run]'s [switch msg.(type)]; other messages are ignored. *)
Definition dispatch (msg : StatusMessage) : GoM session unit :=
  match msg with
  | MsgMatch m => handleMatchStatus m
  | MsgInitiation s => handleReplicaSetInitiationStatus s
  | _ => mret tt
  end.
End deployer.

(** ** Reads do not change anything *)

Section reads.
Context `{ENG : Engine} `{ORM : Gorm}.

Lemma managementMongodCredential_read_only : read_only managementMongodCredential.
Proof. unfold managementMongodCredential. read_only_tac. Qed.
Lemma keyfileContents_read_only : read_only keyfileContents.
Proof. unfold keyfileContents. read_only_tac. Qed.
Hint Resolve managementMongodCredential_read_only keyfileContents_read_only : mamid.

Lemma mspMongodStateRepresentation_read_only m : read_only (mspMongodStateRepresentation m).
Proof. unfold mspMongodStateRepresentation. read_only_tac. Qed.
Lemma findInitiatorForReplicaSet_read_only r : read_only (findInitiatorForReplicaSet r).
Proof. unfold findInitiatorForReplicaSet. read_only_tac. Qed.
Lemma replicaSetConfig_read_only r : read_only (replicaSetConfig r).
Proof. unfold replicaSetConfig. read_only_tac. Qed.
End reads.

#[export] Hint Resolve managementMongodCredential_read_only keyfileContents_read_only
  mspMongodStateRepresentation_read_only findInitiatorForReplicaSet_read_only replicaSetConfig_read_only : mamid.

(** ** What reaches the slaves and the database *)

Section effects.
Context (ENG : Engine) (ORM : Gorm) (CLIENT : MSPClient).

(** The transaction sees what is committed. *)
Definition fresh_tx (s : session) : conn := mkConn (committed s) (cstmts (tx s)) (cbus (tx s)).

(** A read-only computation in a transaction, its result named. *)
Lemma wp_in_tx_reads {A} (m : GoM conn A) (Q : A → session → Prop) E s :
  read_only m →
  (∀ a c, m (tx s) = (c, Returned a) → cdb c = cdb (tx s) → Q a (mkSession (committed s) c (calls s))) →
  wp (in_tx m) Q E s.
Proof.
  intros Hro HQ. apply wp_in_tx. destruct (wp_returns _ _ _ (Hro (tx s))) as (a & c & Hrun & Hc & _).
  unfold wp. rewrite Hrun. by apply HQ.
Qed.

Lemma push_spec m s : ∃ hostPort mspMongod err c',
  mspMongodStateRepresentation m (fresh_tx s) = (c', Returned (hostPort, mspMongod, err)) ∧
  ∃ s', pushMongodState m s = (s', Returned tt) ∧ committed s' = committed s ∧
        calls s' = calls s ++ [CallEstablishMongodState hostPort mspMongod].
Proof.
  destruct (wp_returns _ _ _ (mspMongodStateRepresentation_read_only m (fresh_tx s)))
    as ([[hostPort mspMongod] err] & c' & Hrun & _).
  exists hostPort, mspMongod, err, c'. split; [done|].
  unfold pushMongodState, Begin, Rollback, call, in_tx, modify_state, mbind, gom_bind. simpl.
  fold (fresh_tx s). rewrite Hrun. eexists. split; [reflexivity|done].
Qed.

(** A failed representation is all zero values. *)
Lemma representation_error_zero m c :
  wp (mspMongodStateRepresentation m)
    (λ res _, ∀ e, res.2 = Some e → res.1 = (msp.zero_HostPort, msp.zero_Mongod)) (λ _ _, False) c.
Proof.
  enough (∀ (Q : msp.HostPort * msp.Mongod * option gerror → conn → Prop),
    (∀ res c', (∀ e, res.2 = Some e → res.1 = (msp.zero_HostPort, msp.zero_Mongod)) → Q res c') →
    wp (mspMongodStateRepresentation m) Q (λ _ _, False) c) as H by by apply H.
  intros Q HQ. unfold mspMongodStateRepresentation.
  repeat first
    [ apply wp_ret; apply HQ; simpl; congruence
    | match goal with
      | |- wp (mbind _ ?x) _ _ _ =>
          apply wp_bind; eapply wp_mono;
            [assert (read_only x) as Hro by read_only_tac; apply Hro|intros ? ? _|done]
      end
    | case_match ].
Qed.

(** A match status leads to exactly one call, with the representation of the
    mongod, if it reports a mismatch, and to nothing otherwise; the database is
    never changed. *)
Theorem handleMatchStatus_pushes m s : ∃ s',
  handleMatchStatus m s = (s', Returned tt) ∧ committed s' = committed s ∧
  (Match_Mismatch m = false → calls s' = calls s) ∧
  (Match_Mismatch m = true → ∃ hostPort mspMongod err c',
     mspMongodStateRepresentation (Match_Mongod m) (fresh_tx s) = (c', Returned (hostPort, mspMongod, err)) ∧
     calls s' = calls s ++ [CallEstablishMongodState hostPort mspMongod]).
Proof.
  destruct (push_spec (Match_Mongod m) s) as (hostPort & mspMongod & err & c' & Hrep & s' & Hrun & Hc & Hcalls).
  unfold handleMatchStatus. destruct (Match_Mismatch m).
  - exists s'. split_and!; [done..|]. intros _. by exists hostPort, mspMongod, err, c'.
  - by exists s.
Qed.

(** If the desired state cannot be represented, the deployer still calls the
    slave interface: an empty mongod is pushed to an empty host name. *)
Theorem push_after_error m s c' hostPort mspMongod e :
  mspMongodStateRepresentation m (fresh_tx s) = (c', Returned (hostPort, mspMongod, Some e)) →
  ∃ s', pushMongodState m s = (s', Returned tt) ∧
        calls s' = calls s ++ [CallEstablishMongodState msp.zero_HostPort msp.zero_Mongod].
Proof.
  intros Hrep. destruct (push_spec m s) as (hostPort' & mspMongod' & err & c'' & Hrep' & s' & Hrun & _ & Hcalls).
  rewrite Hrep in Hrep'. injection Hrep' as <- <- <- <-.
  pose proof (representation_error_zero m (fresh_tx s)) as Hzero. unfold wp in Hzero. rewrite Hrep in Hzero.
  specialize (Hzero e eq_refl). simpl in Hzero. injection Hzero as -> ->. eauto.
Qed.

(** What a status message about the initiation of a replica set may lead to. *)
Definition initiation_failed (st : ReplicaSetInitiationStatus) (s s' : session) : Prop :=
  committed s' = committed s ∧
  (calls s' = calls s ∨
   Initiation_Initiated st = false ∧ ∃ t msg, calls s' = calls s ++ [CallInitiateReplicaSet t msg]).
Definition initiation_succeeded (st : ReplicaSetInitiationStatus) (s s' : session) : Prop :=
  Initiation_Initiated st = false ∧
  ∃ t msg, calls s' = calls s ++ [CallInitiateReplicaSet t msg] ∧ InitiateReplicaSet t msg = None ∧
    committed s' = set_replica_sets (alter (ReplicaSet_set_Initiated true)
                     (ReplicaSet_ID (Initiation_ReplicaSet st)) (replica_sets (committed s))) (committed s).

Lemma initiation_spec st s :
  wp (handleReplicaSetInitiationStatus st) (λ _ s', initiation_failed st s s' ∨ initiation_succeeded st s s') (λ _ _, False) s.
Proof.
  unfold initiation_failed, initiation_succeeded, handleReplicaSetInitiationStatus.
  destruct (Initiation_Initiated st) eqn:Hinit; [apply wp_ret; auto|].
  unfold Begin. wp_steps. apply wp_in_tx_reads; [auto with mamid|]. intros [[slave initiator] err] c1 _ Hc1.
  destruct err as [err|]; [apply wp_modify; simpl; auto|].
  wp_step. apply wp_in_tx_reads; [auto with mamid|]. intros [cfg err] c2 _ Hc2. simpl in *.
  destruct err as [err|]; [apply wp_modify; simpl; auto|].
  set (target := msp.mkHostPort _ _). set (msg := msp.mkRsInitiateMessage _ _).
  unfold call. wp_steps.
  destruct (InitiateReplicaSet target msg) eqn:Hcall; [apply wp_modify; simpl; left; eauto 10|].
  wp_step. apply wp_in_tx, wp_orm_update; simpl.
  - wp_step. apply wp_Commit; [|intros e _; apply wp_ret; left; eauto 10].
    intros _ _. apply wp_ret. right. split; [done|]. exists target, msg. split_and!; [done..|]. simpl. by rewrite Hc2, Hc1.
  - intros e _. apply wp_modify. simpl. left; eauto 10.
Qed.

(** A replica set is marked as initiated only when the slave of its initiator
    confirmed the initiation; whatever fails, the database stays as it was, and
    a replica set that is initiated already causes no call. *)
Theorem initiation_commits_only_on_success st s : ∃ s',
  handleReplicaSetInitiationStatus st s = (s', Returned tt) ∧
  (initiation_failed st s s' ∨ initiation_succeeded st s s').
Proof. destruct (wp_returns _ _ _ (initiation_spec st s)) as ([] & s' & Hrun & HP). by exists s'. Qed.
End effects.

(** ** What the pushed representation says *)

Section representation.
Context (ENG : Engine) (ORM : Gorm) (Hrel : reliable ENG ORM).

Lemma wp_members rid Q c :
  db_ok (cdb c) →
  (∀ members initiator c', cdb c' = cdb c →
     members = wanted_members (cdb c) rid → Q (members, initiator, None) c') →
  wp (DesiredMSPReplicaSetMembersForReplicaSetID rid) Q (λ _ _, False) c.
Proof.
  intros Hok HQ. destruct (members_run ENG ORM Hrel c Hok rid) as (c' & initiator & Hrun & Hc & _).
  unfold wp. rewrite Hrun. by apply HQ.
Qed.

(** The members a message about [m] lists. *)
Definition members_for (d : db) (m : Mongod) : list msp.ReplicaSetMember :=
  match Mongod_ReplicaSetID m with Some rid => wanted_members d rid | None => [] end.

(** Describes [mspMongod] as the representation of [m] in [d]. *)
Record represents (d : db) (m : Mongod) (st : MongodState) (mspMongod : msp.Mongod) : Prop := {
  rep_port : msp.Mongod_Port mspMongod = Mongod_Port m;
  rep_state : MspMongodStateToModelExecutionState (msp.State mspMongod) = MongodState_ExecutionState st;
  rep_name : msp.ReplicaSetName (msp.Mongod_ReplicaSetConfig mspMongod) = Mongod_ReplSetName m;
  rep_role : msp.Config_ShardingRole (msp.Mongod_ReplicaSetConfig mspMongod) = MongodState_ShardingRole st;
  rep_members : msp.ReplicaSetMembers (msp.Mongod_ReplicaSetConfig mspMongod) = members_for d m;
  rep_keyfile : ∃ id k, mongod_keyfiles d !! id = Some k ∧ msp.KeyfileContent mspMongod = Keyfile_Content k;
  rep_credential : mongodb_root_credentials d ≠ ∅ → ∃ id k, mongodb_root_credentials d !! id = Some k ∧
    msp.RootCredential (msp.Mongod_ReplicaSetConfig mspMongod) =
      msp.mkMongodCredential (Credential_Username k) (Credential_Password k);
  rep_no_errors : msp.StatusError mspMongod = None ∧ msp.LastEstablishStateError mspMongod = None
}.

Lemma sharding_role_same r :
  r ∈ [Model.ShardingRoleNone; Model.ShardingRoleShardServer; Model.ShardingRoleConfigServer] →
  ProjectModelShardingRoleToMSPShardingRole r = Ok r.
Proof.
  intros Hr. rewrite !elem_of_cons in Hr. destruct Hr as [->|[->|[->|[]%not_elem_of_nil]]]; reflexivity.
Qed.

Lemma execution_state_pushable e :
  1 ≤ e ≤ 6 → e ≠ MongodExecutionStateUninitiated →
  ∃ s, mspMongodStateFromExecutionState e = Ok s ∧ MspMongodStateToModelExecutionState s = e.
Proof.
  intros He Hne. assert (e = 1 ∨ e = 2 ∨ e = 3 ∨ e = 5 ∨ e = 6) as Hcases
    by (unfold MongodExecutionStateUninitiated in Hne; lia).
  destruct Hcases as [->|[->|[->|[->| ->]]]]; eexists; split; reflexivity.
Qed.

Lemma representation_spec c m slave st :
  db_ok (cdb c) → mongod_keyfiles (cdb c) ≠ ∅ →
  slaves (cdb c) !! Mongod_ParentSlaveID m = Some slave →
  mongod_states (cdb c) !! Mongod_DesiredStateID m = Some st →
  1 ≤ MongodState_ExecutionState st ≤ 6 → MongodState_ExecutionState st ≠ MongodExecutionStateUninitiated →
  MongodState_ShardingRole st ∈ [Model.ShardingRoleNone; Model.ShardingRoleShardServer; Model.ShardingRoleConfigServer] →
  ∃ c' mspMongod, mspMongodStateRepresentation m c =
    (c', Returned (msp.mkHostPort (Slave_Hostname slave) (Slave_Port slave), mspMongod, None)) ∧
    represents (cdb c) m st mspMongod.
Proof.
  intros Hok Hkey Hs Hst He Hne Hrole.
  destruct (execution_state_pushable _ He Hne) as (state & Hstate & Hback).
  assert (wp (mspMongodStateRepresentation m) (λ res _, ∃ mspMongod,
    res = (msp.mkHostPort (Slave_Hostname slave) (Slave_Port slave), mspMongod, None) ∧
    represents (cdb c) m st mspMongod) (λ _ _, False) c) as Hwp.
  2:{ apply wp_returns in Hwp as (res & c' & Hrun & mspMongod & -> & Hrep). eauto. }
  unfold mspMongodStateRepresentation. wp_step.
  apply wp_orm_first_id; [|by simpl; rewrite Hs|done]. simpl. intros slave' E. assert (slave' = slave) as -> by congruence.
  wp_step. apply wp_orm_first_id; [|by simpl; rewrite Hst|done]. simpl. intros st' E'. assert (st' = st) as -> by congruence.
  rewrite Hstate, (sharding_role_same _ Hrole). wp_step.
  set (K := λ (members_res : list msp.ReplicaSetMember * Mongod * option gerror), _).
  assert (∀ members initiator c', cdb c' = cdb c →
    members = members_for (cdb c) m →
    K (members, initiator, None) c') as HK.
  { intros members initiator c1 Hc1 Hmem. unfold K, managementMongodCredential, keyfileContents. clear K.
    wp_steps. apply wp_orm_first; [| |done].
    - intros cred id Hcred _. wp_steps. apply wp_orm_first; [| |done].
      + intros k kid Hk _. wp_steps. simpl in *. rewrite Hc1 in Hcred, Hk. eexists. split; [done|]. split; simpl; eauto.
      + simpl. intros Hempty. by rewrite Hc1 in Hempty.
    - intros Hnone. wp_steps. apply wp_orm_first; [| |done].
      + intros k kid Hk _. wp_steps. simpl in *. rewrite Hc1 in Hnone, Hk. eexists. split; [done|]. split; simpl; eauto.
        by intros [].
      + simpl. intros Hempty. by rewrite Hc1 in Hempty. }
  unfold members_for in HK. destruct (Mongod_ReplicaSetID m) as [rid|].
  - apply wp_members; [done|]. intros members initiator c' Hc' Hmem. by apply HK.
  - apply wp_ret. by apply HK.
Qed.
(** Once the secrets exist, the deployer sends to the slave of a mongod a
    message with the mongod's port and name, its desired sharding role, all
    members of its replica set, the keyfile and the credential of the cluster,
    and a state that, observed back, is the desired one. *)
Theorem representation_faithful c m slave st :
  db_ok (cdb c) → mongod_keyfiles (cdb c) ≠ ∅ →
  slaves (cdb c) !! Mongod_ParentSlaveID m = Some slave →
  mongod_states (cdb c) !! Mongod_DesiredStateID m = Some st →
  1 ≤ MongodState_ExecutionState st ≤ 6 → MongodState_ExecutionState st ≠ MongodExecutionStateUninitiated →
  MongodState_ShardingRole st ∈ [Model.ShardingRoleNone; Model.ShardingRoleShardServer; Model.ShardingRoleConfigServer] →
  ∃ c' mspMongod, mspMongodStateRepresentation m c =
    (c', Returned (msp.mkHostPort (Slave_Hostname slave) (Slave_Port slave), mspMongod, None)) ∧
    represents (cdb c) m st mspMongod.
Proof. apply representation_spec. Qed.
End representation.

(** ** A concrete push *)

Definition deploy_db : db :=
  set_mongod_keyfiles {[1 := mkMongodKeyfile 1 "key"]}
    (set_mongodb_root_credentials {[1 := mkMongodbCredential 1 "mamid" "secret"]} nine_db).
Definition deploy_conn : conn := mkConn deploy_db 0 [].
Definition deploy_mongod : Mongod := mkMongod 3 18080 "rs" None None 3 (Some 1) 3 None.

Lemma deploy_ok : db_ok deploy_db.
Proof. by apply db_okb_sound; vm_compute. Qed.

Lemma representation_faithful_witness : ∃ c' mspMongod,
  @mspMongodStateRepresentation ref_engine ref_gorm deploy_mongod deploy_conn =
    (c', Returned (msp.mkHostPort "host3" 8081, mspMongod, None)) ∧
  represents deploy_db deploy_mongod (mkMongodState 3 3 "none" 6) mspMongod.
Proof.
  apply (representation_faithful ref_engine ref_gorm ref_reliable deploy_conn deploy_mongod
           (mkSlave 3 "host3" 8081 18080 18090 true SlaveStateActive None None)).
  - exact deploy_ok.
  - discriminate.
  - vm_compute. reflexivity.
  - vm_compute. reflexivity.
  - simpl. lia.
  - discriminate.
  - left.
Defined.

(** A slave that accepts everything. *)
Definition accepting_client : MSPClient :=
  {| EstablishMongodState _ _ := None; InitiateReplicaSet _ _ := None |}.

Definition start_session (d : db) : session := mkSession d (mkConn d 0 []) [].

(** Mongod 3, desired to be in state [uninitiated], which has no representation. *)
Definition unrepresentable_db : db :=
  set_mongod_states (<[3 := mkMongodState 3 3 "none" MongodExecutionStateUninitiated]> (mongod_states deploy_db)) deploy_db.

Lemma push_after_error_witness : ∃ s',
  @pushMongodState ref_engine ref_gorm deploy_mongod (start_session unrepresentable_db) = (s', Returned tt) ∧
  calls s' = [CallEstablishMongodState msp.zero_HostPort msp.zero_Mongod].
Proof.
  eapply (push_after_error ref_engine ref_gorm deploy_mongod (start_session unrepresentable_db)).
  vm_compute. reflexivity.
Defined.

(** The initiation of the replica set of nine by its first voter. *)
Example initiate_nine :
  let s := @handleReplicaSetInitiationStatus ref_engine ref_gorm accepting_client
             (mkReplicaSetInitiationStatus false (mkReplicaSet 1 "rs" 4 5 "none" false)) (start_session deploy_db) in
  (ReplicaSet_Initiated <$> replica_sets (committed s.1) !! 1,
   (λ k, match k with CallInitiateReplicaSet t _ => msp.Hostname t | _ => EmptyString end) <$> calls s.1) =
  (Some true, ["host3"%string]).
Proof. vm_compute. reflexivity. Qed.
