(* ===== verification/Strconv.v ===== *)
(** * Numbers in text

    The parts of Go's [strconv] and [strings] the slave uses to take apart the
    names it built with [fmt.Sprintf], and the master to read the ids of a URL:
    [ParseUint], [ParseInt], [Atoi], [Index] and [Split]. *)

From Stdlib Require Import Ascii.
From stdpp Require Import base list strings pretty numbers.
From Stdlib Require Import Lia.
From S2P Require Import Prelude Msp.

Open Scope Z_scope.
Set Warnings "-clear-no-such-hyp".

Definition digit_value (c : ascii) : option Z :=
  let n := Z.of_nat (nat_of_ascii c) in
  if decide (48 ≤ n ≤ 57) then Some (n - 48) else None.

(** The digits of a decimal number, most significant first. *)
Fixpoint parse_digits (acc : Z) (s : string) : option Z :=
  match s with
  | EmptyString => Some acc
  | String c s =>
      match digit_value c with
      | Some v => parse_digits (acc * 10 + v) s
      | None => None
      end
  end.

(** [strconv.ParseUint(s, 10, bits)] *)
Definition ParseUint (bits : Z) (s : string) : option Z :=
  match s with
  | EmptyString => None
  | _ => match parse_digits 0 s with
         | Some n => if decide (n < 2 ^ bits) then Some n else None
         | None => None
         end
  end.

(** [strconv.ParseInt(s, 10, bits)] *)
Definition ParseInt (bits : Z) (s : string) : option Z :=
  let go (sign : Z) (digits : string) :=
    match digits with
    | EmptyString => None
    | _ => match parse_digits 0 digits with
           | Some n => if decide (- 2 ^ (bits - 1) ≤ sign * n < 2 ^ (bits - 1)) then Some (sign * n) else None
           | None => None
           end
    end in
  match s with
  | String "-"%char digits => go (-1) digits
  | String "+"%char digits => go 1 digits
  | _ => go 1 s
  end.

(** The loop of [strconv.ParseUint(s, 10, 64)], which stops with the largest number as soon as
    the digits read so far exceed it, whatever follows. *)
Fixpoint saturated_digits (acc : Z) (s : string) : option Z :=
  match s with
  | EmptyString => Some acc
  | String c s =>
      match digit_value c with
      | Some v => if decide (2 ^ 64 ≤ acc * 10 + v) then Some (2 ^ 64 - 1) else saturated_digits (acc * 10 + v) s
      | None => None
      end
  end.

(** The value of [strconv.Atoi(s)] when its error is ignored: 0 for a syntax
    error, the nearest [int] when out of range. *)
Definition Atoi (s : string) : Z :=
  let go (negative : bool) (digits : string) :=
    match digits with
    | EmptyString => 0
    | _ => match saturated_digits 0 digits with
           | Some n => if negative then Z.max (- n) (- 2 ^ 63) else Z.min n (2 ^ 63 - 1)
           | None => 0
           end
    end in
  match s with
  | String "-"%char digits => go true digits
  | String "+"%char digits => go false digits
  | _ => go false s
  end.

(** [strings.Index(s, sep)] for a one-character separator. *)
Fixpoint Index (sep : ascii) (s : string) : option nat :=
  match s with
  | EmptyString => None
  | String c s => if decide (c = sep) then Some 0%nat else S <$> Index sep s
  end.

(** The slices [s[:n]] and [s[n:]]. *)
Fixpoint slice_to (n : nat) (s : string) : string :=
  match n, s with
  | S n, String c s => String c (slice_to n s)
  | _, _ => EmptyString
  end.
Fixpoint slice_from (n : nat) (s : string) : string :=
  match n, s with
  | S n, String _ s => slice_from n s
  | _, _ => s
  end.

(** [strings.Split(s, sep)] *)
Fixpoint Split (sep : ascii) (s : string) : list string :=
  match s with
  | EmptyString => [EmptyString]
  | String c s =>
      if decide (c = sep) then EmptyString :: Split sep s
      else match Split sep s with
           | x :: l => String c x :: l
           | [] => [String c EmptyString]
           end
  end.

Example Split_test : Split ":" "a:b::c" = ["a"; "b"; ""; "c"]%string.
Proof. reflexivity. Qed.
Example Atoi_test : (Atoi "27017", Atoi "-5", Atoi "x", Atoi "+12", Atoi "99999999999999999999x", Atoi "9999999999999999999x") =
  (27017, -5, 0, 12, 2 ^ 63 - 1, 0).
Proof. reflexivity. Qed.
Example ParseInt_test : (ParseInt 64 "-12", ParseInt 64 "+7", ParseInt 8 "128", ParseInt 8 "-128", ParseInt 64 "", ParseInt 64 "1-")
  = (Some (-12), Some 7, None, Some (-128), None, None).
Proof. reflexivity. Qed.
Example ParseUint_test : (ParseUint 16 "65535", ParseUint 16 "65536", ParseUint 16 "", ParseUint 16 "1a") = (Some 65535, None, None, None).
Proof. reflexivity. Qed.

(** ** Reading back what was printed *)

Lemma digit_value_char (n : N) : (n < 10)%N → digit_value (pretty_N_char n) = Some (Z.of_N n).
Proof.
  intros Hn. assert (n ∈ [0; 1; 2; 3; 4; 5; 6; 7; 8; 9]%N) as Hin.
  { rewrite !elem_of_cons. lia. }
  repeat (apply elem_of_cons in Hin as [->|Hin]; [reflexivity|]). by apply not_elem_of_nil in Hin.
Qed.

Lemma parse_pretty_N_go (n : N) s : (0 < n)%N → parse_digits 0 (pretty_N_go n s) = parse_digits (Z.of_N n) s.
Proof.
  revert s. induction (N.lt_wf_0 n) as [n _ IH]. intros s Hn.
  rewrite pretty_N_go_step by done.
  assert (digit_value (pretty_N_char (n `mod` 10)) = Some (Z.of_N (n `mod` 10))) as Hd
    by (apply digit_value_char, N.mod_lt; lia).
  pose proof (N.div_mod n 10 ltac:(lia)) as Hdm.
  assert (n `div` 10 < n)%N as Hlt by (apply N.div_lt; lia).
  specialize (IH (n `div` 10)%N Hlt (String (pretty_N_char (n `mod` 10)) s)).
  destruct (decide (n `div` 10 = 0)%N) as [H0|H0].
  - rewrite H0, pretty_N_go_0. cbn [parse_digits]. rewrite Hd. f_equal.
    remember (n `mod` 10)%N as r. lia.
  - rewrite IH by (by apply N.neq_0_lt_0). cbn [parse_digits]. rewrite Hd. f_equal.
    remember (n `mod` 10)%N as r. remember (n `div` 10)%N as q. lia.
Qed.

Lemma parse_pretty (n : Z) : 0 ≤ n → parse_digits 0 (fmt_d n) = Some n.
Proof.
  intros Hn. unfold fmt_d. destruct n as [|p|p]; [reflexivity| |lia].
  change (parse_digits 0 (pretty_N_go (N.pos p) EmptyString) = Some (Z.pos p)).
  rewrite parse_pretty_N_go by lia. reflexivity.
Qed.

(** Printed numbers start with a digit and hold nothing else. *)
Fixpoint all_digits (s : string) : Prop :=
  match s with EmptyString => True | String c s => is_Some (digit_value c) ∧ all_digits s end.

Lemma parse_all_digits acc s n : parse_digits acc s = Some n → all_digits s.
Proof.
  revert acc. induction s as [|c s IH]; intros acc; simpl; [done|].
  destruct (digit_value c) as [v|]; [|done]. intros H. split; [by eexists|by eapply IH].
Qed.

Lemma fmt_d_digits n : 0 ≤ n → all_digits (fmt_d n).
Proof. intros Hn. eapply parse_all_digits. by apply parse_pretty. Qed.

Lemma fmt_d_nonempty n : fmt_d n ≠ EmptyString.
Proof.
  unfold fmt_d. destruct n as [|p|p]; [done| |].
  - change (pretty_N_go (N.pos p) EmptyString ≠ EmptyString). intros H. pose proof (parse_pretty_N_go (N.pos p) EmptyString ltac:(lia)) as Hp. rewrite H in Hp. simpl in Hp. congruence.
  - done.
Qed.

(** A port number printed in decimal is read back unchanged. *)
Lemma digit_value_nonneg c v : digit_value c = Some v → 0 ≤ v.
Proof. unfold digit_value. case_decide; [intros [= <-]; lia|done]. Qed.

Lemma parse_digits_le acc s n : 0 ≤ acc → parse_digits acc s = Some n → acc ≤ n.
Proof.
  revert acc. induction s as [|c s IH]; intros acc Hacc; simpl; [by intros [= ->]|].
  destruct (digit_value c) as [v|] eqn:Hv; [|done]. apply digit_value_nonneg in Hv. intros Hn.
  pose proof (IH (acc * 10 + v) ltac:(lia) Hn). lia.
Qed.

Lemma saturated_parse acc s n : 0 ≤ acc → parse_digits acc s = Some n → n < 2 ^ 64 → saturated_digits acc s = Some n.
Proof.
  revert acc. induction s as [|c s IH]; intros acc Hacc; simpl; [done|].
  destruct (digit_value c) as [v|] eqn:Hv; [|done]. apply digit_value_nonneg in Hv. intros Hn Hlt.
  pose proof (parse_digits_le (acc * 10 + v) s n ltac:(lia) Hn). rewrite decide_False by lia. apply IH; [lia|done..].
Qed.

Lemma port_text_roundtrip n : 0 ≤ n < 65536 → ParseUint 16 (fmt_d n) = Some n ∧ Atoi (fmt_d n) = n.
Proof.
  intros Hn. pose proof (fmt_d_nonempty n) as Hne. pose proof (parse_pretty n ltac:(lia)) as Hp.
  pose proof (fmt_d_digits n ltac:(lia)) as Hd. split.
  - unfold ParseUint. destruct (fmt_d n); [done|]. rewrite Hp. rewrite decide_True by lia. done.
  - unfold Atoi. destruct (fmt_d n) as [|c s]; [done|]. destruct Hd as [Hc _].
    assert (c ≠ "-"%char ∧ c ≠ "+"%char) as [Hm Hpl] by (split; intros ->; by destruct Hc).
    rewrite (saturated_parse 0 _ n ltac:(lia) Hp) by lia. destruct c as [[] [] [] [] [] [] [] []]; try lia; done.
Qed.

(** ** Taking text apart again *)

(** The separator does not occur. *)
Fixpoint free_of (sep : ascii) (s : string) : Prop :=
  match s with EmptyString => True | String c s => c ≠ sep ∧ free_of sep s end.

Lemma digits_free_of_colon s : all_digits s → free_of ":" s.
Proof.
  induction s as [|c s IH]; simpl; [done|]. intros [Hc Hs]. split; [|by apply IH].
  intros ->. by destruct Hc.
Qed.

Lemma Index_app sep a b : free_of sep a → Index sep (a +:+ String sep b) = Some (String.length a).
Proof.
  induction a as [|c a IH]; simpl; [by rewrite decide_True|]. intros [Hc Ha].
  rewrite decide_False by done. by rewrite IH.
Qed.

Lemma slice_to_app a b : slice_to (String.length a) (a +:+ b) = a.
Proof. induction a as [|c a IH]; simpl; [done|]. by f_equal. Qed.

Lemma slice_from_app a c b : slice_from (S (String.length a)) (a +:+ String c b) = b.
Proof. induction a as [|x a IH]; simpl; [by destruct b|]. exact IH. Qed.

Lemma Split_free sep s : free_of sep s → Split sep s = [s].
Proof.
  induction s as [|c s IH]; simpl; [done|]. intros [Hc Hs]. rewrite decide_False by done. by rewrite IH.
Qed.

Lemma Split_app sep a b : free_of sep a → free_of sep b → Split sep (a +:+ String sep b) = [a; b].
Proof.
  intros Ha Hb. induction a as [|c a IH]; simpl.
  - rewrite decide_True by done. by rewrite Split_free.
  - destruct Ha as [Hc Ha]. rewrite decide_False by done. by rewrite IH.
Qed.
