(* ===== verification/Rpc.v ===== *)
(** * Requests between master and slaves

    [msp/protocolclient.go] and [msp/protocolserver.go]: what the package decides (which
    status code means what, which error is returned, which routes there are and which
    certificates are asked for) is a definition; [encoding/json] is the class [Json],
    [gorilla/mux] the class [Mux], X.509 the class [X509].  A request works on a state
    [S], that of the slave's controller. *)

From Stdlib Require Import Ascii.
From stdpp Require Import base list strings pretty numbers.
From Stdlib Require Import Lia.
From S2P Require Import Prelude Msp Strconv.

Open Scope Z_scope.
Set Warnings "-clear-no-such-hyp".

(** ** protocolclient.go *)

(** [func communicationErrorFromError(err error) *Error] *)
Definition communicationErrorFromError (text : string) : msp.Error :=
  msp.mkError msp.CommunicationError "Error communicating with slave." text.

(** [func constructBaseUrl(target HostPort) (base string)] *)
Definition constructBaseUrl (target : msp.HostPort) : string :=
  "https://" +:+ msp.Hostname target +:+ ":" +:+ fmt_d (msp.Port target) +:+ "/".

Section protocolclient.
Context `{Json} {S : Type}.
(** [c.HttpClient.Do] with a method, a URL and a body; [Get] is [Do] of a [GET]. *)
Context (Do : string → string → body → GoM S http_result).
(** The check of the URL in [http.NewRequest]; [Get] returns its error as [Do] does. *)
Context (NewRequest : string → gres unit).

(** [http.NewRequest("POST", url, buffer)] and [c.HttpClient.Do(req)]: an error of the
    first panics. *)
Definition post (url : string) (buffer : body) : GoM S http_result :=
  _ ← or_panic (NewRequest url);
  Do "POST" url buffer.

(** [func (c MSPClientImpl) RequestStatus(Target HostPort) ([]Mongod, *Error)] *)
Definition client_RequestStatus (Target : msp.HostPort) : GoM S (option (list msp.Mongod) * option msp.Error) :=
  result ← Do "GET" (constructBaseUrl Target +:+ "msp/status") empty_body;
  mret match result with
  | inl resp =>
      if decide (StatusCode resp = StatusOK) then
        match decode_status (Body resp) with
        | inr decodeErr => (None, Some (communicationErrorFromError decodeErr))
        | inl result => (result, None)
        end
      else
        match decode_error (Body resp) with
        | inr decodeErr => (None, Some (communicationErrorFromError decodeErr))
        | inl slaveError =>
            match msp.validateFields slaveError with
            | Some validationErr => (None, Some (communicationErrorFromError validationErr))
            | None => (None, Some slaveError)
            end
        end
  | inr err => (None, Some (communicationErrorFromError err))
  end.

(** [func (c MSPClientImpl) establishMongodState_validate(...) *Error] *)
Definition establishMongodState_validate (m : msp.Mongod) : option msp.Error :=
  if decide (msp.State m = msp.MongodStateRecovering)
  then Some (msp.mkError msp.BadStateDescription "Invalid Mongod state"
               ("Mongod state `" +:+ msp.State m +:+ "` can only by received, not established."))
  else None.

(** The response handling shared (by copy) by [EstablishMongodState] and
    [InitiateReplicaSet]. *)
Definition post_result (r : http_result) : option msp.Error :=
  match r with
  | inl resp =>
      if decide (StatusCode resp = StatusOK) then None
      else match decode_error (Body resp) with
           | inr decodeErr => Some (communicationErrorFromError decodeErr)
           | inl slaveError => Some slaveError
           end
  | inr err => Some (communicationErrorFromError err)
  end.

(** [func (c MSPClientImpl) EstablishMongodState(target HostPort, m Mongod) *Error];
    a message that cannot be encoded panics. *)
Definition client_EstablishMongodState (target : msp.HostPort) (m : msp.Mongod) : GoM S (option msp.Error) :=
  match establishMongodState_validate m with
  | Some err => mret (Some err)
  | None =>
      buffer ← or_panic (encode_mongod m);
      result ← post (constructBaseUrl target +:+ "msp/establishMongodState") buffer;
      mret (post_result result)
  end.

(** [func (c MSPClientImpl) InitiateReplicaSet(target HostPort, msg RsInitiateMessage) *Error] *)
Definition client_InitiateReplicaSet (target : msp.HostPort) (msg : msp.RsInitiateMessage) : GoM S (option msp.Error) :=
  buffer ← or_panic (encode_rsInitiate msg);
  result ← post (constructBaseUrl target +:+ "msp/rsInitiate") buffer;
  mret (post_result result).
End protocolclient.

(** ** protocolserver.go: the handlers *)

(** [type Consumer interface]: the slave's controller as the listener sees it. *)
Record Consumer (S : Type) := mkConsumer {
  Consumer_RequestStatus : GoM S (option (list msp.Mongod) * option msp.Error);
  Consumer_EstablishMongodState : msp.Mongod → GoM S (option msp.Error);
  Consumer_RsInitiate : msp.RsInitiateMessage → GoM S (option msp.Error)
}.
Arguments mkConsumer {S}.
Arguments Consumer_RequestStatus {S} _.
Arguments Consumer_EstablishMongodState {S} _ _.
Arguments Consumer_RsInitiate {S} _ _.

Section handlers.
Context `{Json} {S : Type} (consumer : Consumer S).

(** The answer of a handler that may write an error. *)
Definition error_response (err : option msp.Error) : response :=
  match err with
  | Some e => mkResponse _ StatusInternalServerError (encode_error (Some e))
  | None => mkResponse _ StatusOK empty_body
  end.

(** [func (s Listener) handleRequestStatus(w, r)] *)
Definition handleRequestStatus : GoM S response :=
  result ← Consumer_RequestStatus consumer;
  mret match result with
  | (Some status, _) => mkResponse _ StatusOK (encode_status (Some status))
  | (None, err) => mkResponse _ StatusInternalServerError (encode_error err)
  end.

(** [func (s Listener) handleMspEstablishMongodState(w, r)]: the decoding
    error is dropped and whatever was decoded is used. *)
Definition handleMspEstablishMongodState (req : body) : GoM S response :=
  let mongodState := (decode_mongod req).1 in
  err ← Consumer_EstablishMongodState consumer mongodState;
  mret (error_response err).

(** [func (s Listener) handleRsInitiate(w, r)] *)
Definition handleRsInitiate (req : body) : GoM S response :=
  let rsInitiateMessage := (decode_rsInitiate req).1 in
  err ← Consumer_RsInitiate consumer rsInitiateMessage;
  mret (error_response err).
End handlers.

(** ** protocolserver.go: the listener *)

(** [tls.ClientAuthType] *)
Inductive ClientAuthType :=
  | NoClientCert
  | RequestClientCert
  | RequireAnyClientCert
  | VerifyClientCertIfGiven
  | RequireAndVerifyClientCert.

(** Packages [pem], [x509] and [tls]: the certificates in a PEM file, the first block of one,
    the pair of certificate and key of two files, and the verification of a chain and of
    the host name.  A pool is what it is after one addition to the empty pool. *)
Class X509 := {
  Certificate : Type;
  CertPool : Type;
  Block : Type;
  Decode : string → option Block;
  ParseCertificate : Block → gres Certificate;
  AddCert : Certificate → CertPool;
  AppendCertsFromPEM : string → CertPool;
  LoadX509KeyPair : string → string → gres Certificate;
  Verify : CertPool → Certificate → bool;
  VerifyHostname : Certificate → string → bool
}.

(** A path without the slash StrictSlash adds or takes away. *)
Definition slashless (p : string) : string :=
  if decide (String.get (String.length p - 1) p = Some "/"%char) then slice_to (String.length p - 1) p else p.

(** The paths the documentation of the router calls clean, without variables. *)
Definition clean_path (p : string) : bool :=
  match Split "/" p with
  | "" :: parts => forallb (λ s, negb (bool_decide (s = "" ∨ s = "." ∨ s = "..")) && bool_decide (Index "{" s = None)) parts
  | _ => false
  end%string.

(** [mux.Router] with [StrictSlash(true)]: the number of the route of a request, if any;
    routes are tried in the order of their registration, by method and path.  Other
    requests are answered by the router: redirected or not found. *)
Class Mux `{Json} := {
  mux_match : list (string * string) → string → string → option nat;
  mux_other : string → string → response;
  mux_sound routes method path i :
    Forall (λ r, clean_path r.2 = true) routes → mux_match routes method path = Some i → routes !! i = Some (method, path);
  mux_complete routes method path i :
    Forall (λ r, clean_path r.2 = true) routes → routes !! i = Some (method, path) →
    (∀ j r, (j < i)%nat → routes !! j = Some r → slashless r.2 ≠ slashless path) →
    mux_match routes method path = Some i
}.

Section listener.
Context `{Json} `{X509} `{!Mux} {S : Type}.

Record tls_config := mkTlsConfig { ClientCAs : CertPool; ClientAuth : ClientAuthType }.

(** [s.router.Methods(m).Path(p).Name(n).HandlerFunc(h)]; a handler is given the body. *)
Record route := mkRoute { Methods : string; Path : string; Name : string; HandlerFunc : body → GoM S response }.

Record Listener := mkListener {
  listenString : string;
  consumer : Consumer S;
  router : list route;
  certFile : string;
  keyFile : string;
  tlsConfig : tls_config
}.

(** The listener [NewServer] builds from the content of the file with the CA. *)
Definition new_listener (listener : Consumer S) (listenString caCertContent certFile keyFile : string) : Listener :=
  mkListener listenString listener
    [mkRoute "GET" "/msp/status" "RequestStatus" (λ _, handleRequestStatus listener);
     mkRoute "POST" "/msp/establishMongodState" "EstablishMongodState" (handleMspEstablishMongodState listener);
     mkRoute "POST" "/msp/rsInitiate" "RsInitiate" (handleRsInitiate listener)]
    certFile keyFile (mkTlsConfig (AppendCertsFromPEM caCertContent) RequireAndVerifyClientCert).

(** [func NewServer(...) *Listener]: [Fatal] ends the program when the file with the CA
    cannot be read; that it holds no certificate is not noticed. *)
Definition NewServer (ReadFile : string → gres string) (listener : Consumer S)
    (listenString caFile certFile keyFile : string) : GoM unit Listener :=
  caCertContent ← or_panic (ReadFile caFile);
  mret (new_listener listener listenString caCertContent certFile keyFile).

(** The [http.Server] of [Run], with the certificate [ListenAndServeTLS] loads. *)
Record http_server := mkHttpServer {
  TLSConfig : tls_config;
  Addr : string;
  Handler : list route;
  server_cert : Certificate
}.

Definition http_server_of (s : Listener) (cert : Certificate) : http_server :=
  mkHttpServer (tlsConfig s) (listenString s) (router s) cert.

(** [func (s Listener) Run() error]: the error, or the server that then listens. *)
Definition Run (s : Listener) : gres http_server :=
  match LoadX509KeyPair (certFile s) (keyFile s) with
  | Err e => Err e
  | Ok cert => Ok (http_server_of s cert)
  end.

(** ** The standard library between the two *)

(** The handler of a request. *)
Definition ServeHTTP (routes : list route) (method path : string) (req : body) : GoM S response :=
  match mux_match ((λ r, (Methods r, Path r)) <$> routes) method path with
  | Some i => match routes !! i with Some r => HandlerFunc r req | None => mret (mux_other method path) end
  | None => mret (mux_other method path)
  end.

(** The client certificates a server accepts. *)
Definition accepts_client (c : tls_config) (cert : option Certificate) : bool :=
  match ClientAuth c, cert with
  | NoClientCert, _ | RequestClientCert, _ | RequireAnyClientCert, Some _ | VerifyClientCertIfGiven, None => true
  | RequireAnyClientCert, None | RequireAndVerifyClientCert, None => false
  | VerifyClientCertIfGiven, Some cert | RequireAndVerifyClientCert, Some cert => Verify (ClientCAs c) cert
  end.

(** [http.Client], as [main] of the master configures it. *)
Record http_client := mkHttpClient { RootCAs : CertPool; Certificates : option Certificate }.

Definition accepts_server (c : http_client) (host : string) (cert : Certificate) : bool :=
  Verify (RootCAs c) cert && VerifyHostname cert host.

(** [https://host:port/path]: host, port and path. *)
Definition parse_url (url : string) : option (string * string * string) :=
  if String.prefix "https://" url then
    let rest := slice_from 8 url in
    i ← Index "/" rest;
    let authority := slice_to i rest in
    let path := slice_from i rest in
    j ← Index ":" authority;
    Some (slice_to j authority, slice_from (1 + j) authority, path)
  else None.

(** A request over the network: [dials] tells which host and port is the address a server
    listens on.  Without TLS connection there is no answer; a handler that panics
    closes the connection. *)
Definition exchange (dials : string → string → string → bool) (c : http_client) (srv : http_server)
    (method url : string) (req : body) : GoM S http_result := λ s,
  match parse_url url with
  | None => (s, Returned (inr "unsupported protocol scheme"))
  | Some (host, port, path) =>
      if dials host port (Addr srv) then
        if accepts_server c host (server_cert srv) && accepts_client (TLSConfig srv) (Certificates c) then
          match ServeHTTP (Handler srv) method path req s with
          | (s', Returned resp) => (s', Returned (inl resp))
          | (s', Panicked _) => (s', Returned (inr "EOF"))
          | (s', OutOfFuel) => (s', OutOfFuel)
          end
        else (s, Returned (inr "bad certificate"))
      else (s, Returned (inr "connection refused"))
  end%string.
End listener.

(** ** The request arrives where it should *)

Lemma free_of_app sep a b : free_of sep (a +:+ b) ↔ free_of sep a ∧ free_of sep b.
Proof. induction a as [|c a IH]; simpl; [tauto|]. rewrite IH. tauto. Qed.

Lemma digits_free_of sep s : digit_value sep = None → all_digits s → free_of sep s.
Proof.
  intros Hsep. induction s as [|c s IH]; simpl; [done|]. intros [Hc Hs]. split; [|by apply IH].
  intros ->. rewrite Hsep in Hc. by destruct Hc.
Qed.

Lemma slice_from_all a b : slice_from (String.length a) (a +:+ b) = b.
Proof. induction a as [|c a IH]; simpl; [by destruct b|]. exact IH. Qed.

Lemma string_prefix_app a b : String.prefix a (a +:+ b) = true.
Proof. induction a as [|c a IH]; simpl; [by destruct b|]. destruct (Ascii.ascii_dec c c); [exact IH|done]. Qed.

(** A host name or address as it stands in a URL. *)
Definition plain_host (host : string) : Prop := free_of "/" host ∧ free_of ":" host.

Lemma parse_base_url target p : plain_host (msp.Hostname target) → 0 ≤ msp.Port target →
  parse_url (constructBaseUrl target +:+ p) = Some (msp.Hostname target, fmt_d (msp.Port target), String "/" p).
Proof.
  intros [Hslash Hcolon] Hport. set (authority := msp.Hostname target +:+ String ":" (fmt_d (msp.Port target))).
  assert (constructBaseUrl target +:+ p = "https://" +:+ (authority +:+ String "/" p)) as ->.
  { unfold constructBaseUrl, authority. by rewrite !string_app_assoc. }
  unfold parse_url. rewrite string_prefix_app. change (slice_from 8) with (slice_from (String.length "https://")). rewrite slice_from_all.
  assert (free_of "/" authority) as Hauth.
  { apply free_of_app. split; [done|]. split; [done|]. by apply digits_free_of, fmt_d_digits. }
  cbv zeta. rewrite (Index_app _ _ _ Hauth). unfold mbind, option_bind. cbv beta iota.
  rewrite slice_to_app, slice_from_all. unfold authority. rewrite (Index_app _ _ _ Hcolon).
  by rewrite slice_to_app, slice_from_app.
Qed.

Section delivered.
Context `{Json} `{X509} `{!Mux} {S : Type}.
Context (dials : string → string → string → bool) (ReadFile : string → gres string).
Context (implementation : Consumer S) (addr caFile cert key : string) (srv : http_server (S := S)).

(** The server of a slave. *)
Definition serves : Prop := ∃ l, NewServer ReadFile implementation addr caFile cert key tt = (tt, Returned l) ∧ Run l = Ok srv.

(** Client and server find and accept each other. *)
Definition trusted (c : http_client) (target : msp.HostPort) : Prop :=
  plain_host (msp.Hostname target) ∧ 0 ≤ msp.Port target ∧
  dials (msp.Hostname target) (fmt_d (msp.Port target)) addr = true ∧
  accepts_server c (msp.Hostname target) (server_cert srv) = true ∧
  accepts_client (TLSConfig srv) (Certificates c) = true.

Lemma serves_inv : serves → ∃ content, ReadFile caFile = Ok content ∧ Addr srv = addr ∧
  TLSConfig srv = mkTlsConfig (AppendCertsFromPEM content) RequireAndVerifyClientCert ∧
  Handler srv = [mkRoute "GET" "/msp/status" "RequestStatus" (λ _, handleRequestStatus implementation);
     mkRoute "POST" "/msp/establishMongodState" "EstablishMongodState" (handleMspEstablishMongodState implementation);
     mkRoute "POST" "/msp/rsInitiate" "RsInitiate" (handleRsInitiate implementation)].
Proof.
  intros (l & Hnew & Hrun). unfold NewServer, mbind, gom_bind, or_panic in Hnew. destruct (ReadFile caFile) as [content|e]; [|done].
  exists content. injection Hnew as <-. unfold Run in Hrun. simpl in Hrun. destruct (LoadX509KeyPair cert key); [|done].
  by injection Hrun as <-.
Qed.

Lemma started_serves content own : ReadFile caFile = Ok content → LoadX509KeyPair cert key = Ok own →
  srv = http_server_of (new_listener implementation addr content cert key) own → serves.
Proof.
  intros Hread Hload Hsrv. exists (new_listener implementation addr content cert key). unfold NewServer, Run. rewrite Hread. split; [done|]. cbn [certFile keyFile new_listener]. by rewrite Hload, Hsrv.
Qed.

(** A path below [/msp/] and the handler registered for it. *)
Lemma serve_route (routes : list (route (S := S))) i r : routes !! i = Some r →
  forallb (λ r, clean_path (Path r)) routes = true →
  forallb (λ q, negb (bool_decide (slashless (Path q) = slashless (Path r)))) (take i routes) = true →
  ∀ req, ServeHTTP routes (Methods r) (Path r) req = HandlerFunc r req.
Proof.
  intros Hr Hclean Hother req. unfold ServeHTTP. rewrite (mux_complete _ _ _ i); [by rewrite Hr| | |].
  - apply Forall_fmap, Forall_forall. intros q Hq. simpl. rewrite forallb_forall in Hclean. by apply Hclean.
  - by rewrite list_lookup_fmap, Hr.
  - intros j q Hj Hq. rewrite list_lookup_fmap in Hq. destruct (routes !! j) as [q'|] eqn:Hq'; [|done]. injection Hq as <-. simpl.
    rewrite forallb_forall in Hother. specialize (Hother q'). rewrite negb_true_iff, bool_decide_eq_false in Hother.
    apply Hother, list_elem_of_In, list_elem_of_lookup. exists j. by rewrite lookup_take_lt.
Qed.

Lemma exchange_delivered c target method p req s : serves → trusted c target →
  exchange dials c srv method (constructBaseUrl target +:+ p) req s =
  match ServeHTTP (Handler srv) method (String "/" p) req s with
  | (s', Returned resp) => (s', Returned (inl resp))
  | (s', Panicked _) => (s', Returned (inr "EOF"%string))
  | (s', OutOfFuel) => (s', OutOfFuel)
  end.
Proof.
  intros (content & _ & Haddr & _ & _)%serves_inv (Hhost & Hport & Hdial & Hserver & Hclient).
  unfold exchange. rewrite parse_base_url by done. by rewrite Haddr, Hdial, Hserver, Hclient.
Qed.

Lemma exchange_handled c target i r method p req s : serves → trusted c target →
  Handler srv !! i = Some r → Methods r = method → Path r = String "/" p →
  exchange dials c srv method (constructBaseUrl target +:+ p) req s =
  match HandlerFunc r req s with
  | (s', Returned resp) => (s', Returned (inl resp))
  | (s', Panicked _) => (s', Returned (inr "EOF"%string))
  | (s', OutOfFuel) => (s', OutOfFuel)
  end.
Proof.
  intros Hserves Htrust Hr <- Hp. rewrite exchange_delivered by done. rewrite <- Hp.
  destruct (serves_inv Hserves) as (_ & _ & _ & _ & Hrt). rewrite Hrt in *.
  rewrite (serve_route _ i r Hr); [done|reflexivity|]. destruct i as [|[|[|i]]]; simpl in Hr; [injection Hr as <-; reflexivity..|by rewrite lookup_nil in Hr].
Qed.

Lemma post_result_error err : faithful_error err → post_result (inl (error_response err)) = err.
Proof. intros Hf. unfold post_result, error_response. destruct err as [e|]; simpl; [|done]. by rewrite error_roundtrip. Qed.

Lemma post_delivered c NewRequest target i r p req err s s' : serves → trusted c target →
  Handler srv !! i = Some r → Methods r = "POST"%string → Path r = String "/" p →
  NewRequest (constructBaseUrl target +:+ p) = Ok tt → faithful_error err →
  HandlerFunc r req s = (s', Returned (error_response err)) →
  (result ← post (exchange dials c srv) NewRequest (constructBaseUrl target +:+ p) req; mret (post_result result)) s = (s', Returned err).
Proof.
  intros Hserves Htrust Hr Hm Hp Hnew Hf Hrun. unfold post. rewrite Hnew. simpl. unfold mbind, gom_bind, mret, gom_ret. cbv beta.
  rewrite (exchange_handled c target i r _ p req s Hserves Htrust Hr Hm Hp), Hrun. by rewrite post_result_error.
Qed.

(** What the client makes of the controller's answer to a status request: a list wins
    over an error; an error without identifier is a failure of the communication. *)
Definition status_received (st : option (list msp.Mongod)) (err : option msp.Error) (r : option (list msp.Mongod) * option msp.Error) : Prop :=
  match st with
  | Some l => r = (Some l, None)
  | None => ∃ e, r = (None, Some e) ∧
      (err = Some e ∧ msp.Identifier e ≠ "" ∨
       msp.Identifier (default msp.zero_Error err) = "" ∧ msp.Identifier e = msp.CommunicationError)
  end.

Lemma rpc_status c target s s' st err : serves → trusted c target →
  Consumer_RequestStatus implementation s = (s', Returned (st, err)) → faithful_status st → faithful_error err →
  ∃ r, client_RequestStatus (exchange dials c srv) target s = (s', Returned r) ∧ status_received st err r.
Proof.
  intros Hserves Htrust Hst Hfs Hfe. destruct (serves_inv Hserves) as (_ & _ & _ & _ & Hrt).
  unfold client_RequestStatus, mbind at 1, gom_bind at 1.
  rewrite (exchange_handled c target 0 (mkRoute "GET" "/msp/status" "RequestStatus" (λ _, handleRequestStatus implementation)));
    [|done|done|by rewrite Hrt|done..].
  simpl. unfold handleRequestStatus, mbind, gom_bind. rewrite Hst. unfold mret, gom_ret. eexists. split; [reflexivity|].
  destruct st as [l|]; simpl; [by rewrite status_roundtrip|]. rewrite error_roundtrip by done.
  unfold msp.validateFields. case_decide as He; eexists; (split; [reflexivity|]); [by right|].
  destruct err as [e|]; [left; done|]. by destruct He.
Qed.

Lemma rpc_establish c NewRequest target m s s' err : serves → trusted c target → (∀ p, NewRequest (constructBaseUrl target +:+ p) = Ok tt) →
  msp.State m ≠ msp.MongodStateRecovering → faithful_mongod m → faithful_error err →
  Consumer_EstablishMongodState implementation m s = (s', Returned err) →
  client_EstablishMongodState (exchange dials c srv) NewRequest target m s = (s', Returned err).
Proof.
  intros Hserves Htrust Hnew Hrec Hfm Hfe Hrun. destruct (serves_inv Hserves) as (_ & _ & _ & _ & Hrt).
  unfold client_EstablishMongodState, establishMongodState_validate.
  rewrite decide_False by done. destruct (mongod_roundtrip m Hfm) as (b & Henc & Hdec). rewrite Henc.
  eapply (post_delivered c NewRequest target 1); eauto; [by rewrite Hrt|done..|].
  simpl. unfold handleMspEstablishMongodState, mbind, gom_bind. rewrite Hdec. simpl. by rewrite Hrun.
Qed.
End delivered.

(** C12: Over a network that connects master and slave, with certificates each accepts, a
    well-formed URL and messages that JSON can carry, the three calls of the client are
    calls of the slave's controller: each reaches the handler of its route, hands over
    exactly the message, changes the state of the slave as the controller does, and
    returns exactly its answer, when the controller answers. There are three exceptions:
    an error beside a list of mongods is lost, a lone error without identifier becomes an
    error of the communication, and a mongod in the recovering state is refused by the
    client without asking the slave. *)
Theorem rpc_transparent `{Json} `{X509} `{!Mux} {S : Type} dials ReadFile (implementation : Consumer S) addr caFile cert key srv
    (c : http_client) NewRequest target :
  serves ReadFile implementation addr caFile cert key srv → trusted dials addr srv c target →
  (∀ p, NewRequest (constructBaseUrl target +:+ p) = Ok tt) →
  let Do := exchange dials c srv in
  (∀ s s' st err, Consumer_RequestStatus implementation s = (s', Returned (st, err)) →
     faithful_status st → faithful_error err →
     ∃ r, client_RequestStatus Do target s = (s', Returned r) ∧ status_received st err r) ∧
  (∀ m s s' err, msp.State m ≠ msp.MongodStateRecovering → faithful_mongod m → faithful_error err →
     Consumer_EstablishMongodState implementation m s = (s', Returned err) →
     client_EstablishMongodState Do NewRequest target m s = (s', Returned err)) ∧
  (∀ m s, msp.State m = msp.MongodStateRecovering →
     ∃ e, client_EstablishMongodState Do NewRequest target m s = (s, Returned (Some e)) ∧ msp.Identifier e = msp.BadStateDescription) ∧
  (∀ msg s s' err, faithful_rsInitiate msg → faithful_error err →
     Consumer_RsInitiate implementation msg s = (s', Returned err) →
     client_InitiateReplicaSet Do NewRequest target msg s = (s', Returned err)).
Proof.
  intros Hserves Htrust Hnew Do. destruct (serves_inv _ _ _ _ _ _ _ Hserves) as (_ & _ & _ & _ & Hrt). split_and!.
  - intros s s' st err. by eapply rpc_status.
  - intros m s s' err. by eapply rpc_establish.
  - intros m s Hm. unfold client_EstablishMongodState, establishMongodState_validate. rewrite decide_True by done. by eexists.
  - intros msg s s' err Hfm Hfe Hrun. unfold client_InitiateReplicaSet. destruct (rsInitiate_roundtrip msg Hfm) as (b & Henc & Hdec). rewrite Henc.
    eapply (post_delivered dials ReadFile implementation addr caFile cert key srv c NewRequest target 2); eauto; [by rewrite Hrt|done..|].
    simpl. unfold handleRsInitiate, mbind, gom_bind. rewrite Hdec. simpl. by rewrite Hrun.
Qed.

(** C13: Only the holder of a certificate of the CA in the slave's file commands a slave:
    a request that changes its state comes with such a certificate, and it is one of the
    three requests of the protocol, by method and path. *)
Theorem client_certificate_required `{Json} `{X509} `{!Mux} {S : Type} dials ReadFile (implementation : Consumer S) addr caFile cert key srv
    (c : http_client) method url req s :
  serves ReadFile implementation addr caFile cert key srv → (exchange dials c srv method url req s).1 ≠ s →
  (∃ content own, ReadFile caFile = Ok content ∧ Certificates c = Some own ∧ Verify (AppendCertsFromPEM content) own = true) ∧
  ∃ host port path, parse_url url = Some (host, port, path) ∧
    (method, path) ∈ [("GET", "/msp/status"); ("POST", "/msp/establishMongodState"); ("POST", "/msp/rsInitiate")]%string.
Proof.
  intros Hserves Hne. destruct (serves_inv _ _ _ _ _ _ _ Hserves) as (content & Hread & _ & Htls & Hrt). unfold exchange in Hne.
  destruct (parse_url url) as [[[host port] path]|] eqn:Hurl; [|done]. destruct (dials host port (Addr srv)); [|done].
  destruct (accepts_server c host (server_cert srv)); [|done]. destruct (accepts_client _ _) eqn:Hclient; [|done]. simpl in Hne.
  split.
  - rewrite Htls in Hclient. unfold accepts_client in Hclient. simpl in Hclient. destruct (Certificates c) as [own|]; [|done]. by exists content, own.
  - exists host, port, path. split; [done|]. unfold ServeHTTP in Hne. destruct (mux_match _ _ _) as [i|] eqn:Hi; [|done].
    apply mux_sound in Hi; [|rewrite Hrt; by repeat constructor]. rewrite Hrt in Hi. simpl in Hi.
    by apply list_elem_of_lookup_2 in Hi.
Qed.

(** Every failure [MSPClientImpl.RequestStatus] reports comes with no
    status list and with an error whose [Identifier] is set: a transport
    failure, an undecodable body and an error object without identifier are all
    turned into [CommunicationError]. *)
Theorem RequestStatus_errors_identified `{Json} {S : Type} (Do : string → string → body → GoM S http_result) target s s' r e :
  client_RequestStatus Do target s = (s', Returned (r, Some e)) → r = None ∧ msp.Identifier e ≠ "".
Proof.
  unfold client_RequestStatus, msp.validateFields, mbind, gom_bind, mret, gom_ret. intros Hr.
  repeat case_match; simplify_eq; done.
Qed.

(** ** Concrete instances *)

(** Bodies are the messages themselves. *)
Inductive wire_body :=
  | WStatus (st : option (list msp.Mongod))
  | WError (e : option msp.Error)
  | WMongod (m : msp.Mongod)
  | WRsInitiate (m : msp.RsInitiateMessage)
  | WEmpty.

Definition wire_json : Json := {|
  body := wire_body;
  encode_status := WStatus;
  decode_status b := match b with WStatus st => inl st | WEmpty => inr "EOF" | _ => inr "type mismatch" end;
  encode_error := WError;
  decode_error b := match b with
                    | WError e => inl (default msp.zero_Error e)
                    | WEmpty => inr "EOF" | _ => inr "type mismatch" end;
  encode_mongod m := Ok (WMongod m);
  decode_mongod b := match b with WMongod m => (m, None) | _ => (msp.zero_Mongod, Some "type mismatch") end;
  encode_rsInitiate m := Ok (WRsInitiate m);
  decode_rsInitiate b := match b with WRsInitiate m => (m, None) | _ => (msp.zero_RsInitiate, Some "type mismatch") end;
  empty_body := WEmpty;
  faithful_status _ := True;
  faithful_error _ := True;
  faithful_mongod _ := True;
  faithful_rsInitiate _ := True;
  status_roundtrip st _ := eq_refl;
  status_empty := I;
  error_none := I;
  error_roundtrip e _ := eq_refl;
  mongod_roundtrip m _ := ex_intro _ (WMongod m) (conj eq_refl eq_refl);
  rsInitiate_roundtrip m _ := ex_intro _ (WRsInitiate m) (conj eq_refl eq_refl)
|}%string.

(** A pool trusts the certificate whose name it is. *)
Definition ref_x509 : X509 := {|
  Certificate := string;
  CertPool := string;
  Block := string;
  Decode pem := if decide (pem = EmptyString) then None else Some pem;
  ParseCertificate := Ok;
  AddCert cert := cert;
  AppendCertsFromPEM pem := pem;
  LoadX509KeyPair cert key := Ok cert;
  Verify pool cert := bool_decide (pool = cert);
  VerifyHostname _ _ := true
|}.

(** The first route of that method and path. *)
Definition ref_match (routes : list (string * string)) (method path : string) : option nat :=
  fst <$> list_find (λ r, r = (method, path)) routes.

Lemma ref_match_sound routes method path i : ref_match routes method path = Some i → routes !! i = Some (method, path).
Proof. intros ([j r] & (Hr & -> & _)%list_find_Some & ->)%fmap_Some. done. Qed.

Lemma ref_match_complete routes method path i : routes !! i = Some (method, path) →
  (∀ j r, (j < i)%nat → routes !! j = Some r → slashless r.2 ≠ slashless path) → ref_match routes method path = Some i.
Proof.
  intros Hi Hfirst. apply fmap_Some. exists (i, (method, path)). split; [|done]. apply list_find_Some. split_and!; [done|done|].
  intros j r Hj Hlt ->. by apply (Hfirst j (method, path)).
Qed.

#[refine] Definition ref_mux : @Mux wire_json := {|
  mux_match := ref_match;
  mux_other _ _ := @mkResponse wire_json 404 WEmpty
|}.
Proof.
  - intros routes method path i _. apply ref_match_sound.
  - intros routes method path i _. apply ref_match_complete.
Defined.

(** A slave that counts the messages it gets, and refuses to initiate. *)
Definition example_error : msp.Error := msp.mkError msp.SlaveReplicaSetInitError "d" "l".
Definition example_consumer : Consumer nat :=
  mkConsumer (mret (Some [], None)) (λ _, _ ← modify_state S; mret None) (λ _, _ ← modify_state S; mret (Some example_error)).
Definition example_ReadFile (file : string) : gres string := Ok file.
Definition example_client : http_client (H0 := ref_x509) := mkHttpClient (H0 := ref_x509) "cert" (Some "ca"%string).
Definition slave_server {S} (consumer : Consumer S) : http_server (H := wire_json) (H0 := ref_x509) (S := S) :=
  http_server_of (H0 := ref_x509) (new_listener (H0 := ref_x509) consumer ":8081" "ca" "cert" "key") "cert"%string.
Definition example_dials (host port addr : string) : bool := bool_decide (":" +:+ port = addr).

Lemma slave_serves {S} (consumer : Consumer S) :
  serves (H := wire_json) (H0 := ref_x509) example_ReadFile consumer ":8081" "ca" "cert" "key" (slave_server consumer).
Proof. by eapply (started_serves (H := wire_json) (H0 := ref_x509)). Qed.

Lemma slave_trusted {S} (consumer : Consumer S) :
  trusted (H := wire_json) (H0 := ref_x509) example_dials ":8081" (slave_server consumer) example_client (msp.mkHostPort "slave01" 8081).
Proof. split; [split; simpl; repeat split; discriminate|]. split; [simpl; lia|]. by repeat split. Qed.

(** A slave whose status request fails with [err] and the list [st]. *)
Definition failing_consumer st err : Consumer nat := mkConsumer (mret (st, err)) (λ _, mret None) (λ _, mret None).

Example status_error_over_the_wire :
  (λ answer : option (list msp.Mongod) * option msp.Error, (client_RequestStatus (H := wire_json) (exchange (H := wire_json) (H0 := ref_x509) (H1 := ref_mux) example_dials example_client
      (slave_server (failing_consumer answer.1 answer.2))) (msp.mkHostPort "slave01" 8081) 7%nat).2) <$>
    [(Some [], Some example_error); (Some [], None); (None, Some example_error); (None, None)] =
  [Returned (Some [], None); Returned (Some [], None); Returned (None, Some example_error);
   Returned (None, Some (communicationErrorFromError (default "" (msp.validateFields msp.zero_Error))))].
Proof. vm_compute. reflexivity. Qed.

Lemma rpc_transparent_witness :
  let Do := exchange (H := wire_json) (H0 := ref_x509) (H1 := ref_mux) example_dials example_client (slave_server example_consumer) in
  (∃ r, client_RequestStatus (H := wire_json) Do (msp.mkHostPort "slave01" 8081) 7%nat = (7%nat, Returned r) ∧ status_received (Some []) None r) ∧
  client_EstablishMongodState (H := wire_json) Do (λ _, Ok tt) (msp.mkHostPort "slave01" 8081) msp.zero_Mongod 7%nat = (8%nat, Returned None) ∧
  client_InitiateReplicaSet (H := wire_json) Do (λ _, Ok tt) (msp.mkHostPort "slave01" 8081) msp.zero_RsInitiate 7%nat =
    (8%nat, Returned (Some example_error)).
Proof.
  intros Do. destruct (rpc_transparent (H := wire_json) (H0 := ref_x509) (H1 := ref_mux) example_dials example_ReadFile example_consumer
    ":8081" "ca" "cert" "key" (slave_server example_consumer) example_client (λ _, Ok tt) (msp.mkHostPort "slave01" 8081)) as (Hst & Hest & _ & Hrs).
  - apply slave_serves.
  - apply slave_trusted.
  - done.
  - split_and!; [by apply Hst|by apply Hest|by apply Hrs].
Defined.

Lemma client_certificate_required_witness :
  let url := "https://slave01:8081/msp/rsInitiate"%string in
  ∃ host port path, parse_url url = Some (host, port, path) ∧
    ("POST"%string, path) ∈ [("GET", "/msp/status"); ("POST", "/msp/establishMongodState"); ("POST", "/msp/rsInitiate")]%string.
Proof.
  intros url. refine (proj2 (client_certificate_required (H := wire_json) (H0 := ref_x509) (H1 := ref_mux) example_dials example_ReadFile
    example_consumer ":8081" "ca" "cert" "key" (slave_server example_consumer) example_client "POST" url (WRsInitiate msp.zero_RsInitiate) 7%nat _ _)).
  - apply slave_serves.
  - by vm_compute.
Defined.

Lemma RequestStatus_errors_identified_witness :
  let e := msp.mkError msp.CommunicationError "Error communicating with slave." "timeout" in
  client_RequestStatus (H := wire_json) (λ _ _ _, mret (inr "timeout")) (msp.mkHostPort "slave01" 8081) tt = (tt, Returned (None, Some e)) ∧
  (@None (list msp.Mongod) = None ∧ msp.Identifier e ≠ "").
Proof.
  intros e. split; [reflexivity|].
  apply (RequestStatus_errors_identified (H := wire_json) (λ _ _ _, mret (inr "timeout"))
           (msp.mkHostPort "slave01" 8081) tt tt None e). reflexivity.
Defined.
