(* ===== verification/Notifier.v ===== *)
(** * The notifier

    [notifier/]: the program that polls the master's problem list and mails the
    new problems to the configured contacts.  [net/smtp], [go-ini] and the HTTP
    client are parameters. *)

From stdpp Require Import base gmap sets list strings fin_maps.
From Stdlib Require Import Lia.
From S2P Require Import Prelude Base64 Msp.

Open Scope Z_scope.
Set Warnings "-clear-no-such-hyp".

Module notifier.

(** ** model.go *)

Record EmailContact := mkEmailContact { Contact_Name : string; Contact_Address : string }.
Record SMTPRelay := mkSMTPRelay { Relay_Hostname : string; Relay_MailFrom : string }.
Record Problem := mkProblem {
  Id : Z;
  Description : string;
  LongDescription : string;
  FirstOccured : Z;
  LastUpdate : Z;
  Slave : option Z;
  ReplicaSet : option Z
}.

#[export] Instance Problem_eq_dec : EqDecision Problem.
Proof. solve_decision. Defined.

(** ** controller.go *)

(** [for id := range lastProblems]: forget what is no longer reported. *)
Definition clean_old (lastProblems : gmap Z Problem) (received : list Problem) : gmap Z Problem :=
  filter (λ kv : Z * Problem, kv.1 ∈ Id <$> received) lastProblems.

(** The second loop; [received] is what is left to look at. *)
Fixpoint add_new (lastProblems : gmap Z Problem) (received : list Problem) : gmap Z Problem * list Problem :=
  match received with
  | [] => (lastProblems, [])
  | p :: received =>
      match lastProblems !! Id p with
      | Some _ => add_new lastProblems received
      | None =>
          let '(lastProblems', new) := add_new (<[Id p := p]> lastProblems) received in
          (lastProblems', p :: new)
      end
  end.

(** [func diffProblems(received []Problem) []Problem], with the package variable
    [lastProblems] passed through. *)
Definition diffProblems (lastProblems : gmap Z Problem) (received : list Problem) : gmap Z Problem * list Problem :=
  add_new (clean_old lastProblems received) received.

(** [func (apiclient *APIClient) Receive(host string)], after the HTTP exchange:
    a status code and the decoded body. *)
Definition Receive (resp : gres (Z * gres (list Problem))) : list Problem * option gerror :=
  match resp with
  | Err err => ([], Some err)
  | Ok (status, body) =>
      if decide (status = 200) then
        match body with
        | Ok problems => (problems, None)
        | Err err => ([], Some err)
        end
      else ([], Some (TextError ("API returned non 200 " +:+ fmt_d status)))
  end.

(** ** notifiers.go *)

Record EmailNotifier := mkEmailNotifier {
  Contacts : list EmailContact;
  Relay : SMTPRelay;
  MamidHost : string
}.

Definition CRLF : string := String (Ascii.ascii_of_nat 13) (String (Ascii.ascii_of_nat 10) EmptyString).

Definition bytes_of (s : string) : list Z :=
  (λ c, Z.of_nat (Ascii.nat_of_ascii c)) <$> String.list_ascii_of_string s.
Definition EncodeToString (s : string) : string :=
  String.string_of_list_ascii (base64_encode (bytes_of s)).

(** What the two [if p != nil] blocks append. *)
Definition when_some (p : option Z) (f : Z → string) : string :=
  match p with Some i => f i | None => EmptyString end.

(** The message [SendProblem] builds. *)
Definition problem_message (n : EmailNotifier) (problem : Problem) : string :=
  let content :=
    "A Problem occured: " +:+ Description problem +:+ CRLF +:+
    when_some (ReplicaSet problem) (λ i, "Replica Set id: " +:+ fmt_d i +:+ " " +:+ CRLF) +:+
    when_some (Slave problem) (λ i, "Slave id: " +:+ fmt_d i +:+ " " +:+ CRLF) +:+
    "Detailed Description: " +:+ LongDescription problem +:+ CRLF in
  let subject := "[MAMID] Problem: " +:+ Description problem in
  let subject := "Subject: =?utf-8?B?" +:+ EncodeToString subject +:+ "?=" in
  "From: " +:+ Relay_MailFrom (Relay n) +:+ CRLF +:+ "Content-Type: text/plain; charset=UTF-8" +:+ CRLF +:+
  "Content-transfer-encoding: binary" +:+ CRLF +:+ subject +:+ CRLF +:+ CRLF +:+ content +:+
  when_some (ReplicaSet problem) (λ i,
    CRLF +:+ "Inspect affected Replica Set: " +:+ MamidHost n +:+ "/#/replicasets/" +:+ fmt_d i +:+ " " +:+ CRLF) +:+
  when_some (Slave problem) (λ i,
    CRLF +:+ "Inspect affected Slave: " +:+ MamidHost n +:+ "/#/slaves/" +:+ fmt_d i +:+ " " +:+ CRLF).

(** A call of [smtp.SendMail]. *)
Record mail := mkMail { mail_relay : string; mail_from : string; mail_to : string; mail_body : string }.

Section sending.
Context (SendMail : mail → option gerror).

(** [func (n *EmailNotifier) sendMailToContacts(msg string) error] and the mails
    handed over; the loop returns at the first error. *)
Fixpoint send_to (n : EmailNotifier) (contacts : list EmailContact) (msg : string) : list mail * option gerror :=
  match contacts with
  | [] => ([], None)
  | c :: contacts =>
      let m := mkMail (Relay_Hostname (Relay n)) (Relay_MailFrom (Relay n)) (Contact_Address c)
                 ("To: " +:+ Contact_Address c +:+ CRLF +:+ msg) in
      match SendMail m with
      | Some err => ([m], Some err)
      | None => let '(mails, err) := send_to n contacts msg in (m :: mails, err)
      end
  end.
Definition sendMailToContacts (n : EmailNotifier) (msg : string) : list mail * option gerror :=
  send_to n (Contacts n) msg.
Definition SendProblem (n : EmailNotifier) (problem : Problem) : list mail * option gerror :=
  sendMailToContacts n (problem_message n problem).

(** [func notify(problem Problem)]: errors are only logged. *)
Fixpoint notify (notifiers : list EmailNotifier) (problem : Problem) : list mail :=
  match notifiers with
  | [] => []
  | n :: notifiers => (SendProblem n problem).1 ++ notify notifiers problem
  end.

(** One round of the loop in [main]: an error is logged and the (empty) result
    used all the same. *)
Definition poll (notifiers : list EmailNotifier) (lastProblems : gmap Z Problem)
    (resp : gres (Z * gres (list Problem))) : gmap Z Problem * list mail :=
  let '(currentProblems, err) := Receive resp in
  let '(lastProblems', new) := diffProblems lastProblems currentProblems in
  (lastProblems', mjoin (notify notifiers <$> new)).
End sending.

(** ** parser.go *)

Record Config := mkConfig {
  relay : SMTPRelay;
  apiHost : string;
  contactsFile : string;
  masterCA : string;
  apiCert : string;
  apiKey : string
}.

(** [ini.File]: sections of key/value pairs. *)
Abbreviation ini_file := (gmap string (gmap string string)) (only parsing).

Section parser.
(** The order in which Go ranges over a map. *)
Context (map_order : ∀ A : Type, list A → list A).

Definition section_contacts (name : string) (section : gmap string string) : list EmailContact :=
  omap (λ kv : string * string, if decide (kv.1 = "email") then Some (mkEmailContact name kv.2) else None)
    (map_order _ (map_to_list section)).

(** [func (p *Parser) Parse(path string) ([]Contact, error)] *)
Definition Parse (file : gres ini_file) : gres (list EmailContact) :=
  match file with
  | Err err => Err err
  | Ok file => Ok (mjoin ((λ kv : string * gmap string string, section_contacts kv.1 kv.2) <$>
                            map_order _ (map_to_list file)))
  end.
End parser.

(** A map lookup without the [ok] result. *)
Definition get (m : gmap string string) (key : string) : string := default EmptyString (m !! key).

(** [func (p *Parser) ParseConfig(path string) (config Config, err error)]; on an
    error the caller exits, so only the error is returned. *)
Definition ParseConfig (file : gres ini_file) : gres Config :=
  match file with
  | Err err => Err err
  | Ok file =>
    match file !! "notifier"%string with
    | None => Err (TextError "Missing 'notifier' section in config file")
    | Some notifier =>
      match notifier !! "api_host"%string with
      | None => Err (TextError "Missing 'api_host' veriable in 'notifier' section in config file")
      | Some apiHost =>
        let apiKey := get notifier "api_key" in
        let apiCert := get notifier "api_cert" in
        if bool_decide (apiCert +:+ apiKey ≠ EmptyString) &&
           (bool_decide (apiCert = EmptyString) || bool_decide (apiKey = EmptyString))
        then Err (TextError "Both, `api_key` and `api_cert` have to be defined in the 'notifier' section in config file")
        else
          let masterCA := get notifier "master_ca" in
          match notifier !! "contacts"%string with
          | None => Err (TextError "Missing 'contacts' veriable in 'notifier' section in config file")
          | Some contactsFile =>
            match file !! "smtp"%string with
            | None => Err (TextError "Missing 'smtp' section in config file")
            | Some smtp =>
              match smtp !! "mail_from"%string with
              | None => Err (TextError "Missing 'mail_from' veriable in 'smtp' section in config file")
              | Some mailFrom =>
                match smtp !! "relay_host"%string with
                | None => Err (TextError "Missing 'relay_host' veriable in 'smtp' section in config file")
                | Some hostname =>
                    Ok (mkConfig (mkSMTPRelay hostname mailFrom) apiHost contactsFile masterCA apiCert apiKey)
                end
              end
            end
          end
      end
    end
  end.

(** ** Which problems are announced *)

Lemma elem_of_clean_old last received id :
  is_Some (clean_old last received !! id) ↔ is_Some (last !! id) ∧ id ∈ Id <$> received.
Proof.
  unfold clean_old, is_Some. setoid_rewrite map_lookup_filter_Some. simpl. naive_solver.
Qed.

Lemma add_new_spec last received last' new :
  add_new last received = (last', new) →
  (∀ id, is_Some (last' !! id) ↔ is_Some (last !! id) ∨ id ∈ Id <$> received) ∧
  new `sublist_of` received ∧ NoDup (Id <$> new) ∧
  (∀ p, p ∈ new → last !! Id p = None) ∧
  (∀ id, id ∈ Id <$> received → last !! id = None → id ∈ Id <$> new).
Proof.
  revert last last' new. induction received as [|p received IH]; intros last last' new; simpl.
  { intros [= <- <-]. split_and!; [|constructor|constructor|set_solver..]. set_solver. }
  destruct (last !! Id p) as [q|] eqn:Hp.
  - intros H. destruct (IH _ _ _ H) as (Hdom & Hsub & Hnd & Hnew & Hall). split_and!; [|by constructor|done..|].
    + intros id. rewrite Hdom, elem_of_cons. split; [tauto|]. intros [?|[->|?]]; [by left|by left|by right].
    + intros id [->|Hid]%elem_of_cons Hnone; [congruence|by apply Hall].
  - destruct (add_new (<[Id p:=p]> last) received) as [last1 new1] eqn:H1. intros [= <- <-].
    destruct (IH _ _ _ H1) as (Hdom & Hsub & Hnd & Hnew & Hall). split_and!.
    + intros id. rewrite Hdom, lookup_insert_is_Some', elem_of_cons. naive_solver.
    + by apply sublist_skip.
    + simpl. apply NoDup_cons. split; [|done]. intros (q & Hid & Hq)%list_elem_of_fmap.
      specialize (Hnew q Hq). by rewrite <- Hid, lookup_insert_eq in Hnew.
    + intros q [->|Hq]%elem_of_cons; [done|]. specialize (Hnew q Hq).
      by apply lookup_insert_None in Hnew as [? _].
    + simpl. intros id [->|Hid]%elem_of_cons Hnone; [left|].
      destruct (decide (id = Id p)) as [->|Hne]; [left|right]. apply Hall; [done|].
      by rewrite lookup_insert_ne.
Qed.

(** A poll announces, in the order received, exactly one problem for every
    reported id that was not reported by the previous poll, and remembers exactly
    the reported ids. *)
Theorem diffProblems_correct last received last' new :
  diffProblems last received = (last', new) →
  (∀ id, is_Some (last' !! id) ↔ id ∈ Id <$> received) ∧
  new `sublist_of` received ∧ NoDup (Id <$> new) ∧
  (∀ id, id ∈ Id <$> new ↔ id ∈ Id <$> received ∧ last !! id = None).
Proof.
  intros H. destruct (add_new_spec _ _ _ _ H) as (Hdom & Hsub & Hnd & Hnew & Hall). split_and!; [|done..|].
  - intros id. rewrite Hdom, elem_of_clean_old. tauto.
  - intros id. split.
    + intros Hid. assert (id ∈ Id <$> received) as Hrec.
      { apply list_elem_of_fmap in Hid as (p & -> & Hp). apply list_elem_of_fmap_2. by eapply elem_of_sublist. }
      split; [done|]. apply list_elem_of_fmap in Hid as (p & -> & Hp). specialize (Hnew p Hp).
      apply eq_None_not_Some. intros Hsome. rewrite eq_None_not_Some in Hnew. apply Hnew.
      by apply elem_of_clean_old.
    + intros [Hid Hnone]. apply Hall; [done|]. apply eq_None_not_Some.
      rewrite elem_of_clean_old, Hnone. by intros [[] _].
Qed.

Definition example_problem (id : Z) : Problem := mkProblem id "Slave is unreachable" "" 0 0 (Some 1) None.

Lemma diffProblems_correct_witness :
  let r := diffProblems {[1 := example_problem 1; 7 := example_problem 7]} [example_problem 1; example_problem 2; example_problem 2] in
  r.2 = [example_problem 2] ∧ ∀ id, is_Some (r.1 !! id) ↔ id ∈ [1; 2; 2].
Proof.
  split; [reflexivity|].
  apply (diffProblems_correct {[1 := example_problem 1; 7 := example_problem 7]}
           [example_problem 1; example_problem 2; example_problem 2] _ [example_problem 2]).
  reflexivity.
Defined.

(** A failed poll forgets every problem: after an API error the next
    successful poll announces all reported problems again. *)
Theorem poll_error_forgets SendMail notifiers last err :
  poll SendMail notifiers last (Err err) = (∅, []) ∧
  ∀ received last' new, diffProblems (poll SendMail notifiers last (Err err)).1 received = (last', new) →
    ∀ id, id ∈ Id <$> received → id ∈ Id <$> new.
Proof.
  assert (clean_old last [] = ∅) as Hempty.
  { apply map_eq. intros id. rewrite lookup_empty. apply eq_None_not_Some. rewrite elem_of_clean_old.
    by intros [_ []%not_elem_of_nil]. }
  assert (poll SendMail notifiers last (Err err) = (∅, [])) as Hpoll.
  { unfold poll, Receive, diffProblems. rewrite Hempty. reflexivity. }
  split; [done|]. rewrite Hpoll. simpl. intros received last' new H id Hid.
  destruct (add_new_spec _ _ _ _ H) as (_ & _ & _ & _ & Hall). apply Hall; [done|].
  apply eq_None_not_Some. rewrite elem_of_clean_old, lookup_empty. by intros [[] _].
Qed.

Lemma poll_error_forgets_witness :
  let last := {[1 := example_problem 1]} in
  diffProblems last [example_problem 1] = (last, []) ∧
  1 ∈ Id <$> (diffProblems (poll (λ _, None) [] last (Err (TextError "timeout"))).1 [example_problem 1]).2.
Proof.
  split; [reflexivity|].
  apply (proj2 (poll_error_forgets (λ _, None) [] {[1 := example_problem 1]} (TextError "timeout"))
           [example_problem 1] {[1 := example_problem 1]} [example_problem 1]); [reflexivity|left].
Defined.

(** ** Mails *)

(** Lines, each ended by CRLF. *)
Definition crlf_lines (l : list string) : string := foldr (λ line rest, line +:+ CRLF +:+ rest) EmptyString l.

(** The mail for a problem to one contact: the header, and the description with the
    numbers of the replica set and the slave, where the problem has them, and links to
    both. *)
Definition mail_lines (from host : string) (p : Problem) (to : string) : list string :=
  let some (i : option Z) (f : Z → list string) := match i with Some i => f i | None => [] end in
  mjoin [
    ["To: " +:+ to; "From: " +:+ from; "Content-Type: text/plain; charset=UTF-8"; "Content-transfer-encoding: binary";
     "Subject: =?utf-8?B?" +:+ EncodeToString ("[MAMID] Problem: " +:+ Description p) +:+ "?="; "";
     "A Problem occured: " +:+ Description p];
    some (ReplicaSet p) (λ i, ["Replica Set id: " +:+ fmt_d i +:+ " "]);
    some (Slave p) (λ i, ["Slave id: " +:+ fmt_d i +:+ " "]);
    ["Detailed Description: " +:+ LongDescription p];
    some (ReplicaSet p) (λ i, [""; "Inspect affected Replica Set: " +:+ host +:+ "/#/replicasets/" +:+ fmt_d i +:+ " "]);
    some (Slave p) (λ i, [""; "Inspect affected Slave: " +:+ host +:+ "/#/slaves/" +:+ fmt_d i +:+ " "])]%string.

(** The mails that announce a problem: to the contacts in order, all of them if no
    delivery fails, and otherwise up to and including the first one whose delivery
    failed; through the relay, from its address, with the text for the contact. *)
Record mails_for (SendMail : mail → option gerror) (contacts : list EmailContact) (relay : SMTPRelay) (host : string)
    (p : Problem) (mails : list mail) : Prop := {
  mails_order : mail_to <$> mails `prefix_of` Contact_Address <$> contacts;
  mails_all : (∀ m, m ∈ mails → SendMail m = None) → mail_to <$> mails = Contact_Address <$> contacts;
  mails_stop i m : mails !! i = Some m → SendMail m ≠ None → S i = length mails;
  mails_text m : m ∈ mails → m = mkMail (Relay_Hostname relay) (Relay_MailFrom relay) (mail_to m)
    (crlf_lines (mail_lines (Relay_MailFrom relay) host p (mail_to m)))
}.

Lemma problem_message_lines n p to :
  "To: " +:+ to +:+ CRLF +:+ problem_message n p = crlf_lines (mail_lines (Relay_MailFrom (Relay n)) (MamidHost n) p to).
Proof.
  unfold problem_message, mail_lines. generalize (EncodeToString ("[MAMID] Problem: " +:+ Description p)). intros subject.
  generalize (Description p), (LongDescription p), (Relay_MailFrom (Relay n)), (MamidHost n). intros desc long from host.
  destruct (ReplicaSet p) as [r|], (Slave p) as [sl|]; cbn [when_some crlf_lines foldr app];
    cbn -[String.append fmt_d CRLF]; rewrite !string_app_assoc; reflexivity.
Qed.

Lemma SendProblem_mails SendMail n p : mails_for SendMail (Contacts n) (Relay n) (MamidHost n) p (SendProblem SendMail n p).1.
Proof.
  unfold SendProblem, sendMailToContacts. induction (Contacts n) as [|c contacts IH]; simpl.
  { split; [done..|]. by intros m ?%not_elem_of_nil. }
  set (m := mkMail _ _ _ _).
  assert (m = mkMail (Relay_Hostname (Relay n)) (Relay_MailFrom (Relay n)) (mail_to m)
    (crlf_lines (mail_lines (Relay_MailFrom (Relay n)) (MamidHost n) p (mail_to m)))) as Hm.
  { unfold m. cbn [mail_to]. by rewrite <- problem_message_lines. }
  destruct (SendMail m) as [e|] eqn:Hsend.
  { split; simpl.
    - by apply prefix_cons, prefix_nil.
    - intros Hall. rewrite (Hall m) in Hsend by left. done.
    - intros i m' [-> ->]%list_lookup_singleton_Some _. done.
    - by intros m' ->%list_elem_of_singleton. }
  destruct (send_to SendMail n contacts (problem_message n p)) as [mails err] eqn:Hrest. cbn [fst] in *.
  destruct IH as [Hord Hall Hstop Htext]. split; simpl.
  - by apply prefix_cons.
  - intros Hok. f_equal. apply Hall. intros m' Hm'. apply Hok. by right.
  - intros [|i] m' Hi Hfail; simpl in Hi; [congruence|]. f_equal. by eapply Hstop.
  - intros m' [->|Hm']%elem_of_cons; [exact Hm|by apply Htext].
Qed.

Definition example_notifier : EmailNotifier :=
  mkEmailNotifier [mkEmailContact "a" "a@x"; mkEmailContact "b" "b@x"; mkEmailContact "c" "c@x"] (mkSMTPRelay "relay" "mamid@x") "host".

(** The relay refuses the second contact. *)
Definition refusing (m : mail) : option gerror := if decide (mail_to m = "b@x"%string) then Some (TextError "refused") else None.

Example refused_mails : (SendProblem refusing example_notifier (example_problem 2)).1 =
  (λ to, mkMail "relay" "mamid@x" to (crlf_lines (mail_lines "mamid@x" "host" (example_problem 2) to))) <$> ["a@x"; "b@x"]%string.
Proof. vm_compute. reflexivity. Qed.

(** ** Configuration *)

(** The mandatory entries are there, and the client certificate and its key are given both
    or not at all. *)
Definition complete_config (file : gmap string (gmap string string)) : Prop :=
  ∃ n s, file !! "notifier"%string = Some n ∧ file !! "smtp"%string = Some s ∧
    is_Some (n !! "api_host"%string) ∧ is_Some (n !! "contacts"%string) ∧
    is_Some (s !! "mail_from"%string) ∧ is_Some (s !! "relay_host"%string) ∧
    (get n "api_cert" = EmptyString ↔ get n "api_key" = EmptyString).

(** Exactly the complete configurations are accepted. *)
Lemma ParseConfig_accepts file : (∃ c, ParseConfig (Ok file) = Ok c) ↔ complete_config file.
Proof.
  assert (∀ a b : string, bool_decide (a +:+ b ≠ EmptyString) && (bool_decide (a = EmptyString) || bool_decide (b = EmptyString)) = false ↔
    (a = EmptyString ↔ b = EmptyString)) as Hboth.
  { intros a b. destruct a, b; vm_compute; split; intros; try done; try (by split); naive_solver. }
  unfold ParseConfig, complete_config. split.
  - intros [c Hc]. repeat (case_match; simplify_eq). eexists _, _. split_and!; try done; try (by eexists).
    by apply Hboth.
  - intros (n & s & Hn & Hs & [host Hhost] & [contacts Hcontacts] & [from Hfrom] & [rel Hrel] & Hiff).
    rewrite Hn, Hhost. simpl. apply Hboth in Hiff. rewrite Hiff, Hcontacts, Hs, Hfrom, Hrel. eauto.
Qed.

(** What the fields of an accepted configuration are. *)
Record config_of (file : gmap string (gmap string string)) (c : Config) : Prop := {
  config_relay : (file !! "smtp" ≫= (.!! "relay_host"))%string = Some (Relay_Hostname (relay c));
  config_from : (file !! "smtp" ≫= (.!! "mail_from"))%string = Some (Relay_MailFrom (relay c));
  config_host : (file !! "notifier" ≫= (.!! "api_host"))%string = Some (apiHost c);
  config_contacts : (file !! "notifier" ≫= (.!! "contacts"))%string = Some (contactsFile c);
  config_certificates : ∃ n, file !! "notifier"%string = Some n ∧
    masterCA c = get n "master_ca" ∧ apiCert c = get n "api_cert" ∧ apiKey c = get n "api_key"
}.

Lemma ParseConfig_fields r c : ParseConfig r = Ok c → ∃ file, r = Ok file ∧ config_of file c.
Proof.
  unfold ParseConfig. intros Hc. repeat (case_match; simplify_eq). eexists. split; [done|].
  split; [by (simplify_option_eq)..|by eexists].
Qed.

(** The contacts are the [email] entries of the contacts file, one per
    section that has one, each once, whatever order the maps are visited in. *)
Lemma Parse_contacts (map_order : ∀ A : Type, list A → list A) file contacts :
  (∀ A (l : list A), map_order A l ≡ₚ l) → Parse map_order (Ok file) = Ok contacts →
  ∀ c, c ∈ contacts ↔ ∃ section, file !! Contact_Name c = Some section ∧
                                 section !! "email"%string = Some (Contact_Address c).
Proof.
  intros Horder [= <-] c. rewrite list_elem_of_join. setoid_rewrite list_elem_of_fmap. split.
  - intros (l & Hc & ([name section] & -> & Hin)). rewrite Horder in Hin. apply elem_of_map_to_list in Hin.
    unfold section_contacts in Hc. rewrite Horder in Hc.
    apply list_elem_of_omap in Hc as ([key value] & Hkv%elem_of_map_to_list & Hsome). simpl in *.
    case_decide as Hkey; [|done]. simplify_eq. simpl. eauto.
  - intros (section & Hsec & Hemail). eexists. split; [|exists (Contact_Name c, section); split; [done|]].
    + unfold section_contacts. apply list_elem_of_omap. exists ("email"%string, Contact_Address c).
      rewrite Horder. split; [by apply elem_of_map_to_list|]. simpl. by destruct c.
    + rewrite Horder. by apply elem_of_map_to_list.
Qed.

Lemma email_once name (l : list (string * string)) : NoDup l.*1 →
  NoDup (omap (λ kv : string * string, if decide (kv.1 = "email"%string) then Some (mkEmailContact name kv.2) else None) l).
Proof.
  induction l as [|[key value] l IH]; csimpl; [constructor|]. intros [Hnotin Hnd]%NoDup_cons.
  case_decide as Hkey; [|by apply IH]. constructor; [|by apply IH].
  intros ([key' value'] & Hin & Hsome)%list_elem_of_omap. simpl in Hsome. case_decide as Hkey'; [|done]. subst.
  apply Hnotin, list_elem_of_fmap. by exists ("email"%string, value').
Qed.

Lemma Parse_contacts_once (map_order : ∀ A : Type, list A → list A) file contacts :
  (∀ A (l : list A), map_order A l ≡ₚ l) → Parse map_order (Ok file) = Ok contacts → NoDup contacts.
Proof.
  intros Horder [= <-]. rewrite list_join_bind, list_fmap_bind. apply NoDup_bind.
  - intros [n1 s1] [n2 s2] c H1 H2 Hc1 Hc2. rewrite Horder in H1, H2. apply elem_of_map_to_list in H1, H2.
    apply list_elem_of_omap in Hc1 as (kv1 & _ & Hc1), Hc2 as (kv2 & _ & Hc2). repeat case_decide; simplify_eq/=. congruence.
  - intros [name section] _. apply email_once. rewrite Horder. apply NoDup_fst_map_to_list.
  - rewrite Horder. apply NoDup_map_to_list.
Qed.

End notifier.
