(* ===== verification/NotifierMain.v ===== *)
(** * The notifier as a program

    [main] of [notifier/controller.go]: the configuration is read, the client of the API is
    set up, and then the problems are polled for ever.  The files, package [ini] and the
    answers of the API are parameters; a run of the loop is that over a list of answers. *)

From stdpp Require Import base gmap sets list strings fin_maps.
From Stdlib Require Import Lia.
From S2P Require Import Prelude Base64 Msp Rpc Notifier.

Open Scope Z_scope.
Set Warnings "-clear-no-such-hyp".

Module controller.
Import notifier.

(** ** Start *)

(** The TLS configuration of an [http.Transport], where it has one. *)
Record tls_client_config `{X509} := mkTlsClientConfig { RootCAs : option CertPool; Certificates : list Certificate }.

(** What [main] has set up when it enters its loop. *)
Record setup `{X509} := mkSetup {
  config : Config;
  notifiers : list EmailNotifier;
  TLSClientConfig : option tls_client_config
}.

Section main.
Context `{X509} (ReadFile : string → gres string) (LoadFile : string → gres (gmap string (gmap string string))).
Context (map_order : ∀ A : Type, list A → list A).

(** [log.Fatalf] *)
Definition Fatalf {S A} (text : string) : GoM S A := panic (VString text).

(** [func loadCertificateFromFile(file string)]: [pem.Decode] returns a nil block for a
    text that is not PEM, and [block.Bytes] panics. *)
Definition loadCertificateFromFile (file : string) : GoM unit (gres Certificate) :=
  match ReadFile file with
  | Err e => mret (Err e)
  | Ok certFile =>
      match Decode certFile with
      | None => panic (VString "invalid memory address or nil pointer dereference")
      | Some block => mret (ParseCertificate block)
      end
  end.

(** The transport of the API client: the CA of the master, if given, and then the
    client certificate, if given. *)
Definition transport (config : Config) : GoM unit (option tls_client_config) :=
  httpTransport ←
    (if decide (masterCA config = EmptyString) then mret None
     else
       cert ← loadCertificateFromFile (masterCA config);
       match cert with
       | Err err => Fatalf ("Error loading matser CA file `" +:+ masterCA config +:+ "`: " +:+ error_text err)
       | Ok cert => mret (Some (mkTlsClientConfig _ (Some (AddCert cert)) []))
       end);
  if decide (apiCert config = EmptyString) then mret httpTransport
  else
    match LoadX509KeyPair (apiCert config) (apiKey config) with
    | Err err => Fatalf ("Error loading keypair `" +:+ apiCert config +:+ "`, `" +:+ apiKey config +:+ "`: " +:+ error_text err)
    | Ok clientAuthCert =>
        let TLSClientConfig := default (mkTlsClientConfig _ None []) httpTransport in
        mret (Some (mkTlsClientConfig _ (RootCAs TLSClientConfig) [clientAuthCert]))
    end.

(** [main] up to its loop; [None] after the usage message.  The contacts [Parse] returns
    are all of the one type the type switch selects. *)
Definition start (args : list string) : GoM unit (option setup) :=
  match args with
  | [_; path] =>
      match ParseConfig (LoadFile path) with
      | Err configError => Fatalf ("Error loading config: " +:+ error_text configError)
      | Ok config =>
          match Parse map_order (LoadFile (contactsFile config)) with
          | Err contactsParseErr =>
              Fatalf ("Error loading contacts file `" +:+ contactsFile config +:+ "`: " +:+ error_text contactsParseErr)
          | Ok emailContacts =>
              let email := mkEmailNotifier emailContacts (relay config) (apiHost config) in
              httpTransport ← transport config;
              mret (Some (mkSetup _ config [email] httpTransport))
          end
      end
  | _ => mret None
  end.
End main.

(** ** The loop *)

(** An answer of the API: a transport error, or the status and the decoded body. *)
Abbreviation answer := (gres (Z * gres (list Problem))) (only parsing).

(** The loop over the answers it gets, from the problems announced so far: the mails of
    each round. *)
Fixpoint run_loop (SendMail : mail → option gerror) (notifiers : list EmailNotifier) (lastProblems : gmap Z Problem)
    (answers : list answer) : list (list mail) :=
  match answers with
  | [] => []
  | resp :: answers =>
      let '(lastProblems, mails) := poll SendMail notifiers lastProblems resp in
      mails :: run_loop SendMail notifiers lastProblems answers
  end.

(** [main], over the answers of the API. *)
Definition main `{X509} ReadFile LoadFile map_order SendMail (args : list string) (answers : list answer) : GoM unit (list (list mail)) :=
  s ← start ReadFile LoadFile map_order args;
  match s with
  | None => mret []
  | Some s => mret (run_loop SendMail (notifiers s) ∅ answers)
  end.

(** ** What a run announces *)

(** The problems an answer reports: none if it is an error. *)
Definition reported (resp : answer) : list Problem := (Receive resp).1.
(** What the round before reported. *)
Definition reported_before (answers : list answer) (k : nat) : list Problem :=
  match k with O => [] | S k => from_option reported [] (answers !! k) end.

(** The mails of a round of [n] in which [new] is announced. *)
Definition mails_of SendMail (ns : list EmailNotifier) (new : list Problem) : list mail := mjoin (notify SendMail ns <$> new).

(** [new] is what [now] reports and [before] does not, every id once, in order. *)
Record announced (before now new : list Problem) : Prop := {
  announced_order : new `sublist_of` now;
  announced_once : NoDup (Id <$> new);
  announced_ids id : id ∈ Id <$> new ↔ id ∈ Id <$> now ∧ id ∉ Id <$> before
}.

Lemma poll_announces SendMail ns last before resp last' mails :
  (∀ id, is_Some (last !! id) ↔ id ∈ Id <$> before) → poll SendMail ns last resp = (last', mails) →
  (∀ id, is_Some (last' !! id) ↔ id ∈ Id <$> reported resp) ∧
  ∃ new, announced before (reported resp) new ∧ mails = mails_of SendMail ns new.
Proof.
  intros Hlast Hpoll. unfold poll, reported in *. destruct (Receive resp) as [now err]. cbn [fst].
  destruct (diffProblems last now) as [last1 new] eqn:Hdiff. injection Hpoll as <- <-.
  destruct (diffProblems_correct _ _ _ _ Hdiff) as (Hdom & Hsub & Hnd & Hids). split; [done|].
  exists new. split; [|done]. split; [done|done|]. intros id. rewrite Hids, <- Hlast, eq_None_not_Some. done.
Qed.

Lemma run_loop_announces SendMail ns answers : ∀ last before,
  (∀ id, is_Some (last !! id) ↔ id ∈ Id <$> before) →
  length (run_loop SendMail ns last answers) = length answers ∧
  ∀ k resp, answers !! k = Some resp → ∃ new,
    announced (match k with O => before | S k => reported_before answers (S k) end) (reported resp) new ∧
    run_loop SendMail ns last answers !! k = Some (mails_of SendMail ns new).
Proof.
  induction answers as [|resp answers IH]; intros last before Hlast; [by split|]. cbn [run_loop].
  destruct (poll SendMail ns last resp) as [last' mails] eqn:Hpoll.
  destruct (poll_announces _ _ _ _ _ _ _ Hlast Hpoll) as (Hlast' & new & Hnew & ->).
  destruct (IH last' (reported resp) Hlast') as [Hlen Hall]. split; [simpl; by rewrite Hlen|].
  intros [|k] r Hr; simpl in Hr; [injection Hr as <-; by exists new|].
  destruct (Hall k r Hr) as (new' & Hnew' & Hrun). exists new'. split; [|done]. by destruct k.
Qed.

Lemma start_inv `{X509} ReadFile LoadFile map_order args r : start ReadFile LoadFile map_order args tt = (tt, Returned r) →
  match r with
  | None => length args ≠ 2%nat
  | Some s => ∃ program path contacts, args = [program; path] ∧ ParseConfig (LoadFile path) = Ok (config s) ∧
      Parse map_order (LoadFile (contactsFile (config s))) = Ok contacts ∧
      notifiers s = [mkEmailNotifier contacts (relay (config s)) (apiHost (config s))] ∧
      transport ReadFile (config s) tt = (tt, Returned (TLSClientConfig s))
  end.
Proof.
  unfold start. destruct args as [|program [|path [|more args]]]; intros Hrun; [by injection Hrun as <-..| |by injection Hrun as <-].
  destruct (ParseConfig (LoadFile path)) as [c|e] eqn:Hc; [|done].
  destruct (Parse map_order (LoadFile (contactsFile c))) as [contacts|e] eqn:Hp; [|done].
  unfold mbind, gom_bind in Hrun. destruct (transport ReadFile c tt) as [[] [t|v|]] eqn:Ht; [|done..].
  injection Hrun as <-. simpl. by exists program, path, contacts.
Qed.

(** Why a start can be refused: the configuration cannot be read or is incomplete, the
    contacts cannot be read, or the certificates it names cannot be loaded. *)
Definition certificates_unusable `{X509} (ReadFile : string → gres string) (config : Config) : Prop :=
  (masterCA config ≠ EmptyString ∧ ¬ ∃ content block cert, ReadFile (masterCA config) = Ok content ∧
     Decode content = Some block ∧ ParseCertificate block = Ok cert) ∨
  (apiCert config ≠ EmptyString ∧ ∃ e, LoadX509KeyPair (apiCert config) (apiKey config) = Err e).
Definition start_refused `{X509} (ReadFile : string → gres string) (LoadFile : string → gres (gmap string (gmap string string)))
    (path : string) : Prop :=
  match LoadFile path with
  | Err _ => True
  | Ok file => ¬ complete_config file ∨
      ∃ config, config_of file config ∧ ((∃ e, LoadFile (contactsFile config) = Err e) ∨ certificates_unusable ReadFile config)
  end.

Lemma transport_ends `{X509} ReadFile config :
  wp (transport ReadFile config) (λ _ _, True) (λ _ _, certificates_unusable ReadFile config) tt.
Proof.
  unfold transport. wp_step. destruct (decide (masterCA config = EmptyString)) as [Hca|Hca].
  - apply wp_ret. case_decide; [by apply wp_ret|]. destruct (LoadX509KeyPair _ _) as [own|e] eqn:Hkey; [by apply wp_ret|].
    apply wp_panic. right. split; [done|]. by exists e.
  - assert ((¬ ∃ content block cert, ReadFile (masterCA config) = Ok content ∧ Decode content = Some block ∧
      ParseCertificate block = Ok cert) → certificates_unusable ReadFile config) as Hno by (intros Hno; by left).
    wp_step. unfold loadCertificateFromFile. destruct (ReadFile (masterCA config)) as [content|e] eqn:Hread.
    2: { apply wp_ret, wp_panic, Hno. intros (? & ? & ? & ? & ?). congruence. }
    destruct (Decode content) as [block|] eqn:Hdec; [|apply wp_panic, Hno; intros (? & ? & ? & ? & ? & ?); congruence].
    apply wp_ret. destruct (ParseCertificate block) as [cert|e] eqn:Hparse; [|apply wp_panic, Hno; intros (? & ? & ? & ? & ? & ?); congruence].
    apply wp_ret. case_decide; [by apply wp_ret|]. destruct (LoadX509KeyPair _ _) as [own|e] eqn:Hkey; [by apply wp_ret|].
    apply wp_panic. right. split; [done|]. by exists e.
Qed.

Lemma start_ends `{X509} ReadFile LoadFile map_order args :
  wp (start ReadFile LoadFile map_order args) (λ _ _, True)
    (λ _ _, ∃ program path, args = [program; path] ∧ start_refused ReadFile LoadFile path) tt.
Proof.
  unfold start. destruct args as [|program [|path [|more args]]]; [by apply wp_ret..| |by apply wp_ret].
  enough (wp (match ParseConfig (LoadFile path) with
    | Err configError => Fatalf ("Error loading config: " +:+ error_text configError)
    | Ok config =>
        match Parse map_order (LoadFile (contactsFile config)) with
        | Err contactsParseErr => Fatalf ("Error loading contacts file `" +:+ contactsFile config +:+ "`: " +:+ error_text contactsParseErr)
        | Ok emailContacts => httpTransport ← transport ReadFile config;
            mret (Some (mkSetup _ config [mkEmailNotifier emailContacts (relay config) (apiHost config)] httpTransport))
        end
    end) (λ _ _, True) (λ _ _, start_refused ReadFile LoadFile path) tt) as Hwp.
  { eapply wp_mono; [exact Hwp|done|]. intros v [] Hrefused. by exists program, path. }
  unfold start_refused. destruct (LoadFile path) as [file|e] eqn:Hfile; [|by apply wp_panic].
  destruct (ParseConfig (Ok file)) as [config|e] eqn:Hconfig.
  2: { apply wp_panic. left. intros [c Hc]%ParseConfig_accepts. congruence. }
  apply ParseConfig_fields in Hconfig as (file' & [= <-] & Hconfig).
  destruct (LoadFile (contactsFile config)) as [contacts|e] eqn:Hcontacts; simpl.
  2: { apply wp_panic. right. exists config. split; [done|]. left. by exists e. }
  wp_step. eapply wp_mono; [apply transport_ends| |].
  - intros t [] _. by apply wp_ret.
  - intros v [] Hun. right. exists config. split; [done|by right].
Qed.

(** C37: Over any run the notifier announces a problem when it appears. Its start always ends,
    and is refused only if the configuration cannot be read or is incomplete, the
    contacts cannot be read, or the certificates it names cannot be loaded. Otherwise
    round [k] announces, in the order received, exactly the problems whose ids answer [k]
    reports and the answer before does not (a failed answer reports none), each id once.
    Each of them is mailed to the contacts, in order, up to and including the first whose
    delivery fails, to all of them if none fails, with a text that describes the problem,
    through the configured relay and from the configured address. The contacts are
    exactly the [email] entries of the contacts file, each once, whatever the order in
    which maps are visited. Without a single argument there is no round. *)
Theorem main_announces `{X509} ReadFile LoadFile map_order SendMail args answers :
  (∀ A (l : list A), map_order A l ≡ₚ l) →
  ∃ r, main ReadFile LoadFile map_order SendMail args answers tt = (tt, r) ∧
  match r with
  | OutOfFuel => False
  | Panicked _ => ∃ program path, args = [program; path] ∧ start_refused ReadFile LoadFile path
  | Returned rounds =>
      (length args ≠ 2%nat ∧ rounds = []) ∨
      ∃ program path file config contacts_file contacts, args = [program; path] ∧
        LoadFile path = Ok file ∧ config_of file config ∧
        LoadFile (contactsFile config) = Ok contacts_file ∧ NoDup contacts ∧
        (∀ c, c ∈ contacts ↔ ∃ section, contacts_file !! Contact_Name c = Some section ∧
           section !! "email"%string = Some (Contact_Address c)) ∧
        length rounds = length answers ∧
        ∀ k resp, answers !! k = Some resp → ∃ new mails, announced (reported_before answers k) (reported resp) new ∧
          rounds !! k = Some (mjoin mails) ∧ Forall2 (mails_for SendMail contacts (relay config) (apiHost config)) new mails
  end.
Proof.
  intros Horder. unfold main, mbind, gom_bind. pose proof (start_ends ReadFile LoadFile map_order args) as Hends. unfold wp in Hends.
  destruct (start ReadFile LoadFile map_order args tt) as [[] [r|v|]] eqn:Hstart; [|by exists (Panicked v)|done].
  apply start_inv in Hstart. destruct r as [s|]; (eexists; split; [reflexivity|]); [right|by left].
  destruct Hstart as (program & path & contacts & -> & Hc & Hp & -> & _).
  apply ParseConfig_fields in Hc as (file & Hfile & Hc).
  destruct (LoadFile (contactsFile (config s))) as [contacts_file|e] eqn:Hcontacts; [|done].
  destruct (run_loop_announces SendMail [mkEmailNotifier contacts (relay (config s)) (apiHost (config s))] answers ∅ []) as [Hlen Hall].
  { intros id. rewrite lookup_empty. split; [by intros []|by intros ?%elem_of_nil]. }
  exists program, path, file, (config s), contacts_file, contacts. split_and!; [done..| | |done|].
  - by eapply Parse_contacts_once.
  - by eapply Parse_contacts.
  - intros k resp Hk. destruct (Hall k resp Hk) as (new & Hnew & ->). eexists new, _. split_and!; [by destruct k|reflexivity|].
    apply Forall2_fmap_r, Forall_Forall2_diag, Forall_true. intros p. simpl. rewrite app_nil_r.
    apply (SendProblem_mails SendMail (mkEmailNotifier _ _ _)).
Qed.

(** The client shows the API exactly the certificates that are configured, and trusts
    exactly the configured CA. *)
Theorem transport_certificates `{X509} ReadFile config t : transport ReadFile config tt = (tt, Returned t) →
  (masterCA config = EmptyString → apiCert config = EmptyString → t = None) ∧
  (masterCA config ≠ EmptyString → ∃ content block cert t', ReadFile (masterCA config) = Ok content ∧ Decode content = Some block ∧
     ParseCertificate block = Ok cert ∧ t = Some t' ∧ RootCAs t' = Some (AddCert cert)) ∧
  (apiCert config ≠ EmptyString → ∃ own t', LoadX509KeyPair (apiCert config) (apiKey config) = Ok own ∧ t = Some t' ∧ Certificates t' = [own]).
Proof.
  unfold transport, loadCertificateFromFile, mbind, gom_bind. destruct (decide (masterCA config = EmptyString)) as [Hca|Hca].
  - simpl. destruct (decide (apiCert config = EmptyString)) as [Hcert|Hcert]; [intros [= <-]; by split_and!|].
    destruct (LoadX509KeyPair _ _) as [own|e]; [|done]. intros [= <-]. split_and!; [done..|]. intros _. by eexists own, _.
  - destruct (ReadFile (masterCA config)) as [content|e] eqn:Hread; [|done]. destruct (Decode content) as [block|] eqn:Hdec; [|done]. simpl.
    destruct (ParseCertificate block) as [cert|e] eqn:Hparse; [|done]. simpl.
    destruct (decide (apiCert config = EmptyString)) as [Hcert|Hcert].
    + intros [= <-]. split_and!; [done| |done]. intros _. by eexists content, block, cert, _.
    + destruct (LoadX509KeyPair _ _) as [own|e]; [|done]. intros [= <-]. split_and!; [done| |].
      * intros _. by eexists content, block, cert, _.
      * intros _. by eexists own, _.
Qed.

(** ** A run *)

Definition example_config : gmap string (gmap string string) :=
  {["notifier" := {["api_host" := "https://mamid"; "contacts" := "contacts.ini"; "master_ca" := "ca.pem"]};
    "smtp" := {["mail_from" := "mamid@x"; "relay_host" := "localhost:25"]}]}%string.
Definition example_contacts : gmap string (gmap string string) := {["admin" := {["email" := "admin@x"]}]}%string.
Definition example_files (path : string) : gres (gmap string (gmap string string)) :=
  if decide (path = "contacts.ini"%string) then Ok example_contacts else Ok example_config.
(** The API is unreachable in the third round. *)
Definition example_answers : list answer :=
  [Ok (200, Ok [example_problem 1]); Ok (200, Ok [example_problem 1; example_problem 2]); Err (TextError "timeout");
   Ok (200, Ok [example_problem 2])].
Definition example_run : GoM unit (list (list mail)) :=
  main (H := ref_x509) example_ReadFile example_files (λ _ l, l) (λ _, None) ["notifier"; "config.ini"]%string example_answers.

Example example_run_mails :
  match example_run tt with (_, Returned rounds) => fmap (M := list) length rounds | _ => [] end = [1; 1; 0; 1]%nat.
Proof. vm_compute. reflexivity. Qed.

Lemma main_announces_witness : ∃ rounds,
  example_run tt = (tt, Returned rounds) ∧
  ∃ new mails relay host, announced [example_problem 1] [example_problem 1; example_problem 2] new ∧ length new = 1%nat ∧
    rounds !! 1%nat = Some (mjoin mails) ∧ Forall2 (mails_for (λ _, None) [mkEmailContact "admin" "admin@x"] relay host) new mails.
Proof.
  destruct (main_announces (H := ref_x509) example_ReadFile example_files (λ _ l, l) (λ _, None) ["notifier"; "config.ini"]%string
    example_answers ltac:(done)) as (r & Hrun & Hr). change (example_run tt = (tt, r)) in Hrun.
  destruct r as [rounds|v|]; [|vm_compute in Hrun; discriminate..].
  exists rounds. split; [done|].
  destruct Hr as [[Hargs _]|(program & path & file & config & cf & contacts & Hargs & Hfile & Hconf & Hcf & Hnd & Hcontacts & _ & Hall)]; [done|].
  destruct (Hall 1%nat (Ok (200, Ok [example_problem 1; example_problem 2])) eq_refl) as (new & mails & Hnew & Hround & Hmails).
  injection Hargs as <- <-. injection Hfile as <-. pose proof (config_contacts _ _ Hconf) as Hcfile.
  change (Some "contacts.ini"%string = Some (contactsFile config)) in Hcfile. injection Hcfile as Hcfile. rewrite <- Hcfile in Hcf.
  injection Hcf as <-.
  assert (contacts = [mkEmailContact "admin" "admin@x"]) as ->.
  { apply Permutation_singleton_r. symmetry. apply NoDup_Permutation; [apply NoDup_singleton|done|]. intros [name address].
    rewrite Hcontacts, list_elem_of_singleton. unfold example_contacts. simpl. split.
    - intros [= -> ->]. by eexists.
    - intros (section & (<- & <-)%lookup_singleton_Some & (_ & <-)%lookup_singleton_Some). done. }
  exists new, mails, (relay config), (apiHost config). split; [exact Hnew|]. split; [|by split].
  assert (∀ id, id ∈ Id <$> new ↔ id = 2) as Hids.
  { intros id. rewrite (announced_ids _ _ _ Hnew). simpl. rewrite !elem_of_cons, elem_of_nil. lia. }
  assert (Id <$> new ≡ₚ [2]) as Hperm.
  { apply NoDup_Permutation; [apply Hnew|apply NoDup_singleton|]. intros id. by rewrite Hids, list_elem_of_singleton. }
  apply Permutation_length in Hperm. by rewrite length_fmap in Hperm.
Defined.

Lemma transport_certificates_witness :
  let config := mkConfig (mkSMTPRelay "localhost:25" "mamid@x") "https://mamid" "contacts.ini" "ca.pem" "" "" in
  ∃ t, transport (H := ref_x509) example_ReadFile config tt = (tt, Returned t) ∧
    ∃ content block cert t', example_ReadFile "ca.pem" = Ok content ∧ Decode (X509 := ref_x509) content = Some block ∧
      ParseCertificate (X509 := ref_x509) block = Ok cert ∧ t = Some t' ∧ RootCAs (H := ref_x509) t' = Some (AddCert (X509 := ref_x509) cert).
Proof.
  intros config. eexists. split; [reflexivity|].
  apply (proj1 (proj2 (transport_certificates (H := ref_x509) example_ReadFile config _ eq_refl))). discriminate.
Defined.
End controller.
