(* ===== verification/Schema.v ===== *)
(** * The schema of the database

    The parts of [model/db.go] that open a database: [migrate], which creates the
    tables once, and [InitializeDB].  Which statement fails is a parameter. *)

From stdpp Require Import base gmap sets list strings fin_maps.
From Stdlib Require Import Lia.
From S2P Require Import Prelude Msp Model.

Open Scope Z_scope.
Set Warnings "-clear-no-such-hyp".

(** ** A database, as [migrate] sees it *)

(** Whether the tables exist, the rows of [mamid_metadata], and the number of
    statements so far. *)
Record schema := mkSchema {
  tables : bool;
  metadata_rows : gmap string string;
  statements : nat
}.

Definition empty_schema : schema := mkSchema false ∅ 0.
Definition next_statement (s : schema) : schema := mkSchema (tables s) (metadata_rows s) (S (statements s)).

(** What [migrate] leaves alone: all but the number of statements. *)
Definition same_schema (s s' : schema) : Prop := tables s' = tables s ∧ metadata_rows s' = metadata_rows s.

Section migrate.
(** Which statement fails, and the files compiled into the program. *)
Context (fault : nat → option gerror) (Asset : string → gres string).

(** [db.HasTable(&MamidMetadata{})]: gorm counts the tables of that name, and a failed
    query counts none. *)
Definition HasTable : GoM schema bool := λ s,
  (next_statement s, Returned match fault (statements s) with Some _ => false | None => tables s end).

(** [db.Exec(ddl)]: the file is one transaction; tables that exist already are an
    error. *)
Definition ExecDDL (ddlStatements : string) : GoM schema (option gerror) := λ s,
  match fault (statements s) with
  | Some e => (next_statement s, Returned (Some e))
  | None =>
      if tables s then (next_statement s, Returned (Some (PqError "42" "relation already exists")))
      else (mkSchema true ∅ (S (statements s)), Returned None)
  end.

(** [gormDB.Find(&metadata, MamidMetadata{Key: key})] *)
Definition FindMetadata (key : string) : GoM schema (gres MamidMetadata) := λ s,
  (next_statement s, Returned
    match fault (statements s) with
    | Some e => Err e
    | None => match metadata_rows s !! key with Some value => Ok (mkMamidMetadata key value) | None => Err ErrRecordNotFound end
    end).

(** [gormDB.Save(&metadata)]: the struct has no field that gorm takes for the primary
    key, so the row is inserted. *)
Definition SaveMetadata (m : MamidMetadata) : GoM schema (option gerror) := λ s,
  match fault (statements s) with
  | Some e => (next_statement s, Returned (Some e))
  | None =>
      match metadata_rows s !! Metadata_Key m with
      | Some _ => (next_statement s, Returned (Some (PqError "23" "duplicate key value")))
      | None => (mkSchema (tables s) (<[Metadata_Key m := Metadata_Value m]> (metadata_rows s)) (S (statements s)), Returned None)
      end
  end.

(** [func (dbWrapper *DB) metadata(key string) (value string, err error)]: the error
    returned for a failing query is the named result [err], still [nil]. *)
Definition metadata (key : string) : GoM schema (string * option gerror) :=
  res ← FindMetadata key;
  match res with
  | Err ErrRecordNotFound => mret (EmptyString, None)
  | Err _ => mret (EmptyString, None)
  | Ok m => mret (Metadata_Value m, None)
  end.

Definition setMetadata (key value : string) : GoM schema (option gerror) := SaveMetadata (mkMamidMetadata key value).

Definition schemaVersion : GoM schema (string * option gerror) := metadata "schema_version".

Definition already_populated : gerror :=
  TextError "the database has already been populated, migrations are not supported".

(** [func (dbWrapper *DB) migrate() (err error)] *)
Definition migrate : GoM schema (option gerror) :=
  has ← HasTable;
  if has : bool then
    version ← schemaVersion;
    match version with
    | (_, Some err) => mret (Some (TextError ("error determining schema version: " +:+ error_text err)))
    | (version, None) => if decide (version = SCHEMA_VERSION) then mret None else mret (Some already_populated)
    end
  else
    match Asset "model/sql/mamid_postgresql.sql" with
    | Err err => mret (Some (TextError ("sql DDL data not found: " +:+ error_text err)))
    | Ok ddlStatements =>
        err ← ExecDDL ddlStatements;
        match err with
        | Some err => mret (Some (TextError ("error running DDL statements: " +:+ error_text err)))
        | None =>
            err ← setMetadata "schema_version" SCHEMA_VERSION;
            match err with
            | Some err => mret (Some (TextError ("error setting schema version: " +:+ error_text err)))
            | None => mret None
            end
        end
    end.

(** [func InitializeDB(driver, dsn string) ( *DB, error)]; [Open] is [gorm.Open]. *)
Definition InitializeDB (Open : option gerror) : GoM schema (option gerror) :=
  match Open with
  | Some err => mret (Some err)
  | None =>
      err ← migrate;
      match err with
      | Some err => mret (Some (TextError ("could not migrate database: " +:+ error_text err)))
      | None => mret None
      end
  end.
End migrate.

(** ** What [migrate] does *)

(** A database MAMID can use. *)
Definition up_to_date (s : schema) : Prop := tables s = true ∧ metadata_rows s !! "schema_version"%string = Some SCHEMA_VERSION.
(** The tables were created, and the version was not recorded. *)
Definition half_created (s : schema) : Prop := tables s = true ∧ metadata_rows s = ∅.
(** There are metadata only where there are tables. *)
Definition schema_ok (s : schema) : Prop := tables s = false → metadata_rows s = ∅.

Inductive migrated (s : schema) : option gerror → schema → Prop :=
  | migrated_before s' : same_schema s s' → up_to_date s → migrated s None s'
  | migrated_now s' : tables s = false → tables s' = true → metadata_rows s' = {["schema_version"%string := SCHEMA_VERSION]} →
      migrated s None s'
  | migrated_refused e s' : same_schema s s' → migrated s (Some e) s'
  | migrated_half e s' : tables s = false → half_created s' → migrated s (Some e) s'.

Lemma migrate_spec fault Asset s : schema_ok s → wp (migrate fault Asset) (migrated s) (λ _ _, False) s.
Proof.
  intros Hok. unfold migrate. wp_step. unfold HasTable, wp at 1.
  set (has := match fault (statements s) with Some _ => false | None => tables s end).
  assert (has = true → tables s = true) as Hhas by (unfold has; by destruct (fault _)). destruct has.
  - wp_step. unfold schemaVersion, metadata. wp_step. unfold FindMetadata, wp at 1. simpl.
    destruct (fault _) as [g|]; [destruct g; wp_steps; cbv beta iota; rewrite decide_False by done; apply wp_ret; by apply migrated_refused|].
    destruct (metadata_rows s !! "schema_version"%string) as [v|] eqn:Hv; wp_steps; cbv beta iota; cbn [Metadata_Value].
    + destruct (decide (v = SCHEMA_VERSION)) as [->|]; apply wp_ret; [|by apply migrated_refused].
      apply migrated_before; [done|split; [by apply Hhas|done]].
    + wp_steps. cbv beta iota. rewrite decide_False by done. apply wp_ret. by apply migrated_refused.
  - destruct (Asset _) as [ddl|e]; [|apply wp_ret; by apply migrated_refused].
    wp_step. unfold ExecDDL, wp at 1. simpl. destruct (fault _); [apply wp_ret; by apply migrated_refused|].
    destruct (tables s) eqn:Ht; [apply wp_ret; apply migrated_refused; by split|].
    wp_step. unfold setMetadata, SaveMetadata, wp at 1. simpl. destruct (fault _).
    + apply wp_ret, migrated_half; [done|by split].
    + rewrite lookup_empty. simpl. apply wp_ret, migrated_now; [done|done|]. simpl. apply insert_empty.
Qed.

Lemma migrated_up_to_date s s' : migrated s None s' → up_to_date s'.
Proof.
  intros Hm. inversion Hm as [? [Et Er] [? ?]|? _ Et Er| |]; subst; split; try congruence. rewrite Er. apply lookup_singleton_eq.
Qed.

Lemma InitializeDB_spec fault Asset Open s : schema_ok s →
  wp (InitializeDB fault Asset Open) (λ r s', r = None → up_to_date s') (λ _ _, False) s.
Proof.
  intros Hok. unfold InitializeDB. destruct Open; [by apply wp_ret|]. wp_step.
  eapply wp_mono; [by apply migrate_spec| |done]. intros [err|] s' Hm; apply wp_ret; [done|]. intros _. by eapply migrated_up_to_date.
Qed.

Lemma migrate_up_to_date fault Asset s : up_to_date s → (∀ n, fault n = None) → ∃ s', migrate fault Asset s = (s', Returned None).
Proof.
  intros [Ht Hv] Hno. eexists. unfold migrate, HasTable, schemaVersion, metadata, FindMetadata, mbind, gom_bind, mret, gom_ret.
  cbv beta zeta iota. rewrite !Hno, Ht. cbv beta iota. cbn [next_statement metadata_rows statements tables]. rewrite Hv. cbv beta iota.
  cbn [Metadata_Value]. rewrite !Hno. cbv beta iota. by destruct (decide (SCHEMA_VERSION = SCHEMA_VERSION)).
Qed.

(** C39: Opening a database is idempotent: started on one without metadata where there are no
    tables, [migrate] always ends; it finds the schema as it
    should be and changes nothing, or creates it in an empty database and records the
    version, or refuses and changes nothing, or fails between the two statements. After
    a success every later start leaves the schema alone and, if no statement fails,
    succeeds; after the failure in between, every later start is refused, for ever. *)
Theorem migrate_once fault Asset s : schema_ok s →
  ∃ r s', migrate fault Asset s = (s', Returned r) ∧ migrated s r s' ∧
    ∀ later, ∃ r' s'', migrate later Asset s' = (s'', Returned r') ∧
      (r = None → same_schema s' s'' ∧ ((∀ n, later n = None) → r' = None)) ∧
      (half_created s' → same_schema s' s'' ∧ is_Some r').
Proof.
  intros Hok. destruct (wp_returns _ _ _ (migrate_spec fault Asset s Hok)) as (r & s' & Hrun & Hm).
  exists r, s'. split; [done|]. split; [done|]. intros later.
  assert (schema_ok s') as Hok'.
  { unfold schema_ok in *. destruct Hm as [? [-> ->]|? _ ->|? ? [-> ->]|? ? _ [-> ->]]; done. }
  destruct (wp_returns _ _ _ (migrate_spec later Asset s' Hok')) as (r' & s'' & Hrun' & Hm'). exists r', s''. split; [done|]. split.
  - intros ->. pose proof (migrated_up_to_date _ _ Hm) as Hup.
    split.
    + destruct Hup as [Ht _]. destruct Hm'; try done; congruence.
    + intros Hno. destruct (migrate_up_to_date later Asset s' Hup Hno) as [s3 Hrun3]. congruence.
  - intros [Ht He]. destruct Hm' as [? ? [_ Hv]|? Hf|e ? ?|? ? Hf]; [|congruence|by split|congruence].
    by rewrite He, lookup_empty in Hv.
Qed.

Lemma migrate_once_witness :
  ∃ r s', migrate (λ n, if decide (n = 2%nat) then Some (TextError "timeout") else None) (λ _, Ok "CREATE TABLE"%string) empty_schema =
      (s', Returned r) ∧ half_created s' ∧
    ∀ later, ∃ r' s'', migrate later (λ _, Ok "CREATE TABLE"%string) s' = (s'', Returned r') ∧ is_Some r'.
Proof.
  destruct (migrate_once (λ n, if decide (n = 2%nat) then Some (TextError "timeout") else None) (λ _, Ok "CREATE TABLE"%string) empty_schema)
    as (r & s' & Hrun & _ & Hlater); [done|].
  exists r, s'. split; [exact Hrun|].
  assert (half_created s') as Hhalf by (vm_compute in Hrun; injection Hrun as <- _; by split).
  split; [exact Hhalf|]. intros later. destruct (Hlater later) as (r' & s'' & Hrun' & _ & Hh). exists r', s''.
  split; [exact Hrun'|apply (Hh Hhalf)].
Defined.
