(* ===== verification/TestDatabases.v ===== *)
(** * The databases of the tests

    [InitializeTestDB] and [InitializeTestDBFromFile] of [model/db.go] create a database
    under a random name, and [CloseAndDrop] drops it.  A database server is a set of named databases;
    what a line of a dump does is a parameter, and so is which statement fails. *)

From Stdlib Require Import Ascii String.
From stdpp Require Import base gmap sets list strings fin_maps.
From Stdlib Require Import Lia.
From S2P Require Import Prelude Msp Model Schema Strconv.

Open Scope Z_scope.
Set Warnings "-clear-no-such-hyp".

(** A database server, and the connections [DB] holds. *)
Record server := mkServer { databases : gmap string schema; server_statements : nat }.

Record DB := mkDB { dbName : option string; connDSN : option string }.

Section test_databases.
Context (fault : nat → option gerror) (Asset : string → gres string).
(** [rand.Intn(n)] at the [i]th call. *)
Context (Intn : nat → Z → Z).

Definition chars : string := "abcdefghijklmnopqrstuvwxyz0123456789".

(** The byte at an index of a string. *)
Definition char_at (s : string) (i : Z) : option Ascii.ascii :=
  if decide (0 ≤ i) then String.get (Z.to_nat i) s else None.

(** [func randomDBName(prefix string, strlen int) string] *)
Fixpoint random_chars (i strlen : nat) : option string :=
  match strlen with
  | O => Some EmptyString
  | S strlen =>
      c ← char_at chars (Intn i (Z.of_nat (String.length chars)));
      rest ← random_chars (S i) strlen;
      Some (String c rest)
  end.
Definition randomDBName (prefix : string) (strlen : nat) : GoM server string :=
  match random_chars 0 strlen with
  | Some result => mret (prefix +:+ result)
  | None => panic (VString "index out of range")
  end.

(** A statement outside a database: [CREATE DATABASE name], [DROP DATABASE name]. *)
Definition exec_server (run : gmap string schema → gres (gmap string schema)) : GoM server (option gerror) := λ s,
  let next := S (server_statements s) in
  match fault (server_statements s) with
  | Some e => (mkServer (databases s) next, Returned (Some e))
  | None =>
      match run (databases s) with
      | Err e => (mkServer (databases s) next, Returned (Some e))
      | Ok dbs => (mkServer dbs next, Returned None)
      end
  end.
Definition create_database (name : string) : GoM server (option gerror) :=
  exec_server (λ dbs, match dbs !! name with
                      | Some _ => Err (PqError "42" "database already exists")
                      | None => Ok (<[name := empty_schema]> dbs)
                      end).
Definition drop_database (name : string) : GoM server (option gerror) :=
  exec_server (λ dbs, match dbs !! name with
                      | Some _ => Ok (delete name dbs)
                      | None => Err (PqError "3D" "database does not exist")
                      end).

(** The statements of [f] on the database [name]. *)
Definition in_database {A} (name : string) (f : GoM schema A) : GoM server A :=
  in_part (λ s, default empty_schema (databases s !! name)) (λ d s, mkServer (<[name := d]> (databases s)) (server_statements s)) f.

(** [Fatalf] and [Panic] of the logger end the program. *)
Definition fatal {S A} (text : string) : GoM S A := panic (VString text).

(** [func InitializeTestDB() (db *DB, dsn string, err error)]; [Getenv] is the value of
    [MAMID_TESTDB_DSN], [connect] and [open] are the errors of [sql.Open] and
    [gorm.Open]. *)
Definition InitializeTestDB (Getenv : string) (connect open : option gerror) : GoM server (option DB * string * option gerror) :=
  let connDSN := Getenv in
  if decide (connDSN = EmptyString) then fatal "MAMID_TESTDB_DSN environment variable is not set"
  else
    match connect with
    | Some err => fatal ("cannot connect to test database: " +:+ error_text err)
    | None =>
      dbName ← randomDBName "mamid_testing_" 20;
      err ← create_database dbName;
      match err with
      | Some err => fatal ("cannot create test database `" +:+ dbName +:+ "`: " +:+ error_text err)
      | None =>
        let dsn := connDSN +:+ " dbname=" +:+ dbName in
        match open with
        | Some err => fatal ("cannot open just created test database `" +:+ dsn +:+ "`: " +:+ error_text err)
        | None =>
          err ← in_database dbName (migrate fault Asset);
          match err with
          | Some err => mret (None, dsn, Some (TextError ("could not migrate database: " +:+ error_text err)))
          | None => mret (Some (mkDB (Some dbName) (Some connDSN)), dsn, None)
          end
        end
      end
    end.

(** [bufio.ScanLines]: an empty last line is none, and a carriage return at the end of a
    line is dropped. *)
Fixpoint lines_of (l : list string) : list string :=
  match l with
  | [] => []
  | [s] => if decide (s = EmptyString) then [] else [s]
  | s :: l => s :: lines_of l
  end.
Definition dropCR (s : string) : string :=
  if decide (String.get (String.length s - 1) s = Some "013"%char) then slice_to (String.length s - 1) s else s.
(** [bufio.MaxScanTokenSize]: the buffer must also hold the end of the line. *)
Definition MaxScanTokenSize : nat := 64 * 1024.
(** The lines for which [Scan] is true: at the first that does not fit it is false. *)
Fixpoint scannable (l : list string) : list string :=
  match l with
  | [] => []
  | s :: l => if decide (String.length s < MaxScanTokenSize)%nat then dropCR s :: scannable l else []
  end.
Definition scan (text : string) : list string := scannable (lines_of (Split "010"%char text)).

(** [nativeDb.Exec("DELETE FROM mamid_metadata")], outside the transaction. *)
Definition delete_metadata : GoM schema (option gerror) := λ s,
  match fault (statements s) with
  | Some e => (next_statement s, Returned (Some e))
  | None =>
      if tables s then (mkSchema true ∅ (S (statements s)), Returned None)
      else (next_statement s, Returned (Some (PqError "42" "relation does not exist")))
  end.

(** The lines of a dump, in order, up to the first that fails: [tx.Exec(scann.Text())]. *)
Fixpoint exec_lines (Exec : string → schema → gres schema) (lines : list string) : GoM schema (option gerror) :=
  match lines with
  | [] => mret None
  | line :: lines =>
      s ← get_state;
      match fault (statements s) with
      | Some e => _ ← modify_state next_statement; mret (Some e)
      | None =>
          match Exec line s with
          | Err e => _ ← modify_state next_statement; mret (Some e)
          | Ok s' => _ ← modify_state (λ s, mkSchema (tables s') (metadata_rows s') (S (statements s))); exec_lines Exec lines
          end
      end
  end.

(** [func InitializeTestDBFromFile(file string) (db *DB, dsn string, err error)]:
    [ReadFile] is what [os.Open] and the scanner read, [connect2] and [begin2] the errors of the
    second [sql.Open] and of [Begin], [commit] that of [Commit].  The transaction works
    on a copy; the deferred [Close] of the nil connection panics. *)
Definition InitializeTestDBFromFile (ReadFile : string → gres string) (Exec : string → schema → gres schema)
    (file Getenv : string) (connect open connect2 begin2 commit : option gerror) : GoM server (option DB * string * option gerror) :=
  opened ← InitializeTestDB Getenv connect open;
  match opened with
  | (Some db, dsn, None) =>
    match dbName db with
    | None => mret opened
    | Some name =>
      match ReadFile file with
      | Err e => mret (Some db, dsn, Some e)
      | Ok text =>
        match connect2, begin2 with
        | Some _, _ => panic (VString "invalid memory address or nil pointer dereference")
        | None, Some err => mret (Some db, dsn, Some err)
        | None, None =>
          err ← in_database name delete_metadata;
          match err with
          | Some err => mret (None, EmptyString, Some err)
          | None =>
            cleared ← get_state;
            err ← in_database name (exec_lines Exec (scan text));
            match err, commit with
            | None, None => mret (Some db, dsn, None)
            | Some err, _ => _ ← modify_state (λ s, mkServer (databases cleared) (server_statements s)); mret (None, EmptyString, Some err)
            | None, Some err => _ ← modify_state (λ s, mkServer (databases cleared) (server_statements s)); mret (Some db, dsn, Some err)
            end
          end
        end
      end
    end
  | _ => mret opened
  end.

(** [func (db *DB) CloseAndDrop()]; [close] and [connect] are the errors of [Close] and
    [sql.Open]. *)
Definition CloseAndDrop (db : DB) (close connect : option gerror) : GoM server unit :=
  match dbName db, connDSN db with
  | Some name, Some _ =>
      match close with
      | Some err => fatal ("could not close connection with database open: " +:+ error_text err)
      | None =>
        match connect with
        | Some err => fatal ("cannot connect to test database: " +:+ error_text err)
        | None =>
          err ← drop_database name;
          match err with
          | Some err => fatal ("could not drop database `" +:+ name +:+ "`: " +:+ error_text err)
          | None => mret tt
          end
        end
      end
  | _, _ => fatal "model.DB object not initialized for dropping database"
  end.
End test_databases.

(** ** Names and databases *)

Lemma char_at_elem s i : 0 ≤ i < Z.of_nat (String.length s) → ∃ c, char_at s i = Some c ∧ c ∈ list_ascii_of_string s.
Proof.
  intros [Hi Hlt]. unfold char_at. rewrite decide_True by done.
  assert (Z.to_nat i < String.length s)%nat as Hn by lia. clear Hi Hlt. revert Hn. generalize (Z.to_nat i). clear i.
  induction s as [|c s IH]; simpl; intros n Hn; [lia|]. destruct n as [|n]; [exists c; split; [done|by left]|].
  destruct (IH n ltac:(lia)) as (c' & Hc & Hin). exists c'. split; [done|by right].
Qed.

Lemma random_chars_ok Intn i n : (∀ j m, 0 < m → 0 ≤ Intn j m < m) →
  ∃ s, random_chars Intn i n = Some s ∧ String.length s = n ∧ ∀ c, c ∈ list_ascii_of_string s → c ∈ list_ascii_of_string chars.
Proof.
  intros HIntn. revert i. induction n as [|n IH]; intros i; [exists EmptyString; by split; [|split; [|intros c ?%elem_of_nil]]|].
  destruct (IH (S i)) as (s & Hs & Hl & Hin). cbn [random_chars].
  destruct (char_at_elem chars (Intn i (Z.of_nat (String.length chars)))) as (c & -> & Hc); [by apply HIntn|].
  simpl. rewrite Hs. exists (String c s). split; [done|]. split; [simpl; by rewrite Hl|].
  intros c' [->|Hc']%elem_of_cons; [done|by apply Hin].
Qed.

(** A test database as [InitializeTestDB] leaves it. *)
Definition test_database (dbs : gmap string schema) (name : string) (dbs' : gmap string schema) : Prop :=
  dbs !! name = None ∧ (∃ d, up_to_date d ∧ dbs' = <[name := d]> dbs) ∧
  ∃ suffix, name = "mamid_testing_" +:+ suffix ∧ String.length suffix = 20%nat ∧
    ∀ c, c ∈ list_ascii_of_string suffix → c ∈ list_ascii_of_string chars.

(** [InitializeTestDB] gives an error and no database, or a connection to a new database
    of its own with the schema in it, next to those there were; else the program ends. *)
Lemma InitializeTestDB_spec fault Asset Intn Getenv connect open s : (∀ j m, 0 < m → 0 ≤ Intn j m < m) →
  wp (InitializeTestDB fault Asset Intn Getenv connect open) (λ r s', match r with
    | (Some db, dsn, None) => Getenv ≠ EmptyString ∧ ∃ name, db = mkDB (Some name) (Some Getenv) ∧
        dsn = Getenv +:+ " dbname=" +:+ name ∧ test_database (databases s) name (databases s')
    | (db, _, err) => db = None ∧ is_Some err
    end) (λ _ _, True) s.
Proof.
  intros HIntn. unfold InitializeTestDB. cbv zeta. destruct (decide (Getenv = EmptyString)); [by apply wp_panic|].
  destruct connect; [by apply wp_panic|]. wp_step. unfold randomDBName.
  destruct (random_chars_ok Intn 0 20 HIntn) as (suffix & -> & Hlen & Hchars). apply wp_ret.
  wp_step. unfold create_database, exec_server, wp at 1.
  destruct (fault _); [by apply wp_panic|]. destruct (databases s !! _) eqn:Hfresh; [by apply wp_panic|].
  destruct open; [by apply wp_panic|]. wp_step. apply wp_in_part. eapply wp_mono; [apply migrate_spec| |done].
  { cbn [databases]. rewrite lookup_insert_eq. by intros _. }
  cbn [databases]. rewrite lookup_insert_eq. intros err d Hm. destruct err as [err|]; apply wp_ret; [by split|].
  split; [done|]. eexists. split; [done|]. split; [done|]. cbn [databases server_statements]. rewrite insert_insert_eq.
  split; [done|]. split; [|by exists suffix]. exists d. split; [|done]. by eapply migrated_up_to_date.
Qed.

(** A test leaves nothing behind: after [InitializeTestDB], whatever the test did to its
    own database, [CloseAndDrop] brings the server back to the databases it had, if none
    of its steps fails. *)
Theorem test_database_dropped fault Asset Intn Getenv connect open s db dsn s' d later :
  (∀ j m, 0 < m → 0 ≤ Intn j m < m) →
  InitializeTestDB fault Asset Intn Getenv connect open s = (s', Returned (Some db, dsn, None)) →
  dbName db = Some later → fault (server_statements s') = None →
  ∃ s'', CloseAndDrop fault db None None (mkServer (<[later := d]> (databases s')) (server_statements s')) = (s'', Returned tt) ∧
    databases s'' = databases s.
Proof.
  intros HIntn Hrun Hname Hno. pose proof (InitializeTestDB_spec fault Asset Intn Getenv connect open s HIntn) as Hwp.
  unfold wp in Hwp. rewrite Hrun in Hwp. destruct Hwp as (_ & name & -> & _ & Hfresh & (d0 & _ & Hdbs) & _).
  injection Hname as <-. unfold CloseAndDrop, drop_database, exec_server, mbind, gom_bind. cbn [dbName connDSN databases server_statements].
  rewrite Hno, lookup_insert_eq. eexists. split; [reflexivity|]. cbn [databases]. by rewrite Hdbs, !delete_insert_eq, delete_id.
Qed.

Lemma test_database_dropped_witness :
  let fault := λ _ : nat, @None gerror in
  ∃ s' db dsn later s'',
    InitializeTestDB fault (λ _, Ok "CREATE TABLE"%string) (λ _ _, 0) "host=postgres" None None (mkServer ∅ 0) =
      (s', Returned (Some db, dsn, None)) ∧ dbName db = Some later ∧ databases s' ≠ ∅ ∧
    CloseAndDrop fault db None None (mkServer (<[later := empty_schema]> (databases s')) (server_statements s')) = (s'', Returned tt) ∧
    databases s'' = ∅.
Proof.
  intros fault.
  assert (∃ s' db dsn later, InitializeTestDB fault (λ _, Ok "CREATE TABLE"%string) (λ _ _, 0) "host=postgres" None None (mkServer ∅ 0) =
    (s', Returned (Some db, dsn, None)) ∧ dbName db = Some later ∧ databases s' ≠ ∅) as (s' & db & dsn & later & Hrun & Hname & Hne).
  { eexists _, _, _, _. split; [vm_compute; reflexivity|]. split; [reflexivity|discriminate]. }
  destruct (test_database_dropped fault (λ _, Ok "CREATE TABLE"%string) (λ _ _, 0) "host=postgres" None None (mkServer ∅ 0)
    db dsn s' empty_schema later ltac:(lia) Hrun Hname eq_refl) as (s'' & Hdrop & Hdbs).
  exists s', db, dsn, later, s''. by repeat split.
Defined.
