(* ===== verification/ProcessManager.v ===== *)
(** * The slave's process manager

    [slave/processmanager.go], [slave/procmgr_fs.go] and
    [slave/procmgr_cmdline.go]: the directory tree of a slave, the keyfile, the
    command line of a mongod and the table of running processes.  The file system
    is part of the state; which system call fails is decided by the parameter
    [OS]. *)

From Stdlib Require Import Ascii.
From stdpp Require Import base gmap sets list strings fin_maps sorting.
From Stdlib Require Import Lia.
From S2P Require Import Prelude Msp Strconv.

Open Scope Z_scope.
Set Warnings "-clear-no-such-hyp".

(** ** Paths *)

(** A cleaned absolute path, by components. *)
Abbreviation path := (list string) (only parsing).

(** [filepath.Clean] on the components of a rooted path. *)
Fixpoint Clean (acc : path) (components : list string) : path :=
  match components with
  | [] => acc
  | c :: components =>
      if decide (c = EmptyString ∨ c = "."%string) then Clean acc components
      else if decide (c = ".."%string) then Clean (removelast acc) components
      else Clean (acc ++ [c]) components
  end.

(** [filepath.Join(dir, elem)] *)
Definition Join (dir : path) (elem : string) : path := Clean dir (Split "/" elem).

(** ** State *)

(** Outcome of the [n]th system call; the pipe for the output of [mongod --version]
    cannot be made; running it fails to start, or prints a first line (if any) and
    ends; [semver_check] is package semver:
    whether a constraint holds of a version, or that one does not parse. *)
Class OS := {
  os_fault : nat → option gerror;
  mongod_pipe : nat → option gerror;
  mongod_version : nat → gres (option string * option gerror);
  semver_check : string → string → gres bool
}.

(** [signalled] records the ports whose processes got [SIGKILL]. *)
Record ProcessManager := mkProcessManager {
  dataDir : path;
  dirs : gset path;
  files : gmap path string;
  syscalls : nat;
  runningProcesses : gset Z;
  killChan : list Z;
  spawned : list (Z * list string);
  signalled : list Z
}.

Definition set_dirs v p := mkProcessManager (dataDir p) v (files p) (syscalls p) (runningProcesses p) (killChan p) (spawned p) (signalled p).
Definition set_files v p := mkProcessManager (dataDir p) (dirs p) v (syscalls p) (runningProcesses p) (killChan p) (spawned p) (signalled p).
Definition set_running v p := mkProcessManager (dataDir p) (dirs p) (files p) (syscalls p) v (killChan p) (spawned p) (signalled p).
Definition set_killChan v p := mkProcessManager (dataDir p) (dirs p) (files p) (syscalls p) (runningProcesses p) v (spawned p) (signalled p).
Definition set_spawned v p := mkProcessManager (dataDir p) (dirs p) (files p) (syscalls p) (runningProcesses p) (killChan p) v (signalled p).
Definition set_signalled v p := mkProcessManager (dataDir p) (dirs p) (files p) (syscalls p) (runningProcesses p) (killChan p) (spawned p) v.
Definition os_tick p := mkProcessManager (dataDir p) (dirs p) (files p) (S (syscalls p)) (runningProcesses p) (killChan p) (spawned p) (signalled p).

(** [func NewProcessManager(command string, dataDir string)], over a file system. *)
Definition NewProcessManager (dataDir : path) (dirs : gset path) (files : gmap path string) : ProcessManager :=
  mkProcessManager dataDir dirs files 0 ∅ [] [] [].

(** [func (p *ProcessManager) RunningProcesses() []msp.PortNumber] *)
Definition RunningProcesses (p : ProcessManager) : list Z := elements (runningProcesses p).

(** ** Names *)

Definition managedDirMongods (p : ProcessManager) : path := Join (dataDir p) "mongods".

Definition processDirName (m : msp.Mongod) : string :=
  fmt_d (msp.Mongod_Port m) +:+ ":" +:+ msp.ReplicaSetName (msp.Mongod_ReplicaSetConfig m).
Definition processRootDir (p : ProcessManager) (m : msp.Mongod) : path := Join (managedDirMongods p) (processDirName m).
Definition processDBPathDir (p : ProcessManager) (m : msp.Mongod) : path := Join (processRootDir p m) "dbpath".
Definition processConfDir (p : ProcessManager) (m : msp.Mongod) : path := Join (processRootDir p m) "conf".
Definition processKeyfilePath (p : ProcessManager) (m : msp.Mongod) : path := Join (processConfDir p m) "keyfile".

(** [func (p *ProcessManager) parseProcessRootDirentry(entry)] on the name of the
    entry. *)
Definition parseProcessRootDirentry (name : string) : gres (Z * string) :=
  match Index ":" name with
  | None => Err (TextError ("directory with unparsable name `" +:+ name +:+ "` in db dir"))
  | Some colonLoc =>
      let portStr := slice_to colonLoc name in
      match ParseUint 16 portStr with
      | None => Err (TextError ("could not parse port number `" +:+ portStr +:+ "`"))
      | Some port => Ok (port, slice_from (S colonLoc) name)
      end
  end.

(** A path as text. *)
Definition path_text (d : path) : string := fold_right (λ c s, "/" +:+ c +:+ s) EmptyString d.

(** [func (p *ProcessManager) buildMongodCommandLine(m msp.Mongod) (args []string)] *)
Definition buildMongodCommandLine (p : ProcessManager) (m : msp.Mongod) : list string :=
  let args :=
    ["--dbpath"; path_text (processDBPathDir p m);
     "--port"; fmt_d (msp.Mongod_Port m);
     "--replSet"; msp.ReplicaSetName (msp.Mongod_ReplicaSetConfig m);
     "--keyFile"; path_text (processKeyfilePath p m)]%string in
  let role := msp.Config_ShardingRole (msp.Mongod_ReplicaSetConfig m) in
  if decide (role = msp.ShardingRoleShardServer) then args ++ ["--shardsvr"%string]
  else if decide (role = msp.ShardingRoleConfigServer) then args ++ ["--configsvr"%string]
  else args.

(** ** System calls *)

Section os.
Context `{O : OS}.

(** Every call may fail, without effect. *)
Definition os_call (f : ProcessManager → ProcessManager) : GoM ProcessManager (option gerror) := λ p,
  match os_fault (syscalls p) with
  | Some e => (os_tick p, Returned (Some e))
  | None => (f (os_tick p), Returned None)
  end.

(** [os.MkdirAll]: the directory and its parents. *)
Definition ancestors (d : path) : list path := (λ n, take n d) <$> seq 1 (length d).
Definition MkdirAll (d : path) : GoM ProcessManager (option gerror) :=
  os_call (λ p, set_dirs (dirs p ∪ list_to_set (ancestors d)) p).

(** [os.RemoveAll] *)
Definition RemoveAll (d : path) : GoM ProcessManager (option gerror) :=
  os_call (λ p, set_dirs (filter (λ d', ¬ d `prefix_of` d') (dirs p))
                  (set_files (filter (λ kv : path * string, ¬ d `prefix_of` kv.1) (files p)) p)).

(** [ioutil.ReadFile]; [Ok None] is a file that does not exist. *)
Definition ReadFile (f : path) : GoM ProcessManager (gres (option string)) := λ p,
  match os_fault (syscalls p) with
  | Some e => (os_tick p, Returned (Err e))
  | None => (os_tick p, Returned (Ok (files p !! f)))
  end.

(** [os.OpenFile] with [O_CREATE|O_TRUNC]: an error if the directory is missing. *)
Definition OpenFile (f : path) : GoM ProcessManager (option gerror) := λ p,
  match os_fault (syscalls p) with
  | Some e => (os_tick p, Returned (Some e))
  | None =>
      if decide (removelast f ∈ dirs p)
      then (set_files (<[f := EmptyString]> (files p)) (os_tick p), Returned None)
      else (os_tick p, Returned (Some (TextError "no such file or directory")))
  end.

(** The writes through [bufio]: they reach the file at [Flush]. *)
Definition WriteFlush (f : path) (content : string) : GoM ProcessManager (option gerror) :=
  os_call (λ p, set_files (<[f := content]> (files p)) p).

(** [os.Mkdir]: the parent must exist; an existing directory is the error that
    [os.IsExist] recognises ([inr]). *)
Definition Mkdir (d : path) : GoM ProcessManager (option gerror + unit) := λ p,
  match os_fault (syscalls p) with
  | Some e => (os_tick p, Returned (inl (Some e)))
  | None =>
      if decide (d ∈ dirs p) then (os_tick p, Returned (inr tt))
      else if decide (removelast d ∈ dirs p) then (set_dirs (dirs p ∪ {[d]}) (os_tick p), Returned (inl None))
      else (os_tick p, Returned (inl (Some (TextError "no such file or directory"))))
  end.

(** [unix.Access(dir, unix.W_OK)] *)
Definition Access (d : path) : GoM ProcessManager (option gerror) := λ p,
  match os_fault (syscalls p) with
  | Some e => (os_tick p, Returned (Some e))
  | None => (os_tick p, Returned (if decide (d ∈ dirs p) then None else Some (TextError "no such file or directory")))
  end.

(** The directory entries of [ioutil.ReadDir], sorted by name. *)
Definition dir_names (p : ProcessManager) (d : path) : list string :=
  merge_sort (λ a b, Is_true (String.leb a b))
    (omap (λ d', match d' with
                 | [] => None
                 | _ => if decide (removelast d' = d) then last d' else None
                 end) (elements (dirs p))).

(** ** procmgr_fs.go *)

Definition wrapError (e : gerror) : gerror :=
  TextError ("could not create directory skeleton for Mongod: " +:+ error_text e).

Definition CreateManagedDirs : GoM ProcessManager (option gerror) :=
  p ← get_state;
  err ← Access (dataDir p);
  match err with
  | Some _ => mret (Some (TextError ("`" +:+ path_text (dataDir p) +:+ "` does not exist or is not writable")))
  | None =>
      err ← Mkdir (managedDirMongods p);
      match err with
      | inl (Some e) => mret (Some e)
      | inl None | inr _ => mret None
      end
  end.

Definition createDirSkeleton (m : msp.Mongod) : GoM ProcessManager (option gerror) :=
  p ← get_state;
  err ← MkdirAll (processRootDir p m);
  match err with
  | Some e => mret (Some (wrapError e))
  | None =>
      err ← MkdirAll (processDBPathDir p m);
      match err with
      | Some e => mret (Some (wrapError e))
      | None =>
          err ← MkdirAll (processConfDir p m);
          match err with
          | Some e => mret (Some (wrapError e))
          | None => mret None
          end
      end
  end.

Definition destroyDataDirectory (m : msp.Mongod) : GoM ProcessManager (option gerror) :=
  p ← get_state; RemoveAll (processRootDir p m).

(** [func fileContentEqualToBytes(path string, content string) (equal bool, err error)] *)
Definition fileContentEqualToBytes (f : path) (content : string) : GoM ProcessManager (bool * option gerror) :=
  res ← ReadFile f;
  match res with
  | Err e => mret (false, Some e)
  | Ok None => mret (false, None)
  | Ok (Some fileContent) => mret (bool_decide (content = fileContent), None)
  end.

Definition UpdateKeyfile (m : msp.Mongod) : GoM ProcessManager (option gerror) :=
  p ← get_state;
  let keyFilePath := processKeyfilePath p m in
  res ← fileContentEqualToBytes keyFilePath (msp.KeyfileContent m);
  match res with
  | (true, _) => mret None
  | (false, Some e) => mret (Some e)
  | (false, None) =>
      err ← OpenFile keyFilePath;
      match err with
      | Some e => mret (Some e)
      | None => WriteFlush keyFilePath (msp.KeyfileContent m)
      end
  end.

(** The loop of [parseProcessDirTree] over the directories found. *)
Fixpoint parse_entries (names : list string) (acc : gmap Z string) : gmap Z string :=
  match names with
  | [] => acc
  | name :: names =>
      match parseProcessRootDirentry name with
      | Err _ => parse_entries names acc
      | Ok (port, replSet) => parse_entries names (<[port := replSet]> acc)
      end
  end.

Definition parseProcessDirTree : GoM ProcessManager (gres (gmap Z string)) := λ p,
  match os_fault (syscalls p) with
  | Some e => (os_tick p, Returned (Err e))
  | None =>
      if decide (managedDirMongods p ∈ dirs p)
      then (os_tick p, Returned (Ok (parse_entries (dir_names p (managedDirMongods p)) ∅)))
      else (os_tick p, Returned (Err (TextError "no such file or directory")))
  end.

(** ** processmanager.go *)

Definition HasProcess (port : Z) (p : ProcessManager) : bool := bool_decide (port ∈ runningProcesses p).

Definition mongodMinRequiredVersion : string := ">= 3.2".

(** The leftmost match of the regular expression in a line: a [v] before a digit;
    its group is the rest of the line. *)
Fixpoint version_submatch (line : string) : option string :=
  match line with
  | EmptyString => None
  | String c rest =>
      match rest with
      | String d _ =>
          if decide (c = "v"%char ∧ is_Some (digit_value d)) then Some rest else version_submatch rest
      | EmptyString => None
      end
  end.

(** What running [mongod --version] says, after [StdoutPipe] has succeeded. *)
Definition version_check (p : ProcessManager) : gres bool :=
  let failed (e : gerror) := Err (TextError ("processmanager.checkMongoDVersion() failed with: " +:+ error_text e)) in
  match mongod_version (syscalls p) with
  | Err e => failed e
  | Ok (_, Some e) => failed e
  | Ok (line, None) =>
      match semver_check mongodMinRequiredVersion (default EmptyString (line ≫= version_submatch)) with
      | Err e => failed e
      | Ok ok => Ok ok
      end
  end.

(** [func (p *ProcessManager) checkMongoDVersion() (bool, error)]: [defer
    stdOut.Close()] comes before the test of the error of [StdoutPipe], and panics on
    the nil pipe. *)
Definition checkMongoDVersion : GoM ProcessManager (gres bool) :=
  p ← get_state;
  match mongod_pipe (syscalls p) with
  | Some _ => panic (VString "invalid memory address or nil pointer dereference")
  | None => mret (version_check p)
  end.

(** [func (p *ProcessManager) SpawnProcess(m msp.Mongod) (err error)] *)
Definition SpawnProcess (m : msp.Mongod) : GoM ProcessManager (option gerror) :=
  p ← get_state;
  checked ← checkMongoDVersion;
  match checked with
  | Err e => mret (Some (TextError ("processmanager.checkMongoDVersion() failed with: " +:+ error_text e)))
  | Ok false => mret (Some (TextError ("processmanager.checkMongoDVersion() failed. mongod's version must be " +:+ mongodMinRequiredVersion)))
  | Ok true =>
      err ← createDirSkeleton m;
      match err with
      | Some e => mret (Some e)
      | None =>
          err ← UpdateKeyfile m;
          match err with
          | Some e => mret (Some e)
          | None =>
              let args := buildMongodCommandLine p m in
              err ← os_call (λ p, set_running (runningProcesses p ∪ {[msp.Mongod_Port m]})
                                    (set_spawned (spawned p ++ [(msp.Mongod_Port m, args)]) p));
              mret err
          end
      end
  end.

(** [cmd.Process.Kill()] on the process of a port. *)
Definition signal (port : Z) : GoM ProcessManager (option gerror) := os_call (λ p, set_signalled (signalled p ++ [port]) p).

(** [func (p *ProcessManager) KillProcess(port msp.PortNumber) error]: the process
    stays in the table until its end is received from [killChan]. *)
Definition KillProcess (port : Z) : GoM ProcessManager (option gerror) :=
  p ← get_state;
  if HasProcess port p then signal port else mret None.

(** [func (p *ProcessManager) KillProcesses() error]: all are signalled, the first
    error is returned, the table is emptied. *)
Fixpoint kill_all (ports : list Z) (err : option gerror) : GoM ProcessManager (option gerror) :=
  match ports with
  | [] => mret err
  | port :: ports =>
      curErr ← signal port;
      kill_all ports (match err with None => curErr | Some e => Some e end)
  end.
Definition KillProcesses : GoM ProcessManager (option gerror) :=
  p ← get_state;
  err ← kill_all (elements (runningProcesses p)) None;
  _ ← modify_state (set_running ∅);
  mret err.
End os.

(** The two goroutines around a process: the waiter reports its end on [killChan],
    [Run] removes a reported process from the table. *)
Inductive process_step (p : ProcessManager) : ProcessManager → Prop :=
  | process_exits port : port ∈ runningProcesses p → port ∉ killChan p → process_step p (set_killChan (killChan p ++ [port]) p)
  | process_reaped port rest : killChan p = port :: rest →
      process_step p (set_running (runningProcesses p ∖ {[port]}) (set_killChan rest p)).

(** ** The directory name encodes port and replica set *)

Lemma processDirName_parse m :
  0 ≤ msp.Mongod_Port m < 65536 →
  parseProcessRootDirentry (processDirName m) =
  Ok (msp.Mongod_Port m, msp.ReplicaSetName (msp.Mongod_ReplicaSetConfig m)).
Proof.
  intros Hp. unfold parseProcessRootDirentry, processDirName.
  pose proof (fmt_d_digits (msp.Mongod_Port m) ltac:(lia)) as Hd.
  change (":" +:+ msp.ReplicaSetName (msp.Mongod_ReplicaSetConfig m))
    with (String ":"%char (msp.ReplicaSetName (msp.Mongod_ReplicaSetConfig m))).
  rewrite Index_app by by apply digits_free_of_colon.
  rewrite slice_to_app, slice_from_app.
  pose proof (parse_pretty (msp.Mongod_Port m) ltac:(lia)) as Hparse.
  pose proof (fmt_d_nonempty (msp.Mongod_Port m)) as Hne.
  unfold ParseUint. destruct (fmt_d (msp.Mongod_Port m)) as [|c s]; [done|].
  rewrite Hparse, decide_True by lia. done.
Qed.

Lemma Join_plain d s : free_of "/" s → s ≠ EmptyString → s ≠ "."%string → s ≠ ".."%string → Join d s = d ++ [s].
Proof.
  intros Hfree H1 H2 H3. unfold Join. rewrite (Split_free "/" s Hfree). simpl.
  rewrite decide_False by tauto. by rewrite decide_False.
Qed.

(** Text of digits, a colon and a name without slash. *)
Lemma processDirName_plain m :
  0 ≤ msp.Mongod_Port m → free_of "/" (msp.ReplicaSetName (msp.Mongod_ReplicaSetConfig m)) →
  free_of "/" (processDirName m) ∧ processDirName m ≠ EmptyString ∧
  processDirName m ≠ "."%string ∧ processDirName m ≠ ".."%string.
Proof.
  intros Hp Hfree. unfold processDirName. pose proof (fmt_d_digits (msp.Mongod_Port m) Hp) as Hd.
  pose proof (fmt_d_nonempty (msp.Mongod_Port m)) as Hne.
  assert (free_of "/" (fmt_d (msp.Mongod_Port m) +:+ ":" +:+ msp.ReplicaSetName (msp.Mongod_ReplicaSetConfig m))).
  { clear Hne. induction (fmt_d (msp.Mongod_Port m)) as [|c s IH]; simpl; [done|]. destruct Hd as [Hc Hs].
    split; [intros ->; by destruct Hc|by apply IH]. }
  split; [done|]. destruct (fmt_d (msp.Mongod_Port m)) as [|c s]; [done|]. destruct Hd as [Hc _]. simpl.
  split_and!; [done| |]; intros [= -> _]; by destruct Hc.
Qed.

Lemma processRootDir_app p m :
  0 ≤ msp.Mongod_Port m → free_of "/" (msp.ReplicaSetName (msp.Mongod_ReplicaSetConfig m)) →
  processRootDir p m = managedDirMongods p ++ [processDirName m].
Proof.
  intros Hp Hfree. destruct (processDirName_plain m Hp Hfree) as (? & ? & ? & ?). by apply Join_plain.
Qed.

(** The name of a process directory determines the mongod: for every port
    number and every replica set name without a slash, also one with colons, the
    directory is a direct child of the managed directory and its entry parses back
    to the port and the name. *)
Theorem process_dir_roundtrip p m :
  0 ≤ msp.Mongod_Port m < 65536 → free_of "/" (msp.ReplicaSetName (msp.Mongod_ReplicaSetConfig m)) →
  ∃ entry, processRootDir p m = managedDirMongods p ++ [entry] ∧
    parseProcessRootDirentry entry = Ok (msp.Mongod_Port m, msp.ReplicaSetName (msp.Mongod_ReplicaSetConfig m)).
Proof.
  intros Hp Hfree. exists (processDirName m). split; [by apply processRootDir_app; [lia|]|by apply processDirName_parse].
Qed.

Definition example_process : msp.Mongod :=
  msp.mkMongod 18080 "key" (msp.mkReplicaSetConfig "rs:1" [] msp.ShardingRoleShardServer msp.zero_Credential) None None
    msp.MongodStateRunning.
Definition example_manager : ProcessManager :=
  mkProcessManager ["data"%string] {[["data"; "mongods"]%string]} ∅ 0 ∅ [] [] [].
(** A system on which every call succeeds. *)
Definition working_os : OS := {|
  os_fault _ := None;
  mongod_pipe _ := None;
  mongod_version _ := Ok (Some "db version v3.4.1"%string, None);
  semver_check _ version := Ok (bool_decide (version = "3.4.1"%string))
|}.

Lemma process_dir_roundtrip_witness : ∃ entry,
  processRootDir example_manager example_process = ["data"; "mongods"]%string ++ [entry] ∧
  parseProcessRootDirentry entry = Ok (18080, "rs:1"%string).
Proof.
  apply (process_dir_roundtrip example_manager example_process); [simpl; lia|]. simpl. repeat split; discriminate.
Defined.

Example spawn_example :
  let p := (@SpawnProcess working_os example_process example_manager).1 in
  (map_to_list (files p), elements (runningProcesses p), spawned p) =
  ([(["data"; "mongods"; "18080:rs:1"; "conf"; "keyfile"], "key")], [18080],
   [(18080, ["--dbpath"; "/data/mongods/18080:rs:1/dbpath"; "--port"; "18080"; "--replSet"; "rs:1";
             "--keyFile"; "/data/mongods/18080:rs:1/conf/keyfile"; "--shardsvr"])])%string.
Proof. vm_compute. reflexivity. Qed.

(** ** Starting a process *)

Section spawn.
Context (O : OS).
Implicit Types (p : ProcessManager) (E : goval → ProcessManager → Prop).

(** Some system call fails. *)
Definition call_failed : Prop := ∃ n e, os_fault n = Some e.

Lemma wp_os_call f Q E p :
  (∀ e, call_failed → Q (Some e) (os_tick p)) → Q None (f (os_tick p)) → wp (os_call f) Q E p.
Proof.
  intros HErr HOk. unfold wp, os_call. destruct (os_fault (syscalls p)) as [e|] eqn:He; [|done]. apply HErr. by exists (syscalls p), e.
Qed.

(** Only directories below the data directory are added, nothing else changes. *)
Record dirs_added p p' : Prop := {
  added_dirs : dirs p ⊆ dirs p';
  added_data : dataDir p' = dataDir p;
  added_files : files p' = files p;
  added_running : runningProcesses p' = runningProcesses p;
  added_spawned : spawned p' = spawned p;
  added_kill : killChan p' = killChan p;
  added_signalled : signalled p' = signalled p
}.

Lemma dirs_added_trans p1 p2 p3 : dirs_added p1 p2 → dirs_added p2 p3 → dirs_added p1 p3.
Proof. intros [] []. split; [set_solver|congruence..]. Qed.

Lemma elem_of_ancestors (d : path) : d ≠ [] → d ∈ ancestors d.
Proof.
  intros Hd. unfold ancestors. apply list_elem_of_fmap. exists (length d).
  rewrite take_ge by lia. split; [done|]. apply elem_of_seq. destruct d; [done|simpl; lia].
Qed.

Lemma wp_MkdirAll (d : path) Q E p :
  d ≠ [] → (∀ e p', call_failed → dirs_added p p' → Q (Some e) p') →
  (∀ p', dirs_added p p' → d ∈ dirs p' → Q None p') → wp (MkdirAll d) Q E p.
Proof.
  intros Hd HErr HOk. unfold MkdirAll. apply wp_os_call.
  - intros e He. by apply HErr.
  - apply HOk.
    + split; simpl; [set_solver|done..].
    + simpl. apply elem_of_union_r, elem_of_list_to_set. by apply elem_of_ancestors.
Qed.

Lemma Join_nonempty d s : free_of "/" s → s ≠ EmptyString → s ≠ "."%string → s ≠ ".."%string → Join d s ≠ [].
Proof. intros. rewrite Join_plain by done. by destruct d. Qed.

Context (m : msp.Mongod) (Hport : 0 ≤ msp.Mongod_Port m < 65536)
  (Hname : free_of "/" (msp.ReplicaSetName (msp.Mongod_ReplicaSetConfig m))).

Lemma createDirSkeleton_spec p Q E :
  (∀ e p', call_failed → dirs_added p p' → Q (Some e) p') →
  (∀ p', dirs_added p p' → processRootDir p m ∈ dirs p' → processDBPathDir p m ∈ dirs p' →
     processConfDir p m ∈ dirs p' → Q None p') →
  wp (createDirSkeleton m) Q E p.
Proof.
  intros HErr HOk. unfold createDirSkeleton. wp_steps.
  apply wp_MkdirAll.
  { rewrite processRootDir_app by (lia || done). by destruct (managedDirMongods p). }
  { intros e p1 He H1. wp_steps. by apply HErr. }
  intros p1 H1 Hroot. wp_step. apply wp_MkdirAll.
  { unfold processDBPathDir. apply Join_nonempty; simpl; done. }
  { intros e p2 He H2. wp_steps. apply HErr; [done|]. by eapply dirs_added_trans. }
  intros p2 H2 Hdb. wp_step. apply wp_MkdirAll.
  { unfold processConfDir. apply Join_nonempty; simpl; done. }
  { intros e p3 He H3. wp_steps. apply HErr; [done|]. eapply dirs_added_trans; [|done]. by eapply dirs_added_trans. }
  intros p3 H3 Hconf. wp_steps. apply HOk; [|by apply H3, H2|by apply H3|done].
  eapply dirs_added_trans; [|done]. by eapply dirs_added_trans.
Qed.

(** A write to the keyfile of [m] and nothing else. *)
Record keyfile_only p p' : Prop := {
  keyfile_dirs : dirs p' = dirs p;
  keyfile_data : dataDir p' = dataDir p;
  keyfile_files f : f ≠ processKeyfilePath p m → files p' !! f = files p !! f;
  keyfile_running : runningProcesses p' = runningProcesses p;
  keyfile_spawned : spawned p' = spawned p;
  keyfile_signalled : signalled p' = signalled p
}.

Lemma processConfDir_keyfile p : removelast (processKeyfilePath p m) = processConfDir p m.
Proof.
  unfold processKeyfilePath. rewrite Join_plain; [|by simpl..]. by rewrite removelast_last.
Qed.

Lemma UpdateKeyfile_spec p Q E :
  processConfDir p m ∈ dirs p → (∀ e p', call_failed → keyfile_only p p' → Q (Some e) p') →
  (∀ p', keyfile_only p p' → files p' !! processKeyfilePath p m = Some (msp.KeyfileContent m) → Q None p') →
  wp (UpdateKeyfile m) Q E p.
Proof.
  intros Hconf HErr HOk. unfold UpdateKeyfile, fileContentEqualToBytes. wp_steps.
  unfold ReadFile, wp at 1. destruct (os_fault (syscalls p)) as [e|] eqn:He.
  { apply wp_ret. apply HErr; [by exists (syscalls p), e|done]. }
  clear He.
  assert (∀ Q', (∀ p', keyfile_only p p' → files p' !! processKeyfilePath p m = Some (msp.KeyfileContent m) → Q' None p') →
    (∀ e p', call_failed → keyfile_only p p' → Q' (Some e) p') →
    wp (err ← OpenFile (processKeyfilePath p m);
        match err with
        | Some e => mret (Some e)
        | None => WriteFlush (processKeyfilePath p m) (msp.KeyfileContent m)
        end) Q' E (os_tick p)) as Hwrite.
  { intros Q' HOk' HErr'. wp_step. unfold OpenFile, wp at 1.
    destruct (os_fault _) as [e|] eqn:He; [apply wp_ret, HErr'; [by eexists _, e|done]|].
    rewrite decide_True by by rewrite processConfDir_keyfile.
    unfold WriteFlush. apply wp_os_call.
    - intros e Hcall. apply HErr'; [done|]. split; simpl; [done|done| |done|done|done]. intros f Hf. by rewrite lookup_insert_ne.
    - apply HOk'.
      + split; simpl; [done|done| |done|done|done]. intros f Hf. by rewrite !lookup_insert_ne.
      + simpl. by rewrite lookup_insert_eq. }
  destruct (files p !! processKeyfilePath p m) as [content|] eqn:Hfile.
  - wp_step. case_bool_decide as Heq; [|by apply Hwrite].
    wp_steps. apply HOk; [by split|]. simpl. by rewrite Hfile, Heq.
  - wp_step. by apply Hwrite.
Qed.

(** What a successful start leaves behind. *)
Record started p p' : Prop := {
  started_running : runningProcesses p' = runningProcesses p ∪ {[msp.Mongod_Port m]};
  started_keyfile : files p' !! processKeyfilePath p m = Some (msp.KeyfileContent m);
  started_dirs : processRootDir p m ∈ dirs p' ∧ processDBPathDir p m ∈ dirs p' ∧ processConfDir p m ∈ dirs p';
  started_args : spawned p' = spawned p ++ [(msp.Mongod_Port m, buildMongodCommandLine p m)]
}.

Record spawn_result p (err : option gerror) p' : Prop := {
  spawn_ok : err = None → started p p' ∧ version_check p = Ok true;
  spawn_failed e : err = Some e → runningProcesses p' = runningProcesses p ∧ spawned p' = spawned p ∧
    (version_check p ≠ Ok true ∨ call_failed);
  spawn_dirs : dirs p ⊆ dirs p';
  spawn_files f : f ≠ processKeyfilePath p m → files p' !! f = files p !! f;
  spawn_signalled : signalled p' = signalled p
}.

Lemma SpawnProcess_spec p :
  wp (SpawnProcess m) (spawn_result p) (λ _ p', p' = p ∧ is_Some (mongod_pipe (syscalls p))) p.
Proof.
  unfold SpawnProcess. wp_steps. unfold checkMongoDVersion. wp_step. apply wp_get.
  destruct (mongod_pipe (syscalls p)) as [e|]; [apply wp_panic; by split|]. wp_step.
  destruct (version_check p) as [[|]|e] eqn:Hversion;
    [|wp_steps; split; [done|intros ? _; split_and!; [done..|by left; rewrite Hversion]|done..]..].
  wp_step. apply createDirSkeleton_spec.
  { intros e p1 He []. wp_steps. split; [intros [=]|intros ? _; split_and!; [congruence..|by right]|done|intros f _; congruence|done]. }
  intros p1 [Hd1 Hdata1 Hf1 Hr1 Hs1 _ Hg1] Hroot Hdb Hconf.
  assert (processKeyfilePath p1 m = processKeyfilePath p m) as Hkf.
  { unfold processKeyfilePath, processConfDir, processRootDir, managedDirMongods. by rewrite Hdata1. }
  wp_step. apply UpdateKeyfile_spec.
  { unfold processConfDir, processRootDir, managedDirMongods in *. by rewrite Hdata1. }
  { intros e p2 He [Hd2 _ Hf2 Hr2 Hs2 Hg2]. wp_steps. rewrite Hkf in Hf2.
    split; [intros [=]|intros ? _; split_and!; [congruence..|by right]|by rewrite Hd2| |congruence]. intros f Hf. by rewrite Hf2, Hf1. }
  intros p2 [Hd2 _ Hf2 Hr2 Hs2 Hg2] Hcontent. rewrite Hkf in Hf2, Hcontent. wp_step. apply wp_os_call.
  - intros e He. wp_steps. split; simpl; [intros [=]|intros ? _; split_and!; [congruence..|by right]|by rewrite Hd2| |congruence].
    intros f Hf. by rewrite Hf2, Hf1.
  - wp_steps. split; simpl; [|done|by rewrite Hd2|intros f Hf; by rewrite Hf2, Hf1|congruence].
    intros _. split; [|done]. split; simpl; [by rewrite Hr2, Hr1|done|by rewrite Hd2|by rewrite Hs2, Hs1].
Qed.

(** C35: Starting a mongod whose port is a 16-bit number and whose replica set name has no
    slash ends in one of three ways. It succeeds: the version was accepted, the process is
    in the table, started once with its command line, its directories exist and its keyfile
    holds the content of the request. It returns an error: the version was not accepted or a
    system call failed, and no process was started. Or it panics, exactly when the pipe for
    the version cannot be made, and nothing has changed. No directory is removed, no other
    file touched, no process killed. *)
Theorem SpawnProcess_correct p : ∃ p' r, SpawnProcess m p = (p', r) ∧
  match r with
  | Returned err => mongod_pipe (syscalls p) = None ∧ spawn_result p err p'
  | Panicked _ => is_Some (mongod_pipe (syscalls p)) ∧ p' = p
  | OutOfFuel => False
  end.
Proof.
  pose proof (SpawnProcess_spec p) as Hwp. unfold wp in Hwp. destruct (SpawnProcess m p) as [p' [err|v|]] eqn:Hrun; [| |done].
  - exists p', (Returned err). split_and!; [done| |done]. destruct (mongod_pipe (syscalls p)) eqn:Hpipe; [|done].
    unfold SpawnProcess, checkMongoDVersion, mbind, gom_bind, get_state in Hrun. by rewrite Hpipe in Hrun.
  - exists p', (Panicked v). split; [done|]. by destruct Hwp.
Qed.
End spawn.

Lemma SpawnProcess_correct_witness : ∃ p' err,
  @SpawnProcess working_os example_process example_manager = (p', Returned err) ∧
  spawn_result working_os example_process example_manager err p'.
Proof.
  destruct (SpawnProcess_correct working_os example_process ltac:(simpl; lia) ltac:(simpl; repeat split; discriminate) example_manager)
    as (p' & [err|v|] & Hrun & Hres); [by exists p', err; split; [|apply Hres]|exfalso; by destruct Hres as [[e He] _]|done].
Defined.
