(* ===== verification/Configurator.v ===== *)
(** * The slave's mongod configurator

    [slave/mongodconfigurator.go] and [slave/mongodb.go]: reading the
    configuration of a running mongod and bringing it to the desired one through
    database commands.  The mongod behind the connection is the parameter [Mongo];
    the commands sent to it are recorded with their
    replies. *)

From Stdlib Require Import Ascii.
From stdpp Require Import base gmap sets list strings fin_maps.
From Stdlib Require Import Lia.
From S2P Require Import Prelude Msp Strconv.

Open Scope Z_scope.
Set Warnings "-clear-no-such-hyp,-register-all".

(** ** BSON values, as the code takes them apart *)

Inductive bson :=
  | BInt (n : Z)
  | BString (s : string)
  | BDouble (f : float64)
  | BBool (b : bool)
  | BArray (l : list bson)
  | BDoc (d : gmap string bson).

(** [bson.M] *)
Abbreviation doc := (gmap string bson) (only parsing).

(** Go type assertions: the wrong dynamic type, or a missing field, panics. *)
Definition conversion_panic {S A} : GoM S A := panic (VString "interface conversion").
Definition as_int {S} (v : option bson) : GoM S Z :=
  match v with Some (BInt n) => mret n | _ => conversion_panic end.
Definition as_string {S} (v : option bson) : GoM S string :=
  match v with Some (BString s) => mret s | _ => conversion_panic end.
Definition as_double {S} (v : option bson) : GoM S float64 :=
  match v with Some (BDouble f) => mret f | _ => conversion_panic end.
Definition as_bool {S} (v : option bson) : GoM S bool :=
  match v with Some (BBool b) => mret b | _ => conversion_panic end.
Definition as_array {S} (v : option bson) : GoM S (list bson) :=
  match v with Some (BArray l) => mret l | _ => conversion_panic end.
Definition as_doc {S} (v : option bson) : GoM S doc :=
  match v with Some (BDoc d) => mret d | _ => conversion_panic end.

(** A result with the protocol's error type, [( , *msp.Error)]. *)
Inductive mres (A : Type) :=
  | MOk (a : A)
  | MErr (e : msp.Error).
Arguments MOk {A} a.
Arguments MErr {A} e.

(** ** Commands and the connection *)

Inductive mongo_command :=
  | CmdIsMaster
  | CmdReplSetGetStatus
  | CmdReplSetGetConfig
  | CmdReplSetReconfig (config : doc)
  | CmdGetCmdLineOpts
  | CmdShutdown (timeoutSecs : Z)
  | CmdReplSetStepDown (stepDownSec : Z)
  | CmdCreateUser (user pwd : string) (roles : list string)
  | CmdReplSetInitiate (config : doc) (force : bool).

(** An error of [Session.Run]: a [*mgo.QueryError] with its code, or another one. *)
Inductive run_error :=
  | QueryError (code : Z) (text : string)
  | OtherError (text : string).

Definition run_error_text (e : run_error) : string :=
  match e with QueryError _ text => text | OtherError text => text end.

(** The mongod processes of the machine; [W] is whatever state they have.
    [show_doc] and [show_error] stand for the [%#v] rendering. *)
Class Mongo (W : Type) := {
  mongo_dial : Z → W → option gerror;
  mongo_login : Z → msp.MongodCredential → W → bool;
  mongo_run : Z → mongo_command → W → W * (doc * option run_error);
  show_doc : doc → string;
  show_error : run_error → string
}.

(** What went over a connection: the port, the command and the reply. *)
Record event := mkEvent { event_port : Z; event_cmd : mongo_command; event_reply : doc * option run_error }.

Record session (W : Type) := mkSession { world : W; issued : list event }.
Arguments mkSession {W} world issued.
Arguments world {W} s.
Arguments issued {W} s.

(** [type replSetState int] *)
Definition replSetStartup : Z := 0.
Definition replSetPrimary : Z := 1.
Definition replSetSecondary : Z := 2.
Definition replSetRecovering : Z := 3.
Definition replSetUnknown : Z := 6.
Definition replSetRemoved : Z := 10.

Record mgoContext := mkMgoContext { ctx_Port : Z; LoginSuccessful : bool }.

(** ** Member lists *)

Definition hostPortString (h : msp.HostPort) : string := msp.Hostname h +:+ ":" +:+ fmt_d (msp.Port h).

(** The first loop of [updateMembersList]: ids in use and members by host. *)
Fixpoint scan_current {S} (values : list bson) (usedIds : gset Z) (reported : gmap string doc)
    : GoM S (gset Z * gmap string doc) :=
  match values with
  | [] => mret (usedIds, reported)
  | value :: values =>
      member ← as_doc (Some value);
      id ← as_int (member !! "_id"%string);
      host ← as_string (member !! "host"%string);
      scan_current values (usedIds ∪ {[id]}) (<[host := member]> reported)
  end.

(** [for j := 0; j < 256; j++] *)
Definition free_id (usedIds : gset Z) : option Z := head (filter (λ j, j ∉ usedIds) (seqZ 0 256)).

Definition no_free_id : msp.Error :=
  msp.mkError msp.SlaveReplicaSetConfigError "Could not find free member `_id`"
    "No free member `_id` left for ReplicaSetMembers of ReplicaSet of Mongod".

Definition set_member (desired : msp.ReplicaSetMember) (member : doc) : doc :=
  <["votes"%string := BInt (msp.Member_Votes desired)]>
    (<["priority"%string := BDouble (msp.Member_Priority desired)]>
      (<["host"%string := BString (hostPortString (msp.Member_HostPort desired))]> member)).

(** A member of the result: a map that [reportedMembersByHostPortString] holds
    too (shared, so a later assignment to it shows), or a map of its own. *)
Abbreviation member_ref := (string + doc)%type (only parsing).

(** The second loop: the reported members after the assignments, and the result. *)
Fixpoint place_members (desiredMembers : list msp.ReplicaSetMember) (usedIds : gset Z) (reported : gmap string doc)
    : mres (gmap string doc * list member_ref) :=
  match desiredMembers with
  | [] => MOk (reported, [])
  | desired :: desiredMembers =>
      let host := hostPortString (msp.Member_HostPort desired) in
      match reported !! host with
      | Some member =>
          match place_members desiredMembers usedIds (<[host := set_member desired member]> reported) with
          | MOk (reported, resulting) => MOk (reported, inl host :: resulting)
          | MErr e => MErr e
          end
      | None =>
          match free_id usedIds with
          | None => MErr no_free_id
          | Some freeId =>
              match place_members desiredMembers (usedIds ∪ {[freeId]}) reported with
              | MOk (reported, resulting) =>
                  MOk (reported, inr (set_member desired {["_id"%string := BInt freeId]}) :: resulting)
              | MErr e => MErr e
              end
          end
      end
  end.

Definition deref (reported : gmap string doc) (r : member_ref) : doc :=
  match r with inl host => default ∅ (reported !! host) | inr member => member end.

Definition resulting_members (desiredMembers : list msp.ReplicaSetMember) (usedIds : gset Z)
    (reported : gmap string doc) : mres (list doc) :=
  match place_members desiredMembers usedIds reported with
  | MOk (reported, resulting) => MOk (deref reported <$> resulting)
  | MErr e => MErr e
  end.

(** [func updateMembersList(currentConfig bson.M, desiredMembers []msp.ReplicaSetMember)] *)
Definition updateMembersList {S} (currentConfig : doc) (desiredMembers : list msp.ReplicaSetMember)
    : GoM S (mres (list doc)) :=
  match currentConfig !! "members"%string with
  | Some currentMembers =>
      values ← as_array (Some currentMembers);
      scanned ← scan_current values ∅ ∅;
      mret (resulting_members desiredMembers scanned.1 scanned.2)
  | None => mret (resulting_members desiredMembers ∅ ∅)
  end.

(** [func updateConfig(currentConfig bson.M, m msp.Mongod) (bson.M, *msp.Error)] *)
Definition updateConfig {S} (currentConfig : doc) (m : msp.Mongod) : GoM S (mres doc) :=
  let rsConfig := msp.Mongod_ReplicaSetConfig m in
  let config := <["_id"%string := BString (msp.ReplicaSetName rsConfig)]> currentConfig in
  res ← updateMembersList config (msp.ReplicaSetMembers rsConfig);
  match res with
  | MErr e => mret (MErr e)
  | MOk resultingMembers =>
      let config := <["members"%string := BArray (BDoc <$> resultingMembers)]> config in
      let version := match config !! "version"%string with Some (BInt ver) => ver | _ => 0 end in
      let config := <["version"%string := BInt (version + 1)]> config in
      mret (MOk (<["configsvr"%string :=
        BBool (bool_decide (msp.Config_ShardingRole rsConfig = msp.ShardingRoleConfigServer))]> config))
  end.

(** The loop of [fetchConfiguration] over the configured members. *)
Definition parse_member {S} (value : bson) : GoM S msp.ReplicaSetMember :=
  member ← as_doc (Some value);
  host ← as_string (member !! "host"%string);
  let pair := Split ":" host in
  match pair with
  | hostname :: port :: _ =>
      let remotePort := Atoi port in
      priority ← as_double (member !! "priority"%string);
      votes ← as_int (member !! "votes"%string);
      mret (msp.mkReplicaSetMember (msp.mkHostPort hostname (remotePort mod 65536)) priority votes)
  | _ => panic (VString "index out of range")
  end.

Fixpoint parse_members {S} (values : list bson) : GoM S (list msp.ReplicaSetMember) :=
  match values with
  | [] => mret []
  | value :: values =>
      member ← parse_member value;
      members ← parse_members values;
      mret (member :: members)
  end.

Definition set_config (mongod : msp.Mongod) (config : msp.ReplicaSetConfig) : msp.Mongod :=
  msp.mkMongod (msp.Mongod_Port mongod) (msp.KeyfileContent mongod) config (msp.StatusError mongod)
    (msp.LastEstablishStateError mongod) (msp.State mongod).
Definition set_state (mongod : msp.Mongod) (state : string) : msp.Mongod :=
  msp.mkMongod (msp.Mongod_Port mongod) (msp.KeyfileContent mongod) (msp.Mongod_ReplicaSetConfig mongod)
    (msp.StatusError mongod) (msp.LastEstablishStateError mongod) state.

(** [func (m mongodMembers) Less(i, j int) bool]: the ports are [uint16], so is
    their difference. *)
Definition Less (a b : msp.ReplicaSetMember) : bool :=
  let diff := (msp.Port (msp.Member_HostPort a) - msp.Port (msp.Member_HostPort b)) mod 65536 in
  if decide (diff < 0) then true
  else if decide (0 < diff) then false
  else String.ltb (msp.Hostname (msp.Member_HostPort a)) (msp.Hostname (msp.Member_HostPort b)).

(** ** Database commands, [mongodb.go] *)

Section commands.
Context {W : Type} `{MONGO : Mongo W}.

Definition Run (ctx : mgoContext) (cmd : mongo_command) : GoM (session W) (doc * option run_error) := λ s,
  let '(w, reply) := mongo_run (ctx_Port ctx) cmd (world s) in
  (mkSession w (issued s ++ [mkEvent (ctx_Port ctx) cmd reply]), Returned reply).

Definition port_text (ctx : mgoContext) : string := fmt_d (ctx_Port ctx).

Definition IsMaster (ctx : mgoContext) : GoM (session W) (mres doc) :=
  reply ← Run ctx CmdIsMaster;
  match reply with
  | (isMasterRes, None) => mret (MOk isMasterRes)
  | (_, Some err) => mret (MErr (msp.mkError msp.SlaveGetMongodStatusError
      ("Getting master information from mongod instance on port " +:+ port_text ctx +:+ " failed")
      ("mgo/Session.Run(" +:+ dquote +:+ "isMaster" +:+ dquote +:+ ") failed with" +:+
        String (ascii_of_nat 10) (run_error_text err))))
  end.

(** The state, the status document and the error of [ReplSetGetStatus]. *)
Definition ReplSetGetStatus (ctx : mgoContext) : GoM (session W) (Z * doc * option msp.Error) :=
  reply ← Run ctx CmdReplSetGetStatus;
  let '(status, cmdRunErr) := reply in
  let stateFieldName := match cmdRunErr with Some _ => "state"%string | None => "myState"%string end in
  let description := "Getting Replica Set status information from Mongod instance on port `" +:+ port_text ctx +:+ "` failed" in
  let run := "mgo/Session.Run(" +:+ dquote +:+ "replSetGetStatus" +:+ dquote +:+ ") result" in
  match status !! stateFieldName with
  | Some errorDocState =>
      replSetMemberState ← as_int (Some errorDocState);
      mret (replSetMemberState, status, None)
  | None =>
      match cmdRunErr with
      | Some _ => mret (replSetUnknown, status, Some (msp.mkError msp.SlaveGetMongodStatusError description
          (run +:+ " was " +:+ show_doc status)))
      | None => mret (replSetUnknown, status, Some (msp.mkError msp.SlaveGetMongodStatusError description
          ("`myState` field does not exist in " +:+ run +:+ ": " +:+ show_doc status)))
      end
  end.

Definition ReplSetGetConfig (ctx : mgoContext) : GoM (session W) (mres doc) :=
  reply ← Run ctx CmdReplSetGetConfig;
  match reply with
  | (configResult, Some err) => mret (MErr (msp.mkError msp.SlaveGetMongodStatusError
      ("Getting Replica Set config information from Mongod instance on port `" +:+ port_text ctx +:+ "` failed")
      ("mgo/Session.Run(" +:+ dquote +:+ "replSetGetConfig" +:+ dquote +:+ ") result was " +:+ show_doc configResult)))
  | (configResult, None) => config ← as_doc (configResult !! "config"%string); mret (MOk config)
  end.

(** The format string has one verb more than arguments, which shifts the text. *)
Definition ReplSetReconfig (ctx : mgoContext) (config : doc) : GoM (session W) (option msp.Error) :=
  reply ← Run ctx (CmdReplSetReconfig config);
  match reply with
  | (_, Some reconfigErr) => mret (Some (msp.mkError msp.SlaveReplicaSetConfigError "Could not reconfigure Replica Set"
      ("replSetReconfig on Mongod instance on port `" +:+ show_doc config +:+ "` failed. Config: " +:+
        show_error reconfigErr +:+ " Error: %!v(MISSING)")))
  | (_, None) => mret None
  end.

Definition ParseCmdLineShardingRole (ctx : mgoContext) : GoM (session W) (mres string) :=
  reply ← Run ctx CmdGetCmdLineOpts;
  match reply with
  | (_, Some err) => mret (MErr (msp.mkError msp.SlaveGetMongodStatusError
      ("Getting command line options from Mongod instance on port `" +:+ port_text ctx +:+ "` failed")
      ("getCmdLineOpts failed with error: " +:+ show_error err)))
  | (cmdLineOptsRes, None) =>
      parsed ← as_doc (cmdLineOptsRes !! "parsed"%string);
      match parsed !! "sharding"%string with
      | None => mret (MOk EmptyString)
      | Some sharding =>
          options ← as_doc (Some sharding);
          match options !! "clusterRole"%string with
          | None => mret (MOk EmptyString)
          | Some clusterRole => role ← as_string (Some clusterRole); mret (MOk role)
          end
      end
  end.

Definition ShutdownWithTimeout (ctx : mgoContext) (seconds : Z) : GoM (session W) (option msp.Error) :=
  reply ← Run ctx (CmdShutdown seconds);
  match reply with
  | (_, Some err) => mret (Some (msp.mkError msp.SlaveShutdownError
      ("Could not shutdown Mongod with timeout `" +:+ fmt_d seconds +:+ "` on port `" +:+ port_text ctx +:+
        "` (mongodb returned error)")
      ("mgo/Session.Run(" +:+ dquote +:+ "shutdown" +:+ dquote +:+ ") failed with: " +:+ run_error_text err)))
  | (_, None) => mret None
  end.

Definition ReplSetStepDown (ctx : mgoContext) (stepDownSec : Z) : GoM (session W) (option msp.Error) :=
  reply ← Run ctx (CmdReplSetStepDown stepDownSec);
  match reply with
  | (_, Some err) => mret (Some (msp.mkError msp.SlaveShutdownError
      ("could not step down Mongod on port `" +:+ port_text ctx +:+ "` (mongodb returned error)")
      ("mgo/Session.Run(" +:+ dquote +:+ "replSetStepDown" +:+ dquote +:+ ") failed: " +:+ run_error_text err)))
  | (_, None) => mret None
  end.

Definition CreateUser (ctx : mgoContext) (user password purpose : string) (roles : list string)
    : GoM (session W) (option msp.Error) :=
  reply ← Run ctx (CmdCreateUser user password roles);
  match reply with
  | (_, Some err) => mret (Some (msp.mkError msp.SlaveReplicaSetCreateRootUserError
      ("Could not create " +:+ purpose +:+ " `" +:+ user +:+ "`")
      ("Command `createUser` on port `" +:+ port_text ctx +:+ "` failed: " +:+ show_error err)))
  | (_, None) => mret None
  end.

(** [(alreadyInitialized bool, mspErr *msp.Error)] *)
Definition ReplSetInitiate (ctx : mgoContext) (config : doc) (force : bool) : GoM (session W) (bool * option msp.Error) :=
  reply ← Run ctx (CmdReplSetInitiate config force);
  match reply with
  | (_, None) => mret (false, None)
  | (_, Some err) =>
      if match err with QueryError code _ => bool_decide (code = 23) | OtherError _ => false end
      then mret (true, None)
      else mret (false, Some (msp.mkError msp.SlaveReplicaSetInitError
        ("Replica Set could not be initiated on Mongod on port `" +:+ port_text ctx +:+ "`")
        ("Command `replSetInitiate` failed:" +:+ String (ascii_of_nat 10) ("Config: " +:+ show_doc config +:+
          String (ascii_of_nat 10) ("Error: " +:+ show_error err)))))
  end.

(** [func (c *ConcreteMongodConfigurator) connect(...)]: a failed login is only
    remembered. *)
Definition connect (port : Z) (credential : msp.MongodCredential) : GoM (session W) (mres mgoContext) :=
  s ← get_state;
  match mongo_dial port (world s) with
  | Some dialErr => mret (MErr (msp.mkError msp.SlaveConnectMongodError
      ("Establishing a connection to mongod instance on port " +:+ fmt_d port +:+ " failed")
      ("ConcreteMongodConfigurator.connect() failed with: " +:+ error_text dialErr)))
  | None => mret (MOk (mkMgoContext port (mongo_login port credential (world s))))
  end.

(** ** The configurator, [mongodconfigurator.go] *)

(** [c.MongodSoftShutdownTimeout.Seconds()] *)
Context (MongodSoftShutdownTimeout : Z).

Definition fetchConfiguration (ctx : mgoContext) : GoM (session W) (msp.Mongod * option msp.Error) :=
  let mongod := msp.mkMongod (ctx_Port ctx) EmptyString msp.zero_ReplicaSetConfig None None EmptyString in
  res ← IsMaster ctx;
  match res with
  | MErr err => mret (mongod, Some err)
  | MOk isMasterRes =>
    match isMasterRes !! "setName"%string with
    | None => mret (set_state mongod msp.MongodStateUninitialized, None)
    | Some _ =>
      res ← ReplSetGetStatus ctx;
      match res with
      | (_, _, Some err) => mret (mongod, Some err)
      | (state, status, None) =>
        let mongod :=
          if decide (state = replSetRecovering) then set_state mongod msp.MongodStateRecovering
          else if decide (state = replSetPrimary) then set_state mongod msp.MongodStateRunning
          else if decide (state = replSetSecondary) then set_state mongod msp.MongodStateRunning
          else if decide (state = replSetRemoved) then set_state mongod msp.MongodStateRemoved
          else mongod in
        if decide (msp.State mongod = msp.MongodStateRemoved) then mret (mongod, None)
        else
          res ← ReplSetGetConfig ctx;
          match res with
          | MErr err => mret (mongod, Some err)
          | MOk config =>
            name ← as_string (status !! "set"%string);
            members ← match config !! "members"%string with
                      | Some configMembers => values ← as_array (Some configMembers); parse_members values
                      | None => mret []
                      end;
            isConfigsvr ← match config !! "configsvr"%string with
                          | Some configsvr => as_bool (Some configsvr)
                          | None => mret false
                          end;
            role ← (if isConfigsvr : bool then mret (MOk msp.ShardingRoleConfigServer)
                    else
                      res ← ParseCmdLineShardingRole ctx;
                      match res with
                      | MErr err => mret (MErr err)
                      | MOk cmdLineShardingRole =>
                          if decide (cmdLineShardingRole = "shardsvr"%string) then mret (MOk msp.ShardingRoleShardServer)
                          else if decide (cmdLineShardingRole = "configsvr"%string) then mret (MOk msp.ShardingRoleConfigServer)
                          else mret (MOk msp.ShardingRoleNone)
                      end);
            match role with
            | MErr err => mret (msp.zero_Mongod, Some err)
            | MOk shardingRole =>
                mret (set_config mongod (msp.mkReplicaSetConfig name members shardingRole msp.zero_Credential), None)
            end
          end
      end
    end
  end.

Definition MongodConfiguration (port : Z) (cred : msp.MongodCredential) : GoM (session W) (msp.Mongod * option msp.Error) :=
  res ← connect port cred;
  match res with
  | MErr err => mret (msp.zero_Mongod, Some err)
  | MOk ctx => fetchConfiguration ctx
  end.

Definition unexpected_state (m : msp.Mongod) : msp.Error :=
  msp.mkError msp.SlaveMongodProtocolError "Protocol error"
    ("Unexpected msp.Mongod.State value " +:+ msp.State m +:+ " received").

(** [func (c *ConcreteMongodConfigurator) ApplyMongodConfiguration(m msp.Mongod) *msp.Error];
    the error of the shutdown of a removed mongod is assigned to a variable of the
    inner block and then forgotten, and so are the errors of [CreateUser] and
    [ReplSetReconfig]. *)
Definition ApplyMongodConfiguration (m : msp.Mongod) : GoM (session W) (option msp.Error) :=
  let credential := msp.RootCredential (msp.Mongod_ReplicaSetConfig m) in
  res ← connect (msp.Mongod_Port m) credential;
  match res with
  | MErr err => mret (Some err)
  | MOk ctx =>
    _ ← (if LoginSuccessful ctx then mret None
         else CreateUser ctx (msp.Username credential) (msp.Password credential) "MAMID administrative user" ["root"%string]);
    res ← IsMaster ctx;
    match res with
    | MErr err => mret (Some err)
    | MOk isMasterRes =>
      let isMaster := match isMasterRes !! "ismaster"%string with Some (BBool b) => b | _ => false end in
      if decide (msp.State m = msp.MongodStateDestroyed) then
        res ← ReplSetGetStatus ctx;
        match res with
        | (_, _, Some err) => mret (Some err)
        | (replSetState, _, None) =>
            if decide (replSetState = replSetRemoved) then
              _ ← ShutdownWithTimeout ctx MongodSoftShutdownTimeout;
              mret (Some (unexpected_state m))
            else if isMaster : bool then ReplSetStepDown ctx 120
            else mret None
        end
      else if decide (msp.State m = msp.MongodStateNotRunning) then ShutdownWithTimeout ctx MongodSoftShutdownTimeout
      else if decide (msp.State m = msp.MongodStateRunning) then
        if isMaster : bool then
          res ← ReplSetGetConfig ctx;
          match res with
          | MErr err => mret (Some err)
          | MOk config =>
              updated ← updateConfig config m;
              match updated with
              | MErr updateErr => mret (Some updateErr)
              | MOk config => _ ← ReplSetReconfig ctx config; mret None
              end
          end
        else mret None
      else mret (Some (unexpected_state m))
    end
  end.

Definition InitiateReplicaSet (m : msp.RsInitiateMessage) : GoM (session W) (option msp.Error) :=
  let rsConfig := msp.RsInitiate_ReplicaSetConfig m in
  res ← connect (msp.RsInitiate_Port m) (msp.RootCredential rsConfig);
  match res with
  | MErr mspErr => mret (Some mspErr)
  | MOk ctx =>
      updated ← updateConfig ∅ (msp.mkMongod (msp.RsInitiate_Port m) EmptyString rsConfig None None EmptyString);
      match updated with
      | MErr updateErr => mret (Some updateErr)
      | MOk config =>
          res ← ReplSetInitiate ctx config true;
          mret res.2
      end
  end.
End commands.
