(* ===== verification/MemberLists.v ===== *)
(** * The documents of a replica set

    What [updateMembersList] and [updateConfig] of [slave/mongodconfigurator.go] make of
    the document MongoDB reports: ids are kept and never reused, the managed fields are
    the desired ones, and [fetchConfiguration] reads the members back. *)

From Stdlib Require Import Ascii.
From stdpp Require Import base gmap sets list strings fin_maps.
From Stdlib Require Import Lia.
From S2P Require Import Prelude Msp Strconv Configurator.

Open Scope Z_scope.
Set Warnings "-clear-no-such-hyp,-register-all".

Abbreviation doc := (gmap string bson) (only parsing).
Abbreviation host_of m := (hostPortString (msp.Member_HostPort m)).

(** ** Member lists: ids are kept and never reused *)

Definition member_id (d : doc) : option Z := match d !! "_id"%string with Some (BInt n) => Some n | _ => None end.
Definition member_host (d : doc) : option string := match d !! "host"%string with Some (BString h) => Some h | _ => None end.

(** A member document as MongoDB reports it. *)
Definition reported_member (d : doc) : Prop := is_Some (member_id d) ∧ is_Some (member_host d).

Lemma set_member_id m d : member_id (set_member m d) = member_id d.
Proof. unfold member_id, set_member. by rewrite !lookup_insert_ne. Qed.

Lemma new_member_id id : member_id {["_id"%string := BInt id]} = Some id.
Proof. reflexivity. Qed.

Lemma free_id_spec used :
  match free_id used with
  | Some j => 0 ≤ j < 256 ∧ j ∉ used
  | None => (256 ≤ size used)%nat
  end.
Proof.
  unfold free_id. destruct (filter (λ j, j ∉ used) (seqZ 0 256)) as [|j l] eqn:Hf; simpl.
  - assert (list_to_set (seqZ 0 256) ⊆ used) as Hsub%subseteq_size.
    { intros j Hj%elem_of_list_to_set. destruct (decide (j ∈ used)) as [|Hn]; [done|].
      assert (j ∈ filter (λ j, j ∉ used) (seqZ 0 256)) as Hin by by apply list_elem_of_filter.
      rewrite Hf in Hin. by apply not_elem_of_nil in Hin. }
    rewrite size_list_to_set in Hsub by apply NoDup_seqZ. by rewrite length_seqZ in Hsub.
  - assert (j ∈ filter (λ j, j ∉ used) (seqZ 0 256)) as Hin by (rewrite Hf; left).
    apply list_elem_of_filter in Hin as [Hn Hj%elem_of_seqZ]. split; [lia|done].
Qed.

(** What one entry of the result is. *)
Definition entry_ok (used : gset Z) (reported : gmap string doc) (m : msp.ReplicaSetMember) (d : doc) : Prop :=
  match reported !! host_of m with
  | Some old => d = set_member m old
  | None => ∃ id, d = set_member m {["_id"%string := BInt id]} ∧ 0 ≤ id < 256 ∧ id ∉ used
  end.

Definition is_new (reported : gmap string doc) (m : msp.ReplicaSetMember) : Prop := reported !! host_of m = None.
#[export] Instance is_new_dec reported m : Decision (is_new reported m).
Proof. unfold is_new. apply _. Defined.

Lemma entry_ok_weaken used used' reported reported' m d :
  used ⊆ used' → reported' !! host_of m = reported !! host_of m →
  entry_ok used' reported' m d → entry_ok used reported m d.
Proof.
  intros Hsub Heq. unfold entry_ok. rewrite Heq. destruct (reported !! host_of m); [done|].
  intros (id & -> & Hid & Hn). exists id. set_solver.
Qed.

Lemma filter_new_ext reported reported' desired :
  (∀ m, m ∈ desired → reported' !! host_of m = reported !! host_of m) →
  length (filter (is_new reported') desired) = length (filter (is_new reported) desired).
Proof.
  induction desired as [|m desired IH]; intros Heq; [done|]. rewrite !filter_cons.
  assert (length (filter (is_new reported') desired) = length (filter (is_new reported) desired)) as IH'.
  { apply IH. intros x Hx. apply Heq. by right. }
  assert (is_new reported' m ↔ is_new reported m) as Hm by (unfold is_new; rewrite Heq; [done|left]).
  repeat case_decide; simpl; try lia; tauto.
Qed.

(** The result, by position. *)
Record placed (desired : list msp.ReplicaSetMember) (used : gset Z) (reported : gmap string doc) (ms : list doc) : Prop := {
  placed_length : length ms = length desired;
  placed_entry i m d : desired !! i = Some m → ms !! i = Some d → entry_ok used reported m d;
  placed_new_ids i j mi mj di dj : (i < j)%nat → desired !! i = Some mi → desired !! j = Some mj →
    ms !! i = Some di → ms !! j = Some dj → is_new reported mi → is_new reported mj → member_id di ≠ member_id dj
}.

Lemma placed_cons_old m old desired used reported reported' ms :
  reported !! host_of m = Some old →
  (∀ x, x ∈ desired → reported' !! host_of x = reported !! host_of x) →
  placed desired used reported' ms → placed (m :: desired) used reported (set_member m old :: ms).
Proof.
  intros Hold Hext [Hlen Hentry Hids]. split; simpl; [by rewrite Hlen|..].
  - intros [|i] x d Hx Hd; simpl in *; [simplify_eq; unfold entry_ok; by rewrite Hold|].
    eapply entry_ok_weaken; [reflexivity| |by eapply Hentry]. apply Hext. by eapply list_elem_of_lookup_2.
  - intros [|i] [|j] mi mj di dj Hij Hmi Hmj Hdi Hdj Hni Hnj; simpl in *; [lia| |lia|].
    + simplify_eq. unfold is_new in Hni. congruence.
    + apply (Hids i j mi mj); [lia|done..| |]; unfold is_new in *;
        rewrite Hext; (done || by eapply list_elem_of_lookup_2).
Qed.

Lemma placed_cons_new m id desired used reported ms :
  is_new reported m → 0 ≤ id < 256 → id ∉ used → placed desired (used ∪ {[id]}) reported ms →
  placed (m :: desired) used reported (set_member m {["_id"%string := BInt id]} :: ms).
Proof.
  intros Hnew Hid Hused [Hlen Hentry Hids]. split; simpl; [by rewrite Hlen|..].
  - intros [|i] x d Hx Hd; simpl in *.
    + simplify_eq. unfold entry_ok. rewrite Hnew. by exists id.
    + eapply entry_ok_weaken; [|reflexivity|by eapply Hentry]. set_solver.
  - intros [|i] [|j] mi mj di dj Hij Hmi Hmj Hdi Hdj Hni Hnj; simpl in *; [lia| |lia|].
    + simplify_eq. specialize (Hentry j mj dj Hmj Hdj). unfold entry_ok in Hentry. rewrite Hnj in Hentry.
      destruct Hentry as (id' & -> & _ & Hn). rewrite !set_member_id, !new_member_id. intros [= <-].
      apply Hn. set_solver.
    + apply (Hids i j mi mj); [lia|done..].
Qed.

Lemma place_members_spec desired used reported :
  NoDup ((λ m, host_of m) <$> desired) →
  match place_members desired used reported with
  | MOk (reported', refs) =>
      (∀ h, h ∉ (λ m, host_of m) <$> desired → reported' !! h = reported !! h) ∧
      placed desired used reported (deref reported' <$> refs)
  | MErr e => e = no_free_id ∧ (256 < size used + length (filter (is_new reported) desired))%nat
  end.
Proof.
  revert used reported. induction desired as [|m desired IH]; intros used reported Hnd; simpl.
  { split; [done|]. by split. }
  csimpl in Hnd. apply NoDup_cons in Hnd as [Hm Hnd].
  destruct (reported !! host_of m) as [old|] eqn:Hold.
  - specialize (IH used (<[host_of m := set_member m old]> reported) Hnd).
    assert (∀ x, x ∈ desired → <[host_of m := set_member m old]> reported !! host_of x = reported !! host_of x) as Hext.
    { intros x Hx. rewrite lookup_insert_ne; [done|]. intros Heq. apply Hm, list_elem_of_fmap. by exists x. }
    destruct (place_members desired used _) as [[reported' refs]|e].
    + destruct IH as [Hkeep Hplaced]. split.
      * intros h. csimpl. intros [Hne Hh]%not_elem_of_cons. rewrite Hkeep by done. by rewrite lookup_insert_ne.
      * csimpl. rewrite Hkeep, lookup_insert_eq by done. simpl. by eapply placed_cons_old.
    + destruct IH as [-> Hcount]. split; [done|]. rewrite filter_cons, decide_False by (unfold is_new; by rewrite Hold).
      by rewrite (filter_new_ext _ _ _ Hext) in Hcount.
  - pose proof (free_id_spec used) as Hfree. destruct (free_id used) as [id|].
    + destruct Hfree as [Hrange Hused]. specialize (IH (used ∪ {[id]}) reported Hnd).
      destruct (place_members desired (used ∪ {[id]}) reported) as [[reported' refs]|e].
      * destruct IH as [Hkeep Hplaced]. split.
        -- intros h. csimpl. intros [_ Hh]%not_elem_of_cons. by apply Hkeep.
        -- csimpl. by apply placed_cons_new.
      * destruct IH as [-> Hcount]. split; [done|]. rewrite filter_cons, decide_True by done. simpl.
        rewrite size_union, size_singleton in Hcount by set_solver. lia.
    + split; [done|]. rewrite filter_cons, decide_True by done. simpl. lia.
Qed.

Lemma scan_current_cons {S} d id h values used reported (s : S) :
  d !! "_id"%string = Some (BInt id) → d !! "host"%string = Some (BString h) →
  scan_current (BDoc d :: values) used reported s = scan_current values (used ∪ {[id]}) (<[h := d]> reported) s.
Proof.
  intros Hid Hh. cbn [scan_current]. unfold mbind, gom_bind. cbn [as_doc]. unfold mret at 1, gom_ret at 1.
  rewrite Hid. cbn [as_int]. unfold mret at 1, gom_ret at 1. by rewrite Hh.
Qed.

(** The first loop on well-formed members. *)
Lemma scan_current_spec {S} ds used reported (s : S) :
  Forall reported_member ds → NoDup (member_host <$> ds) →
  (∀ d h, d ∈ ds → member_host d = Some h → reported !! h = None) →
  ∃ used' reported', scan_current (BDoc <$> ds) used reported s = (s, Returned (used', reported')) ∧
    (∀ id, id ∈ used' ↔ id ∈ used ∨ Some id ∈ member_id <$> ds) ∧
    (∀ h d, reported' !! h = Some d ↔ reported !! h = Some d ∨ (d ∈ ds ∧ member_host d = Some h)) ∧
    (size used' ≤ size used + length ds)%nat.
Proof.
  intros Hall. revert used reported. induction Hall as [|d ds Hd Hall IH]; intros used reported Hnd Hfresh; csimpl.
  { exists used, reported. split_and!; [done|set_solver| |lia]. intros h d. split; [by left|]. intros [?|[[]%not_elem_of_nil _]]. done. }
  csimpl in Hnd. apply NoDup_cons in Hnd as [Hnot Hnd]. destruct Hd as [[id Hid] [h Hh]].
  assert (d !! "_id"%string = Some (BInt id)) as Hid'.
  { unfold member_id in Hid. repeat (case_match; try done). by simplify_eq. }
  assert (d !! "host"%string = Some (BString h)) as Hh'.
  { unfold member_host in Hh. repeat (case_match; try done). by simplify_eq. }
  destruct (IH (used ∪ {[id]}) (<[h := d]> reported) Hnd) as (used' & reported' & Hrun & Hused & Hrep & Hsize).
  { intros d' h' Hd' Hh2. rewrite lookup_insert_ne; [apply (Hfresh d'); [by right|done]|].
    intros <-. apply Hnot. rewrite Hh, <- Hh2. by apply list_elem_of_fmap_2. }
  exists used', reported'. split_and!.
  - rewrite <- Hrun. by apply scan_current_cons.
  - intros i. rewrite Hused, elem_of_union, elem_of_singleton, elem_of_cons, Hid. naive_solver.
  - intros h' d'. rewrite Hrep, lookup_insert_Some, elem_of_cons.
    assert (reported !! h = None) as Hnone by (apply (Hfresh d); [left|done]).
    split; [|]; intros H; naive_solver congruence.
  - rewrite size_union_alt in Hsize.
    assert (size ({[id]} ∖ used) ≤ 1)%nat by (rewrite <- (size_singleton (C := gset Z) id); apply subseteq_size; set_solver). simpl. lia.
Qed.

(** What [updateMembersList] promises about its result. *)
Record members_updated (ds : list doc) (desired : list msp.ReplicaSetMember) (ms : list doc) : Prop := {
  updated_length : length ms = length desired;
  updated_fields i m d : desired !! i = Some m → ms !! i = Some d →
    d !! "host"%string = Some (BString (host_of m)) ∧ d !! "priority"%string = Some (BDouble (msp.Member_Priority m)) ∧
    d !! "votes"%string = Some (BInt (msp.Member_Votes m));
  updated_kept i m d old : desired !! i = Some m → ms !! i = Some d →
    old ∈ ds → member_host old = Some (host_of m) → member_id d = member_id old;
  updated_new i m d : desired !! i = Some m → ms !! i = Some d →
    (∀ old, old ∈ ds → member_host old ≠ Some (host_of m)) →
    ∃ id, member_id d = Some id ∧ 0 ≤ id < 256 ∧ (∀ old, old ∈ ds → member_id old ≠ Some id);
  updated_distinct i j di dj : i ≠ j → ms !! i = Some di → ms !! j = Some dj → member_id di ≠ member_id dj
}.

Lemma set_member_fields m d :
  set_member m d !! "host"%string = Some (BString (host_of m)) ∧
  set_member m d !! "priority"%string = Some (BDouble (msp.Member_Priority m)) ∧
  set_member m d !! "votes"%string = Some (BInt (msp.Member_Votes m)).
Proof.
  unfold set_member. split_and!; repeat first [rewrite lookup_insert_eq | rewrite lookup_insert_ne by done]; done.
Qed.

Section resulting.
Context (ds : list doc) (desired : list msp.ReplicaSetMember).
Context (Hall : Forall reported_member ds) (Hids : NoDup (member_id <$> ds)) (Hhosts : NoDup ((λ m, host_of m) <$> desired)).
Context (used : gset Z) (reported : gmap string doc).
Context (Hused : ∀ id, id ∈ used ↔ Some id ∈ member_id <$> ds)
  (Hrep : ∀ h d, reported !! h = Some d ↔ d ∈ ds ∧ member_host d = Some h).

Lemma placed_updated ms : placed desired used reported ms → members_updated ds desired ms.
Proof.
  intros [Hlen Hentry Hnew].
  assert (∀ i m d, desired !! i = Some m → ms !! i = Some d →
    (∃ old, d = set_member m old ∧ old ∈ ds ∧ member_host old = Some (host_of m) ∧ ¬ is_new reported m) ∨
    (∃ id, d = set_member m {["_id"%string := BInt id]} ∧ 0 ≤ id < 256 ∧ id ∉ used ∧ is_new reported m)) as Hcases.
  { intros i m d Hm Hd. specialize (Hentry i m d Hm Hd). unfold entry_ok in Hentry.
    destruct (reported !! host_of m) as [old|] eqn:Hr; [left|right].
    - exists old. pose proof Hr as [Hin Hh]%Hrep. split_and!; [done..|]. unfold is_new. congruence.
    - destruct Hentry as (id & -> & ? & ?). exists id. done. }
  split; [done| | | |].
  - intros i m d Hm Hd. destruct (Hcases i m d Hm Hd) as [(old & -> & _)|(id & -> & _)]; apply set_member_fields.
  - intros i m d old Hm Hd Hin Hh. assert (reported !! host_of m = Some old) as Hr by by apply Hrep.
    destruct (Hcases i m d Hm Hd) as [(old' & -> & Hin' & Hh' & _)|(id & _ & _ & _ & Hn)].
    + rewrite set_member_id. assert (reported !! host_of m = Some old') by by apply Hrep. congruence.
    + unfold is_new in Hn. congruence.
  - intros i m d Hm Hd Hno. destruct (Hcases i m d Hm Hd) as [(old & _ & Hin & Hh & _)|(id & -> & Hr & Hn & _)].
    + by destruct (Hno old Hin).
    + exists id. rewrite set_member_id, new_member_id. split_and!; [done|lia|lia|].
      intros old Hin Hid. apply Hn, Hused. rewrite <- Hid. by apply list_elem_of_fmap_2.
  - enough (∀ i j di dj, (i < j)%nat → ms !! i = Some di → ms !! j = Some dj → member_id di ≠ member_id dj) as H.
    { intros i j di dj Hij Hi Hj. destruct (decide (i < j)%nat); [by apply (H i j)|].
      intros Heq. symmetry in Heq. revert Heq. apply (H j i); [lia|done..]. }
    intros i j di dj Hij Hi Hj.
    destruct (lookup_lt_is_Some_2 desired i) as [mi Hmi]; [rewrite <- Hlen; by eapply lookup_lt_Some|].
    destruct (lookup_lt_is_Some_2 desired j) as [mj Hmj]; [rewrite <- Hlen; by eapply lookup_lt_Some|].
    destruct (Hcases i mi di Hmi Hi) as [(oi & Ei & Hoi & Hhi & Hni)|(idi & Ei & _ & Hui & Hni)],
             (Hcases j mj dj Hmj Hj) as [(oj & Ej & Hoj & Hhj & Hnj)|(idj & Ej & _ & Huj & Hnj)].
    + rewrite Ei, Ej, !set_member_id. intros Heq.
      apply list_elem_of_lookup in Hoi as [a Ha], Hoj as [b Hb].
      assert (a = b) as -> by (apply (NoDup_lookup (member_id <$> ds) a b (member_id oi)); [done| |]; rewrite list_lookup_fmap, ?Ha, ?Hb; simpl; congruence).
      assert (host_of mi = host_of mj) as Hsame by congruence.
      assert (i = j); [|lia]. apply (NoDup_lookup ((λ m, host_of m) <$> desired) i j (host_of mi)); [done| |];
        rewrite list_lookup_fmap, ?Hmi, ?Hmj; simpl; congruence.
    + rewrite Ei, Ej, !set_member_id, new_member_id. intros Heq. apply Huj, Hused. rewrite <- Heq. by apply list_elem_of_fmap_2.
    + rewrite Ei, Ej, !set_member_id, new_member_id. intros Heq. apply Hui, Hused. rewrite Heq. by apply list_elem_of_fmap_2.
    + by apply (Hnew i j mi mj).
Qed.
End resulting.

(** The member list of a configuration document, as MongoDB reports it: absent
    before the initiation. *)
Record reported_config (config : doc) (ds : list doc) : Prop := {
  reported_list : match config !! "members"%string with Some v => v = BArray (BDoc <$> ds) | None => ds = [] end;
  reported_fields : Forall reported_member ds;
  reported_ids : NoDup (member_id <$> ds);
  reported_hosts : NoDup (member_host <$> ds)
}.

Lemma reported_config_insert config ds k v :
  k ≠ "members"%string → reported_config config ds → reported_config (<[k := v]> config) ds.
Proof. intros Hk [? ? ? ?]. split; [by rewrite lookup_insert_ne|done..]. Qed.

Lemma updateMembersList_spec {S} config ds desired (s : S) :
  reported_config config ds → NoDup ((λ m, host_of m) <$> desired) →
  ∃ res, updateMembersList config desired s = (s, Returned res) ∧
  match res with
  | MOk ms => members_updated ds desired ms
  | MErr e => e = no_free_id ∧ (256 < length ds + length desired)%nat
  end.
Proof.
  intros [Hconf Hall Hids Hhosts] Hdes.
  destruct (scan_current_spec ds ∅ ∅ s Hall Hhosts) as (used & reported & Hrun & Hused & Hrep & Hsize).
  { intros. apply lookup_empty. }
  assert (updateMembersList config desired s = (s, Returned (resulting_members desired used reported))) as ->.
  { unfold updateMembersList. destruct (config !! "members"%string) as [v|]; [subst v|subst ds].
    - unfold mbind, gom_bind, as_array. cbn. by rewrite Hrun.
    - injection Hrun as <- <-. done. }
  eexists. split; [done|].
  unfold resulting_members. pose proof (place_members_spec desired used reported Hdes) as Hspec.
  destruct (place_members desired used reported) as [[reported' refs]|e].
  - destruct Hspec as [_ Hplaced]. eapply placed_updated; [done..| | |exact Hplaced].
    + intros id. rewrite Hused. set_solver.
    + intros h d. rewrite Hrep, lookup_empty. naive_solver.
  - destruct Hspec as [-> Hcount]. split; [done|].
    pose proof (length_filter (is_new reported) desired). rewrite size_empty in Hsize. lia.
Qed.

Lemma members_updated_lookup ds desired ms i d :
  members_updated ds desired ms → ms !! i = Some d → ∃ m, desired !! i = Some m.
Proof. intros H Hd. apply lookup_lt_is_Some_2. rewrite <- (updated_length _ _ _ H). by eapply lookup_lt_Some. Qed.

(** The new list is again one MongoDB can report. *)
Lemma members_updated_reported ds desired ms config :
  Forall reported_member ds → NoDup ((λ m, host_of m) <$> desired) → members_updated ds desired ms →
  config !! "members"%string = Some (BArray (BDoc <$> ms)) → reported_config config ms.
Proof.
  intros Hall Hdes Hup Hconf.
  assert (∀ i d m, ms !! i = Some d → desired !! i = Some m → member_host d = Some (host_of m)) as Hhost.
  { intros i d m Hd Hm. destruct (updated_fields _ _ _ Hup i m d Hm Hd) as [Hh _]. unfold member_host. by rewrite Hh. }
  split.
  - by rewrite Hconf.
  - apply Forall_lookup. intros i d Hd. destruct (members_updated_lookup _ _ _ _ _ Hup Hd) as [m Hm]. split.
    + destruct (decide (Exists (λ old, member_host old = Some (host_of m)) ds)) as [Hex|Hno].
      * apply Exists_exists in Hex as (old & Hin & Hold). rewrite (updated_kept _ _ _ Hup i m d old) by done.
        rewrite Forall_forall in Hall. by destruct (Hall old Hin).
      * destruct (updated_new _ _ _ Hup i m d) as (id & -> & _); [done..| |by eexists].
        intros old Hin Hold. apply Hno, Exists_exists. by exists old.
    + rewrite (Hhost i d m) by done. by eexists.
  - apply NoDup_alt. intros i j x Hi Hj. rewrite list_lookup_fmap in Hi, Hj.
    destruct (ms !! i) as [di|] eqn:Edi, (ms !! j) as [dj|] eqn:Edj; try done. simplify_eq/=.
    destruct (decide (i = j)) as [|Hne]; [done|]. by destruct (updated_distinct _ _ _ Hup i j di dj Hne Edi Edj).
  - apply NoDup_alt. intros i j x Hi Hj. rewrite list_lookup_fmap in Hi, Hj.
    destruct (ms !! i) as [di|] eqn:Edi, (ms !! j) as [dj|] eqn:Edj; try done. simpl in Hi, Hj.
    assert (member_host dj = member_host di) as Hsame by congruence.
    destruct (members_updated_lookup _ _ _ _ _ Hup Edi) as [mi Hmi], (members_updated_lookup _ _ _ _ _ Hup Edj) as [mj Hmj].
    rewrite (Hhost i di mi), (Hhost j dj mj) in Hsame by done.
    apply (NoDup_lookup ((λ m, host_of m) <$> desired) i j (host_of mi) Hdes); rewrite list_lookup_fmap, ?Hmi, ?Hmj; simpl; congruence.
Qed.

(** The configuration document [updateConfig] produces. *)
Definition config_version (config : doc) : Z := match config !! "version"%string with Some (BInt v) => v | _ => 0 end.
Definition config_fields : list string := ["_id"; "members"; "version"; "configsvr"]%string.

Record config_updated (config : doc) (rsConfig : msp.ReplicaSetConfig) (ms : list doc) (config' : doc) : Prop := {
  updated_name : config' !! "_id"%string = Some (BString (msp.ReplicaSetName rsConfig));
  updated_members : config' !! "members"%string = Some (BArray (BDoc <$> ms));
  updated_version : config' !! "version"%string = Some (BInt (config_version config + 1));
  updated_configsvr : config' !! "configsvr"%string =
    Some (BBool (bool_decide (msp.Config_ShardingRole rsConfig = msp.ShardingRoleConfigServer)));
  updated_rest k : k ∉ config_fields → config' !! k = config !! k
}.

Lemma updateConfig_spec {S} config ds m (s : S) :
  let rsConfig := msp.Mongod_ReplicaSetConfig m in
  reported_config config ds → NoDup ((λ m, host_of m) <$> msp.ReplicaSetMembers rsConfig) →
  ∃ res, updateConfig config m s = (s, Returned res) ∧
  match res with
  | MOk config' => ∃ ms, config_updated config rsConfig ms config' ∧
      members_updated ds (msp.ReplicaSetMembers rsConfig) ms ∧ reported_config config' ms
  | MErr e => e = no_free_id ∧ (256 < length ds + length (msp.ReplicaSetMembers rsConfig))%nat
  end.
Proof.
  cbn zeta. intros Hrep Hdes.
  destruct (updateMembersList_spec (<["_id"%string := BString (msp.ReplicaSetName (msp.Mongod_ReplicaSetConfig m))]> config)
    ds _ s ltac:(by apply reported_config_insert) Hdes) as (res & Hrun & Hres).
  unfold updateConfig. unfold mbind at 1, gom_bind at 1. rewrite Hrun.
  destruct res as [ms|e]; (eexists; split; [done|]); [|done].
  exists ms. split; [split|split; [done|]].
  - by rewrite !lookup_insert_ne, lookup_insert_eq by done.
  - by rewrite !lookup_insert_ne, lookup_insert_eq by done.
  - rewrite lookup_insert_ne, lookup_insert_eq by done. unfold config_version. by rewrite !lookup_insert_ne by done.
  - by rewrite lookup_insert_eq.
  - intros k Hk. unfold config_fields in Hk. rewrite !not_elem_of_cons in Hk. destruct Hk as (? & ? & ? & ? & _).
    by rewrite !lookup_insert_ne by done.
  - eapply members_updated_reported; [by apply Hrep|done..|]. by rewrite !lookup_insert_ne, lookup_insert_eq by done.
Qed.

(** ** Reading the members back *)

(** A member whose host name and port survive [host:port]. *)
Definition plain_member (m : msp.ReplicaSetMember) : Prop :=
  free_of ":" (msp.Hostname (msp.Member_HostPort m)) ∧ 0 ≤ msp.Port (msp.Member_HostPort m) < 65536.

Lemma parse_member_updated {S} m d (s : S) :
  plain_member m → d !! "host"%string = Some (BString (host_of m)) →
  d !! "priority"%string = Some (BDouble (msp.Member_Priority m)) → d !! "votes"%string = Some (BInt (msp.Member_Votes m)) →
  parse_member (BDoc d) s = (s, Returned m).
Proof.
  intros [Hfree Hport] Hh Hp Hv. destruct (port_text_roundtrip _ Hport) as [_ Hatoi].
  unfold parse_member. unfold mbind, gom_bind. cbn [as_doc]. unfold mret at 1, gom_ret at 1. rewrite Hh, Hp, Hv.
  cbn [as_string as_double as_int]. unfold mret, gom_ret.
  assert (Split ":" (host_of m) = [msp.Hostname (msp.Member_HostPort m); fmt_d (msp.Port (msp.Member_HostPort m))]) as ->.
  { apply (Split_app ":"); [done|]. apply digits_free_of_colon, fmt_d_digits. lia. }
  rewrite Hatoi, Z.mod_small by lia. by destruct m as [[] ? ?].
Qed.

(** A document with the three fields the report reads. *)
Definition member_document (m : msp.ReplicaSetMember) (d : doc) : Prop :=
  d !! "host"%string = Some (BString (host_of m)) ∧ d !! "priority"%string = Some (BDouble (msp.Member_Priority m)) ∧
  d !! "votes"%string = Some (BInt (msp.Member_Votes m)).

Lemma members_updated_documents ds desired ms : members_updated ds desired ms → Forall2 member_document desired ms.
Proof.
  intros [Hlen Hfields _ _ _]. apply Forall2_same_length_lookup. split; [done|]. intros i m d Hm Hd. by apply (Hfields i).
Qed.

Lemma parse_member_documents {S} desired ms (s : S) :
  Forall plain_member desired → Forall2 member_document desired ms → parse_members (BDoc <$> ms) s = (s, Returned desired).
Proof.
  intros Hplain Hdocs. induction Hdocs as [|m d desired ms (Hh & Hp & Hv) _ IH]; [done|].
  apply Forall_cons in Hplain as [Hm Hplain]. csimpl. unfold mbind, gom_bind. rewrite (parse_member_updated m d s) by done.
  by rewrite (IH Hplain).
Qed.

Lemma parse_members_updated {S} ds desired ms (s : S) :
  Forall plain_member desired → members_updated ds desired ms → parse_members (BDoc <$> ms) s = (s, Returned desired).
Proof. intros Hplain Hup. by eapply parse_member_documents, members_updated_documents. Qed.
