(* ===== verification/ConfiguratorProperties.v ===== *)
(** * What the configurator promises

    The theorems about [slave/mongodconfigurator.go]: the new document of a replica set,
    the commands a desired state may cause, and the initiation; with concrete mongods. *)

From Stdlib Require Import Ascii.
From stdpp Require Import base gmap sets list strings fin_maps.
From Stdlib Require Import Lia.
From S2P Require Import Prelude Msp Strconv Configurator MemberLists.

Open Scope Z_scope.
Set Warnings "-clear-no-such-hyp,-register-all".

Abbreviation doc := (gmap string bson) (only parsing).
Abbreviation host_of m := (hostPortString (msp.Member_HostPort m)).

(** ** The new document *)

(** C22: Reconfiguring a replica set keeps the [_id] of every member that stays,
    gives every new member an [_id] below 256 that no current member has, and
    never uses an [_id] twice; host, priority and votes are the desired ones, in
    order. The version goes up by one, the fields the program does not manage
    stay, and the new document is again well-formed. The only error is the lack
    of a free [_id], which needs more than 256 current and desired members. This is for
    a configuration whose members have distinct ids and hosts, and desired members with
    distinct addresses. *)
Theorem updateConfig_correct {S} config ds m (s : S) :
  let rsConfig := msp.Mongod_ReplicaSetConfig m in
  reported_config config ds → NoDup ((λ m, host_of m) <$> msp.ReplicaSetMembers rsConfig) →
  ∃ res, updateConfig config m s = (s, Returned res) ∧
  match res with
  | MOk config' => ∃ ms, config_updated config rsConfig ms config' ∧
      members_updated ds (msp.ReplicaSetMembers rsConfig) ms ∧ reported_config config' ms
  | MErr e => e = no_free_id ∧ (256 < length ds + length (msp.ReplicaSetMembers rsConfig))%nat
  end.
Proof. apply updateConfig_spec. Qed.

(** A configured replica set is reported back as configured: the members
    that [fetchConfiguration] reads out of the document of a successful
    [updateConfig] are the desired members, in order, when host names contain no
    colon and ports have 16 bits. *)
Theorem updateConfig_read_back {S} config ds m config' (s : S) :
  let desired := msp.ReplicaSetMembers (msp.Mongod_ReplicaSetConfig m) in
  reported_config config ds → NoDup ((λ m, host_of m) <$> desired) → Forall plain_member desired →
  updateConfig config m s = (s, Returned (MOk config')) →
  ∃ values, config' !! "members"%string = Some (BArray values) ∧ parse_members values s = (s, Returned desired).
Proof.
  cbn zeta. intros Hrep Hdes Hplain Hrun. destruct (updateConfig_spec config ds m s Hrep Hdes) as (res & Hrun' & Hres).
  rewrite Hrun in Hrun'. simplify_eq. destruct Hres as (ms & Hconf & Hup & _).
  exists (BDoc <$> ms). split; [apply Hconf|]. by eapply parse_members_updated.
Qed.

(** ** Which commands a desired state may cause *)

(** What a reply told. *)
Definition told_primary (e : event) : Prop :=
  event_cmd e = CmdIsMaster ∧ (event_reply e).1 !! "ismaster"%string = Some (BBool true).
Definition told_removed (e : event) : Prop :=
  event_cmd e = CmdReplSetGetStatus ∧
  (event_reply e).1 !! (match (event_reply e).2 with Some _ => "state"%string | None => "myState"%string end) =
    Some (BInt replSetRemoved).
Definition told_config (config : doc) (e : event) : Prop :=
  event_cmd e = CmdReplSetGetConfig ∧ (event_reply e).2 = None ∧ (event_reply e).1 !! "config"%string = Some (BDoc config).

(** When a command is justified by the desired mongod and the earlier replies. *)
Definition justified (timeout : Z) (m : msp.Mongod) (before : list event) (cmd : mongo_command) : Prop :=
  match cmd with
  | CmdIsMaster => True
  | CmdReplSetGetStatus => msp.State m = msp.MongodStateDestroyed
  | CmdCreateUser user pwd roles =>
      user = msp.Username (msp.RootCredential (msp.Mongod_ReplicaSetConfig m)) ∧
      pwd = msp.Password (msp.RootCredential (msp.Mongod_ReplicaSetConfig m)) ∧ roles = ["root"%string]
  | CmdShutdown seconds => seconds = timeout ∧
      (msp.State m = msp.MongodStateNotRunning ∨ (msp.State m = msp.MongodStateDestroyed ∧ Exists told_removed before))
  | CmdReplSetStepDown _ => msp.State m = msp.MongodStateDestroyed ∧ Exists told_primary before ∧ ¬ Exists told_removed before
  | CmdReplSetGetConfig => msp.State m = msp.MongodStateRunning
  | CmdReplSetReconfig config' => msp.State m = msp.MongodStateRunning ∧ Exists told_primary before ∧
      ∃ config, Exists (told_config config) before ∧ updateConfig config m tt = (tt, Returned (MOk config'))
  | CmdGetCmdLineOpts | CmdReplSetInitiate _ _ => False
  end.

(** Every command of a session goes to the mongod's port and is justified. *)
Definition commands_justified (timeout : Z) (m : msp.Mongod) (t : list event) : Prop :=
  ∀ i e, t !! i = Some e → event_port e = msp.Mongod_Port m ∧ justified timeout m (take i t) (event_cmd e).

Lemma commands_justified_nil timeout m : commands_justified timeout m [].
Proof. by intros i e. Qed.

Lemma commands_justified_snoc timeout m t e :
  commands_justified timeout m t → event_port e = msp.Mongod_Port m → justified timeout m t (event_cmd e) →
  commands_justified timeout m (t ++ [e]).
Proof.
  intros Ht Hport He i x [Hx|[Hlen Hx]]%lookup_app_Some.
  - destruct (Ht i x Hx) as [? ?]. split; [done|]. rewrite take_app_le; [done|]. apply lookup_lt_Some in Hx. lia.
  - apply list_lookup_singleton_Some in Hx as [Hi <-]. split; [done|].
    replace i with (length t) by lia. by rewrite take_app_length.
Qed.

(** Computations that neither look at nor change the state they are run in, and end. *)
Definition same_run {S T A} (m1 : GoM S A) (m2 : GoM T A) : Prop :=
  ∀ s t, ∃ r, m1 s = (s, r) ∧ m2 t = (t, r) ∧ r ≠ OutOfFuel.

Lemma same_run_bind {S T A B} (m1 : GoM S A) (m2 : GoM T A) (f1 : A → GoM S B) (f2 : A → GoM T B) :
  same_run m1 m2 → (∀ a, same_run (f1 a) (f2 a)) → same_run (m1 ≫= f1) (m2 ≫= f2).
Proof.
  intros Hm Hf s t. destruct (Hm s t) as (r & H1 & H2 & Hr). unfold mbind, gom_bind. rewrite H1, H2.
  destruct r as [a|v|]; [apply Hf|by eexists|done].
Qed.

Lemma same_run_ret {S T A} (a : A) : same_run (S := S) (T := T) (mret a) (mret a).
Proof. intros s t. by eexists. Qed.
Lemma same_run_panic {S T A} v : same_run (S := S) (T := T) (A := A) (panic v) (panic v).
Proof. intros s t. by eexists. Qed.
#[local] Hint Resolve same_run_ret same_run_panic : core.

Lemma scan_current_stateless {S T} values used reported :
  same_run (S := S) (T := T) (scan_current values used reported) (scan_current values used reported).
Proof.
  revert used reported. induction values as [|value values IH]; intros used reported; [apply same_run_ret|].
  cbn [scan_current]. apply same_run_bind; [unfold as_doc, conversion_panic; by repeat case_match|]. intros d.
  apply same_run_bind; [unfold as_int, conversion_panic; by repeat case_match|]. intros n.
  apply same_run_bind; [unfold as_string, conversion_panic; by repeat case_match|]. intros h. apply IH.
Qed.

Lemma updateConfig_stateless {S T} config m :
  same_run (S := S) (T := T) (updateConfig config m) (updateConfig config m).
Proof.
  unfold updateConfig. apply same_run_bind; [|intros []; apply same_run_ret].
  unfold updateMembersList. case_match; [|apply same_run_ret].
  apply same_run_bind; [unfold as_array, conversion_panic; by repeat case_match|]. intros l.
  apply same_run_bind; [apply scan_current_stateless|]. intros r. apply same_run_ret.
Qed.

Section safety.
Context {W : Type} `{MONGO : Mongo W} (timeout : Z) (m : msp.Mongod).
Implicit Types (s : session W) (ctx : mgoContext).

Lemma wp_Run ctx cmd Q E s :
  ctx_Port ctx = msp.Mongod_Port m → commands_justified timeout m (issued s) → justified timeout m (issued s) cmd →
  (∀ s' reply, issued s' = issued s ++ [mkEvent (ctx_Port ctx) cmd reply] →
     commands_justified timeout m (issued s') → Q reply s') →
  wp (Run ctx cmd) Q E s.
Proof.
  intros Hport Hs Hcmd HQ. unfold wp, Run. destruct (mongo_run _ _ _) as [w reply]. apply HQ; [done|].
  by apply commands_justified_snoc.
Qed.

Lemma wp_as_int v Q E s : (∀ n, v = Some (BInt n) → Q n s) → E (VString "interface conversion") s → wp (as_int v) Q E s.
Proof. intros HQ HE. unfold as_int, conversion_panic. repeat case_match; subst; try by apply wp_panic. by apply wp_ret, HQ. Qed.
Lemma wp_as_doc v Q E s : (∀ n, v = Some (BDoc n) → Q n s) → E (VString "interface conversion") s → wp (as_doc v) Q E s.
Proof. intros HQ HE. unfold as_doc, conversion_panic. repeat case_match; subst; try by apply wp_panic. by apply wp_ret, HQ. Qed.

Abbreviation good := (λ s, commands_justified timeout m (issued s)).

Lemma wp_IsMaster ctx (Q : mres doc → session W → Prop) E s :
  ctx_Port ctx = msp.Mongod_Port m → good s →
  (∀ s' e r, issued s' = issued s ++ [e] → event_cmd e = CmdIsMaster → good s' →
     (∀ d, r = MOk d → (event_reply e).1 = d) → Q r s') →
  wp (IsMaster ctx) Q E s.
Proof.
  intros Hport Hs HQ. unfold IsMaster. wp_step. apply wp_Run; [done..|]. intros s' [d [err|]] Hi Hg; apply wp_ret.
  - by eapply HQ.
  - eapply HQ; [done..|]. by intros ? [= <-].
Qed.

Lemma wp_ReplSetGetStatus ctx (Q : Z * doc * option msp.Error → session W → Prop) (E : goval → session W → Prop) s :
  ctx_Port ctx = msp.Mongod_Port m → good s → msp.State m = msp.MongodStateDestroyed →
  (∀ v s', good s' → E v s') →
  (∀ s' e r, issued s' = issued s ++ [e] → event_cmd e = CmdReplSetGetStatus → good s' →
     (r.2 = None → (told_removed e ↔ r.1.1 = replSetRemoved)) → Q r s') →
  wp (ReplSetGetStatus ctx) Q E s.
Proof.
  intros Hport Hs Hstate HE HQ. unfold ReplSetGetStatus. wp_step. apply wp_Run; [done..|].
  intros s' [d err] Hi Hg. cbn zeta. destruct (d !! _) as [v|] eqn:Hv.
  - wp_step. apply wp_as_int; [|by apply HE]. intros n [= ->]. apply wp_ret. eapply HQ; [done..|]. intros _.
    unfold told_removed. simpl. destruct err; rewrite Hv; split; [intros [_ [= ->]]| |intros [_ [= ->]]|]; by try intros ->.
  - destruct err; apply wp_ret; by eapply HQ.
Qed.

Lemma wp_ReplSetGetConfig ctx (Q : mres doc → session W → Prop) (E : goval → session W → Prop) s :
  ctx_Port ctx = msp.Mongod_Port m → good s → msp.State m = msp.MongodStateRunning →
  (∀ v s', good s' → E v s') →
  (∀ s' e r, issued s' = issued s ++ [e] → good s' → (∀ config, r = MOk config → told_config config e) → Q r s') →
  wp (ReplSetGetConfig ctx) Q E s.
Proof.
  intros Hport Hs Hstate HE HQ. unfold ReplSetGetConfig. wp_step. apply wp_Run; [done..|].
  intros s' [d [err|]] Hi Hg; [apply wp_ret; by eapply HQ|].
  wp_step. apply wp_as_doc; [|by apply HE]. intros config Hc. apply wp_ret. eapply HQ; [done..|]. by intros ? [= <-].
Qed.

(** Commands whose reply is only an error or its absence. *)
Lemma wp_command {A} ctx cmd (k : doc * option run_error → GoM (session W) A) s :
  ctx_Port ctx = msp.Mongod_Port m → good s → justified timeout m (issued s) cmd →
  (∀ reply s', issued s' = issued s ++ [mkEvent (ctx_Port ctx) cmd reply] → good s' → wp (k reply) (λ _, good) (λ _, good) s') →
  wp (reply ← Run ctx cmd; k reply) (λ _, good) (λ _, good) s.
Proof. intros Hp Hs Hj HQ. wp_step. apply wp_Run; [done..|]. intros s' reply Hi Hg. by apply HQ. Qed.

Ltac simple_command := apply wp_command; [done..| | intros [? [?|]] ? ? ?; by apply wp_ret].

Lemma wp_updateConfig config (Q : mres doc → session W → Prop) (E : goval → session W → Prop) s :
  (∀ v, E v s) → (∀ r, updateConfig config m tt = (tt, Returned r) → Q r s) → wp (updateConfig config m) Q E s.
Proof.
  intros HE HQ. unfold wp. destruct (updateConfig_stateless (T := unit) config m s tt) as (r & -> & Ht & Hr).
  destruct r as [r|v|]; [by apply HQ|by apply HE|done].
Qed.

Lemma ApplyMongodConfiguration_commands w :
  wp (ApplyMongodConfiguration timeout m) (λ _, good) (λ _, good) (mkSession w []).
Proof.
  assert (good (mkSession w [])) as H0 by apply commands_justified_nil.
  unfold ApplyMongodConfiguration, connect. wp_steps. cbn [world].
  destruct (mongo_dial _ w) as [e|]; wp_steps; [done|]. set (ctx := mkMgoContext _ _).
  assert (wp (if LoginSuccessful ctx then mret None
     else CreateUser ctx (msp.Username (msp.RootCredential (msp.Mongod_ReplicaSetConfig m)))
       (msp.Password (msp.RootCredential (msp.Mongod_ReplicaSetConfig m))) "MAMID administrative user" ["root"%string])
     (λ _ s, good s ∧ ¬ Exists told_removed (issued s)) (λ _, good) (mkSession w [])) as Hlogin.
  { destruct (LoginSuccessful ctx); [apply wp_ret; split; [done|]; simpl; rewrite Exists_nil; tauto|].
    unfold CreateUser. wp_step. apply wp_Run; [done..|]. intros s' [? err] Hi Hg.
    assert (¬ Exists told_removed (issued s')).
    { rewrite Hi. simpl. rewrite Exists_cons, Exists_nil. unfold told_removed. simpl. intros [[? _]|[]]. done. }
    destruct err; by apply wp_ret. }
  eapply wp_mono; [exact Hlogin| |done]. intros _ s1 [Hg1 Hn1].
  wp_step. apply wp_IsMaster; [done..|]. intros s2 e2 r2 Hi2 Hc2 Hg2 Hd2. destruct r2 as [d|e]; [|by apply wp_ret].
  specialize (Hd2 d eq_refl).
  cbn zeta. set (isMaster := match d !! "ismaster"%string with Some (BBool b) => b | _ => false end).
  assert (isMaster = true → Exists told_primary (issued s2)) as Hprimary.
  { unfold isMaster. intros Htrue. rewrite Hi2. apply Exists_app. right. apply Exists_cons. left. split; [done|].
    rewrite Hd2. destruct (d !! _) as [[| | |[]| |]|]; congruence. }
  clearbody isMaster. case_decide as Hdes; [|case_decide as Hnot; [|case_decide as Hrun]].
  - wp_step. apply wp_ReplSetGetStatus; [done..|]. intros s3 e3 [[state status] err] Hi3 Hc3 Hg3 Hst.
    destruct err as [err|]; [by apply wp_ret|]. specialize (Hst eq_refl). simpl in Hst. case_decide as Hrem.
    + wp_step. eapply wp_mono; [unfold ShutdownWithTimeout; simple_command| |done].
      * split; [done|]. right. split; [done|]. rewrite Hi3. apply Exists_app. right. apply Exists_cons. left. by apply Hst.
      * intros ? ? ?. by apply wp_ret.
    + destruct isMaster; [|by apply wp_ret]. unfold ReplSetStepDown. simple_command.
      split_and!; [done| |].
      * rewrite Hi3, Exists_app. left. by apply Hprimary.
      * rewrite Hi3, Hi2, !Exists_app, !Exists_cons, !Exists_nil. intros [[?|[[? _]|[]]]|[?|[]]]; [done|congruence|].
        by apply Hrem, Hst.
  - unfold ShutdownWithTimeout. simple_command. split; [done|]. by left.
  - destruct isMaster; [|by apply wp_ret]. wp_step. apply wp_ReplSetGetConfig; [done..|].
    intros s3 e3 r3 Hi3 Hg3 Hc3. destruct r3 as [config|err]; [|by apply wp_ret]. specialize (Hc3 config eq_refl).
    wp_step. apply wp_updateConfig; [done|]. intros [config'|e] Hup; [|by apply wp_ret].
    wp_step. eapply wp_mono; [unfold ReplSetReconfig; simple_command| |done].
    + split; [done|]. rewrite Hi3, !Exists_app, Exists_cons. split; [by left; apply Hprimary|].
      exists config. split; [|done]. rewrite Exists_app, Exists_cons. tauto.
    + intros ? ? ?. by apply wp_ret.
  - by apply wp_ret.
Qed.
End safety.

(** C17: Whatever the mongod replies, applying a desired state only issues commands
    that the desired state and the earlier replies justify, all to that mongod:
    it is shut down only when it should not run, or should be destroyed and has
    been removed from its replica set; it steps down only as the primary that
    should be destroyed and is not yet removed; the replica set is reconfigured
    only through its primary, with the configuration computed from the one just
    read. The call always ends, though an unexpected reply may make it panic. *)
Theorem ApplyMongodConfiguration_justified {W} `{Mongo W} timeout m w :
  ∃ s' r, ApplyMongodConfiguration timeout m (mkSession w []) = (s', r) ∧ r ≠ OutOfFuel ∧
    commands_justified timeout m (issued s').
Proof.
  pose proof (ApplyMongodConfiguration_commands timeout m w) as Hwp. unfold wp in Hwp.
  destruct (ApplyMongodConfiguration timeout m (mkSession w [])) as [s' [r|v|]]; [by do 2 eexists..|done].
Qed.

(** C36: Initiating a replica set of at most 256 members with distinct addresses: when the
    mongod cannot be reached nothing is sent and an error of the connection, naming the
    cause, is returned. Otherwise exactly one command is sent, [replSetInitiate], with
    version 1 and the desired members under distinct ids; a replica set that is already
    initiated (error code 23) is not an error, every other failure is returned with the
    identifier of a failed initiation. *)
Theorem InitiateReplicaSet_correct {W} `{Mongo W} msg w :
  let port := msp.RsInitiate_Port msg in
  let rsConfig := msp.RsInitiate_ReplicaSetConfig msg in
  NoDup ((λ m, host_of m) <$> msp.ReplicaSetMembers rsConfig) →
  (length (msp.ReplicaSetMembers rsConfig) ≤ 256)%nat →
  match mongo_dial port w with
  | Some dialErr => ∃ e, InitiateReplicaSet msg (mkSession w []) = (mkSession w [], Returned (Some e)) ∧
      msp.Identifier e = msp.SlaveConnectMongodError ∧
      msp.LongDescription e = "ConcreteMongodConfigurator.connect() failed with: " +:+ error_text dialErr
  | None => ∃ config ms reply w' r,
      InitiateReplicaSet msg (mkSession w []) = (mkSession w' [mkEvent port (CmdReplSetInitiate config true) reply], Returned r) ∧
      config_updated ∅ rsConfig ms config ∧ members_updated [] (msp.ReplicaSetMembers rsConfig) ms ∧
      config !! "version"%string = Some (BInt 1) ∧
      match reply.2 with
      | None => r = None
      | Some (QueryError 23 _) => r = None
      | Some _ => ∃ e, r = Some e ∧ msp.Identifier e = msp.SlaveReplicaSetInitError
      end
  end.
Proof.
  cbn zeta. intros Hdes Hlen.
  destruct (mongo_dial _ w) as [dialErr|] eqn:Hdial.
  { unfold InitiateReplicaSet, connect, mbind, gom_bind. cbn [get_state world]. rewrite Hdial. by eexists. }
  set (m := msp.mkMongod (msp.RsInitiate_Port msg) EmptyString (msp.RsInitiate_ReplicaSetConfig msg) None None EmptyString).
  destruct (updateConfig_spec ∅ [] m (mkSession w [])) as (res & Hup & Hres); [by split; rewrite ?lookup_empty; csimpl; [|apply Forall_nil|apply NoDup_nil|apply NoDup_nil]|done|].
  destruct res as [config|e]; [|simpl in Hres; lia]. destruct Hres as (ms & Hconf & Hms & _).
  destruct (mongo_run (msp.RsInitiate_Port msg) (CmdReplSetInitiate config true) w) as [w' reply] eqn:Hreply.
  exists config, ms, reply, w'. unfold InitiateReplicaSet, connect. unfold mbind, gom_bind. cbn [get_state world].
  rewrite Hdial. unfold mret at 1, gom_ret at 1. fold m. rewrite Hup.
  unfold ReplSetInitiate, Run. unfold mbind, gom_bind. cbn [ctx_Port world issued]. rewrite Hreply.
  destruct reply as [d [[code text|text]|]]; [destruct (decide (code = 23)) as [->|Hcode]|..];
    rewrite ?bool_decide_true, ?bool_decide_false by done; (eexists; split; [done|split_and!; [done..|apply Hconf|]]); try done; try by eexists.
  cbn [snd]. repeat case_match; simplify_eq; by eexists.
Qed.

(** ** A replica set of two, one of them being replaced *)

Definition example_member (id : Z) (host : string) : doc := {["_id"%string := BInt id; "host"%string := BString host]}.
Definition example_config : doc :=
  {["members"%string := BArray (BDoc <$> [example_member 0 "a:1"; example_member 2 "b:2"]); "version"%string := BInt 7]}.
Definition example_desired (state : string) : msp.Mongod :=
  msp.mkMongod 1 EmptyString
    (msp.mkReplicaSetConfig "rs"
      [msp.mkReplicaSetMember (msp.mkHostPort "b" 2) (float64_of_int 1) 1;
       msp.mkReplicaSetMember (msp.mkHostPort "c" 3) (float64_of_int 1) 1] "none" msp.zero_Credential) None None state.

(** A mongod that has been removed from its replica set, and obeys. *)
#[local] Instance removed_mongod : Mongo unit := {|
  mongo_dial _ _ := None;
  mongo_login _ _ _ := true;
  mongo_run _ cmd _ :=
    (tt, match cmd with
         | CmdReplSetGetStatus => ({["state"%string := BInt replSetRemoved]}, Some (OtherError "removed"))
         | _ => (∅, None)
         end);
  show_doc _ := EmptyString;
  show_error _ := EmptyString
|}.

(** The successful shutdown of a removed mongod is reported as a protocol error. *)
Example removed_shutdown_is_an_error :
  (ApplyMongodConfiguration 10 (example_desired msp.MongodStateDestroyed) (mkSession tt [])).2 =
    Returned (Some (unexpected_state (example_desired msp.MongodStateDestroyed))) ∧
  event_cmd <$> issued (ApplyMongodConfiguration 10 (example_desired msp.MongodStateDestroyed) (mkSession tt [])).1 =
    [CmdIsMaster; CmdReplSetGetStatus; CmdShutdown 10].
Proof. split; vm_compute; reflexivity. Qed.

Lemma example_config_reported : reported_config example_config [example_member 0 "a:1"; example_member 2 "b:2"].
Proof.
  split; [reflexivity| |..].
  - repeat constructor; vm_compute; by eexists.
  - apply (bool_decide_unpack _). vm_compute. exact I.
  - apply (bool_decide_unpack _). vm_compute. exact I.
Defined.

Lemma example_desired_hosts state :
  NoDup ((λ m, host_of m) <$> msp.ReplicaSetMembers (msp.Mongod_ReplicaSetConfig (example_desired state))).
Proof. apply (bool_decide_unpack _). vm_compute. exact I. Defined.

(** The new member gets the first free id, 1. *)
Example updateMembersList_example :
  match updateConfig example_config (example_desired msp.MongodStateRunning) tt with
  | (_, Returned (MOk config)) =>
      match config !! "members"%string with
      | Some (BArray [BDoc b; BDoc c]) => (member_id b, member_id c, config_version config) = (Some 2, Some 1, 8)
      | _ => False
      end
  | _ => False
  end.
Proof. vm_compute. reflexivity. Qed.

Lemma updateConfig_correct_witness :
  ∃ res, updateConfig example_config (example_desired msp.MongodStateRunning) tt = (tt, Returned res) ∧
  match res with
  | MOk config' => ∃ ms, config_updated example_config (msp.Mongod_ReplicaSetConfig (example_desired msp.MongodStateRunning)) ms config' ∧
      members_updated [example_member 0 "a:1"; example_member 2 "b:2"]
        (msp.ReplicaSetMembers (msp.Mongod_ReplicaSetConfig (example_desired msp.MongodStateRunning))) ms ∧ reported_config config' ms
  | MErr e => e = no_free_id ∧ (256 < 2 + 2)%nat
  end.
Proof.
  apply (updateConfig_correct example_config [example_member 0 "a:1"; example_member 2 "b:2"]
    (example_desired msp.MongodStateRunning) tt);
    [apply example_config_reported|apply example_desired_hosts].
Defined.

Lemma updateConfig_read_back_witness :
  ∃ config' values, updateConfig example_config (example_desired msp.MongodStateRunning) tt = (tt, Returned (MOk config')) ∧
  config' !! "members"%string = Some (BArray values) ∧
  parse_members values tt = (tt, Returned (msp.ReplicaSetMembers (msp.Mongod_ReplicaSetConfig (example_desired msp.MongodStateRunning)))).
Proof.
  assert (match (updateConfig example_config (example_desired msp.MongodStateRunning) tt).2 with
          | Returned (MOk _) => true | _ => false end = true) as Hok by (vm_compute; reflexivity).
  destruct (updateConfig example_config (example_desired msp.MongodStateRunning) tt) as [[] res] eqn:Hrun.
  destruct res as [[config'|e]|v|]; [|discriminate Hok..].
  destruct (updateConfig_read_back example_config [example_member 0 "a:1"; example_member 2 "b:2"]
    (example_desired msp.MongodStateRunning) config' tt) as (values & ? & ?);
    [apply example_config_reported|apply example_desired_hosts| |exact Hrun|by exists config', values].
  repeat constructor; simpl; done || lia.
Defined.

Lemma InitiateReplicaSet_correct_witness :
  let msg := msp.mkRsInitiateMessage 1 (msp.Mongod_ReplicaSetConfig (example_desired msp.MongodStateRunning)) in
  ∃ config ms reply w' r,
    InitiateReplicaSet msg (mkSession tt []) = (mkSession w' [mkEvent 1 (CmdReplSetInitiate config true) reply], Returned r) ∧
    config_updated ∅ (msp.RsInitiate_ReplicaSetConfig msg) ms config ∧
    members_updated [] (msp.ReplicaSetMembers (msp.RsInitiate_ReplicaSetConfig msg)) ms ∧
    config !! "version"%string = Some (BInt 1) ∧
    match reply.2 with
    | None => r = None
    | Some (QueryError 23 _) => r = None
    | Some _ => ∃ e, r = Some e ∧ msp.Identifier e = msp.SlaveReplicaSetInitError
    end.
Proof.
  refine (InitiateReplicaSet_correct (msp.mkRsInitiateMessage 1 (msp.Mongod_ReplicaSetConfig (example_desired msp.MongodStateRunning))) tt _ _);
    [apply (example_desired_hosts msp.MongodStateRunning)|simpl; lia].
Defined.
