(* ===== verification/Controller.v ===== *)
(** * The slave's controller

    [slave/controller.go]: the listener's consumer.  It combines the process
    manager with a configurator, the interface [MongodConfigurator], of which
    [ConcreteMongodConfigurator] is an instance.  The lock each handler holds is
    the subject of [BusyTable]; here a handler runs on its own, and the processes
    may end meanwhile. *)

From Stdlib Require Import Ascii.
From stdpp Require Import base gmap sets list strings fin_maps sorting.
From Stdlib Require Import Lia.
From S2P Require Import Prelude Msp Strconv Rpc ProcessManager Configurator.

Open Scope Z_scope.
Set Warnings "-clear-no-such-hyp".

(** ** The interface *)

(** [type MongodConfigurator interface], on a state [C]. *)
Class MongodConfigurator (C : Type) := {
  configurator_MongodConfiguration : Z → msp.MongodCredential → GoM C (msp.Mongod * option msp.Error);
  configurator_ApplyMongodConfiguration : msp.Mongod → GoM C (option msp.Error);
  configurator_InitiateReplicaSet : msp.RsInitiateMessage → GoM C (option msp.Error)
}.

(** What the controller relies on: a configuration read without error is that of
    the port asked for. *)
Class ConfiguratorLaws (C : Type) `{MongodConfigurator C} : Prop := {
  configuration_port port cred c :
    match configurator_MongodConfiguration port cred c with
    | (_, Returned (m, None)) => msp.Mongod_Port m = port
    | (_, OutOfFuel) => False
    | _ => True
    end;
  apply_ends m c : (configurator_ApplyMongodConfiguration m c).2 ≠ OutOfFuel
}.

(** ** State *)

Record Controller (C : Type) := mkController {
  procManager : ProcessManager;
  configurator : C;
  mongodCredentials : gmap Z msp.MongodCredential
}.
Arguments mkController {C} procManager configurator mongodCredentials.
Arguments procManager {C} c.
Arguments configurator {C} c.
Arguments mongodCredentials {C} c.

Section controller.
Context {C : Type} `{MC : MongodConfigurator C} `{O : OS}.
Abbreviation M := (GoM (Controller C)).

(** Calls on the parts of the state. *)
Definition set_procManager (p : ProcessManager) (c : Controller C) : Controller C := mkController p (configurator c) (mongodCredentials c).
Definition set_configurator (x : C) (c : Controller C) : Controller C := mkController (procManager c) x (mongodCredentials c).
Definition in_procs {A} (f : GoM ProcessManager A) : M A := in_part procManager set_procManager f.
Definition in_configurator {A} (f : GoM C A) : M A := in_part configurator set_configurator f.
Definition has_process (port : Z) : M bool := λ c, (c, Returned (HasProcess port (procManager c))).

(** What the processes do while a command to a mongod, or a signal, takes effect,
    and in which order the goroutines of [RequestStatus] answer. *)
Context (meanwhile : ProcessManager → ProcessManager).
Context (scheduled : list (Z * string) → list (Z * string)).
Definition elapse : M unit := in_procs (modify_state meanwhile).

(** ** RequestStatus *)

Definition failed_status (port : Z) (err : msp.Error) : msp.Mongod :=
  msp.mkMongod port EmptyString msp.zero_ReplicaSetConfig (Some err) None msp.MongodStateNotRunning.

Definition no_credentials : msp.Error :=
  msp.mkError msp.SlaveGetMongodStatusError "Consistency problem in Slave"
    "MongodConfigurator cannot query MongodConfiguration without credentials".

(** The goroutine of one directory. *)
Definition report (entry : Z * string) : M msp.Mongod :=
  let '(port, replSetName) := entry in
  running ← has_process port;
  if running : bool then
    c ← get_state;
    match mongodCredentials c !! port with
    | None => mret (failed_status port no_credentials)
    | Some cred =>
        res ← in_configurator (configurator_MongodConfiguration port cred);
        match res with
        | (_, Some err) => mret (failed_status port err)
        | (mongod, None) => mret mongod
        end
    end
  else
    mret (msp.mkMongod port EmptyString
      (msp.mkReplicaSetConfig replSetName [] EmptyString msp.zero_Credential) None None msp.MongodStateNotRunning).

Fixpoint report_all (entries : list (Z * string)) : M (list msp.Mongod) :=
  match entries with
  | [] => mret []
  | entry :: entries =>
      mongod ← report entry;
      mongods ← report_all entries;
      mret (mongod :: mongods)
  end.

Definition unreadable_directory (e : gerror) : msp.Error :=
  msp.mkError msp.SlaveGetMongodStatusError "Unable to read mongods from db directory"
    ("ProcessManager.ExistingDataDirectories() failed: " +:+ error_text e).

(** On an error the result is an empty slice, not [nil]. *)
Definition RequestStatus : M (option (list msp.Mongod) * option msp.Error) :=
  res ← in_procs parseProcessDirTree;
  match res with
  | Err e => mret (Some [], Some (unreadable_directory e))
  | Ok replSetNameByPortNumber =>
      mongods ← report_all (scheduled (map_to_list replSetNameByPortNumber));
      mret (Some mongods, None)
  end.

(** ** EstablishMongodState *)

Definition spawn_error (m : msp.Mongod) (e : gerror) : msp.Error :=
  msp.mkError msp.SlaveSpawnError
    ("Unable to start a Mongod instance on port `" +:+ fmt_d (msp.Mongod_Port m) +:+ "`")
    ("ProcessManager.spawnProcess() failed to spawn Mongod on port `" +:+ fmt_d (msp.Mongod_Port m) +:+
      "` with name `" +:+ msp.ReplicaSetName (msp.Mongod_ReplicaSetConfig m) +:+ "`: " +:+ error_text e).

Definition kill_error (m : msp.Mongod) (e : gerror) : msp.Error :=
  msp.mkError msp.SlaveShutdownError
    ("could not kill Mongod on port `" +:+ fmt_d (msp.Mongod_Port m) +:+ "`") ("error was: " +:+ error_text e).

Definition unknown_desired_state : msp.Error := msp.mkError msp.BadStateDescription "Unknown desired state" EmptyString.

(** [//Destroy data when process is not running anymore]: the error of the
    removal is dropped. *)
Definition destroy_if_stopped (m : msp.Mongod) : M (option msp.Error) :=
  running ← has_process (msp.Mongod_Port m);
  if running : bool then mret None
  else _ ← in_procs (destroyDataDirectory m); mret None.

Definition EstablishMongodState (m : msp.Mongod) : M (option msp.Error) :=
  _ ← modify_state (λ c, mkController (procManager c) (configurator c)
        (<[msp.Mongod_Port m := msp.RootCredential (msp.Mongod_ReplicaSetConfig m)]> (mongodCredentials c)));
  if decide (msp.State m = msp.MongodStateRunning) then
    running ← has_process (msp.Mongod_Port m);
    err ← (if running : bool then mret None else in_procs (SpawnProcess m));
    match err with
    | Some e => mret (Some (spawn_error m e))
    | None => in_configurator (configurator_ApplyMongodConfiguration m)
    end
  else if decide (msp.State m = msp.MongodStateNotRunning) then
    _ ← in_configurator (configurator_ApplyMongodConfiguration m);
    mret None
  else if decide (msp.State m = msp.MongodStateDestroyed) then
    _ ← in_configurator (configurator_ApplyMongodConfiguration m);
    _ ← elapse;
    destroy_if_stopped m
  else if decide (msp.State m = msp.MongodStateForceDestroyed) then
    killErr ← in_procs (KillProcess (msp.Mongod_Port m));
    match killErr with
    | Some e => mret (Some (kill_error m e))
    | None => _ ← elapse; destroy_if_stopped m
    end
  else mret (Some unknown_desired_state).

Definition Controller_RsInitiate (m : msp.RsInitiateMessage) : M (option msp.Error) :=
  in_configurator (configurator_InitiateReplicaSet m).

(** The consumer [main] gives to [msp.NewServer]. *)
Definition controller_consumer : Consumer (Controller C) := mkConsumer RequestStatus EstablishMongodState Controller_RsInitiate.
End controller.

(** ** [ConcreteMongodConfigurator] implements the interface *)

#[export] Instance ConcreteMongodConfigurator {W} `{Mongo W} (MongodSoftShutdownTimeout : Z) :
  MongodConfigurator (session W) := {|
  configurator_MongodConfiguration := MongodConfiguration;
  configurator_ApplyMongodConfiguration := ApplyMongodConfiguration MongodSoftShutdownTimeout;
  configurator_InitiateReplicaSet := InitiateReplicaSet
|}.

Section concrete.
Context {W : Type} `{MONGO : Mongo W}.

Lemma ends_Run ctx cmd : ends (Run ctx cmd).
Proof. intros s. unfold Run. by destruct (mongo_run _ _ _). Qed.
#[local] Hint Resolve ends_Run : mamid.

(** Follows the program text down to the primitive computations. *)
Ltac ends_tac :=
  repeat first
    [ assumption
    | apply ends_ret | apply ends_panic | apply ends_get | apply ends_Run
    | apply ends_bind; [|intros ?]
    | progress cbn zeta
    | case_match; subst
    | progress unfold as_doc, as_int, as_string, as_double, as_bool, as_array, conversion_panic,
        IsMaster, ReplSetGetStatus, ReplSetGetConfig, ParseCmdLineShardingRole, ShutdownWithTimeout, ReplSetStepDown,
        CreateUser, ReplSetReconfig, connect, updateConfig, updateMembersList ].

Lemma ends_scan_current values used reported : ends (S := session W) (scan_current values used reported).
Proof. revert used reported. induction values as [|v values IH]; intros used reported; cbn [scan_current]; ends_tac; apply IH. Qed.
Lemma ends_parse_members values : ends (S := session W) (parse_members values).
Proof. induction values as [|v values IH]; cbn [parse_members]; unfold parse_member; ends_tac. Qed.

Lemma ends_ApplyMongodConfiguration timeout m : ends (ApplyMongodConfiguration timeout m).
Proof. unfold ApplyMongodConfiguration. ends_tac. all: apply ends_scan_current. Qed.
Lemma fetchConfiguration_port ctx s :
  wp (fetchConfiguration ctx) (λ r _, r.2 = None → msp.Mongod_Port r.1 = ctx_Port ctx) (λ _ _, True) s.
Proof.
  unfold fetchConfiguration. cbn zeta. wp_step. apply wp_ends; [ends_tac| |done]. intros [isMasterRes|e] s1; [|by wp_steps].
  case_match; [|by wp_steps]. wp_step. apply wp_ends; [ends_tac| |done]. intros [[state status] [e|]] s2; [by wp_steps|].
  set (mongod := if decide (state = replSetRecovering) then _ else _).
  assert (msp.Mongod_Port mongod = ctx_Port ctx) as Hport by (unfold mongod; by repeat case_decide).
  clearbody mongod. case_decide; [by wp_steps|].
  wp_step. apply wp_ends; [ends_tac| |done]. intros [config|e] s3; [|by wp_steps].
  wp_step. apply wp_ends; [ends_tac| |done]. intros name s4.
  wp_step. apply wp_ends; [ends_tac; apply ends_parse_members| |done]. intros members s5.
  wp_step. apply wp_ends; [ends_tac| |done]. intros isConfigsvr s6.
  wp_step. apply wp_ends; [ends_tac| |done]. intros [role|e] s7; by wp_steps.
Qed.

#[export] Instance concrete_laws (timeout : Z) :
  @ConfiguratorLaws (session W) (ConcreteMongodConfigurator timeout).
Proof.
  split.
  - intros port cred s.
    assert (wp (MongodConfiguration port cred) (λ r _, r.2 = None → msp.Mongod_Port r.1 = port) (λ _ _, True) s) as Hwp.
    { unfold MongodConfiguration, connect. wp_steps. destruct (mongo_dial port (world s)); [by wp_steps|].
      wp_step. apply fetchConfiguration_port. }
    change (configurator_MongodConfiguration port cred s) with (MongodConfiguration port cred s). unfold wp in Hwp.
    destruct (MongodConfiguration port cred s) as [s' [[m [e|]]|v|]]; [done|by apply Hwp|done..].
  - intros m s. apply ends_ApplyMongodConfiguration.
Qed.
End concrete.

(** ** Establishing a state *)

Section establish.
Context {C : Type} `{MC : MongodConfigurator C} `{LAWS : !ConfiguratorLaws C} (O : OS).
Context (meanwhile : ProcessManager → ProcessManager) (Hmeanwhile : ∀ p, rtc process_step p (meanwhile p)).
Implicit Types (p : ProcessManager) (c : Controller C) (m : msp.Mongod).

(** Processes ending leaves the files alone. *)
Lemma process_steps_keep p p' :
  rtc process_step p p' → dirs p' = dirs p ∧ files p' = files p ∧ dataDir p' = dataDir p ∧ runningProcesses p' ⊆ runningProcesses p ∧
    signalled p' = signalled p ∧ spawned p' = spawned p.
Proof.
  induction 1 as [p|p1 p2 p3 Hstep _ (-> & -> & -> & Hsub & -> & ->)]; [done|].
  destruct Hstep; simpl in *; split_and!; try done. set_solver.
Qed.

Lemma wp_apply m (Q : option msp.Error → Controller C → Prop) E c :
  (∀ r x, configurator_ApplyMongodConfiguration m (configurator c) = (x, Returned r) → Q r (set_configurator x c)) →
  (∀ v x, configurator_ApplyMongodConfiguration m (configurator c) = (x, Panicked v) → E v (set_configurator x c)) →
  wp (in_configurator (configurator_ApplyMongodConfiguration m)) Q E c.
Proof.
  intros HQ HE. apply wp_in_part. unfold wp. pose proof (apply_ends m (configurator c)) as Hend.
  destruct (configurator_ApplyMongodConfiguration m (configurator c)) as [x [r|v|]]; [by apply HQ|by apply HE|done].
Qed.

(** What a request may do to the data on disk. *)
Definition data_kept m p p' : Prop :=
  dirs p ⊆ dirs p' ∧ ∀ f, f ≠ processKeyfilePath p m → files p' !! f = files p !! f.
Definition only_destroyed m p p' : Prop :=
  (msp.State m = msp.MongodStateDestroyed ∨ msp.State m = msp.MongodStateForceDestroyed) ∧
  msp.Mongod_Port m ∉ runningProcesses p' ∧
  (∀ d, d ∈ dirs p → ¬ processRootDir p m `prefix_of` d → d ∈ dirs p') ∧
  (∀ f, ¬ processRootDir p m `prefix_of` f → files p' !! f = files p !! f).

Definition data_safe m p p' : Prop := data_kept m p p' ∨ only_destroyed m p p'.

Lemma data_kept_refl m p : data_kept m p p.
Proof. done. Qed.

Lemma data_safe_eq m p p' : dirs p' = dirs p → files p' = files p → data_safe m p p'.
Proof. intros Hd Hf. left. split; [by rewrite Hd|by rewrite Hf]. Qed.

(** Once a mongod has no process, its data is removed, unless the removal fails. *)
Definition erased m p p' : Prop :=
  msp.Mongod_Port m ∈ runningProcesses p' ∨ call_failed O ∨
  (∀ d, d ∈ dirs p' → ¬ processRootDir p m `prefix_of` d) ∧ (∀ f, is_Some (files p' !! f) → ¬ processRootDir p m `prefix_of` f).

Lemma destroy_if_stopped_spec m p0 c Q E :
  (msp.State m = msp.MongodStateDestroyed ∨ msp.State m = msp.MongodStateForceDestroyed) →
  dirs (procManager c) = dirs p0 → files (procManager c) = files p0 → dataDir (procManager c) = dataDir p0 →
  (∀ p, data_safe m p0 p → erased m p0 p → signalled p = signalled (procManager c) → spawned p = spawned (procManager c) →
     runningProcesses p = runningProcesses (procManager c) → Q None (set_procManager p c)) →
  wp (destroy_if_stopped m) Q E c.
Proof.
  intros Hstate Hd Hf Hdata HQ. unfold destroy_if_stopped. wp_step. unfold has_process, wp at 1.
  unfold HasProcess. case_bool_decide as Hrun.
  { apply wp_ret. destruct c. apply (HQ procManager0); [by apply data_safe_eq|by left|done..]. }
  wp_step. apply wp_in_part. unfold destroyDataDirectory, RemoveAll. wp_steps. apply wp_os_call.
  - intros e He. wp_steps. apply HQ; [by apply data_safe_eq|by right; left|done..].
  - wp_steps.
    assert (processRootDir (procManager c) m = processRootDir p0 m) as ->
      by (unfold processRootDir, managedDirMongods; by rewrite Hdata).
    apply HQ; [|right; right; simpl; split|done..].
    2: { by intros d [Hpre _]%elem_of_filter. }
    2: { by intros f [content [_ Hpre]%map_lookup_filter_Some]. }
    right. unfold only_destroyed. simpl. split_and!; [done|done| |].
    + intros d Hin Hpre. apply elem_of_filter. by rewrite Hd.
    + intros f Hpre. rewrite map_lookup_filter, Hf. destruct (files p0 !! f); [|done]. simpl. by rewrite option_guard_True.
Qed.

(** What a request for each state answers and does.  Running: the process is started
    unless it is there, and the configuration is applied.  Destroyed: the configuration
    is applied, and the data removed once there is no process.  Destroyed by force: a
    process that is there is killed instead. *)
Definition established m c (err : option msp.Error) c' : Prop :=
  let port := msp.Mongod_Port m in let p := procManager c in let p' := procManager c' in
  let applied r := configurator_ApplyMongodConfiguration m (configurator c) = (configurator c', Returned r) in
  if decide (msp.State m = msp.MongodStateRunning) then
    signalled p' = signalled p ∧
    if decide (port ∈ runningProcesses p) then p' = p ∧ applied err
    else (∃ e, err = Some (spawn_error m e) ∧ (version_check p ≠ Ok true ∨ call_failed O) ∧
            runningProcesses p' = runningProcesses p ∧ spawned p' = spawned p ∧ configurator c' = configurator c) ∨
         (started m p p' ∧ applied err)
  else if decide (msp.State m = msp.MongodStateNotRunning) then
    err = None ∧ p' = p ∧ ∃ stopErr, applied stopErr
  else if decide (msp.State m = msp.MongodStateDestroyed) then
    err = None ∧ (∃ stopErr, applied stopErr) ∧ signalled p' = signalled p ∧ spawned p' = spawned p ∧ erased m p p'
  else if decide (msp.State m = msp.MongodStateForceDestroyed) then
    configurator c' = configurator c ∧ spawned p' = spawned p ∧
    ((∃ e, err = Some (kill_error m e) ∧ port ∈ runningProcesses p ∧ call_failed O ∧ signalled p' = signalled p) ∨
     (err = None ∧ signalled p' = signalled p ++ (if decide (port ∈ runningProcesses p) then [port] else []) ∧ erased m p p'))
  else err = Some unknown_desired_state ∧ p' = p ∧ configurator c' = configurator c.

Record established_safely m c (err : option msp.Error) c' : Prop := {
  established_effect : established m c err c';
  established_credentials : mongodCredentials c' =
    <[msp.Mongod_Port m := msp.RootCredential (msp.Mongod_ReplicaSetConfig m)]> (mongodCredentials c);
  established_data : data_safe m (procManager c) (procManager c')
}.

(** A panic is one of the configuration, which three of the states ask for, or that of a
    start without a pipe for the version. *)
Definition panic_of m c (v : goval) : Prop :=
  msp.State m ∈ [msp.MongodStateRunning; msp.MongodStateNotRunning; msp.MongodStateDestroyed] ∧
  ((∃ x, configurator_ApplyMongodConfiguration m (configurator c) = (x, Panicked v)) ∨
   msp.State m = msp.MongodStateRunning ∧ msp.Mongod_Port m ∉ runningProcesses (procManager c) ∧
   is_Some (mongod_pipe (syscalls (procManager c)))).

(** The four accepted states, one by one. *)
Context (m : msp.Mongod) (Hport : 0 ≤ msp.Mongod_Port m < 65536)
  (Hname : free_of "/" (msp.ReplicaSetName (msp.Mongod_ReplicaSetConfig m))).

Lemma establish_running c creds : msp.State m = msp.MongodStateRunning →
  creds = <[msp.Mongod_Port m := msp.RootCredential (msp.Mongod_ReplicaSetConfig m)]> (mongodCredentials c) →
  wp (running ← has_process (msp.Mongod_Port m);
      err ← (if running : bool then mret None else in_procs (SpawnProcess m));
      match err with
      | Some e => mret (Some (spawn_error m e))
      | None => in_configurator (configurator_ApplyMongodConfiguration m)
      end) (established_safely m c) (λ v c', data_safe m (procManager c) (procManager c') ∧ panic_of m c v)
     (mkController (procManager c) (configurator c) creds).
Proof.
  intros Hrun ->. wp_step. unfold has_process, wp at 1. simpl. unfold HasProcess. case_bool_decide as Hhas.
  - wp_step. wp_step. apply wp_apply; [|intros v x Hp; split; [by apply data_safe_eq|split; [rewrite Hrun; set_solver|left; by exists x]]].
    intros r x Happ. split; [|done|by apply data_safe_eq]. unfold established. rewrite decide_True by done.
    split; [done|]. by rewrite decide_True.
  - wp_step. apply wp_in_part. eapply wp_mono; [by apply SpawnProcess_spec| |].
    + intros err p' [Hok Hfail Hdirs Hfiles Hsig]. simpl in *.
      assert (data_safe m (procManager c) p') as Hsafe by by left.
      destruct err as [e|].
      * wp_step. split; [|done|done]. unfold established. rewrite decide_True by done. split; [done|].
        rewrite decide_False by done. left. exists e. destruct (Hfail e eq_refl) as (Hr & Hs & Hc). done.
      * apply wp_apply; [|intros v x Hp; split; [done|split; [rewrite Hrun; set_solver|left; by exists x]]]. intros r x Happ. split; [|done|done]. unfold established. rewrite decide_True by done.
        split; [done|]. rewrite decide_False by done. right. split; [|done]. by apply Hok.
    + intros v p' [-> Hpipe]. split; [by apply data_safe_eq|]. split; [rewrite Hrun; set_solver|by right].
Qed.

Lemma establish_force_destroyed c creds : msp.State m = msp.MongodStateForceDestroyed →
  creds = <[msp.Mongod_Port m := msp.RootCredential (msp.Mongod_ReplicaSetConfig m)]> (mongodCredentials c) →
  wp (killErr ← in_procs (KillProcess (msp.Mongod_Port m));
      match killErr with
      | Some e => mret (Some (kill_error m e))
      | None => _ ← elapse meanwhile; destroy_if_stopped m
      end) (established_safely m c) (λ v c', data_safe m (procManager c) (procManager c') ∧ panic_of m c v)
     (mkController (procManager c) (configurator c) creds).
Proof.
  intros Hforce ->.
  assert (∀ p, dirs p = dirs (procManager c) → files p = files (procManager c) → dataDir p = dataDir (procManager c) →
    spawned p = spawned (procManager c) →
    signalled p = signalled (procManager c) ++ (if decide (msp.Mongod_Port m ∈ runningProcesses (procManager c)) then [msp.Mongod_Port m] else []) →
    ∀ creds, creds = <[msp.Mongod_Port m := msp.RootCredential (msp.Mongod_ReplicaSetConfig m)]> (mongodCredentials c) →
    wp (_ ← elapse meanwhile; destroy_if_stopped m) (established_safely m c)
      (λ v c', data_safe m (procManager c) (procManager c') ∧ panic_of m c v) (mkController p (configurator c) creds)) as Hdestroy.
  { intros p Hdp Hfp Hdatap Hsp Hsig creds ->. wp_step. unfold elapse. apply wp_in_part, wp_modify. simpl.
    destruct (process_steps_keep _ _ (Hmeanwhile p)) as (Hd & Hf & Hdata & _ & Hg & Hs).
    eapply (destroy_if_stopped_spec m (procManager c)); [by right|simpl; congruence..|]. simpl.
    intros p' Hsafe Herased Hg' Hs' _. split; [|done|done]. unfold established. rewrite !(decide_False (P := msp.State m = _)), (decide_True (P := msp.State m = _)) by (rewrite Hforce; done).
    split; [done|]. simpl. split; [congruence|]. right. split_and!; [done|congruence|done]. }
  wp_step. apply wp_in_part. unfold KillProcess. wp_step. apply wp_get. simpl. unfold HasProcess. case_bool_decide as Hhas.
  - unfold signal. apply wp_os_call.
    + intros e He. wp_step. split; [|done|by apply data_safe_eq]. unfold established. rewrite !(decide_False (P := msp.State m = _)), (decide_True (P := msp.State m = _)) by (rewrite Hforce; done).
      split; [done|]. split; [done|]. left. by exists e.
    + apply Hdestroy; try done. simpl. by rewrite decide_True.
  - wp_step. apply Hdestroy; try done. by rewrite decide_False, app_nil_r.
Qed.

Lemma EstablishMongodState_spec c :
  wp (EstablishMongodState meanwhile m) (established_safely m c)
    (λ v c', data_safe m (procManager c) (procManager c') ∧ panic_of m c v) c.
Proof.
  unfold EstablishMongodState. wp_step. wp_step.
  case_decide as Hrun; [by apply establish_running|case_decide as Hnot; [|case_decide as Hdes; [|case_decide as Hforce]]].
  - wp_step. apply wp_apply; [|intros v x Hp; split; [by apply data_safe_eq|split; [rewrite Hnot; set_solver|left; by exists x]]].
    intros r x Happ. wp_step. split; [|done|by apply data_safe_eq].
    unfold established. rewrite (decide_False (P := _ = msp.MongodStateRunning)), decide_True by done. split_and!; [done..|]. by exists r.
  - wp_step. apply wp_apply; [|intros v x Hp; split; [by apply data_safe_eq|split; [rewrite Hdes; set_solver|left; by exists x]]].
    intros r x Happ. wp_step. unfold elapse. apply wp_in_part, wp_modify.
    destruct (process_steps_keep _ _ (Hmeanwhile (procManager c))) as (Hd & Hf & Hdata & _ & Hg & Hs).
    eapply (destroy_if_stopped_spec m (procManager c)); [by left|done..|]. simpl.
    intros p Hsafe Herased Hg' Hs' _. split; [|done|done]. unfold established.
    rewrite (decide_False (P := _ = msp.MongodStateRunning)), (decide_False (P := _ = msp.MongodStateNotRunning)), decide_True by done.
    split; [done|]. split; [by exists r|]. simpl. split_and!; [congruence..|done].
  - by apply establish_force_destroyed.
  - wp_step. split; [|done|by apply data_safe_eq]. unfold established. by rewrite !decide_False by done.
Qed.
End establish.

(** ** Reporting the status *)




Section status.
Context {C : Type} `{MC : MongodConfigurator C} `{LAWS : !ConfiguratorLaws C} (O : OS).
Context (scheduled : list (Z * string) → list (Z * string)) (Hscheduled : ∀ l, scheduled l ≡ₚ l).
Implicit Types (p : ProcessManager) (c : Controller C).













End status.

Section establish_claims.
Context {C : Type} `{MC : MongodConfigurator C} `{LAWS : !ConfiguratorLaws C} (O : OS).

(** C18: A request to establish a state, for a 16-bit port and a replica set name without
    slash, ends, and answers and acts as the state demands. Running starts the process,
    once, unless it is there, and applies the configuration; it fails as the start or the
    configuration fails. Not running and destroyed only apply it and succeed whatever the
    outcome. Force-destroyed sends the kill signal to the process of the port, if there
    is one, and to no other, and fails only if that fails. Only then is a process killed.
    Any other state is refused without effect. The credentials are recorded. For both
    destroyed states the data of the mongod is gone at the end, unless it still has a
    process or the removal fails. The request panics only if applying the configuration
    panics, or if a process is to be started and the pipe for the version of mongod cannot
    be made; force-destroyed never does. Whether it panics or not, data on disk is removed
    only for the two destroyed states, only when the mongod has no process, and only below
    that mongod's directory; otherwise at most its keyfile changes. *)
Theorem EstablishMongodState_correct meanwhile m (c : Controller C) :
  (∀ p, rtc process_step p (meanwhile p)) →
  0 ≤ msp.Mongod_Port m < 65536 → free_of "/" (msp.ReplicaSetName (msp.Mongod_ReplicaSetConfig m)) →
  ∃ c' r, EstablishMongodState meanwhile m c = (c', r) ∧ r ≠ OutOfFuel ∧
    data_safe m (procManager c) (procManager c') ∧
    (∀ err, r = Returned err → established_safely O m c err c') ∧ (∀ v, r = Panicked v → panic_of O m c v).
Proof.
  intros Hmean Hport Hname. pose proof (EstablishMongodState_spec O meanwhile Hmean m Hport Hname c) as Hwp. unfold wp in Hwp.
  destruct (EstablishMongodState meanwhile m c) as [c' [r|v|]]; [| |done].
  - exists c', (Returned r). split_and!; [done|done|by eapply established_data|by intros err [= <-]|done].
  - destruct Hwp as [Hsafe Hpanic]. exists c', (Panicked v). split_and!; [done..|by intros w [= <-]].
Qed.

(** An error of the status request never reaches the master: the slave answers
    an empty list besides the error, the listener sends the list with status 200,
    and the client sees a slave without mongods. *)
Theorem status_error_lost `{Json} `{X509} `{!Mux} dials ReadFile meanwhile scheduled (c : Controller C) addr caFile cert key srv client target e :
  serves ReadFile (controller_consumer meanwhile scheduled) addr caFile cert key srv → trusted dials addr srv client target →
  os_fault (syscalls (procManager c)) = Some e →
  ∃ c', client_RequestStatus (exchange dials client srv) target c = (c', Returned (Some [], None)).
Proof.
  intros Hserves Htrust Hfault. pose proof (serves_inv _ _ _ _ _ _ _ Hserves) as (_ & _ & _ & _ & Hrt).
  unfold client_RequestStatus, mbind at 1, gom_bind at 1.
  rewrite (exchange_handled dials ReadFile (controller_consumer meanwhile scheduled) addr caFile cert key srv client target 0
    (mkRoute "GET" "/msp/status" "RequestStatus" (λ _, handleRequestStatus (controller_consumer meanwhile scheduled)))); [|done|done|by rewrite Hrt|done..].
  simpl. unfold handleRequestStatus. simpl. unfold RequestStatus, in_procs, in_part, parseProcessDirTree, mbind, gom_bind. rewrite Hfault.
  eexists. unfold mret, gom_ret. simpl. by rewrite status_roundtrip by apply status_empty.
Qed.
End establish_claims.

(** ** A slave with one mongod *)

Definition example_slave : Controller (session unit) :=
  mkController
    (mkProcessManager ["data"%string] {[["data"; "mongods"]%string; ["data"; "mongods"; "18080:rs:1"]%string]} ∅ 0 ∅ [] [] [])
    (mkSession tt []) ∅.
Definition silent_mongod : Mongo unit := {|
  mongo_dial _ _ := None;
  mongo_login _ _ _ := true;
  mongo_run _ _ _ := (tt, (∅, None));
  show_doc _ := EmptyString;
  show_error _ := EmptyString
|}.
Definition example_configurator : MongodConfigurator (session unit) := @ConcreteMongodConfigurator unit silent_mongod 10.
Definition example_destroy : msp.Mongod :=
  msp.mkMongod 18080 "key" (msp.mkReplicaSetConfig "rs:1" [] "none" msp.zero_Credential) None None msp.MongodStateDestroyed.
Definition broken_os : OS := {|
  os_fault _ := Some (TextError "input/output error");
  mongod_pipe _ := None;
  mongod_version _ := Err (TextError "input/output error");
  semver_check _ _ := Ok true
|}.

(** Destroying it removes its directory. *)
Example destroy_example :
  dirs (procManager (@EstablishMongodState _ example_configurator working_os id example_destroy example_slave).1) =
    {[["data"; "mongods"]%string]}.
Proof. vm_compute. reflexivity. Qed.

Lemma EstablishMongodState_correct_witness :
  ∃ c' r, @EstablishMongodState _ example_configurator working_os id example_destroy example_slave = (c', r) ∧ r ≠ OutOfFuel ∧
    data_safe example_destroy (procManager example_slave) (procManager c') ∧
    (∀ err, r = Returned err → @established_safely _ example_configurator working_os example_destroy example_slave err c') ∧
    (∀ v, r = Panicked v → @panic_of _ example_configurator working_os example_destroy example_slave v).
Proof.
  apply (@EstablishMongodState_correct _ example_configurator (@concrete_laws unit silent_mongod 10) working_os);
    [done|simpl; lia|simpl; repeat split; discriminate].
Defined.


Lemma status_error_lost_witness :
  let srv := slave_server (@controller_consumer _ example_configurator broken_os id id) in
  ∃ c', client_RequestStatus (@exchange wire_json ref_x509 ref_mux _ example_dials example_client srv) (msp.mkHostPort "slave01" 8081) example_slave =
    (c', Returned (Some [], None)).
Proof.
  intros srv.
  apply (@status_error_lost _ example_configurator broken_os wire_json ref_x509 ref_mux example_dials example_ReadFile id id
    example_slave ":8081" "ca" "cert" "key" srv example_client (msp.mkHostPort "slave01" 8081) (TextError "input/output error"));
    [apply slave_serves|apply slave_trusted|reflexivity].
Defined.
