(* ===== verification/BusyTable.v ===== *)
(** * The slave's busy table

    [slave/controller_synchronization.go]: a mutex per port, created on demand in a
    map that is itself protected by a mutex.  Handlers of any number of concurrent
    requests are threads that acquire the lock of their port, run, and release it;
    their steps interleave arbitrarily. *)

From stdpp Require Import base gmap sets list relations.
From Stdlib Require Import Lia.
From S2P Require Import Prelude.

Open Scope Z_scope.

(** ** State *)

(** Where a handler is: at [t.mutexesLock.Lock()], before the creation of the
    mutex, before reading it, before [t.mutexesLock.Unlock()], at [mutex.Lock()],
    or holding the lock until its deferred [Unlock()]. *)
Inductive handler :=
  | Calling (port : Z)
  | Creating (port : Z)
  | Reading (port : Z)
  | Leaving (port : Z) (mutex : nat)
  | Waiting (port : Z) (mutex : nat)
  | Holding (port : Z) (mutex : nat).

(** The mutexes are numbered in the order of their allocation. *)
Record busyTable := mkBusyTable {
  mutexes : gmap Z nat;
  allocated : nat;
  locked : gset nat;
  mutexesLock : bool;
  handlers : gmap nat handler
}.

Definition NewBusyTable : busyTable := mkBusyTable ∅ 0 ∅ false ∅.

Definition set_handler (t : nat) (h : handler) (σ : busyTable) : busyTable :=
  mkBusyTable (mutexes σ) (allocated σ) (locked σ) (mutexesLock σ) (<[t := h]> (handlers σ)).
Definition set_mutexesLock (b : bool) (σ : busyTable) : busyTable :=
  mkBusyTable (mutexes σ) (allocated σ) (locked σ) b (handlers σ).
Definition set_locked (l : gset nat) (σ : busyTable) : busyTable :=
  mkBusyTable (mutexes σ) (allocated σ) l (mutexesLock σ) (handlers σ).
Definition remove_handler (t : nat) (σ : busyTable) : busyTable :=
  mkBusyTable (mutexes σ) (allocated σ) (locked σ) (mutexesLock σ) (delete t (handlers σ)).

(** [if _, exists := t.mutexes[port]; !exists { t.mutexes[port] = &sync.Mutex{} }] *)
Definition create_mutex (port : Z) (σ : busyTable) : busyTable :=
  match mutexes σ !! port with
  | Some _ => σ
  | None => mkBusyTable (<[port := allocated σ]> (mutexes σ)) (S (allocated σ)) (locked σ) (mutexesLock σ) (handlers σ)
  end.

(** ** Steps *)

(** [internal]: every step but the arrival of a request. *)
Inductive internal (σ : busyTable) : busyTable → Prop :=
  | lock_table t port : handlers σ !! t = Some (Calling port) → mutexesLock σ = false →
      internal σ (set_mutexesLock true (set_handler t (Creating port) σ))
  | create t port : handlers σ !! t = Some (Creating port) →
      internal σ (set_handler t (Reading port) (create_mutex port σ))
  | read t port m : handlers σ !! t = Some (Reading port) → mutexes σ !! port = Some m →
      internal σ (set_handler t (Leaving port m) σ)
  | unlock_table t port m : handlers σ !! t = Some (Leaving port m) →
      internal σ (set_mutexesLock false (set_handler t (Waiting port m) σ))
  | lock_mutex t port m : handlers σ !! t = Some (Waiting port m) → m ∉ locked σ →
      internal σ (set_locked (locked σ ∪ {[m]}) (set_handler t (Holding port m) σ))
  | unlock_mutex t port m : handlers σ !! t = Some (Holding port m) →
      internal σ (set_locked (locked σ ∖ {[m]}) (remove_handler t σ)).

Inductive busy_step (σ : busyTable) : busyTable → Prop :=
  | step_internal σ' : internal σ σ' → busy_step σ σ'
  | request t port : handlers σ !! t = None → busy_step σ (set_handler t (Calling port) σ).

Definition reachable : busyTable → Prop := rtc busy_step NewBusyTable.

(** ** The invariant *)

Definition in_table (h : handler) : Prop :=
  match h with Creating _ | Reading _ | Leaving _ _ => True | _ => False end.
Definition mutex_known (σ : busyTable) (h : handler) : Prop :=
  match h with
  | Reading port => is_Some (mutexes σ !! port)
  | Leaving port m | Waiting port m | Holding port m => mutexes σ !! port = Some m
  | _ => True
  end.

Record busy_ok (σ : busyTable) : Prop := {
  ok_fresh port m : mutexes σ !! port = Some m → (m < allocated σ)%nat;
  ok_distinct port port' m : mutexes σ !! port = Some m → mutexes σ !! port' = Some m → port = port';
  ok_known t h : handlers σ !! t = Some h → mutex_known σ h;
  ok_locked m : m ∈ locked σ → ∃ t port, handlers σ !! t = Some (Holding port m);
  ok_holding t port m : handlers σ !! t = Some (Holding port m) → m ∈ locked σ;
  ok_exclusive t t' port port' m :
    handlers σ !! t = Some (Holding port m) → handlers σ !! t' = Some (Holding port' m) → t = t';
  ok_table : mutexesLock σ = true → ∃ t h, handlers σ !! t = Some h ∧ in_table h;
  ok_table_held t h : handlers σ !! t = Some h → in_table h → mutexesLock σ = true;
  ok_table_one t t' h h' : handlers σ !! t = Some h → handlers σ !! t' = Some h' → in_table h → in_table h' → t = t'
}.

Lemma create_mutex_lookup port σ : busy_ok σ → is_Some (mutexes (create_mutex port σ) !! port) ∧
  (∀ p m, mutexes σ !! p = Some m → mutexes (create_mutex port σ) !! p = Some m).
Proof.
  intros Hok. unfold create_mutex. destruct (mutexes σ !! port) as [m|] eqn:Hm; simpl; [by eauto|].
  rewrite lookup_insert_eq. split; [by eexists|]. intros p m Hp. rewrite lookup_insert_ne; [done|]. congruence.
Qed.

(** The table of mutexes after [create_mutex]. *)
Lemma create_mutex_ok port σ : busy_ok σ →
  let σ' := create_mutex port σ in
  (∀ p m, mutexes σ' !! p = Some m → (m < allocated σ')%nat) ∧
  (∀ p p' m, mutexes σ' !! p = Some m → mutexes σ' !! p' = Some m → p = p') ∧
  handlers σ' = handlers σ ∧ locked σ' = locked σ ∧ mutexesLock σ' = mutexesLock σ.
Proof.
  intros Hok. unfold create_mutex. destruct (mutexes σ !! port) as [m|] eqn:Hm; simpl.
  { split_and!; try done; apply Hok. }
  split_and!; [..|done|done|done].
  - intros p x [[<- <-]|[_ Hx]]%lookup_insert_Some; [lia|]. pose proof (ok_fresh _ Hok _ _ Hx). lia.
  - intros p p' x [[<- <-]|[_ Hx]]%lookup_insert_Some [[<- Hx']|[_ Hx']]%lookup_insert_Some; [done| | |].
    + pose proof (ok_fresh _ Hok _ _ Hx'). lia.
    + subst. pose proof (ok_fresh _ Hok _ _ Hx). lia.
    + by eapply ok_distinct.
Qed.

(** Case analysis on who is at which point after a step. *)
Ltac handler_cases :=
  repeat match goal with
    | H : <[_ := _]> _ !! _ = Some _ |- _ => apply lookup_insert_Some in H as [[? ?]|[? ?]]
    | H : delete _ _ !! _ = Some _ |- _ => apply lookup_delete_Some in H as [? ?]
    end; simplify_eq/=.

(** Two handlers inside the table's critical section are the same; a handler
    there holds the table's mutex; the holder of a mutex is unique. *)
Ltac handler_clash Hok :=
  match goal with
  | Hb : mutexesLock _ = false, H : handlers _ !! _ = Some ?h, Hi : in_table ?h |- _ =>
      pose proof (ok_table_held _ Hok _ _ H Hi); congruence
  | Hne : ?t ≠ ?t', H : handlers _ !! ?t = Some ?h, H' : handlers _ !! ?t' = Some ?h', Hi' : in_table ?h' |- _ =>
      assert (in_table h) as Hi by exact I; pose proof (ok_table_one _ Hok _ _ _ _ H H' Hi Hi'); congruence
  | Hn : ?m ∉ locked _, H : handlers _ !! _ = Some (Holding _ ?m) |- _ => by destruct Hn; eapply (ok_holding _ Hok)
  | Hne : ?t ≠ ?t', H : handlers _ !! ?t = Some (Holding _ ?m), H' : handlers _ !! ?t' = Some (Holding _ ?m) |- _ =>
      destruct Hne; by eapply (ok_exclusive _ Hok)
  end.

(** Solves the fields of the invariant that a step keeps for these reasons. *)
Ltac handler_solve Hok :=
  intros; handler_cases;
  try solve [ done | by eapply (ok_known _ Hok) | by eapply (ok_fresh _ Hok) | by eapply (ok_distinct _ Hok)
            | by eapply (ok_holding _ Hok) | by eapply (ok_exclusive _ Hok) | by eapply (ok_table_held _ Hok)
            | by eapply (ok_table_one _ Hok) | handler_clash Hok ].

Lemma init_ok : busy_ok NewBusyTable.
Proof. split; simpl; intros; by simplify_map_eq. Qed.

Lemma known_mono σ σ' h :
  (∀ p m, mutexes σ !! p = Some m → mutexes σ' !! p = Some m) → mutex_known σ h → mutex_known σ' h.
Proof. intros Hsub. destruct h; simpl; auto. intros [m Hm]. by eauto. Qed.

Lemma request_ok σ t port : busy_ok σ → handlers σ !! t = None → busy_ok (set_handler t (Calling port) σ).
Proof.
  intros Hok Ht. split; simpl; handler_solve Hok.
  - destruct (ok_locked _ Hok m) as (t' & p' & Ht'); [done|]. exists t', p'. rewrite lookup_insert_ne; congruence.
  - destruct (ok_table _ Hok) as (t' & h & Ht' & Hh); [done|]. exists t', h. rewrite lookup_insert_ne; [done|congruence].
Qed.

(** A handler outside the critical section moves on to another point outside it. *)
Lemma locked_keep σ t h0 h m :
  busy_ok σ → handlers σ !! t = Some h0 → (∀ p m, h0 ≠ Holding p m) → m ∈ locked σ →
  ∃ t' port, <[t := h]> (handlers σ) !! t' = Some (Holding port m).
Proof.
  intros Hok Ht Hh Hm. destruct (ok_locked _ Hok m Hm) as (t' & p & Ht'). exists t', p.
  rewrite lookup_insert_ne; [done|]. intros ->. rewrite Ht in Ht'. injection Ht' as ->. by destruct (Hh p m).
Qed.

(** A handler in the table's critical section moves on inside it. *)
Lemma table_keep σ t h :
  in_table h → ∃ t' h', <[t := h]> (handlers σ) !! t' = Some h' ∧ in_table h'.
Proof. intros Hh. exists t, h. by rewrite lookup_insert_eq. Qed.

Lemma lock_table_ok σ t port : busy_ok σ → handlers σ !! t = Some (Calling port) → mutexesLock σ = false →
  busy_ok (set_mutexesLock true (set_handler t (Creating port) σ)).
Proof.
  intros Hok Ht Hfree. split; simpl; handler_solve Hok.
  - by eapply locked_keep.
  - by apply table_keep.
Qed.

Lemma create_ok σ t port : busy_ok σ → handlers σ !! t = Some (Creating port) →
  busy_ok (set_handler t (Reading port) (create_mutex port σ)).
Proof.
  intros Hok Ht. destruct (create_mutex_ok port σ Hok) as (Hfresh & Hdistinct & Hh & Hl & Hb).
  destruct (create_mutex_lookup port σ Hok) as [Hcreated Hkeep].
  split; simpl; rewrite ?Hh, ?Hl, ?Hb; [done|done|..]; handler_solve Hok.
  - eapply (known_mono σ); [exact Hkeep|by eapply (ok_known _ Hok)].
  - by eapply locked_keep.
  - by apply table_keep.
Qed.

Lemma read_ok σ t port m : busy_ok σ → handlers σ !! t = Some (Reading port) → mutexes σ !! port = Some m →
  busy_ok (set_handler t (Leaving port m) σ).
Proof.
  intros Hok Ht Hm. split; simpl; handler_solve Hok.
  - by eapply locked_keep.
  - by apply table_keep.
Qed.

Lemma unlock_table_ok σ t port m : busy_ok σ → handlers σ !! t = Some (Leaving port m) →
  busy_ok (set_mutexesLock false (set_handler t (Waiting port m) σ)).
Proof.
  intros Hok Ht. split; simpl; handler_solve Hok.
  - apply (ok_known _ Hok _ _ Ht).
  - by eapply locked_keep.
Qed.

(** A handler that is not in the table's critical section leaves the table alone. *)
Lemma table_other σ t h0 (hs : gmap nat handler) : busy_ok σ → handlers σ !! t = Some h0 → ¬ in_table h0 → mutexesLock σ = true →
  (∀ t', t' ≠ t → hs !! t' = handlers σ !! t') → ∃ t' h', hs !! t' = Some h' ∧ in_table h'.
Proof.
  intros Hok Ht Hh Hb Hhs. destruct (ok_table _ Hok Hb) as (t' & h' & Ht' & Hh'). exists t', h'.
  rewrite Hhs; [done|]. intros ->. by simplify_eq.
Qed.

Lemma lock_mutex_ok σ t port m : busy_ok σ → handlers σ !! t = Some (Waiting port m) → m ∉ locked σ →
  busy_ok (set_locked (locked σ ∪ {[m]}) (set_handler t (Holding port m) σ)).
Proof.
  intros Hok Ht Hm. split; simpl; handler_solve Hok.
  - apply (ok_known _ Hok _ _ Ht).
  - match goal with H : _ ∈ _ ∪ _ |- _ => apply elem_of_union in H as [H|H%elem_of_singleton] end.
    + by eapply locked_keep.
    + subst. exists t, port. by rewrite lookup_insert_eq.
  - set_solver.
  - apply elem_of_union_l. by eapply (ok_holding _ Hok).
  - apply (table_other σ t _ _ Hok Ht); [by intros []|done|]. intros t' Ht'. by rewrite lookup_insert_ne.
Qed.

Lemma unlock_mutex_ok σ t port m : busy_ok σ → handlers σ !! t = Some (Holding port m) →
  busy_ok (set_locked (locked σ ∖ {[m]}) (remove_handler t σ)).
Proof.
  intros Hok Ht. split; simpl; handler_solve Hok.
  - match goal with H : _ ∈ _ ∖ _ |- _ => apply elem_of_difference in H as [H Hne%not_elem_of_singleton] end.
    destruct (ok_locked _ Hok _ H) as (t' & p' & Ht'). exists t', p'. rewrite lookup_delete_ne; [done|]. congruence.
  - match goal with H : handlers σ !! ?t' = Some (Holding _ ?m') |- _ =>
      apply elem_of_difference; split; [by eapply (ok_holding _ Hok)|intros ->%elem_of_singleton; handler_clash Hok] end.
  - apply (table_other σ t _ _ Hok Ht); [by intros []|done|]. intros t' Ht'. by rewrite lookup_delete_ne.
Qed.

Lemma internal_ok σ σ' : busy_ok σ → internal σ σ' → busy_ok σ'.
Proof.
  intros Hok [].
  - by apply lock_table_ok.
  - by apply create_ok.
  - by apply read_ok.
  - by apply unlock_table_ok.
  - by apply lock_mutex_ok.
  - by eapply unlock_mutex_ok.
Qed.

Lemma reachable_ok σ : reachable σ → busy_ok σ.
Proof.
  unfold reachable. generalize init_ok. generalize NewBusyTable. intros σ0 Hok Hsteps. revert Hok.
  induction Hsteps as [|σ1 σ2 σ3 [σ' Hi|t port Ht] _ IH]; intros Hok; [done|apply IH; by eapply internal_ok|].
  apply IH. by apply request_ok.
Qed.

(** ** Properties *)

(** C25: However requests interleave, at most one handler at a time holds the lock
    of a port. *)
Theorem port_lock_exclusive σ t t' port m m' :
  reachable σ → handlers σ !! t = Some (Holding port m) → handlers σ !! t' = Some (Holding port m') → t = t'.
Proof.
  intros Hok%reachable_ok Ht Ht'. pose proof (ok_known _ Hok _ _ Ht) as Hm. pose proof (ok_known _ Hok _ _ Ht') as Hm'.
  simpl in *. simplify_eq. by eapply ok_exclusive.
Qed.

(** C27: The table never blocks for good: as long as some handler is under way, some
    handler can move on; and a handler that waits for the lock of a port can take
    it unless another handler holds the lock of that same port, whatever the
    handlers of other ports do. *)
Theorem busy_table_progress σ :
  reachable σ →
  (∀ t h, handlers σ !! t = Some h → ∃ σ', internal σ σ') ∧
  (∀ t port m, handlers σ !! t = Some (Waiting port m) → (∀ t', handlers σ !! t' ≠ Some (Holding port m)) →
     internal σ (set_locked (locked σ ∪ {[m]}) (set_handler t (Holding port m) σ))).
Proof.
  intros Hok%reachable_ok. split.
  - intros t h Ht.
    assert (∀ t h, handlers σ !! t = Some h → in_table h → ∃ σ', internal σ σ') as Htable.
    { clear t h Ht. intros t h Ht Hh. pose proof (ok_known _ Hok _ _ Ht) as Hk. destruct h; simpl in *; try done.
      - eexists. by eapply create.
      - destruct Hk as [m Hm]. eexists. by eapply read.
      - eexists. by eapply unlock_table. }
    destruct h as [port|port|port|port m|port m|port m]; [|by eapply Htable..| |].
    + destruct (mutexesLock σ) eqn:Hb; [|eexists; by eapply lock_table].
      destruct (ok_table _ Hok Hb) as (t' & h' & Ht' & Hh'). by eapply Htable.
    + destruct (decide (m ∈ locked σ)) as [Hm|Hm]; [|eexists; by eapply lock_mutex].
      destruct (ok_locked _ Hok _ Hm) as (t' & p' & Ht'). eexists. by eapply unlock_mutex.
    + eexists. by eapply unlock_mutex.
  - intros t port m Ht Hno. apply lock_mutex; [done|]. intros Hm.
    destruct (ok_locked _ Hok _ Hm) as (t' & p' & Ht').
    pose proof (ok_known _ Hok _ _ Ht) as Hp. pose proof (ok_known _ Hok _ _ Ht') as Hp'. simpl in *.
    rewrite (ok_distinct _ Hok _ _ _ Hp' Hp) in Ht'. by destruct (Hno t').
Qed.

(** ** Two requests for one port *)

(** The first request after all its steps up to holding the lock, the second one
    waiting for it. *)
Definition example_busy : busyTable := mkBusyTable {[7 := 0%nat]} 1 {[0%nat]} false {[0%nat := Holding 7 0; 1%nat := Waiting 7 0]}.

Lemma example_busy_reachable : reachable example_busy.
Proof.
  unfold reachable.
  eapply rtc_l; [apply (request _ 0 7); reflexivity|].
  eapply rtc_l; [apply step_internal, (lock_table _ 0 7); [reflexivity|reflexivity..]|].
  eapply rtc_l; [apply step_internal, (create _ 0 7); [reflexivity|reflexivity..]|].
  eapply rtc_l; [apply step_internal, (read _ 0 7 0); [reflexivity|reflexivity..]|].
  eapply rtc_l; [apply step_internal, (unlock_table _ 0 7 0); [reflexivity|reflexivity..]|].
  eapply rtc_l; [apply (request _ 1 7); reflexivity|].
  eapply rtc_l; [apply step_internal, (lock_table _ 1 7); [reflexivity|reflexivity..]|].
  eapply rtc_l; [apply step_internal, (create _ 1 7); [reflexivity|reflexivity..]|].
  eapply rtc_l; [apply step_internal, (read _ 1 7 0); [reflexivity|reflexivity..]|].
  eapply rtc_l; [apply step_internal, (unlock_table _ 1 7 0); [reflexivity|reflexivity..]|].
  eapply rtc_l; [apply step_internal, (lock_mutex _ 0 7 0); [reflexivity|set_solver..]|].
  match goal with |- rtc _ ?σ _ => replace σ with example_busy; [apply rtc_refl|] end.
  vm_compute. reflexivity.
Defined.

Lemma port_lock_exclusive_witness : reachable example_busy ∧ 0%nat = 0%nat.
Proof.
  split; [exact example_busy_reachable|].
  apply (port_lock_exclusive example_busy 0 0 7 0 0); [exact example_busy_reachable|reflexivity..].
Defined.

Lemma busy_table_progress_witness : ∃ σ', internal example_busy σ'.
Proof. apply (proj1 (busy_table_progress example_busy example_busy_reachable) 1%nat (Waiting 7 0)). reflexivity. Defined.
