(* ===== verification/Monitor.v ===== *)
(** * The monitor

    [master/monitor.go]: what the master does with the answers of the slaves.
    Comparing desired and observed mongods and sending the result on the bus, the
    degradation of replica sets, and the bookkeeping for mongods that a slave no
    longer reports.  The conversions and comparisons without database access are in
    [Projections]. *)

From stdpp Require Import base gmap sets list strings sorting fin_maps.
From Stdlib Require Import Lia.
From S2P Require Import Prelude Msp Model Database Orm Store Members Projections.

Open Scope Z_scope.
Set Warnings "-clear-no-such-hyp".

Section monitor.
Context `{ENG : Engine} `{ORM : Gorm}.

(** [tx.Model(&slave).Related(&modelMongods, "Mongods")] *)
Definition related_mongods (slave : Slave) : GoM conn (gres (list Mongod)) :=
  sql_query (λ n d, select n (hosted_on (Slave_ID slave)) (mongods d)).

(** [tx.Model(mongod).Related(&mongod.ObservedState, "ObservedState")]: a NULL key
    finds nothing. *)
Definition related_state (id : option Z) : GoM conn (gres MongodState) :=
  match id with
  | Some id => orm_first_id id
  | None => mret (Err ErrRecordNotFound)
  end.

(** [func (m *Monitor) compareStates(tx, mongod, observedMongod)]; [%v] of a
    mongod in the error texts is not spelled out. *)
Definition compareStates (mongod : Mongod) (observedMongod : msp.Mongod)
    : GoM conn (MongodMatchStatus * option gerror) :=
  match Mongod_ObservedStateID mongod with
  | None => mret (mkMongodMatchStatus true mongod, None)
  | Some _ =>
      let zero := mkMongodMatchStatus false zero_Mongod in
      desired ← related_state (Some (Mongod_DesiredStateID mongod));
      match desired with
      | Err e => mret (zero, Some (TextError ("error fetching DesiredState for mongod: " +:+ error_text e)))
      | Ok DesiredState =>
        observed ← related_state (Mongod_ObservedStateID mongod);
        match observed with
        | Err e => mret (zero, Some (TextError ("error fetching ObservedState for mongod: " +:+ error_text e)))
        | Ok ObservedState =>
          let mongodStatesEquivalent := MongodStatesEquivalent DesiredState ObservedState in
          match Mongod_ReplicaSetID mongod with
          | Some rid =>
              res ← DesiredMSPReplicaSetMembersForReplicaSetID rid;
              match res with
              | (_, _, Some e) => mret (zero, Some (TextError ("error computing ReplicaSetMembers: " +:+ error_text e)))
              | (desiredMembers, _, None) =>
                  let replicaSetMembersEquivalent := MSPReplicaSetMembersDeepEqualsIgnoringOrder desiredMembers
                    (msp.ReplicaSetMembers (msp.Mongod_ReplicaSetConfig observedMongod)) in
                  mret (mkMongodMatchStatus (negb (mongodStatesEquivalent && replicaSetMembersEquivalent)) mongod, None)
              end
          | None => mret (mkMongodMatchStatus (negb (mongodStatesEquivalent && false)) mongod, None)
          end
        end
      end
  end.

(** [func (m *Monitor) sendMongodMismatchStatusToBus(tx, slave, modelToObservedMap)];
    a mongod that is not in the map is compared with the zero mongod. *)
Definition sendMongodMismatchStatusToBus (slave : Slave) (modelToObservedMap : gmap Z msp.Mongod)
    : GoM conn (option gerror) :=
  res ← related_mongods slave;
  match res with
  | Err e => mret (Some e)
  | Ok modelMongods =>
      _ ← range modelMongods (λ modelMongod,
        compared ← compareStates modelMongod (default msp.zero_Mongod (modelToObservedMap !! Mongod_ID modelMongod));
        match compared with
        | (_, Some _) => mret tt
        | (busMessage, None) => send (MsgMatch busMessage)
        end);
      mret None
  end.

(** [func (m *Monitor) observeReplicaSets()] *)
Definition observed_counts (d : db) (r : ReplicaSet) : ObservedReplicaSetConstraintStatus :=
  let count (members : db → Z → bool → gset Z) p := Z.of_nat (size (members d (ReplicaSet_ID r) p)) in
  let ConfiguredPersistentMembers := count replica_set_configured_members true in
  let ConfiguredVolatileMembers := count replica_set_configured_members false in
  let ActualPersistentMembers := count replica_set_effective_members_for_monitoring true in
  let ActualVolatileMembers := count replica_set_effective_members_for_monitoring false in
  let unsatisfied := bool_decide (ActualVolatileMembers < ConfiguredVolatileMembers)
    || bool_decide (ActualPersistentMembers < ConfiguredPersistentMembers) in
  mkObservedReplicaSetConstraintStatus unsatisfied r ConfiguredVolatileMembers ConfiguredPersistentMembers
    ActualVolatileMembers ActualPersistentMembers.

Definition observeReplicaSets : GoM conn unit :=
  rows ← sql_query (λ n d, observed_counts d <$> select n (λ _, true) (replica_sets d));
  match rows with
  | Err _ => mret tt
  | Ok rows =>
      range rows (λ row,
        let replicaSet := Observed_ReplicaSet row in
        _ ← send (MsgObservedConstraint row);
        send (MsgInitiation (mkReplicaSetInitiationStatus (ReplicaSet_Initiated replicaSet) replicaSet)))
  end.

(** ** Mongods a slave does not report *)

(** The inner loop over [observedMongods]. *)
Definition reported (observedMongods : list msp.Mongod) (modelMongod : Mongod) : bool :=
  existsb (λ o, bool_decide (Mongod_Port modelMongod = msp.Mongod_Port o) &&
    bool_decide (Mongod_ReplSetName modelMongod = msp.ReplicaSetName (msp.Mongod_ReplicaSetConfig o))) observedMongods.

(** [%s] of a number. *)
Definition bad_verb (n : Z) : string := "%!s(int64=" +:+ fmt_d n +:+ ")".

(** The part that sets the observed state to destroyed; the error of the first
    [Update] is not looked at. *)
Definition set_observed_destroyed (modelMongod : Mongod) : GoM conn (option gerror) :=
  match Mongod_ObservedStateID modelMongod with
  | Some id =>
      _ ← orm_update (mkMongodState id 0 EmptyString 0) (MongodState_set_ExecutionState MongodExecutionStateDestroyed);
      mret None
  | None =>
      created ← orm_create (mkMongodState 0 (Mongod_ID modelMongod) ShardingRoleNone MongodExecutionStateDestroyed);
      match created with
      | Err e => mret (Some (TextError ("monitor: could not create observed MongodState for observed destroyed Mongod `" +:+
          bad_verb (Mongod_ID modelMongod) +:+ "`: " +:+ error_text e)))
      | Ok observedState =>
          err ← orm_update modelMongod (Mongod_set_ObservedStateID (Some (MongodState_ID observedState)));
          match err with
          | Some e => mret (Some (TextError ("monitor: could not create observed MongodState backreference for observed destroyed Mongod `" +:+
              bad_verb (Mongod_ID modelMongod) +:+ "`: " +:+ error_text e)))
          | None => mret None
          end
      end
  end.

Definition clear_observation_error (modelMongod : Mongod) : GoM conn (option gerror) :=
  match Mongod_ObservationErrorID modelMongod with
  | Some _ => orm_update modelMongod (Mongod_set_ObservationErrorID None)
  | None => mret None
  end.

Fixpoint mark_unobserved (observedMongods : list msp.Mongod) (modelMongods : list Mongod) : GoM conn (option gerror) :=
  match modelMongods with
  | [] => mret None
  | modelMongod :: modelMongods =>
      if reported observedMongods modelMongod then mark_unobserved observedMongods modelMongods
      else
        err ← set_observed_destroyed modelMongod;
        match err with
        | Some e => mret (Some e)
        | None =>
            err ← clear_observation_error modelMongod;
            match err with
            | Some e => mret (Some e)
            | None => mark_unobserved observedMongods modelMongods
            end
        end
  end.

(** [func (m *Monitor) updateMongodStatesNotObservedOnSlave(tx, slave, observedMongods)] *)
Definition updateMongodStatesNotObservedOnSlave (slave : Slave) (observedMongods : list msp.Mongod)
    : GoM conn (option gerror) :=
  res ← related_mongods slave;
  match res with
  | Err e => mret (Some e)
  | Ok modelMongods => mark_unobserved observedMongods modelMongods
  end.
End monitor.

(** ** Comparing *)

(** When a mongod is as desired. *)
Definition as_desired (d : db) (m : Mongod) (observed : msp.Mongod) : Prop :=
  ∃ desired st rid, mongod_states d !! Mongod_DesiredStateID m = Some desired ∧ observed_state d m = Some st ∧
    MongodState_ExecutionState st = MongodState_ExecutionState desired ∧
    MongodState_ShardingRole st = MongodState_ShardingRole desired ∧ Mongod_ReplicaSetID m = Some rid ∧
    MSPReplicaSetMembersDeepEqualsIgnoringOrder (wanted_members d rid)
      (msp.ReplicaSetMembers (msp.Mongod_ReplicaSetConfig observed)) = true.

Section compare.
Context (ENG : Engine) (ORM : Gorm) (Hrel : reliable ENG ORM).

Lemma states_equivalent a b : MongodStatesEquivalent a b = true ↔
  MongodState_ExecutionState b = MongodState_ExecutionState a ∧ MongodState_ShardingRole b = MongodState_ShardingRole a.
Proof. unfold MongodStatesEquivalent. rewrite andb_true_iff, !bool_decide_eq_true. naive_solver. Qed.

Lemma compareStates_spec c id m observed (Q : MongodMatchStatus * option gerror → conn → Prop) E :
  db_ok (cdb c) → mongods (cdb c) !! id = Some m →
  (∀ s c', cdb c' = cdb c → cbus c' = cbus c → Match_Mongod s = m →
     (Match_Mismatch s = false ↔ as_desired (cdb c) m observed) → Q (s, None) c') →
  wp (compareStates m observed) Q E c.
Proof.
  intros Hok Hm HQ. unfold compareStates. destruct (Mongod_ObservedStateID m) as [o|] eqn:Ho.
  2: { apply wp_ret, HQ; [done..|]. simpl. split; [done|]. intros (? & ? & ? & _ & Hst & _).
       unfold observed_state in Hst. by rewrite Ho in Hst. }
  destruct (ok_desired _ Hok _ _ Hm) as (desired & Hdes & _). destruct (ok_observed _ Hok _ _ _ Hm Ho) as (_ & st & Hst & _).
  assert (observed_state (cdb c) m = Some st) as Hobs by (unfold observed_state; by rewrite Ho).
  cbn zeta. wp_step. apply wp_orm_first_id; simpl; [|by rewrite Hdes|by intros e _ ?].
  intros desired' Hdes'. rewrite Hdes in Hdes'. injection Hdes' as <-.
  wp_step. apply wp_orm_first_id; simpl; [|by rewrite Hst|by intros e _ ?].
  intros st' Hst'. rewrite Hst in Hst'. injection Hst' as <-.
  destruct (Mongod_ReplicaSetID m) as [rid|] eqn:Hrid.
  - wp_step. destruct (members_run ENG ORM Hrel (tick (tick c)) Hok rid) as (c' & initiator & Hrun & Hc' & Hb' & _).
    unfold wp at 1. rewrite Hrun. apply wp_ret, HQ; [done..|]. simpl.
    rewrite negb_false_iff, andb_true_iff, states_equivalent. unfold as_desired. split.
    + intros [[? ?] ?]. by exists desired, st, rid.
    + intros (? & ? & ? & ? & ? & ? & ? & ? & ?). by simplify_eq.
  - apply wp_ret, HQ; [done..|]. simpl. rewrite andb_false_r. split; [done|].
    intros (? & ? & ? & _ & _ & _ & _ & ? & _). congruence.
Qed.

(** One status per mongod, in order. *)
Lemma send_all_spec (observed : gmap Z msp.Mongod) slave_mongods c :
  db_ok (cdb c) → (∀ m, m ∈ slave_mongods → mongods (cdb c) !! Mongod_ID m = Some m) →
  wp (range slave_mongods (λ modelMongod,
        compared ← compareStates modelMongod (default msp.zero_Mongod (observed !! Mongod_ID modelMongod));
        match compared with
        | (_, Some _) => mret tt
        | (busMessage, None) => send (MsgMatch busMessage)
        end))
    (λ _ c', cdb c' = cdb c ∧ ∃ statuses, cbus c' = cbus c ++ (MsgMatch <$> statuses) ∧
       Forall2 (λ m s, Match_Mongod s = m ∧ (Match_Mismatch s = false ↔
         as_desired (cdb c) m (default msp.zero_Mongod (observed !! Mongod_ID m)))) slave_mongods statuses)
    (λ _ _, False) c.
Proof.
  revert c. induction slave_mongods as [|m slave_mongods IH]; intros c Hok Hin; simpl.
  { apply wp_ret. split; [done|]. exists []. by rewrite app_nil_r. }
  wp_step. wp_step. eapply (compareStates_spec c (Mongod_ID m)); [done|apply Hin; left|].
  intros s c1 Hc1 Hb1 Hs Hmatch. apply wp_send. eapply wp_mono; [apply IH| |done]; simpl; rewrite ?Hc1; [done| |].
  { intros m' Hm'. apply Hin. by right. }
  intros [] c2 (Hc2 & statuses & Hb2 & Hall). split; [done|].
  exists (s :: statuses). split; [by rewrite Hb2, Hb1, <- app_assoc|].
  by constructor.
Qed.
End compare.

(** The statuses sent for the mongods of a slave: one for each, a match when it is as
    desired; [observed] are the reports. *)
Definition status_report (d : db) (slave : Slave) (observed : gmap Z msp.Mongod) (statuses : list MongodMatchStatus) : Prop :=
  NoDup (Mongod_ID ∘ Match_Mongod <$> statuses) ∧
  (∀ m, (∃ s, s ∈ statuses ∧ Match_Mongod s = m) ↔
     mongods d !! Mongod_ID m = Some m ∧ Mongod_ParentSlaveID m = Slave_ID slave) ∧
  (∀ s, s ∈ statuses → Match_Mismatch s = false ↔
     as_desired d (Match_Mongod s) (default msp.zero_Mongod (observed !! Mongod_ID (Match_Mongod s)))).

Lemma sendMongodMismatchStatusToBus_spec (ENG : Engine) (ORM : Gorm) slave (observed : gmap Z msp.Mongod) c :
  reliable ENG ORM → db_ok (cdb c) →
  wp (sendMongodMismatchStatusToBus slave observed) (λ r c', r = None ∧ cdb c' = cdb c ∧
    ∃ statuses, cbus c' = cbus c ++ (MsgMatch <$> statuses) ∧ status_report (cdb c) slave observed statuses) (λ _ _, False) c.
Proof.
  intros Hrel Hok. set (hosted := select (cstmts c) (hosted_on (Slave_ID slave)) (mongods (cdb c))).
  assert (∀ m, m ∈ hosted ↔ mongods (cdb c) !! Mongod_ID m = Some m ∧ Mongod_ParentSlaveID m = Slave_ID slave) as Hhosted.
  { intros m. unfold hosted. rewrite elem_of_select. unfold hosted_on. setoid_rewrite bool_decide_eq_true. split.
    - intros (id & Hid & Hp). by rewrite (ok_mongod_key _ Hok _ _ Hid).
    - intros [? ?]. by exists (Mongod_ID m). }
  pose proof (send_all_spec ENG ORM Hrel observed hosted (tick c) Hok (λ m Hm, proj1 (proj1 (Hhosted m) Hm))) as Hwp.
  unfold sendMongodMismatchStatusToBus, related_mongods. wp_step. apply wp_sql_query; [|by intros e ?].
  wp_step. eapply wp_mono; [exact Hwp| |done]. intros [] c' (Hc & statuses & Hb & Hall). apply wp_ret. split_and!; [done..|].
  exists statuses. split; [done|].
  assert (Match_Mongod <$> statuses = hosted) as Heq.
  { clear -Hall. induction Hall as [|m s ms ss [Hm _] _ IH]; csimpl; [done|]. by rewrite Hm, IH. }
  split_and!.
  - rewrite list_fmap_compose, Heq. apply (NoDup_select (cstmts c) _ (mongods (cdb c)) Mongod_ID).
    intros i j m1 m2 H1 H2. by rewrite (ok_mongod_key _ Hok _ _ H1), (ok_mongod_key _ Hok _ _ H2).
  - intros m. rewrite <- Hhosted, <- Heq, list_elem_of_fmap. naive_solver.
  - intros s [i Hi]%list_elem_of_lookup. destruct (Forall2_lookup_r _ _ _ _ _ Hall Hi) as (m & _ & -> & Hn). done.
Qed.

(** After an observation the monitor sends exactly one status for every mongod
    of the slave, and it is a match precisely when the mongod has been observed with
    its desired execution state and sharding role and the slave reported the members
    that its replica set should have; so a mongod of no replica set never matches. *)
Theorem mismatch_status_complete (ENG : Engine) (ORM : Gorm) slave (observed : gmap Z msp.Mongod) c :
  reliable ENG ORM → db_ok (cdb c) →
  ∃ c' statuses, sendMongodMismatchStatusToBus slave observed c = (c', Returned None) ∧
    cdb c' = cdb c ∧ cbus c' = cbus c ++ (MsgMatch <$> statuses) ∧ NoDup (Mongod_ID ∘ Match_Mongod <$> statuses) ∧
    (∀ m, (∃ s, s ∈ statuses ∧ Match_Mongod s = m) ↔
       mongods (cdb c) !! Mongod_ID m = Some m ∧ Mongod_ParentSlaveID m = Slave_ID slave) ∧
    (∀ s, s ∈ statuses → Match_Mismatch s = false ↔
       as_desired (cdb c) (Match_Mongod s) (default msp.zero_Mongod (observed !! Mongod_ID (Match_Mongod s)))).
Proof.
  intros Hrel Hok.
  destruct (wp_returns _ _ _ (sendMongodMismatchStatusToBus_spec ENG ORM slave observed c Hrel Hok))
    as (r & c' & Hrun & -> & Hc & statuses & Hb & Hreport).
  by exists c', statuses.
Qed.

(** ** Degradation *)

(** The two messages about a replica set. *)
Definition replica_set_messages (d : db) (r : ReplicaSet) : list StatusMessage :=
  let actual p := Z.of_nat (size (replica_set_effective_members_for_monitoring d (ReplicaSet_ID r) p)) in
  let configured p := Z.of_nat (size (replica_set_configured_members d (ReplicaSet_ID r) p)) in
  [MsgObservedConstraint (mkObservedReplicaSetConstraintStatus
     (bool_decide (actual false < configured false ∨ actual true < configured true)) r (configured false) (configured true) (actual false) (actual true));
   MsgInitiation (mkReplicaSetInitiationStatus (ReplicaSet_Initiated r) r)].

Lemma observed_counts_messages d r :
  [MsgObservedConstraint (observed_counts d r); MsgInitiation (mkReplicaSetInitiationStatus (ReplicaSet_Initiated r) r)] =
  replica_set_messages d r.
Proof. unfold observed_counts, replica_set_messages. cbn zeta. by rewrite bool_decide_or. Qed.

Lemma observeReplicaSets_spec (ENG : Engine) (ORM : Gorm) c :
  reliable ENG ORM →
  wp observeReplicaSets (λ _ c', ∃ rows, cdb c' = cdb c ∧ rows ≡ₚ (map_to_list (replica_sets (cdb c))).*2 ∧
    cbus c' = cbus c ++ mjoin (replica_set_messages (cdb c) <$> rows)) (λ _ _, False) c.
Proof.
  intros Hrel. unfold observeReplicaSets. wp_step. apply wp_sql_query; [|by intros e ?].
  set (rows := select (cstmts c) (λ _, true) (replica_sets (cdb c))).
  eapply wp_mono; [apply (wp_range _ _ (λ pre c', cdb c' = cdb c ∧
    cbus c' = cbus c ++ mjoin ((λ row, [MsgObservedConstraint row;
      MsgInitiation (mkReplicaSetInitiationStatus (ReplicaSet_Initiated (Observed_ReplicaSet row)) (Observed_ReplicaSet row))]) <$> pre)) (λ _ _, False))| |done].
  - split; [done|]. simpl. by rewrite app_nil_r.
  - intros pre row todo c1 _ [Hc Hb]. wp_step. apply wp_send. apply wp_send. simpl. split; [done|].
    rewrite Hb, fmap_app, join_app, <- !app_assoc. done.
  - intros [] c' [Hc Hb]. exists rows. split_and!; [done| |].
    + unfold rows, select. rewrite eng_order_perm. f_equiv. f_equiv. by rewrite map_filter_id.
    + rewrite Hb, <- list_fmap_compose. f_equal. f_equal. apply list_fmap_ext. intros i r _. apply observed_counts_messages.
Qed.

(** Observing the replica sets sends for each of them, once, the counts of its
    configured and of its running members, flagged unsatisfied exactly when members
    of some persistence are missing, and its initiation status; nothing else is
    sent and the database is not changed. *)
Theorem observeReplicaSets_complete (ENG : Engine) (ORM : Gorm) c :
  reliable ENG ORM →
  ∃ c' rows, observeReplicaSets c = (c', Returned tt) ∧ cdb c' = cdb c ∧
    rows ≡ₚ (map_to_list (replica_sets (cdb c))).*2 ∧
    cbus c' = cbus c ++ mjoin (replica_set_messages (cdb c) <$> rows).
Proof.
  intros Hrel. destruct (wp_returns _ _ _ (observeReplicaSets_spec ENG ORM c Hrel)) as ([] & c' & Hrun & rows & Hc & Hrows & Hb).
  by exists c', rows.
Qed.

(** ** Changing one mongod *)

(** A mongod without what is known about it from observation. *)
Definition unobserved (m : Mongod) : Mongod := Mongod_set_ObservedStateID None (Mongod_set_ObservationErrorID None m).

Lemma unobserved_desired m m' : unobserved m' = unobserved m → Mongod_DesiredStateID m' = Mongod_DesiredStateID m.
Proof. by intros [= _ _ _ _ _ _ ?]. Qed.

(** What operators and allocator decided about a mongod: all but observations and errors. *)
Definition decided (m : Mongod) : Mongod := Mongod_set_LastEstablishStateErrorID None (unobserved m).

Record decisions_kept (d d' : db) : Prop := {
  kept_replica_sets : replica_sets d' = replica_sets d;
  kept_mongods id m : mongods d !! id = Some m → ∃ m', mongods d' !! id = Some m' ∧ decided m' = decided m ∧
    mongod_states d' !! Mongod_DesiredStateID m = mongod_states d !! Mongod_DesiredStateID m
}.

Lemma decisions_kept_trans d1 d2 d3 : decisions_kept d1 d2 → decisions_kept d2 d3 → decisions_kept d1 d3.
Proof.
  intros [Hr1 Hm1] [Hr2 Hm2]. split; [congruence|]. intros id m Hm. destruct (Hm1 id m Hm) as (m1 & Hin & Hd1 & Hs1).
  destruct (Hm2 id m1 Hin) as (m2 & ? & Hd2 & Hs2). exists m2. split_and!; [done|congruence|].
  assert (Mongod_DesiredStateID m1 = Mongod_DesiredStateID m) as Heq by by injection Hd1. by rewrite <- Hs1, <- Heq.
Qed.

(** What the monitor relies on and keeps. *)
Record well_kept (d : db) : Prop := {
  kept_ok : db_ok d;
  kept_keys : foreign_keys d;
  kept_states : states_keyed d
}.

(** The clauses of [db_ok] about the mongod [mid]. *)
Record sound_row (d : db) (mid : Z) (m : Mongod) : Prop := {
  row_key : Mongod_ID m = mid;
  row_parent : is_Some (slaves d !! Mongod_ParentSlaveID m);
  row_replica_set r : Mongod_ReplicaSetID m = Some r → is_Some (replica_sets d !! r);
  row_desired : ∃ st, mongod_states d !! Mongod_DesiredStateID m = Some st ∧ MongodState_ParentMongodID st = mid;
  row_observed o : Mongod_ObservedStateID m = Some o → o ≠ Mongod_DesiredStateID m ∧
    ∃ st, mongod_states d !! o = Some st ∧ MongodState_ParentMongodID st = mid
}.

(** From [d] to [d'] only the mongod [mid], its states and errors change. *)
Record touched (mid : Z) (m' : Mongod) (d d' : db) : Prop := {
  touched_tables : slaves d' = slaves d ∧ replica_sets d' = replica_sets d ∧ risk_groups d' = risk_groups d ∧
    problems d' = problems d;
  touched_errors : msp_errors d ⊆ msp_errors d';
  touched_mongods : mongods d' = <[mid := m']> (mongods d);
  touched_row : sound_row d' mid m';
  touched_refs : foreign_keys d →
    references (Mongod_ObservationErrorID m') (msp_errors d') ∧ references (Mongod_LastEstablishStateErrorID m') (msp_errors d');
  touched_other_states sid st : mongod_states d !! sid = Some st → MongodState_ParentMongodID st ≠ mid →
    mongod_states d' !! sid = Some st;
  touched_own_states sid st : mongod_states d' !! sid = Some st →
    MongodState_ParentMongodID st = mid ∨ mongod_states d !! sid = Some st;
  touched_keyed : states_keyed d → states_keyed d'
}.

Section touched.
Context {mid : Z} {m' : Mongod} {d d' : db} (Ht : touched mid m' d d').

Lemma touched_ok : db_ok d → db_ok d'.
Proof.
  intros Hok. destruct Ht as [(Es & Er & _) _ Em [Hkey Hpar Hrs Hdes Hobs] _ Hst _ _].
  split; rewrite ?Es, ?Er, ?Em; try apply Hok.
  - intros id m [[<- <-]|[_ Hm]]%lookup_insert_Some; [done|]. by eapply ok_mongod_key.
  - intros id m [[<- <-]|[_ Hm]]%lookup_insert_Some; [by rewrite <- Es|]. by eapply ok_parent.
  - intros id m r [[<- <-]|[_ Hm]]%lookup_insert_Some Hr; [rewrite <- Er; by apply Hrs|]. by eapply ok_rs.
  - intros id m [[<- <-]|[Hne Hm]]%lookup_insert_Some; [done|].
    destruct (ok_desired _ Hok _ _ Hm) as (st & ? & ?). exists st. split; [apply Hst; congruence|done].
  - intros id m o [[<- <-]|[Hne Hm]]%lookup_insert_Some Ho; [by apply Hobs|].
    destruct (ok_observed _ Hok _ _ _ Hm Ho) as (? & st & ? & ?). split; [done|]. exists st. split; [apply Hst; congruence|done].
Qed.

Lemma touched_foreign_keys : db_ok d → foreign_keys d → foreign_keys d'.
Proof.
  intros Hok Hkeys. pose proof Hkeys as (Hs & Hm & Hst & Hp). pose proof (touched_ok Hok) as Hok'.
  destruct Ht as [(Es & Er & Eg & Ep) Hsub Em Hrow Hrefs Hother Hown _].
  assert (∀ fk, references fk (msp_errors d) → references fk (msp_errors d')) as Herr.
  { intros [e|] He; [|done]. destruct He as [x Hx]. exists x. by eapply lookup_weaken. }
  split_and!; unfold slave_keys, mongod_keys, state_keys, problem_keys in *; rewrite ?Es, ?Er, ?Eg, ?Ep.
  - intros id s Hin. destruct (Hs id s Hin) as [? ?]. split; [done|by apply Herr].
  - intros id m Hin. assert (references (Mongod_ObservationErrorID m) (msp_errors d') ∧
      references (Mongod_LastEstablishStateErrorID m) (msp_errors d')) as [? ?].
    { pose proof Hin as Hin'. rewrite Em in Hin'. apply lookup_insert_Some in Hin' as [[<- <-]|[_ Hin']]; [by apply Hrefs|].
      destruct (Hm id m Hin') as (? & ? & _). split; by apply Herr. }
    pose proof (ok_parent _ Hok' _ _ Hin) as Hpar. rewrite Es in Hpar. destruct (ok_desired _ Hok' _ _ Hin) as (st & ? & _).
    split_and!; [done..| | |].
    + destruct (Mongod_ReplicaSetID m) as [r|] eqn:Hr; [|done]. rewrite <- Er. by apply (ok_rs _ Hok' id m).
    + by exists st.
    + destruct (Mongod_ObservedStateID m) as [o|] eqn:Ho; [|done].
      destruct (ok_observed _ Hok' _ _ _ Hin Ho) as (_ & st' & ? & _). by exists st'.
  - intros sid st Hin. rewrite Em. simpl. rewrite lookup_insert_is_Some'.
    destruct (Hown _ _ Hin) as [->|Hin']; [by left|right]. by apply (Hst sid st).
  - intros id p Hin. destruct (Hp id p Hin) as (? & ? & Hmid). split_and!; [done..|].
    destruct (Problem_MongodID p); [|done]. simpl. rewrite Em, lookup_insert_is_Some'. by right.
Qed.

Lemma touched_well_kept : well_kept d → well_kept d'.
Proof.
  intros [Hok Hk Hst]. split; [by apply touched_ok|by apply touched_foreign_keys|by apply (touched_keyed _ _ _ _ Ht)].
Qed.

(** The other mongods and what is known about them. *)
Lemma touched_others id m : db_ok d → id ≠ mid → mongods d !! id = Some m →
  mongods d' !! id = Some m ∧ observed_state d' m = observed_state d m ∧
  mongod_states d' !! Mongod_DesiredStateID m = mongod_states d !! Mongod_DesiredStateID m.
Proof.
  intros Hok Hne Hm. split_and!.
  - by rewrite (touched_mongods _ _ _ _ Ht), lookup_insert_ne.
  - unfold observed_state. destruct (Mongod_ObservedStateID m) as [o|] eqn:Ho; [|done]. simpl.
    destruct (ok_observed _ Hok _ _ _ Hm Ho) as (_ & st & Hst & Hpar). rewrite Hst.
    apply (touched_other_states _ _ _ _ Ht); [done|congruence].
  - destruct (ok_desired _ Hok _ _ Hm) as (st & Hst & Hpar). rewrite Hst.
    apply (touched_other_states _ _ _ _ Ht); [done|congruence].
Qed.
End touched.

(** ** Mongods that are gone *)

(** The effect on the database of marking the mongods [gone] of [d]. *)
Record marked (d : db) (gone : gset Z) (d' : db) : Prop := {
  marked_ok : db_ok d';
  marked_well_kept : well_kept d → well_kept d';
  marked_tables : slaves d' = slaves d ∧ replica_sets d' = replica_sets d ∧ problems d' = problems d;
  marked_dom : dom (mongods d') = dom (mongods d);
  marked_gone id m : id ∈ gone → mongods d !! id = Some m → ∃ m' st,
    mongods d' !! id = Some m' ∧ unobserved m' = unobserved m ∧ Mongod_ObservationErrorID m' = None ∧
    observed_state d' m' = Some st ∧ MongodState_ExecutionState st = MongodExecutionStateDestroyed;
  marked_kept id m : id ∉ gone → mongods d !! id = Some m →
    mongods d' !! id = Some m ∧ observed_state d' m = observed_state d m;
  marked_desired id m : mongods d !! id = Some m →
    mongod_states d' !! Mongod_DesiredStateID m = mongod_states d !! Mongod_DesiredStateID m
}.

Lemma marked_refl d : db_ok d → marked d ∅ d.
Proof. intros Hok. split; try done. Qed.

Lemma marked_trans d g1 d1 g2 d2 : marked d g1 d1 → marked d1 g2 d2 → marked d (g1 ∪ g2) d2.
Proof.
  intros H1 H2.
  assert (∀ id m, mongods d !! id = Some m → ∃ m1, mongods d1 !! id = Some m1 ∧ unobserved m1 = unobserved m) as Hrow.
  { intros id m Hm. destruct (decide (id ∈ g1)) as [Hin|Hn].
    - destruct (marked_gone _ _ _ H1 id m Hin Hm) as (m1 & st & ? & ? & _). by exists m1.
    - exists m. split; [|done]. by eapply marked_kept. }
  split; [by eapply marked_ok|by intros ?%(marked_well_kept _ _ _ H1)%(marked_well_kept _ _ _ H2)| | | | |].
  - destruct (marked_tables _ _ _ H1) as (? & ? & ?), (marked_tables _ _ _ H2) as (? & ? & ?). split_and!; congruence.
  - by rewrite (marked_dom _ _ _ H2), (marked_dom _ _ _ H1).
  - intros id m Hin Hm. destruct (Hrow id m Hm) as (m1 & Hm1 & Hu1). destruct (decide (id ∈ g2)) as [Hin2|Hn2].
    + destruct (marked_gone _ _ _ H2 id m1 Hin2 Hm1) as (m2 & st & ? & Hu2 & ? & ? & ?).
      exists m2, st. split_and!; [done|congruence|done..].
    + destruct (marked_gone _ _ _ H1 id m ltac:(set_solver) Hm) as (m1' & st & Hm1' & Hu & He & Hst & Hx).
      destruct (marked_kept _ _ _ H2 id m1' Hn2 Hm1') as [Hm2 Ho2].
      exists m1', st. split_and!; [done..| |done]. by rewrite Ho2.
  - intros id m Hn Hm. destruct (marked_kept _ _ _ H1 id m ltac:(set_solver) Hm) as [Hm1 Ho1].
    destruct (marked_kept _ _ _ H2 id m ltac:(set_solver) Hm1) as [Hm2 Ho2]. split; [done|congruence].
  - intros id m Hm. destruct (Hrow id m Hm) as (m1 & Hm1 & Hu1). apply unobserved_desired in Hu1 as Hd.
    rewrite <- Hd at 1. rewrite (marked_desired _ _ _ H2 id m1 Hm1), Hd. by eapply marked_desired.
Qed.

(** What one round of the loop does to a mongod: [o] is its observed state. *)
Definition marked_row (o : Z) (m : Mongod) : Mongod := Mongod_set_ObservationErrorID None (Mongod_set_ObservedStateID (Some o) m).
Record marked_one (d : db) (m : Mongod) (o : Z) (d' : db) : Prop := {
  one_touched : touched (Mongod_ID m) (marked_row o m) d d';
  one_state : ∃ st, mongod_states d' !! o = Some st ∧ MongodState_ExecutionState st = MongodExecutionStateDestroyed;
  one_desired : mongod_states d' !! Mongod_DesiredStateID m = mongod_states d !! Mongod_DesiredStateID m
}.

(** Only the state [o] of [m] was written. *)
Lemma mark_one_touched d m o d' :
  db_ok d → mongods d !! Mongod_ID m = Some m →
  slaves d' = slaves d → replica_sets d' = replica_sets d → risk_groups d' = risk_groups d → problems d' = problems d →
  msp_errors d' = msp_errors d → mongods d' = <[Mongod_ID m := marked_row o m]> (mongods d) →
  (∀ sid, sid ≠ o → mongod_states d' !! sid = mongod_states d !! sid) →
  (∃ st, mongod_states d' !! o = Some st ∧ MongodState_ParentMongodID st = Mongod_ID m ∧
     MongodState_ExecutionState st = MongodExecutionStateDestroyed ∧
     (states_keyed d → MongodState_ID st = o ∧ 0 < o)) →
  o ≠ Mongod_DesiredStateID m →
  (∀ st, mongod_states d !! o = Some st → MongodState_ParentMongodID st = Mongod_ID m) →
  marked_one d m o d'.
Proof.
  intros Hok Hm Es Er Eg Ep Ee Em Hstates (st & Hst & Hpar & Hx & Hkeyed) Hne Hown.
  assert (mongod_states d' !! Mongod_DesiredStateID m = mongod_states d !! Mongod_DesiredStateID m) as Hdes by by apply Hstates.
  split; [|by exists st|done]. split; [done|by rewrite Ee|done| | | | |].
  - split; simpl; [done|rewrite Es; by eapply ok_parent|rewrite Er; intros r; by eapply ok_rs|rewrite Hdes; by eapply ok_desired|].
    intros o' [= <-]. split; [done|]. by exists st.
  - intros (_ & Hk & _). destruct (Hk _ _ Hm) as (_ & ? & _). by rewrite Ee.
  - intros sid st' Hst' Hp'. rewrite Hstates; [done|]. intros ->. by apply Hp', Hown.
  - intros sid st' Hst'. destruct (decide (sid = o)) as [->|Hsid]; [left; congruence|right; by rewrite <- Hstates].
  - intros Hk sid st' Hst'. destruct (decide (sid = o)) as [->|Hsid]; [|apply Hk; by rewrite <- Hstates].
    assert (st' = st) as -> by congruence. by apply Hkeyed.
Qed.

Lemma marked_one_marked d m o d' :
  db_ok d → mongods d !! Mongod_ID m = Some m → marked_one d m o d' → marked d {[Mongod_ID m]} d'.
Proof.
  intros Hok Hm [Ht (st & Hst & Hx) Hdes]. pose proof (touched_mongods _ _ _ _ Ht) as Em. split.
  - by apply (touched_ok Ht).
  - apply (touched_well_kept Ht).
  - destruct (touched_tables _ _ _ _ Ht) as (? & ? & ? & ?). done.
  - rewrite Em, dom_insert_lookup_L; [done|by eexists].
  - intros id x ->%elem_of_singleton Hx'. rewrite Hm in Hx'. injection Hx' as <-. exists (marked_row o m), st.
    rewrite Em, lookup_insert_eq. split_and!; [done..| |done]. done.
  - intros id x Hne%not_elem_of_singleton Hx'. by destruct (touched_others Ht id x Hok Hne Hx') as (? & ? & ?).
  - intros id x Hx'. destruct (decide (id = Mongod_ID m)) as [->|Hne]; [by simplify_eq|]. by apply (touched_others Ht id x Hok Hne Hx').
Qed.

Section gone.
Context (ENG : Engine) (ORM : Gorm) (Hrel : reliable ENG ORM).

(** The observed state, before the observation error is cleared. *)
Lemma set_observed_destroyed_spec c m (Q : option gerror → conn → Prop) E :
  db_ok (cdb c) → mongods (cdb c) !! Mongod_ID m = Some m →
  (∀ c' o, marked_one (cdb c) m o (set_mongods (<[Mongod_ID m := marked_row o m]> (mongods (cdb c'))) (cdb c')) →
     mongods (cdb c') = <[Mongod_ID m := Mongod_set_ObservedStateID (Some o) m]> (mongods (cdb c)) →
     cbus c' = cbus c → Q None c') →
  wp (set_observed_destroyed m) Q E c.
Proof.
  intros Hok Hm HQ. unfold set_observed_destroyed. destruct (ok_desired _ Hok _ _ Hm) as (des & Hdes & Hdpar).
  destruct (Mongod_ObservedStateID m) as [o|] eqn:Ho.
  - wp_step. apply wp_orm_update; [|by intros e ?]. apply wp_ret.
    destruct (ok_observed _ Hok _ _ _ Hm Ho) as (Hne & st & Hst & Hpar).
    assert (Mongod_set_ObservedStateID (Some o) m = m) as Hself by (destruct m; simpl in *; by subst).
    apply (HQ _ o); simpl; [|by rewrite Hself, insert_id|done]. apply mark_one_touched; simpl; try done.
    + intros sid Hsid. by rewrite lookup_alter_ne.
    + rewrite lookup_alter_eq, Hst. eexists. split_and!; [done..|]. intros Hk. by apply (Hk o st).
    + intros st'. congruence.
  - wp_step. apply wp_orm_create; [done|done| |by intros e ?]. intros o Hpos Hfresh.
    wp_step. apply wp_orm_update; [|by intros e ?]. apply wp_ret. simpl in Hfresh.
    pose proof (alter_as_insert (Mongod_set_ObservedStateID (Some o)) _ _ _ Hm) as Halter.
    apply (HQ _ o); simpl; [|exact Halter|done]. apply mark_one_touched; simpl; try done.
    + by rewrite Halter, insert_insert_eq.
    + intros sid Hsid. by rewrite lookup_insert_ne.
    + rewrite lookup_insert_eq. by eexists.
    + congruence.
    + intros st'. congruence.
Qed.

(** A round of the loop for a mongod that was not reported. *)
Lemma mark_round_spec c m (k : GoM conn (option gerror)) (Q : option gerror → conn → Prop) E :
  db_ok (cdb c) → mongods (cdb c) !! Mongod_ID m = Some m →
  (∀ c', marked (cdb c) {[Mongod_ID m]} (cdb c') → cbus c' = cbus c → wp k Q E c') →
  wp (err ← set_observed_destroyed m;
      match err with
      | Some e => mret (Some e)
      | None =>
          err ← clear_observation_error m;
          match err with
          | Some e => mret (Some e)
          | None => k
          end
      end) Q E c.
Proof.
  intros Hok Hm HQ. wp_step. apply set_observed_destroyed_spec; [done..|]. intros c1 o Hone Hmon Hbus.
  apply (marked_one_marked _ _ _ _ Hok Hm) in Hone.
  wp_step. unfold clear_observation_error. destruct (Mongod_ObservationErrorID m) as [e|] eqn:He.
  - apply wp_orm_update; [|by intros e' ?]. apply HQ; [|done]. simpl.
    rewrite (alter_as_insert _ _ _ (Mongod_set_ObservedStateID (Some o) m)); [done|]. by rewrite Hmon, lookup_insert_eq.
  - apply wp_ret, HQ; [|done].
    assert (marked_row o m = Mongod_set_ObservedStateID (Some o) m)
      as Hself by (unfold marked_row; destruct m; simpl in *; by subst).
    rewrite Hself, Hmon, insert_insert_eq, <- Hmon in Hone. by destruct (cdb c1).
Qed.

(** The mongods of a list the slave did not report. *)
Definition missing (observed : list msp.Mongod) (l : list Mongod) : gset Z :=
  list_to_set (Mongod_ID <$> filter (λ m, reported observed m = false) l).

Lemma elem_of_missing observed l id :
  id ∈ missing observed l ↔ ∃ m, m ∈ l ∧ reported observed m = false ∧ Mongod_ID m = id.
Proof.
  unfold missing. rewrite elem_of_list_to_set, list_elem_of_fmap. setoid_rewrite list_elem_of_filter. naive_solver.
Qed.

Lemma mark_unobserved_spec observed l c :
  db_ok (cdb c) → (∀ m, m ∈ l → mongods (cdb c) !! Mongod_ID m = Some m) → NoDup (Mongod_ID <$> l) →
  wp (mark_unobserved observed l) (λ r c', r = None ∧ cbus c' = cbus c ∧ marked (cdb c) (missing observed l) (cdb c'))
    (λ _ _, False) c.
Proof.
  revert c. induction l as [|m l IH]; intros c Hok Hin Hnd; simpl.
  { apply wp_ret. split_and!; [done..|]. by apply marked_refl. }
  csimpl in Hnd. apply NoDup_cons in Hnd as [Hnot Hnd].
  unfold missing. rewrite filter_cons. destruct (reported observed m) eqn:Hrep.
  - rewrite decide_False by done. apply IH; [done| |done]. intros x Hx. apply Hin. by right.
  - rewrite decide_True by done. apply mark_round_spec; [done|apply Hin; left|]. intros c1 Hmark Hbus.
    eapply wp_mono; [apply IH; [by eapply marked_ok| |done]| |done].
    + intros x Hx. apply (marked_kept _ _ _ Hmark); [|apply Hin; by right].
      intros Heq%elem_of_singleton. apply Hnot. rewrite <- Heq. by apply list_elem_of_fmap_2.
    + intros r c2 (-> & Hb & Hmark2). split_and!; [done|congruence|]. csimpl. by eapply marked_trans.
Qed.
End gone.

(** The mongods of the slave that the answer does not mention. *)
Definition missing_of (d : db) (slave : Slave) (observed : list msp.Mongod) (gone : gset Z) : Prop :=
  ∀ id, id ∈ gone ↔ ∃ m, mongods d !! id = Some m ∧ Mongod_ParentSlaveID m = Slave_ID slave ∧
    ∀ o, o ∈ observed → ¬ (msp.Mongod_Port o = Mongod_Port m ∧
      msp.ReplicaSetName (msp.Mongod_ReplicaSetConfig o) = Mongod_ReplSetName m).

Lemma updateMongodStatesNotObservedOnSlave_spec (ENG : Engine) (ORM : Gorm) slave observed c :
  reliable ENG ORM → db_ok (cdb c) →
  wp (updateMongodStatesNotObservedOnSlave slave observed)
    (λ r c', r = None ∧ cbus c' = cbus c ∧ ∃ gone, marked (cdb c) gone (cdb c') ∧ missing_of (cdb c) slave observed gone)
    (λ _ _, False) c.
Proof.
  intros Hrel Hok. set (hosted := select (cstmts c) (hosted_on (Slave_ID slave)) (mongods (cdb c))).
  unfold updateMongodStatesNotObservedOnSlave, related_mongods. wp_step. apply wp_sql_query; [|by intros e ?].
  eapply wp_mono; [apply (mark_unobserved_spec ENG ORM Hrel observed hosted (tick c) Hok)| |done].
  - intros m (id & Hid & _)%elem_of_select. simpl. by rewrite (ok_mongod_key _ Hok _ _ Hid).
  - apply (NoDup_select (cstmts c) _ (mongods (cdb c)) Mongod_ID).
    intros i j m1 m2 H1 H2. by rewrite (ok_mongod_key _ Hok _ _ H1), (ok_mongod_key _ Hok _ _ H2).
  - intros r c' (-> & Hbus & Hmark). split_and!; [done..|]. exists (missing observed hosted). split; [exact Hmark|].
    intros id. rewrite elem_of_missing.
    assert (∀ m, reported observed m = false ↔ ∀ o, o ∈ observed → ¬ (msp.Mongod_Port o = Mongod_Port m ∧
          msp.ReplicaSetName (msp.Mongod_ReplicaSetConfig o) = Mongod_ReplSetName m)) as Hrep.
    { intros m. unfold reported. rewrite <- not_true_iff_false, existsb_exists. setoid_rewrite andb_true_iff.
      setoid_rewrite bool_decide_eq_true. setoid_rewrite <- list_elem_of_In. naive_solver. }
    setoid_rewrite Hrep. unfold hosted. setoid_rewrite elem_of_select. unfold hosted_on. setoid_rewrite bool_decide_eq_true. split.
    + intros (m & (id' & Hid & Hp) & Hno & <-). exists m. by rewrite (ok_mongod_key _ Hok _ _ Hid).
    + intros (m & Hid & Hp & Hno). exists m. split_and!; [by exists id|done|by eapply ok_mongod_key].
Qed.

(** After a status the monitor marks exactly the mongods of the slave that the
    status does not mention, by port and replica set name: they get an observed
    state that is destroyed and no observation error. No other mongod and no desired
    state changes, and the database stays well-formed. *)
Theorem unobserved_marked (ENG : Engine) (ORM : Gorm) slave observed c :
  reliable ENG ORM → db_ok (cdb c) →
  ∃ c' gone, updateMongodStatesNotObservedOnSlave slave observed c = (c', Returned None) ∧
    cbus c' = cbus c ∧ marked (cdb c) gone (cdb c') ∧
    ∀ id, id ∈ gone ↔ ∃ m, mongods (cdb c) !! id = Some m ∧ Mongod_ParentSlaveID m = Slave_ID slave ∧
      ∀ o, o ∈ observed → ¬ (msp.Mongod_Port o = Mongod_Port m ∧
        msp.ReplicaSetName (msp.Mongod_ReplicaSetConfig o) = Mongod_ReplSetName m).
Proof.
  intros Hrel Hok.
  destruct (wp_returns _ _ _ (updateMongodStatesNotObservedOnSlave_spec ENG ORM slave observed c Hrel Hok))
    as (r & c' & Hrun & -> & Hbus & gone & Hmark & Hgone).
  by exists c', gone.
Qed.

(** ** A cluster of nine mongods *)

Definition monitor_conn : conn := mkConn nine_db 0 [].
Definition monitored_slave : Slave := default zero_Slave (slaves nine_db !! 3).

Lemma mismatch_status_complete_witness :
  ∃ c' statuses, @sendMongodMismatchStatusToBus ref_engine ref_gorm monitored_slave ∅ monitor_conn = (c', Returned None) ∧
    cdb c' = nine_db ∧ cbus c' = MsgMatch <$> statuses.
Proof.
  destruct (mismatch_status_complete ref_engine ref_gorm monitored_slave ∅ monitor_conn ref_reliable nine_ok)
    as (c' & statuses & Hrun & Hc & Hb & _). by exists c', statuses.
Defined.

Lemma observeReplicaSets_complete_witness :
  ∃ c' rows, @observeReplicaSets ref_engine monitor_conn = (c', Returned tt) ∧ cdb c' = nine_db ∧
    rows ≡ₚ (map_to_list (replica_sets nine_db)).*2 ∧
    cbus c' = [] ++ mjoin (replica_set_messages nine_db <$> rows).
Proof. apply (observeReplicaSets_complete ref_engine ref_gorm monitor_conn ref_reliable). Defined.

Lemma unobserved_marked_witness :
  ∃ c' gone, @updateMongodStatesNotObservedOnSlave ref_engine ref_gorm monitored_slave [] monitor_conn = (c', Returned None) ∧
    cbus c' = [] ∧ marked nine_db gone (cdb c').
Proof.
  destruct (unobserved_marked ref_engine ref_gorm monitored_slave [] monitor_conn ref_reliable nine_ok)
    as (c' & gone & Hrun & Hb & Hm & _). by exists c', gone.
Defined.

(** The mongod on slave 3 is marked as destroyed. *)
Example unobserved_example :
  let c' := (@updateMongodStatesNotObservedOnSlave ref_engine ref_gorm monitored_slave [] monitor_conn).1 in
  (λ m, (Mongod_ID m, MongodState_ExecutionState <$> observed_state (cdb c') m)) <$>
    filter (λ m, Mongod_ParentSlaveID m = 3) ((map_to_list (mongods (cdb c'))).*2) = [(3, Some MongodExecutionStateDestroyed)].
Proof. vm_compute. reflexivity. Qed.
