(* ===== verification/Observation.v ===== *)
(** * The monitor: recording observations

    The rest of [master/monitor.go]: what the answer of a slave does to the database
    ([updateSlaveObservationError], [updateOrCreateObservedMongodStates]), the
    transactions around it ([handleObservation]) and a round over all slaves
    ([Run]).  gorm's query by example and its saving of associations are the
    parameter [GormAssociations]. *)

From stdpp Require Import base gmap sets list strings fin_maps.
From Stdlib Require Import Lia.
From S2P Require Import Prelude Msp Model Database Orm Store Session Members Projections Monitor.

Open Scope Z_scope.
Set Warnings "-clear-no-such-hyp".

(** ** More of gorm *)

Definition zero_MongodState : MongodState := mkMongodState 0 0 EmptyString 0.
Definition zero_MSPError : MSPError := mkMSPError 0 EmptyString EmptyString EmptyString.

(** A [model.Mongod] with the associations the monitor sets; the others are zero. *)
Record mongod_value := mkMongodValue {
  value_row : Mongod;
  value_ObservationError : MSPError;
  value_DesiredState : MongodState;
  value_ObservedState : MongodState
}.

(** A query by example only compares the fields of the example that are not zero. *)
Definition zero_or_equal {A} `{EqDecision A} (zero v w : A) : bool := bool_decide (v = zero) || bool_decide (v = w).
Definition like (example m : Mongod) : bool :=
  zero_or_equal 0 (Mongod_ID example) (Mongod_ID m) &&
  zero_or_equal 0 (Mongod_Port example) (Mongod_Port m) &&
  zero_or_equal EmptyString (Mongod_ReplSetName example) (Mongod_ReplSetName m) &&
  zero_or_equal None (Mongod_ObservationErrorID example) (Mongod_ObservationErrorID m) &&
  zero_or_equal None (Mongod_LastEstablishStateErrorID example) (Mongod_LastEstablishStateErrorID m) &&
  zero_or_equal 0 (Mongod_ParentSlaveID example) (Mongod_ParentSlaveID m) &&
  zero_or_equal None (Mongod_ReplicaSetID example) (Mongod_ReplicaSetID m) &&
  zero_or_equal 0 (Mongod_DesiredStateID example) (Mongod_DesiredStateID m) &&
  zero_or_equal None (Mongod_ObservedStateID example) (Mongod_ObservedStateID m).

(** Saving the value [a] of a [belongs to] association: a zero value is skipped, one
    without primary key is created, any other is written; [key] is the foreign key
    to be stored. *)
Definition association_saved {R} `{Table R} `{EqDecision R} (zero : R) (d : db) (a : R) (key : option Z) (d' : db) : Prop :=
  if decide (a = zero) then key = None ∧ d' = d
  else if decide (row_id a = 0)
  then ∃ id, 0 < id ∧ table (R := R) d !! id = None ∧ key = Some id ∧ d' = set_table (<[id := set_row_id id a]> (table d)) d
  else key = Some (row_id a) ∧ d' = set_table (<[row_id a := a]> (table d)) d.

(** The row with the foreign keys of the saved associations; a skipped one leaves its
    column as it is. *)
Definition or_else (key column : option Z) : option Z := match key with Some k => Some k | None => column end.
Definition with_keys (e ds os : option Z) (m : Mongod) : Mongod :=
  Mongod_set_ObservationErrorID (or_else e (Mongod_ObservationErrorID m))
    (Mongod_set_DesiredStateID (default (Mongod_DesiredStateID m) ds)
       (Mongod_set_ObservedStateID (or_else os (Mongod_ObservedStateID m)) m)).

Class GormAssociations := {
  (** [tx.First(&m, &example)] *)
  gorm_first_like : nat → db → Mongod → gres Mongod;
  (** [tx.Save(&m)] of a row that exists, with its associations *)
  gorm_save_mongod : nat → db → mongod_value → db * option gerror;

  gorm_first_like_law n d example :
    match gorm_first_like n d example with
    | Ok m => ∃ id, mongods d !! id = Some m ∧ like example m = true ∧
                ∀ id' m', mongods d !! id' = Some m' → like example m' = true → id ≤ id'
    | Err ErrRecordNotFound => ∀ id m, mongods d !! id = Some m → like example m = false
    | Err _ => True
    end;
  gorm_save_mongod_law n d v : is_Some (mongods d !! Mongod_ID (value_row v)) →
    match gorm_save_mongod n d v with
    | (d', None) => ∃ e d1 ds d2 os d3,
        association_saved zero_MSPError d (value_ObservationError v) e d1 ∧
        association_saved zero_MongodState d1 (value_DesiredState v) ds d2 ∧
        association_saved zero_MongodState d2 (value_ObservedState v) os d3 ∧
        d' = set_mongods (<[Mongod_ID (value_row v) := with_keys e ds os (value_row v)]> (mongods d3)) d3
    | (_, Some _) => True
    end
}.

(** ** A concrete mapper *)

Definition save_association {R} `{Table R} `{EqDecision R} (zero : R) (d : db) (a : R) : option Z * db :=
  if decide (a = zero) then (None, d)
  else if decide (row_id a = 0)
  then let id := next_id (table (R := R) d) in (Some id, set_table (<[id := set_row_id id a]> (table d)) d)
  else (Some (row_id a), set_table (<[row_id a := a]> (table d)) d).

Lemma save_association_saved {R} `{Table R} `{EqDecision R} (zero : R) d a :
  association_saved zero d a (save_association zero d a).1 (save_association zero d a).2.
Proof.
  unfold association_saved, save_association. destruct (decide (a = zero)); [done|]. destruct (decide (row_id a = 0)); [|done].
  exists (next_id (table (R := R) d)). split_and!; [apply next_id_pos|apply next_id_fresh|done..].
Qed.

Definition ref_associations : GormAssociations.
Proof.
  refine {|
    gorm_first_like n d example :=
      match first_key (filter (λ kv : Z * Mongod, like example kv.2 = true) (mongods d)) ≫= (mongods d !!.) with
      | Some m => Ok m
      | None => Err ErrRecordNotFound
      end;
    gorm_save_mongod n d v :=
      let '(e, d1) := save_association zero_MSPError d (value_ObservationError v) in
      let '(ds, d2) := save_association zero_MongodState d1 (value_DesiredState v) in
      let '(os, d3) := save_association zero_MongodState d2 (value_ObservedState v) in
      (set_mongods (<[Mongod_ID (value_row v) := with_keys e ds os (value_row v)]> (mongods d3)) d3, None)
  |}.
  - intros n d example. pose proof (first_key_spec (filter (λ kv : Z * Mongod, like example kv.2 = true) (mongods d))) as Hs.
    destruct (first_key _) as [id|]; simpl.
    + destruct Hs as [[m Hm] Hmin]. apply map_lookup_filter_Some in Hm as [Hm Hlike]. rewrite Hm. exists id. split_and!; [done..|].
      intros id' m' Hm' Hlike'. apply Hmin. exists m'. by apply map_lookup_filter_Some.
    + intros id m Hm. destruct (like example m) eqn:Hlike; [|done].
      assert (filter (λ kv : Z * Mongod, like example kv.2 = true) (mongods d) !! id = Some m) as Hin by by apply map_lookup_filter_Some.
      by rewrite Hs, lookup_empty in Hin.
  - intros n d v _. pose proof (save_association_saved zero_MSPError d (value_ObservationError v)) as H1.
    destruct (save_association zero_MSPError d _) as [e d1].
    pose proof (save_association_saved zero_MongodState d1 (value_DesiredState v)) as H2.
    destruct (save_association zero_MongodState d1 _) as [ds d2].
    pose proof (save_association_saved zero_MongodState d2 (value_ObservedState v)) as H3.
    destruct (save_association zero_MongodState d2 _) as [os d3]. simpl in *. by exists e, d1, ds, d2, os, d3.
Defined.

(** No statement fails. *)
Record reliable_monitor (ENG : Engine) (ORM : Gorm) (STORE : GormStore) (ASSOC : GormAssociations) : Prop := {
  monitor_orm : reliable ENG ORM;
  monitor_save (n : nat) d (e : MSPError) : (gorm_save n d e).2 = None;
  monitor_first_like n d example e : gorm_first_like n d example = Err e → e = ErrRecordNotFound;
  monitor_save_mongod n d v : (gorm_save_mongod n d v).2 = None
}.

Lemma ref_reliable_monitor : reliable_monitor ref_engine ref_gorm ref_store ref_associations.
Proof.
  split; simpl.
  - apply ref_reliable.
  - intros n d e. by destruct (conflicts_dec d (MSPError_ID e) e) as [[]|].
  - intros n d example e. destruct (_ ≫= _); by intros [= <-].
  - intros n d v. by repeat case_match.
Qed.

Section observation.
Context `{ENG : Engine} `{ORM : Gorm} `{STORE : GormStore} `{ASSOC : GormAssociations}.

Definition orm_first_like (example : Mongod) : GoM conn (gres Mongod) := λ c,
  (tick c, Returned (gorm_first_like (cstmts c) (cdb c) example)).
Definition orm_save_mongod (v : mongod_value) : GoM conn (option gerror) := λ c,
  let '(d', err) := gorm_save_mongod (cstmts c) (cdb c) v in (with_db d' c, Returned err).

(** ** The observation error of a slave *)

Definition slave_text (slave : Slave) : string := "`" +:+ Slave_Hostname slave +:+ ":" +:+ fmt_d (Slave_Port slave) +:+ "`".

(** The part that stores an error: it replaces the row of the last one, if any. *)
Definition store_observation_error (slave : Slave) (slaveObservationError : msp.Error) : GoM conn (option gerror) :=
  let modelObservationErr := mspErrorToModelMSPError slaveObservationError in
  match Slave_ObservationErrorID slave with
  | Some id => orm_save (set_row_id id modelObservationErr)
  | None =>
      created ← orm_create modelObservationErr;
      match created with
      | Err e => mret (Some e)
      | Ok modelObservationErr =>
          orm_update slave (Slave_set_ObservationErrorID (Some (MSPError_ID modelObservationErr)))
      end
  end.

(** [func (m *Monitor) updateSlaveObservationError(tx, slave, slaveObservationError)] *)
Definition updateSlaveObservationError (slave : Slave) (slaveObservationError : option msp.Error) : GoM conn (option gerror) :=
  match slaveObservationError with
  | Some e =>
      updateError ← store_observation_error slave e;
      match updateError with
      | Some err => mret (Some (TextError ("monitor: database error when updating slave " +:+ slave_text slave +:+
          " ObservationErrorID field: " +:+ error_text err)))
      | None => mret None
      end
  | None =>
      match Slave_ObservationErrorID slave with
      | Some id =>
          res ← sql_exec_rows (λ d, (delete_msp_error d id, if decide (is_Some (msp_errors d !! id)) then 1 else 0));
          match res with
          | Err err => mret (Some (TextError ("monitor: database error when clearing observation error for slave " +:+
              slave_text slave +:+ ": " +:+ error_text err)))
          | Ok RowsAffected =>
              if decide (RowsAffected = 0)
              then mret (Some (TextError ("monitor: clearing observation error for slave " +:+ slave_text slave +:+ " affected 0 rows")))
              else mret None
          end
      | None => mret None
      end
  end.

(** ** The observed mongods *)

Definition mongodTuple (s : Slave) (m : msp.Mongod) : string :=
  "(" +:+ Slave_Hostname s +:+ "(id=" +:+ fmt_d (Slave_ID s) +:+ ")," +:+ fmt_d (msp.Mongod_Port m) +:+ "," +:+
    msp.ReplicaSetName (msp.Mongod_ReplicaSetConfig m) +:+ ")".

(** The sharding role a slave reports, [none] if it is unknown. *)
Definition reported_role (observedMongod : msp.Mongod) : ShardingRole :=
  match ProjectMSPShardingRoleToModelShardingRole (msp.Config_ShardingRole (msp.Mongod_ReplicaSetConfig observedMongod)) with
  | Ok shardingRole => shardingRole
  | Err _ => ShardingRoleNone
  end.

(** [func (m *Monitor) updateObservedState(tx, observedMongod, observedState)] *)
Definition updateObservedState (observedMongod : msp.Mongod) (observedState : MongodState) : MongodState :=
  mkMongodState (MongodState_ID observedState) (MongodState_ParentMongodID observedState) (reported_role observedMongod)
    (MspMongodStateToModelExecutionState (msp.State observedMongod)).

Definition MongodState_set_ParentMongodID (id : Z) (st : MongodState) : MongodState :=
  mkMongodState (MongodState_ID st) id (MongodState_ShardingRole st) (MongodState_ExecutionState st).

(** The example of the query, and the row of a mongod MAMID does not know. *)
Definition observed_row (slave : Slave) (observedMongod : msp.Mongod) : Mongod :=
  mkMongod 0 (msp.Mongod_Port observedMongod) (msp.ReplicaSetName (msp.Mongod_ReplicaSetConfig observedMongod))
    None None (Slave_ID slave) None 0 None.

(** An unknown mongod is created with a desired state that destroys it. *)
Definition create_unknown (slave : Slave) (observedMongod : msp.Mongod) : GoM conn (gres Mongod) :=
  let fail what e := mret (Err (TextError ("monitor: could not " +:+ what +:+ " for unknown observed Mongod `" +:+
    mongodTuple slave observedMongod +:+ "`: " +:+ error_text e))) in
  created ← orm_create (observed_row slave observedMongod);
  match created with
  | Err e => fail "create database representation" e
  | Ok dbMongod =>
      created ← orm_create (mkMongodState 0 (Mongod_ID dbMongod) (reported_role observedMongod) MongodExecutionStateForceDestroyed);
      match created with
      | Err e => fail "create desired MongodState" e
      | Ok desiredState =>
          err ← orm_update dbMongod (Mongod_set_DesiredStateID (MongodState_ID desiredState));
          match err with
          | Some e => fail "update DesiredStateID column" e
          | None => mret (Ok (Mongod_set_DesiredStateID (MongodState_ID desiredState) dbMongod))
          end
      end
  end.

(** [dbMongod], from the database or just created. *)
Definition find_mongod (slave : Slave) (observedMongod : msp.Mongod) : GoM conn (gres Mongod) :=
  dbMongodRes ← orm_first_like (observed_row slave observedMongod);
  match dbMongodRes with
  | Ok dbMongod => mret (Ok dbMongod)
  | Err ErrRecordNotFound => create_unknown slave observedMongod
  | Err e => mret (Err (TextError ("monitor: database error when querying for Mongod corresponding to observed Mongod `" +:+
      mongodTuple slave observedMongod +:+ "`: " +:+ error_text e)))
  end.

(** [tx.Model(&dbMongod).Related(&state)] where a missing row leaves the state zero. *)
Definition related_or_zero (id : option Z) : GoM conn (gres MongodState) :=
  res ← related_state id;
  match res with
  | Err ErrRecordNotFound => mret (Ok zero_MongodState)
  | res => mret res
  end.

(** What is written for an observation; an error of the mongod leaves its observed
    state as it was. *)
Definition observed_value (dbMongod : Mongod) (DesiredState ObservedState : MongodState) (observedMongod : msp.Mongod) : mongod_value :=
  match msp.StatusError observedMongod with
  | None => mkMongodValue dbMongod zero_MSPError DesiredState
              (updateObservedState observedMongod (MongodState_set_ParentMongodID (Mongod_ID dbMongod) ObservedState))
  | Some e => mkMongodValue dbMongod (mspErrorToModelMSPError e) DesiredState ObservedState
  end.

Definition save_observation (slave : Slave) (dbMongod : Mongod) (observedMongod : msp.Mongod) : GoM conn (option gerror) :=
  let fail what e := mret (Some (TextError ("monitor: " +:+ what +:+ " `" +:+ mongodTuple slave observedMongod +:+ "`: " +:+
    error_text e))) in
  desired ← related_or_zero (Some (Mongod_DesiredStateID dbMongod));
  match desired with
  | Err e => fail "internal inconsistency: could not get desired state for Mongod" e
  | Ok DesiredState =>
      observed ← related_or_zero (Mongod_ObservedStateID dbMongod);
      match observed with
      | Err e => fail "database error when querying for observed state of Mongod" e
      | Ok ObservedState =>
          saveErr ← orm_save_mongod (observed_value dbMongod DesiredState ObservedState observedMongod);
          match saveErr with
          | Some e => fail "error persisting updated observed state for mongod" e
          | None => mret None
          end
      end
  end.

(** [func (m *Monitor) updateOrCreateObservedMongodStates(tx, slave, observedMongods)],
    with the map built so far. *)
Fixpoint updateOrCreateObservedMongodStates (slave : Slave) (observedMongods : list msp.Mongod)
    (modelToObservedMap : gmap Z msp.Mongod) : GoM conn (gmap Z msp.Mongod * option gerror) :=
  match observedMongods with
  | [] => mret (modelToObservedMap, None)
  | observedMongod :: observedMongods =>
      found ← find_mongod slave observedMongod;
      match found with
      | Err e => mret (modelToObservedMap, Some e)
      | Ok dbMongod =>
          let modelToObservedMap := <[Mongod_ID dbMongod := observedMongod]> modelToObservedMap in
          err ← save_observation slave dbMongod observedMongod;
          match err with
          | Some e => mret (modelToObservedMap, Some e)
          | None => updateOrCreateObservedMongodStates slave observedMongods modelToObservedMap
          end
      end
  end.

(** ** A slave's answer *)

Definition connection_status (slave : Slave) (mspError : option msp.Error) : ConnectionStatus :=
  match mspError with
  | None => mkConnectionStatus false slave msp.zero_Error
  | Some e => mkConnectionStatus (bool_decide (msp.Identifier e = msp.CommunicationError)) slave e
  end.

(** The transaction that only reads. *)
Definition report_mismatches (slave : Slave) (modelToObservedMap : gmap Z msp.Mongod) : GoM session unit :=
  _ ← Begin;
  _ ← in_tx (sendMongodMismatchStatusToBus slave modelToObservedMap);
  Rollback.

(** [func (m *Monitor) handleObservation(observedMongods, mspError, slave)] *)
Definition handleObservation (observedMongods : list msp.Mongod) (mspError : option msp.Error) (slave : Slave) : GoM session unit :=
  _ ← in_tx (send (MsgConnection (connection_status slave mspError)));
  _ ← Begin;
  err ← in_tx (updateSlaveObservationError slave mspError);
  match err with
  | Some _ => Rollback
  | None =>
    match mspError with
    | Some _ => _ ← Commit; mret tt
    | None =>
      err ← in_tx (updateMongodStatesNotObservedOnSlave slave observedMongods);
      match err with
      | Some _ => Rollback
      | None =>
        res ← in_tx (updateOrCreateObservedMongodStates slave observedMongods ∅);
        match res with
        | (_, Some _) => Rollback
        | (modelToObservedMap, None) =>
            _ ← Commit;
            report_mismatches slave modelToObservedMap
        end
      end
    end
  end.

(** ** A round *)

(** [m.MSPClient.RequestStatus], and the order in which the answers of the
    goroutines arrive at the consumer loop. *)
Context (RequestStatus : msp.HostPort → list msp.Mongod * option msp.Error).
Context (arrivals : list Slave → list Slave).

(** One tick of [Run]: the slaves are read and asked, their answers handled one after
    the other, and the replica sets checked. *)
Definition read_slaves : GoM session (list Slave) :=
  _ ← Begin;
  res ← in_tx (orm_find (R := Slave) (λ _, true));
  let slaves := match res with Ok slaves => slaves | Err _ => [] end in
  _ ← Rollback;
  mret slaves.

Definition check_replica_sets : GoM session unit :=
  _ ← Begin;
  _ ← in_tx observeReplicaSets;
  Rollback.

Definition monitor_round : GoM session unit :=
  slaves ← read_slaves;
  _ ← range (arrivals slaves) (λ s,
    let '(observedMongods, mspError) := RequestStatus (msp.mkHostPort (Slave_Hostname s) (Slave_Port s)) in
    handleObservation observedMongods mspError s);
  check_replica_sets.
End observation.
