(* ===== verification/Recording.v ===== *)
(** * What an observation does to the database

    The mongods a slave reports, one after the other: [recorded] is the abstract
    specification of [updateOrCreateObservedMongodStates], its rules follow the loop,
    and the facts about it are proved by rule induction. *)

From stdpp Require Import base gmap sets list strings fin_maps.
From Stdlib Require Import Lia.
From S2P Require Import Prelude Msp Model Database Orm Store Session Members Projections Monitor Observation.

Open Scope Z_scope.
Set Warnings "-clear-no-such-hyp".

(** ** Specification *)

(** The mongod of a slave that a report is about. *)
Definition same_mongod (slave : Slave) (o : msp.Mongod) (m : Mongod) : Prop :=
  Mongod_ParentSlaveID m = Slave_ID slave ∧ Mongod_Port m = msp.Mongod_Port o ∧
  Mongod_ReplSetName m = msp.ReplicaSetName (msp.Mongod_ReplicaSetConfig o).

(** A report whose port and replica set name are not zero. *)
Definition identified (o : msp.Mongod) : Prop :=
  msp.Mongod_Port o ≠ 0 ∧ msp.ReplicaSetName (msp.Mongod_ReplicaSetConfig o) ≠ EmptyString.
Definition identity (o : msp.Mongod) : PortNumber * string :=
  (msp.Mongod_Port o, msp.ReplicaSetName (msp.Mongod_ReplicaSetConfig o)).

Definition reported_state (o : msp.Mongod) (st : MongodState) : Prop :=
  MongodState_ExecutionState st = MspMongodStateToModelExecutionState (msp.State o) ∧
  MongodState_ShardingRole st = reported_role o.

(** The row [m'] of a reported mongod shows the report: the state, or the error. *)
Definition shows (d : db) (m' : Mongod) (o : msp.Mongod) : Prop :=
  match msp.StatusError o with
  | None => ∃ st, observed_state d m' = Some st ∧ reported_state o st
  | Some e => mspErrorToModelMSPError e ≠ zero_MSPError → ∃ eid, Mongod_ObservationErrorID m' = Some eid ∧
      msp_errors d !! eid = Some (set_row_id eid (mspErrorToModelMSPError e))
  end.

(** A mongod MAMID did not know is to be destroyed. *)
Definition unknown (d : db) (m' : Mongod) (o : msp.Mongod) : Prop :=
  Mongod_ReplicaSetID m' = None ∧ ∃ st, mongod_states d !! Mongod_DesiredStateID m' = Some st ∧
    MongodState_ExecutionState st = MongodExecutionStateForceDestroyed ∧ MongodState_ShardingRole st = reported_role o.

(** One report [o], about the mongod [mid]. *)
Record observed_one (slave : Slave) (o : msp.Mongod) (mid : Z) (m' : Mongod) (d d' : db) : Prop := {
  one_changes : touched mid m' d d';
  one_same : same_mongod slave o m';
  one_shows : shows d' m' o;
  one_prior : match mongods d !! mid with
    | Some m => unobserved m' = unobserved m ∧
        mongod_states d' !! Mongod_DesiredStateID m = mongod_states d !! Mongod_DesiredStateID m
    | None => unknown d' m' o
    end
}.

(** All reports of a slave; the map takes the mongods to their reports. *)
Inductive recorded (slave : Slave) : list msp.Mongod → gmap Z msp.Mongod → gmap Z msp.Mongod → db → db → Prop :=
  | recorded_nil seen d : recorded slave [] seen seen d d
  | recorded_cons o l mid m' seen seen' d d1 d2 :
      observed_one slave o mid m' d d1 → recorded slave l (<[mid := o]> seen) seen' d1 d2 →
      recorded slave (o :: l) seen seen' d d2.

(** ** Helpers *)

Lemma zero_or_equal_spec {A} `{EqDecision A} (zero v w : A) : v ≠ zero → zero_or_equal zero v w = true ↔ v = w.
Proof. intros Hv. unfold zero_or_equal. rewrite (bool_decide_false _ Hv). simpl. apply bool_decide_eq_true. Qed.

Lemma like_same slave o m : Slave_ID slave ≠ 0 → identified o → like (observed_row slave o) m = true ↔ same_mongod slave o m.
Proof.
  intros Hs [Hp Hn]. unfold like, observed_row. cbn [Mongod_ID Mongod_Port Mongod_ReplSetName Mongod_ObservationErrorID
    Mongod_LastEstablishStateErrorID Mongod_ParentSlaveID Mongod_ReplicaSetID Mongod_DesiredStateID Mongod_ObservedStateID].
  rewrite !andb_true_iff, (zero_or_equal_spec 0 _ _ Hp), (zero_or_equal_spec EmptyString _ _ Hn), (zero_or_equal_spec 0 _ _ Hs).
  unfold zero_or_equal, same_mongod. rewrite !bool_decide_true by done. simpl. naive_solver.
Qed.

Lemma touched_trans mid m1 m2 d d1 d2 :
  db_ok d → touched mid m1 d d1 → touched mid m2 d1 d2 → touched mid m2 d d2.
Proof.
  intros Hok H1 H2. pose proof (touched_foreign_keys H1 Hok) as Hkeys.
  destruct H1 as [(Es & Er & Eg & Ep) He Em _ _ Hst Hown Hk], H2 as [(Es' & Er' & Eg' & Ep') He' Em' Hrow Hrefs' Hst' Hown' Hk'].
  split; try done.
  - split_and!; congruence.
  - by etrans.
  - by rewrite Em', Em, insert_insert_eq.
  - intros Hk0. by apply Hrefs', Hkeys.
  - intros sid st Hin Hne. apply Hst'; [by apply Hst|done].
  - intros sid st Hin. destruct (Hown' sid st Hin) as [|Hin']; [by left|by apply Hown].
  - intros Hk0. by apply Hk', Hk.
Qed.

Lemma reported_role_not_empty o : reported_role o ≠ EmptyString.
Proof.
  unfold reported_role, ProjectMSPShardingRoleToModelShardingRole. repeat case_decide; done.
Qed.

Section recording.
Context (ENG : Engine) (ORM : Gorm) (STORE : GormStore) (ASSOC : GormAssociations).
Context (Hrel : reliable_monitor ENG ORM STORE ASSOC).

Lemma wp_orm_first_like example Q E c :
  (∀ id m, mongods (cdb c) !! id = Some m → like example m = true → Q (Ok m) (tick c)) →
  ((∀ id m, mongods (cdb c) !! id = Some m → like example m = false) → Q (Err ErrRecordNotFound) (tick c)) →
  wp (orm_first_like example) Q E c.
Proof.
  intros HOk HNone. unfold wp, orm_first_like. pose proof (gorm_first_like_law (cstmts c) (cdb c) example) as Hlaw.
  pose proof (monitor_first_like _ _ _ _ Hrel (cstmts c) (cdb c) example) as Herr.
  destruct (gorm_first_like _ _ _) as [m|e]; [destruct Hlaw as (id & ? & ? & _); by eapply HOk|].
  rewrite (Herr e eq_refl) in *. by apply HNone.
Qed.

Lemma wp_related_or_zero (id : option Z) (Q : gres MongodState → conn → Prop) E c :
  (∀ c', cdb c' = cdb c → cbus c' = cbus c →
     Q (Ok (default zero_MongodState (id ≫= λ i, mongod_states (cdb c) !! i))) c') →
  wp (related_or_zero id) Q E c.
Proof.
  intros HQ. unfold related_or_zero, related_state. wp_step. destruct id as [id|]; simpl in HQ.
  - apply wp_orm_first_id; simpl.
    + intros st Hst. rewrite Hst in HQ. apply wp_ret. by apply HQ.
    + intros Hst. rewrite Hst in HQ. apply wp_ret. by apply HQ.
    + intros e ? []. apply Hrel.
  - apply wp_ret, wp_ret. by apply HQ.
Qed.

(** ** An unknown mongod *)

Lemma create_unknown_spec slave o (Q : gres Mongod → conn → Prop) E c :
  is_Some (slaves (cdb c) !! Slave_ID slave) → db_ok (cdb c) →
  (∀ m' c', mongods (cdb c) !! Mongod_ID m' = None → touched (Mongod_ID m') m' (cdb c) (cdb c') →
     same_mongod slave o m' → unknown (cdb c') m' o → cbus c' = cbus c → Q (Ok m') c') →
  wp (create_unknown slave o) Q E c.
Proof.
  intros Hslave Hok HQ. unfold create_unknown. wp_step.
  apply wp_orm_create; [done|done| |by intros e []; apply Hrel]. intros mid Hpos Hfresh. wp_step.
  apply wp_orm_create; [done|done| |by intros e []; apply Hrel]. intros sid Hspos Hsfresh. wp_step.
  apply wp_orm_update; [|by intros e []; apply Hrel]. apply wp_ret. simpl in *.
  set (m' := Mongod_set_DesiredStateID sid _). apply HQ; simpl; [done| |done| |done].
  - split; simpl; try done.
    + by rewrite alter_insert_eq.
    + split; simpl; [done|done|done| |done]. eexists. by rewrite lookup_insert_eq.
    + intros sid' st Hst _. rewrite lookup_insert_ne; [done|congruence].
    + intros sid' st [[<- <-]|[_ ?]]%lookup_insert_Some; [by left|by right].
    + intros Hk sid' st. simpl. intros [[<- <-]|[_ ?]]%lookup_insert_Some; [done|by apply Hk].
  - split; [done|]. eexists. simpl. by rewrite lookup_insert_eq.
Qed.

Lemma find_mongod_spec slave o (Q : gres Mongod → conn → Prop) E c :
  is_Some (slaves (cdb c) !! Slave_ID slave) → Slave_ID slave ≠ 0 → identified o → db_ok (cdb c) →
  (∀ m, mongods (cdb c) !! Mongod_ID m = Some m → same_mongod slave o m → Q (Ok m) (tick c)) →
  (∀ m' c', mongods (cdb c) !! Mongod_ID m' = None → touched (Mongod_ID m') m' (cdb c) (cdb c') →
     same_mongod slave o m' → unknown (cdb c') m' o → cbus c' = cbus c → Q (Ok m') c') →
  wp (find_mongod slave o) Q E c.
Proof.
  intros Hslave Hid Ho Hok HOld HNew. unfold find_mongod. wp_step. apply wp_orm_first_like.
  - intros id m Hm Hlike. apply wp_ret, HOld; [by rewrite (ok_mongod_key _ Hok _ _ Hm)|by apply like_same].
  - intros _. apply create_unknown_spec; [done|done|exact HNew].
Qed.

(** ** Saving an observation *)

Lemma saved_error d e key d' : association_saved zero_MSPError d (mspErrorToModelMSPError e) key d' →
  ∃ errs, d' = set_msp_errors errs d ∧ msp_errors d ⊆ errs ∧
    match key with
    | Some eid => errs !! eid = Some (set_row_id eid (mspErrorToModelMSPError e))
    | None => mspErrorToModelMSPError e = zero_MSPError
    end.
Proof.
  unfold association_saved. destruct (decide (_ = zero_MSPError)) as [Hz|_].
  - intros [-> ->]. exists (msp_errors d). split_and!; [by destruct d|done|done].
  - simpl. intros (eid & _ & Hfresh & -> & ->). eexists. split_and!; [reflexivity|by apply insert_subseteq|].
    by rewrite lookup_insert_eq.
Qed.

Lemma saved_value_error d v o m ds os key d' : v = observed_value m ds os o →
  association_saved zero_MSPError d (value_ObservationError v) key d' →
  ∃ errs, d' = set_msp_errors errs d ∧ msp_errors d ⊆ errs ∧
    match msp.StatusError o with
    | None => key = None
    | Some e => mspErrorToModelMSPError e ≠ zero_MSPError → ∃ eid, key = Some eid ∧
        errs !! eid = Some (set_row_id eid (mspErrorToModelMSPError e))
    end ∧ (key = None ∨ ∃ eid, key = Some eid ∧ is_Some (errs !! eid)).
Proof.
  intros ->. unfold observed_value. destruct (msp.StatusError o) as [e|]; simpl.
  - intros (errs & -> & Hsub & Hkey)%saved_error. exists errs. split_and!; [done..| |].
    + intros Hne. destruct key as [eid|]; [by exists eid|done].
    + destruct key as [eid|]; [right; exists eid; by rewrite Hkey; eauto|by left].
  - intros [-> ->]. exists (msp_errors d). split_and!; [by destruct d|done..|by left].
Qed.

(** A state with a primary key is written as it is. *)
Lemma saved_state d st key d' : MongodState_ID st ≠ 0 → association_saved zero_MongodState d st key d' →
  key = Some (MongodState_ID st) ∧ d' = set_mongod_states (<[MongodState_ID st := st]> (mongod_states d)) d.
Proof.
  intros Hid. unfold association_saved. rewrite decide_False by (by intros ->). simpl. by rewrite decide_False.
Qed.

Lemma saved_same d sid st key d' : mongod_states d !! sid = Some st → MongodState_ID st = sid → 0 < sid →
  association_saved zero_MongodState d st key d' → key = Some sid ∧ d' = d.
Proof.
  intros Hst Hid Hpos Hsave. apply saved_state in Hsave as [-> ->]; [|lia]. rewrite Hid. split; [done|].
  rewrite insert_id by done. by destruct d.
Qed.

(** The observed state written for [o], under the key [oid]. *)
Record observed_written (m : Mongod) (o : msp.Mongod) (d : db) (oid : Z) (st : MongodState) : Prop := {
  written_id : MongodState_ID st = oid ∧ 0 < oid;
  written_parent : MongodState_ParentMongodID st = Mongod_ID m;
  written_distinct : oid ≠ Mongod_DesiredStateID m;
  written_own st0 : mongod_states d !! oid = Some st0 → MongodState_ParentMongodID st0 = Mongod_ID m;
  written_reported : msp.StatusError o = None → reported_state o st
}.

Lemma saved_observed d m o ds key d' : well_kept d → mongods d !! Mongod_ID m = Some m →
  association_saved zero_MongodState d
    (value_ObservedState (observed_value m ds (default zero_MongodState (Mongod_ObservedStateID m ≫= λ i, mongod_states d !! i)) o)) key d' →
  (∃ oid st, key = Some oid ∧ observed_written m o d oid st ∧ d' = set_mongod_states (<[oid := st]> (mongod_states d)) d) ∨
  (key = None ∧ Mongod_ObservedStateID m = None ∧ msp.StatusError o ≠ None ∧ d' = d).
Proof.
  intros [Hok Hkeys Hkeyed] Hm. destruct (ok_desired _ Hok _ _ Hm) as (des & Hdes & _).
  destruct (Mongod_ObservedStateID m) as [oid|] eqn:Ho; simpl.
  - destruct (ok_observed _ Hok _ _ _ Hm Ho) as (Hne & st & Hst & Hpar). rewrite Hst. simpl.
    destruct (Hkeyed _ _ Hst) as [Hid Hpos]. unfold observed_value. destruct (msp.StatusError o) as [e|] eqn:He; simpl.
    + intros [-> ->]%saved_state; [|lia]. left. exists oid, st. rewrite Hid. split_and!; [done| |done].
      split; [done..| |congruence]. intros st0. congruence.
    + intros [-> ->]%saved_state; [|simpl; lia]. left. eexists oid, _. simpl. rewrite Hid. split_and!; [done| |done].
      split; [done..| |done]. intros st0. congruence.
  - unfold observed_value. destruct (msp.StatusError o) as [e|] eqn:He; simpl.
    + intros [-> ->]. by right.
    + unfold association_saved. rewrite decide_False by (intros [= _ Hrole]; by apply (reported_role_not_empty o)).
      simpl. intros (oid & Hpos & Hfresh & -> & ->). left. eexists oid, _. split_and!; [done| |done].
      split; simpl; [done|done|congruence|congruence|done].
Qed.

Lemma well_kept_errors d errs : msp_errors d ⊆ errs → well_kept d → well_kept (set_msp_errors errs d).
Proof.
  intros Hsub [Hok (Hs & Hm & Hst & Hp) Hkeyed].
  assert (∀ fk, references fk (msp_errors d) → references fk errs) as Herr.
  { intros [e|] He; [|done]. destruct He as [x Hx]. exists x. by eapply lookup_weaken. }
  split; [by destruct Hok; split| |done]. split_and!; [| |done..].
  - intros id s Hin. destruct (Hs id s Hin). split; [done|by apply Herr].
  - intros id m Hin. destruct (Hm id m Hin) as (H1 & H2 & H3). split; [by apply Herr|split; [by apply Herr|exact H3]].
Qed.

(** The database after the row of [m] was saved with the keys [e] and [os], and the
    states [states]. *)
Definition saved (m : Mongod) (errs : gmap Z MSPError) (states : gmap Z MongodState) (e os : option Z) (d : db) : db :=
  set_mongods (<[Mongod_ID m := with_keys e (Some (Mongod_DesiredStateID m)) os m]> (mongods d))
    (set_mongod_states states (set_msp_errors errs d)).

Lemma saved_touched m errs states e os d :
  well_kept d → mongods d !! Mongod_ID m = Some m → msp_errors d ⊆ errs → (e = None ∨ ∃ eid, e = Some eid ∧ is_Some (errs !! eid)) →
  (∀ sid, Some sid ≠ os → states !! sid = mongod_states d !! sid) →
  (∀ oid, os = Some oid → oid ≠ Mongod_DesiredStateID m ∧
     (∃ st, states !! oid = Some st ∧ MongodState_ParentMongodID st = Mongod_ID m ∧ MongodState_ID st = oid ∧ 0 < oid) ∧
     (∀ st0, mongod_states d !! oid = Some st0 → MongodState_ParentMongodID st0 = Mongod_ID m)) →
  touched (Mongod_ID m) (with_keys e (Some (Mongod_DesiredStateID m)) os m) d (saved m errs states e os d).
Proof.
  intros [Hok Hkeys Hkeyed] Hm Hsub He Hsame Hos. destruct (ok_desired _ Hok _ _ Hm) as (des & Hdes & Hdpar).
  pose proof (λ o, ok_observed _ Hok _ _ o Hm) as Hobs.
  split; try done.
  - split; simpl; [done|by eapply ok_parent|intros r; by eapply ok_rs| |].
    + exists des. split; [|done]. rewrite Hsame; [done|]. intros Heq. by destruct (Hos _ (eq_sym Heq)).
    + intros oid Ho. destruct os as [oid'|]; simpl in Ho.
      * injection Ho as ->. destruct (Hos oid eq_refl) as (? & (st & ? & ? & _) & _). split; [done|]. by exists st.
      * destruct (Hobs _ Ho) as (? & st & ? & ?). split; [done|]. exists st. split; [|done]. by rewrite Hsame.
  - intros (_ & Hk & _). destruct (Hk _ _ Hm) as (Hoe & Hle & _). simpl. split.
    + destruct He as [->|(eid & -> & ?)]; simpl; [|done]. destruct (Mongod_ObservationErrorID m); [|done].
      destruct Hoe as [x Hx]. exists x. by eapply lookup_weaken.
    + destruct (Mongod_LastEstablishStateErrorID m); [|done]. destruct Hle as [x Hx]. exists x. by eapply lookup_weaken.
  - intros sid st Hst Hpar. simpl. rewrite Hsame; [done|]. intros Heq.
    destruct (Hos sid (eq_sym Heq)) as (_ & _ & Hown). by apply Hpar, Hown.
  - intros sid st. simpl. destruct (decide (Some sid = os)) as [<-|Hne]; [|rewrite Hsame by done; by right].
    destruct (Hos sid eq_refl) as (_ & (st' & ? & ? & _) & _). left. congruence.
  - intros _ sid st. simpl. destruct (decide (Some sid = os)) as [<-|Hne]; [|rewrite Hsame by done; by apply Hkeyed].
    destruct (Hos sid eq_refl) as (_ & (st' & ? & ? & ? & ?) & _). intros Heq. by assert (st' = st) as <- by congruence.
Qed.

Lemma wp_orm_save_mongod v (Q : option gerror → conn → Prop) E c :
  is_Some (mongods (cdb c) !! Mongod_ID (value_row v)) →
  (∀ d' e d1 ds d2 os d3, association_saved zero_MSPError (cdb c) (value_ObservationError v) e d1 →
     association_saved zero_MongodState d1 (value_DesiredState v) ds d2 →
     association_saved zero_MongodState d2 (value_ObservedState v) os d3 →
     d' = set_mongods (<[Mongod_ID (value_row v) := with_keys e ds os (value_row v)]> (mongods d3)) d3 →
     Q None (with_db d' c)) →
  wp (orm_save_mongod v) Q E c.
Proof.
  intros Hin HQ. unfold wp, orm_save_mongod. pose proof (gorm_save_mongod_law (cstmts c) (cdb c) v Hin) as Hlaw.
  pose proof (monitor_save_mongod _ _ _ _ Hrel (cstmts c) (cdb c) v) as Hno.
  destruct (gorm_save_mongod _ _ _) as [d' [e|]]; [done|]. destruct Hlaw as (e & d1 & ds & d2 & os & d3 & ? & ? & ? & ->).
  by eapply HQ.
Qed.

(** The effect of saving, from the effects of the three associations. *)
Lemma save_effect m o d ds e d1 ds' d2 os d3 v :
  well_kept d → mongods d !! Mongod_ID m = Some m → mongod_states d !! Mongod_DesiredStateID m = Some ds →
  v = observed_value m ds (default zero_MongodState (Mongod_ObservedStateID m ≫= λ i, mongod_states d !! i)) o →
  association_saved zero_MSPError d (value_ObservationError v) e d1 →
  association_saved zero_MongodState d1 (value_DesiredState v) ds' d2 →
  association_saved zero_MongodState d2 (value_ObservedState v) os d3 →
  ∃ errs states, set_mongods (<[Mongod_ID m := with_keys e ds' os m]> (mongods d3)) d3 = saved m errs states e os d ∧
    touched (Mongod_ID m) (with_keys e (Some (Mongod_DesiredStateID m)) os m) d (saved m errs states e os d) ∧
    states !! Mongod_DesiredStateID m = mongod_states d !! Mongod_DesiredStateID m ∧
    shows (saved m errs states e os d) (with_keys e (Some (Mongod_DesiredStateID m)) os m) o.
Proof.
  intros Hkept Hm Hds Hv He Hd Ho. pose proof (saved_value_error _ _ _ _ _ _ _ _ Hv He) as (errs & -> & Hsub & Herr & Hkey).
  assert (value_DesiredState v = ds) as Hvd by (rewrite Hv; unfold observed_value; by destruct (msp.StatusError o)).
  rewrite Hvd in Hd. destruct (kept_states _ Hkept _ _ Hds) as [Hid Hpos].
  apply (saved_same (set_msp_errors errs d) _ _ _ _ Hds Hid Hpos) in Hd as [-> ->].
  pose proof (well_kept_errors _ _ Hsub Hkept) as Hkept1. rewrite Hv in Ho.
  apply (saved_observed (set_msp_errors errs d) m o ds os d3 Hkept1 Hm) in Ho as [(oid & st & -> & [[Hoid Hopos] Hpar Hne Hown Hrep] & ->)|(-> & Hno & Hse & ->)].
  - exists errs, (<[oid := st]> (mongod_states d)). split_and!; [done| | |].
    + apply saved_touched; try done.
      * intros sid Hsid. rewrite lookup_insert_ne; [done|]. by intros ->.
      * intros oid' [= <-]. split_and!; [done| |done]. exists st. by rewrite lookup_insert_eq.
    + by rewrite lookup_insert_ne.
    + unfold shows. destruct (msp.StatusError o) as [x|].
      * intros Hx. destruct (Herr Hx) as (eid & -> & ?). by exists eid.
      * exists st. split; [|by apply Hrep]. unfold observed_state, saved. simpl. by rewrite lookup_insert_eq.
  - exists errs, (mongod_states d). split_and!; [done| |done|].
    + apply saved_touched; try done.
    + unfold shows. destruct (msp.StatusError o) as [x|]; [|done].
      intros Hx. destruct (Herr Hx) as (eid & -> & ?). by exists eid.
Qed.

Lemma save_observation_spec slave o m (Q : option gerror → conn → Prop) E c :
  well_kept (cdb c) → mongods (cdb c) !! Mongod_ID m = Some m →
  (∀ m' c', touched (Mongod_ID m) m' (cdb c) (cdb c') → unobserved m' = unobserved m →
     mongod_states (cdb c') !! Mongod_DesiredStateID m = mongod_states (cdb c) !! Mongod_DesiredStateID m →
     shows (cdb c') m' o → cbus c' = cbus c → Q None c') →
  wp (save_observation slave m o) Q E c.
Proof.
  intros Hkept Hm HQ. destruct (ok_desired _ (kept_ok _ Hkept) _ _ Hm) as (ds & Hds & _).
  unfold save_observation. wp_step. apply wp_related_or_zero. simpl. rewrite Hds. simpl. intros c1 E1 B1.
  wp_step. apply wp_related_or_zero. rewrite E1. intros c2 E2 B2. wp_step.
  assert (∀ os, value_row (observed_value m ds os o) = m) as Hrow by (intros os; unfold observed_value; by destruct (msp.StatusError o)).
  apply wp_orm_save_mongod; rewrite !Hrow, E2; [by eexists|].
  intros d' e d1 ds' d2 os d3 He Hd Ho Heq. apply wp_ret.
  destruct (save_effect m o _ _ _ _ _ _ _ _ _ Hkept Hm Hds eq_refl He Hd Ho) as (errs & states & Hsaved & Ht & Hdes & Hshow).
  rewrite Hsaved in Heq. subst d'. eapply HQ; [exact Ht|done|exact Hdes|exact Hshow|]. simpl. congruence.
Qed.

(** ** The loop *)

Lemma unobserved_same slave o m m' : unobserved m' = unobserved m → same_mongod slave o m → same_mongod slave o m'.
Proof. intros [= _ Hp Hn _ Hs _ _] (? & ? & ?). split_and!; congruence. Qed.

Lemma unobserved_unknown d d' m m' o : unobserved m' = unobserved m →
  mongod_states d' !! Mongod_DesiredStateID m = mongod_states d !! Mongod_DesiredStateID m → unknown d m o → unknown d' m' o.
Proof.
  intros Hu Hdes [Hrs (st & Hst & ? & ?)]. pose proof (unobserved_desired _ _ Hu) as Heq. injection Hu as _ _ _ _ _ Hr _.
  split; [congruence|]. exists st. by rewrite Heq, Hdes.
Qed.

Lemma updateOrCreate_spec slave l seen c :
  is_Some (slaves (cdb c) !! Slave_ID slave) → Slave_ID slave ≠ 0 → Forall identified l → well_kept (cdb c) →
  wp (updateOrCreateObservedMongodStates slave l seen)
    (λ r c', r.2 = None ∧ cbus c' = cbus c ∧ recorded slave l seen r.1 (cdb c) (cdb c')) (λ _ _, False) c.
Proof.
  intros Hslave Hid Hl. revert seen c Hslave. induction Hl as [|o l Ho _ IH]; intros seen c Hslave Hkept; simpl.
  { apply wp_ret. split_and!; [done..|constructor]. }
  pose proof (kept_ok _ Hkept) as Hok.
  assert (∀ mid m' c', observed_one slave o mid m' (cdb c) (cdb c') → cbus c' = cbus c →
    wp (updateOrCreateObservedMongodStates slave l (<[mid := o]> seen))
      (λ r c'', r.2 = None ∧ cbus c'' = cbus c ∧ recorded slave (o :: l) seen r.1 (cdb c) (cdb c'')) (λ _ _, False) c') as Hrest.
  { intros mid m' c' Hone Hbus. pose proof (one_changes _ _ _ _ _ _ Hone) as Ht.
    destruct (touched_tables _ _ _ _ Ht) as (Es & _). eapply wp_mono; [apply IH| |done].
    - by rewrite Es.
    - by eapply touched_well_kept.
    - intros r c'' (? & ? & ?). split_and!; [done|congruence|]. by econstructor. }
  wp_step. apply find_mongod_spec; [done..| |].
  - intros m Hm Hsame. wp_step. apply save_observation_spec; [done..|]. intros m' c' Ht Hu Hdes Hshow Hbus.
    apply (Hrest _ m'); [|done]. split; [done|by eapply unobserved_same|done|]. simpl in Hm. by rewrite Hm.
  - intros m1 c1 Hnone Ht1 Hsame Hunk Hbus1. pose proof (touched_well_kept Ht1 Hkept) as Hkept1. wp_step.
    apply save_observation_spec; [done|by rewrite (touched_mongods _ _ _ _ Ht1), lookup_insert_eq|].
    intros m' c' Ht Hu Hdes Hshow Hbus. apply (Hrest _ m'); [|congruence].
    split; [by eapply touched_trans|by eapply unobserved_same|done|]. rewrite Hnone. by eapply unobserved_unknown.
Qed.
End recording.

(** ** Facts, by rule induction *)

Section facts.
Context {slave : Slave}.
Implicit Types (l : list msp.Mongod) (seen : gmap Z msp.Mongod) (d : db) (m : Mongod).

Lemma recorded_well_kept l seen seen' d d' : recorded slave l seen seen' d d' → well_kept d → well_kept d'.
Proof. induction 1 as [|o l mid m' ????? H1 _ IH]; [done|]. intros Hk. by apply IH, (touched_well_kept (one_changes _ _ _ _ _ _ H1)). Qed.

Lemma recorded_tables l seen seen' d d' : recorded slave l seen seen' d d' →
  slaves d' = slaves d ∧ replica_sets d' = replica_sets d ∧ risk_groups d' = risk_groups d ∧ problems d' = problems d.
Proof.
  induction 1 as [|o l mid m' ????? H1 _ (-> & -> & -> & ->)]; [done|]. apply (one_changes _ _ _ _ _ _ H1).
Qed.

(** A mongod that is not reported stays as it is. *)
Lemma recorded_others l seen seen' d d' : recorded slave l seen seen' d d' → db_ok d → ∀ id m,
  mongods d !! id = Some m → (∀ o, o ∈ l → ¬ same_mongod slave o m) →
  mongods d' !! id = Some m ∧ observed_state d' m = observed_state d m ∧
  mongod_states d' !! Mongod_DesiredStateID m = mongod_states d !! Mongod_DesiredStateID m ∧ seen' !! id = seen !! id.
Proof.
  induction 1 as [|o l mid m' seen seen' d d1 d2 H1 _ IH]; [done|]. intros Hok id m Hm Hno.
  destruct H1 as [Ht Hsame _ Hprior]. destruct (decide (id = mid)) as [->|Hne].
  - rewrite Hm in Hprior. destruct Hprior as [Hu _]. destruct (Hno o); [left|]. by eapply unobserved_same.
  - destruct (touched_others Ht id m Hok Hne Hm) as (Hm1 & Ho1 & Hd1).
    destruct (IH (touched_ok Ht Hok) id m Hm1) as (? & ? & ? & Hs); [intros o' ?; apply Hno; by right|].
    rewrite lookup_insert_ne in Hs by done. split_and!; congruence.
Qed.

(** What the operators and the allocator decide about a mongod stays as it is. *)
Lemma recorded_kept l seen seen' d d' : recorded slave l seen seen' d d' → db_ok d → ∀ id m,
  mongods d !! id = Some m → ∃ m', mongods d' !! id = Some m' ∧ unobserved m' = unobserved m ∧
    mongod_states d' !! Mongod_DesiredStateID m = mongod_states d !! Mongod_DesiredStateID m.
Proof.
  induction 1 as [|o l mid m' seen seen' d d1 d2 H1 _ IH]; [by intros _ id m; exists m|]. intros Hok id m Hm.
  destruct H1 as [Ht _ _ Hprior].
  assert (∃ m1, mongods d1 !! id = Some m1 ∧ unobserved m1 = unobserved m ∧
    mongod_states d1 !! Mongod_DesiredStateID m = mongod_states d !! Mongod_DesiredStateID m) as (m1 & Hm1 & Hu1 & Hd1).
  { destruct (decide (id = mid)) as [->|Hne].
    - rewrite Hm in Hprior. exists m'. by rewrite (touched_mongods _ _ _ _ Ht), lookup_insert_eq.
    - destruct (touched_others Ht id m Hok Hne Hm) as (? & ? & ?). by exists m. }
  destruct (IH (touched_ok Ht Hok) id m1 Hm1) as (m2 & Hm2 & Hu2 & Hd2). exists m2. rewrite (unobserved_desired _ _ Hu1) in Hd2.
  split_and!; congruence.
Qed.

(** The states recorded for [o] survive the reports about other mongods. *)
Lemma recorded_shows l seen seen' d d' o id m : recorded slave l seen seen' d d' → db_ok d →
  mongods d !! id = Some m → same_mongod slave o m → shows d m o → identity o ∉ (identity <$> l) →
  mongods d' !! id = Some m ∧ shows d' m o ∧ seen' !! id = seen !! id.
Proof.
  intros Hrec Hok Hm (Hs & Hp & Hn) Hshow Hnot.
  destruct (recorded_others _ _ _ _ _ Hrec Hok id m Hm) as (? & Ho & ? & ?).
  { intros o' Hin (? & ? & ?). apply Hnot, list_elem_of_fmap. exists o'. split; [|done]. unfold identity. congruence. }
  split_and!; [done| |done]. unfold shows in *. destruct (msp.StatusError o); [|by rewrite Ho].
  intros Hne. destruct (Hshow Hne) as (eid & ? & Herr). exists eid. split; [done|].
  eapply lookup_weaken; [exact Herr|]. clear -Hrec.
  induction Hrec as [|o' l mid m' ????? H1 _ IH]; [done|]. etrans; [apply (touched_errors _ _ _ _ (one_changes _ _ _ _ _ _ H1))|done].
Qed.

Lemma recorded_reported l seen seen' d d' : recorded slave l seen seen' d d' → db_ok d → NoDup (identity <$> l) → ∀ o, o ∈ l →
  ∃ id m, mongods d' !! id = Some m ∧ same_mongod slave o m ∧ shows d' m o ∧ seen' !! id = Some o.
Proof.
  induction 1 as [|o l mid m' seen seen' d d1 d2 H1 Hrec IH]; [by intros ?? o ?%not_elem_of_nil|].
  intros Hok [Hnot Hnd]%NoDup_cons o' Hin. destruct H1 as [Ht Hsame Hshow _]. pose proof (touched_ok Ht Hok) as Hok1.
  apply elem_of_cons in Hin as [->|Hin]; [|by apply IH].
  destruct (recorded_shows _ _ _ _ _ o mid m' Hrec Hok1) as (? & ? & Hs); [|done..|].
  - by rewrite (touched_mongods _ _ _ _ Ht), lookup_insert_eq.
  - exists mid, m'. split_and!; [done..|]. by rewrite Hs, lookup_insert_eq.
Qed.

(** A new mongod is one of the reported ones. *)
Lemma recorded_new l seen seen' d d' : recorded slave l seen seen' d d' → db_ok d → ∀ id m,
  mongods d !! id = None → mongods d' !! id = Some m → ∃ o, o ∈ l ∧ same_mongod slave o m ∧ unknown d' m o.
Proof.
  induction 1 as [|o l mid m' seen seen' d d1 d2 H1 Hrec IH]; [congruence|]. intros Hok id m Hnone Hm.
  destruct H1 as [Ht Hsame _ Hprior]. pose proof (touched_ok Ht Hok) as Hok1. destruct (decide (id = mid)) as [->|Hne].
  - rewrite Hnone in Hprior. assert (mongods d1 !! mid = Some m') as Hm1 by by rewrite (touched_mongods _ _ _ _ Ht), lookup_insert_eq.
    destruct (recorded_kept _ _ _ _ _ Hrec Hok1 mid m' Hm1) as (m2 & ? & Hu & Hdes). assert (m2 = m) as -> by congruence.
    exists o. split_and!; [left|by eapply unobserved_same|by eapply unobserved_unknown].
  - destruct (IH Hok1 id m) as (o' & ? & ? & ?); [|done|].
    + by rewrite (touched_mongods _ _ _ _ Ht), lookup_insert_ne.
    + exists o'. split_and!; [by right|done..].
Qed.

(** The map only takes mongods to their reports. *)
Lemma recorded_map l seen seen' d d' : recorded slave l seen seen' d d' → db_ok d →
  (∀ id o, seen !! id = Some o → ∃ m, mongods d !! id = Some m ∧ same_mongod slave o m) →
  ∀ id o, seen' !! id = Some o → ∃ m, mongods d' !! id = Some m ∧ same_mongod slave o m.
Proof.
  induction 1 as [|o l mid m' seen seen' d d1 d2 H1 Hrec IH]; [done|]. intros Hok Hseen.
  destruct H1 as [Ht Hsame _ Hprior]. apply IH; [by apply (touched_ok Ht)|].
  intros id o' [[<- <-]|[Hne Hin]]%lookup_insert_Some.
  - exists m'. by rewrite (touched_mongods _ _ _ _ Ht), lookup_insert_eq.
  - destruct (Hseen id o' Hin) as (m & ? & ?). exists m. by rewrite (touched_mongods _ _ _ _ Ht), lookup_insert_ne.
Qed.
End facts.
