(* ===== verification/Cluster.v ===== *)
(** * The whole cluster in memory

    The helpers of [master/cluster_allocator.go] that the allocator no longer calls:
    [replicaSets], which loads every replica set with its mongods, their states and
    slaves, and the usage of a slave. *)

From stdpp Require Import base gmap sets list strings fin_maps.
From Stdlib Require Import SpecFloat Lia.
From S2P Require Import Prelude Msp Model Database Orm Store Ports Monitor Observation.

Open Scope Z_scope.
Set Warnings "-clear-no-such-hyp".

(** A mongod with the rows its struct holds besides its own; a state that was not found
    stays zero. *)
Record loaded_mongod := mkLoaded {
  loaded_row : Mongod;
  loaded_ObservedState : MongodState;
  loaded_DesiredState : MongodState;
  loaded_ParentSlave : Slave
}.

Section cluster.
Context `{ENG : Engine} `{ORM : Gorm}.

(** [res = tx.Model(m).Related(&state, ...)]: [panic(err)] unless the row is there or there
    is none. *)
Definition state_or_zero (id : option Z) : GoM conn MongodState :=
  res ← related_or_zero id;
  or_panic res.

(** The body of the inner loop. *)
Definition load_mongod (m : Mongod) : GoM conn loaded_mongod :=
  observed ← state_or_zero (Mongod_ObservedStateID m);
  desired ← state_or_zero (Some (Mongod_DesiredStateID m));
  parentSlave ← orm_first_id (R := Slave) (Mongod_ParentSlaveID m);
  parentSlave ← or_panic parentSlave;
  mret (mkLoaded m observed desired parentSlave).

Fixpoint load_all (ms : list Mongod) : GoM conn (list loaded_mongod) :=
  match ms with
  | [] => mret []
  | m :: ms => l ← load_mongod m; rest ← load_all ms; mret (l :: rest)
  end.

(** The body of the outer loop: [tx.Model(r).Related(&r.Mongods, "Mongods")]. *)
Definition load_replica_set (r : ReplicaSet) : GoM conn (ReplicaSet * list loaded_mongod) :=
  found ← orm_find (λ m, bool_decide (Mongod_ReplicaSetID m = Some (ReplicaSet_ID r)));
  found ← or_panic found;
  loaded ← load_all found;
  mret (r, loaded).

Fixpoint load_replica_sets (rs : list ReplicaSet) : GoM conn (list (ReplicaSet * list loaded_mongod)) :=
  match rs with
  | [] => mret []
  | r :: rs => l ← load_replica_set r; rest ← load_replica_sets rs; mret (l :: rest)
  end.

(** [func (c *ClusterAllocator) replicaSets(tx *gorm.DB) (replicaSets []*ReplicaSet)] *)
Definition replicaSets : GoM conn (list (ReplicaSet * list loaded_mongod)) :=
  found ← orm_find (R := ReplicaSet) (λ _, true);
  found ← or_panic found;
  load_replica_sets found.
End cluster.

(** [func slaveUsage(s *Slave) (runningMongods, maxMongods uint)], with the list of the
    slave's mongods. *)
Definition slaveUsage (s : Slave) (mongods_of : list Mongod) : (Z * Z) + goval :=
  match slaveMaxNumberOfMongods s with
  | inl res => inl (Z.of_nat (length mongods_of), res)
  | inr v => inr v
  end.

(** [func slaveBusyRate(s *Slave) float64] *)
Definition slaveBusyRate (s : Slave) (mongods_of : list Mongod) : float64 + goval :=
  match slaveUsage s mongods_of with
  | inl (runningMongods, maxMongods) => inl (SFdiv 53 1024 (float64_of_int runningMongods) (float64_of_int maxMongods))
  | inr v => inr v
  end.

Example slaveBusyRate_half :
  slaveBusyRate (mkSlave 1 "host" 8081 18080 18082 true SlaveStateActive None None) [zero_Mongod] = inl (SFdiv 53 1024 (float64_of_int 1) (float64_of_int 2)).
Proof. vm_compute. reflexivity. Qed.

(** ** What is loaded *)

(** A mongod with its own states and its own slave. *)
Record loads (d : db) (m : Mongod) (l : loaded_mongod) : Prop := {
  loads_row : loaded_row l = m;
  loads_observed : loaded_ObservedState l = default zero_MongodState (o ← Mongod_ObservedStateID m; mongod_states d !! o);
  loads_desired : mongod_states d !! Mongod_DesiredStateID m = Some (loaded_DesiredState l);
  loads_slave : slaves d !! Mongod_ParentSlaveID m = Some (loaded_ParentSlave l)
}.

(** A replica set with exactly its mongods, each once. *)
Record loads_set (d : db) (r : ReplicaSet) (ls : list loaded_mongod) : Prop := {
  set_members m : m ∈ (loaded_row <$> ls) ↔ mongods d !! Mongod_ID m = Some m ∧ Mongod_ReplicaSetID m = Some (ReplicaSet_ID r);
  set_once : NoDup (Mongod_ID ∘ loaded_row <$> ls);
  set_loaded l : l ∈ ls → loads d (loaded_row l) l
}.

Section loaded.
Context (ENG : Engine) (ORM : Gorm) (Hrel : reliable ENG ORM).

Lemma state_or_zero_spec id c :
  wp (state_or_zero id) (λ st c', cdb c' = cdb c ∧ st = default zero_MongodState (o ← id; mongod_states (cdb c) !! o)) (λ _ _, False) c.
Proof.
  unfold state_or_zero, related_or_zero, related_state. wp_step. wp_step.
  destruct id as [o|]; [|wp_steps; [by intros a [= <-]|done]].
  apply wp_orm_first_id; [intros st Hst|intros Hnone|by intros e _ ?]; wp_steps; try done; intros a [= <-]; (split; [done|]); simpl in *.
  - by rewrite Hst.
  - by rewrite Hnone.
Qed.

Lemma load_mongod_spec m c : db_ok (cdb c) → mongods (cdb c) !! Mongod_ID m = Some m →
  wp (load_mongod m) (λ l c', cdb c' = cdb c ∧ loads (cdb c) m l) (λ _ _, False) c.
Proof.
  intros Hok Hm. unfold load_mongod. wp_step. eapply wp_mono; [apply state_or_zero_spec| |done]. intros observed c1 [E1 ->].
  wp_step. eapply wp_mono; [apply state_or_zero_spec| |done]. intros desired c2 [E2 ->]. rewrite E1 in E2.
  destruct (ok_desired _ Hok _ _ Hm) as (st & Hst & _). destruct (ok_parent _ Hok _ _ Hm) as [s Hs].
  wp_step. apply wp_orm_first_id; [intros s' Hs'|intros Hnone|by intros e _ ?].
  - cbn [or_panic]. wp_steps. split; [simpl; congruence|]. simpl in Hs'. rewrite E2 in Hs'. split; [done|done| |exact Hs'].
    simpl. by rewrite E1, Hst.
  - simpl in Hnone. rewrite E2 in Hnone. congruence.
Qed.

Lemma load_all_spec ms : ∀ c, db_ok (cdb c) → (∀ m, m ∈ ms → mongods (cdb c) !! Mongod_ID m = Some m) →
  wp (load_all ms) (λ ls c', cdb c' = cdb c ∧ Forall2 (loads (cdb c)) ms ls) (λ _ _, False) c.
Proof.
  induction ms as [|m ms IH]; intros c Hok Hms; cbn [load_all]; [apply wp_ret; by split|].
  wp_step. eapply wp_mono; [apply load_mongod_spec; [done|by apply Hms; left]| |done]. intros l c1 [E1 Hl].
  wp_step. eapply wp_mono; [apply IH; rewrite E1; [done|intros m' Hm'; by apply Hms; right]| |done].
  intros ls c2 [E2 Hls]. apply wp_ret. rewrite E1 in *. split; [done|]. by constructor.
Qed.

Lemma load_replica_set_spec r c : db_ok (cdb c) →
  wp (load_replica_set r) (λ x c', cdb c' = cdb c ∧ x.1 = r ∧ loads_set (cdb c) r x.2) (λ _ _, False) c.
Proof.
  intros Hok. unfold load_replica_set. wp_step. apply wp_sql_query; [|by intros e ?]. wp_step. apply wp_or_panic; [intros ? [= <-]; wp_step|done].
  set (found := select _ _ _).
  assert (∀ m, m ∈ found ↔ mongods (cdb c) !! Mongod_ID m = Some m ∧ Mongod_ReplicaSetID m = Some (ReplicaSet_ID r)) as Hfound.
  { intros m. unfold found. rewrite elem_of_select. setoid_rewrite bool_decide_eq_true. split.
    - intros (id & Hid & Hp). by rewrite (ok_mongod_key _ Hok _ _ Hid).
    - intros [? ?]. by exists (Mongod_ID m). }
  eapply wp_mono; [apply load_all_spec; [done|by intros m Hm; apply Hfound]| |done]. intros ls c1 [E1 Hls]. apply wp_ret.
  split; [done|]. split; [done|]. simpl in *.
  assert (loaded_row <$> ls = found) as Hrows.
  { clear -Hls. induction Hls as [|m l ms ls [Hm _ _ _] _ IH]; csimpl; [done|]. by rewrite Hm, IH. }
  split.
  - intros m. by rewrite Hrows, Hfound.
  - rewrite list_fmap_compose, Hrows. apply (NoDup_select _ _ (mongods (cdb c)) Mongod_ID).
    intros i j m1 m2 H1 H2. by rewrite (ok_mongod_key _ Hok _ _ H1), (ok_mongod_key _ Hok _ _ H2).
  - intros l [i Hi]%list_elem_of_lookup. destruct (Forall2_lookup_r _ _ _ _ _ Hls Hi) as (m & _ & Hl). by rewrite (loads_row _ _ _ Hl).
Qed.

Lemma load_replica_sets_spec rs : ∀ c, db_ok (cdb c) →
  wp (load_replica_sets rs) (λ xs c', cdb c' = cdb c ∧ xs.*1 = rs ∧ Forall (λ x, loads_set (cdb c) x.1 x.2) xs) (λ _ _, False) c.
Proof.
  induction rs as [|r rs IH]; intros c Hok; cbn [load_replica_sets]; [by apply wp_ret|].
  wp_step. eapply wp_mono; [by apply load_replica_set_spec| |done]. intros x c1 (E1 & Ex & Hx).
  wp_step. eapply wp_mono; [apply IH; by rewrite E1| |done]. intros xs c2 (E2 & Exs & Hxs). apply wp_ret. rewrite E1 in *.
  split; [done|]. split; [csimpl; congruence|]. constructor; [by rewrite Ex|done].
Qed.
End loaded.

(** The cluster in memory is that of the database: every replica set once, each with exactly
    its mongods, and these with their own states and slave; reading changes nothing. *)
Theorem replicaSets_complete (ENG : Engine) (ORM : Gorm) c : reliable ENG ORM → db_ok (cdb c) →
  ∃ xs c', replicaSets c = (c', Returned xs) ∧ cdb c' = cdb c ∧ NoDup (ReplicaSet_ID <$> xs.*1) ∧
    (∀ r, r ∈ xs.*1 ↔ replica_sets (cdb c) !! ReplicaSet_ID r = Some r) ∧
    ∀ r ls, (r, ls) ∈ xs → loads_set (cdb c) r ls.
Proof.
  intros Hrel Hok. assert (wp replicaSets (λ xs c', cdb c' = cdb c ∧ xs.*1 = select (cstmts c) (λ _, true) (replica_sets (cdb c)) ∧
    Forall (λ x, loads_set (cdb c) x.1 x.2) xs) (λ _ _, False) c) as Hwp.
  { unfold replicaSets. wp_step. apply wp_sql_query; [|by intros e ?]. wp_step. apply wp_or_panic; [intros ? [= <-]|done].
    eapply wp_mono; [by apply load_replica_sets_spec| |done]. by intros xs c'. }
  apply wp_returns in Hwp as (xs & c' & Hrun & E & Exs & Hxs). exists xs, c'. split; [done|]. split; [done|]. rewrite Exs. split_and!.
  - apply (NoDup_select _ _ (replica_sets (cdb c)) ReplicaSet_ID).
    intros i j r1 r2 H1 H2. by destruct (ok_rs_key _ Hok _ _ H1) as [-> _], (ok_rs_key _ Hok _ _ H2) as [-> _].
  - intros r. rewrite elem_of_select. split; [|by exists (ReplicaSet_ID r)].
    intros (id & Hid & _). by destruct (ok_rs_key _ Hok _ _ Hid) as [-> _].
  - intros r ls Hin. rewrite Forall_forall in Hxs. by apply (Hxs (r, ls)).
Qed.
