(* ===== verification/ObservationProperties.v ===== *)
(** * The monitor: what an answer of a slave leads to

    The two theorems about [handleObservation], for a slave that answers and for one
    that does not, and a slave with a known and an unknown mongod. *)

From stdpp Require Import base gmap sets list strings fin_maps.
From Stdlib Require Import Lia.
From S2P Require Import Prelude Msp Model Database Orm Store Session Members Projections Monitor Observation Recording.

Open Scope Z_scope.
Set Warnings "-clear-no-such-hyp".

(** ** The observation error of a slave *)

Lemma set_null_references {R} id fk (t : gmap Z R) : references fk t → references (set_null id fk) (delete id t).
Proof.
  unfold set_null. case_decide as Hd; [done|]. destruct fk as [i|]; [|done]. simpl. rewrite lookup_delete_ne; [done|congruence].
Qed.

Lemma delete_msp_error_well_kept d id : well_kept d → well_kept (delete_msp_error d id).
Proof.
  intros [Hok (Hs & Hm & Hst & Hp) Hkeyed]. split; [|split_and!|done].
  - split; simpl; try apply Hok.
    + intros i s. rewrite lookup_fmap. intros (s0 & Hs0 & ->)%fmap_Some. by apply (ok_slave_key _ Hok i s0).
    + intros i s. rewrite lookup_fmap. intros (s0 & Hs0 & ->)%fmap_Some. by apply (ok_slave_ports _ Hok i s0).
    + intros i m. rewrite lookup_fmap. intros (m0 & Hm0 & ->)%fmap_Some. by apply (ok_mongod_key _ Hok i m0).
    + intros i m. rewrite !lookup_fmap, fmap_is_Some. intros (m0 & Hm0 & ->)%fmap_Some. by apply (ok_parent _ Hok i m0).
    + intros i m r. rewrite lookup_fmap. intros (m0 & Hm0 & ->)%fmap_Some. by apply (ok_rs _ Hok i m0).
    + intros i m. rewrite lookup_fmap. intros (m0 & Hm0 & ->)%fmap_Some. by apply (ok_desired _ Hok i m0).
    + intros i m o. rewrite lookup_fmap. intros (m0 & Hm0 & ->)%fmap_Some. by apply (ok_observed _ Hok i m0).
  - intros i s. simpl. rewrite lookup_fmap. intros (s0 & Hs0 & ->)%fmap_Some. destruct (Hs i s0 Hs0).
    split; [done|by apply set_null_references].
  - intros i m. simpl. rewrite lookup_fmap. intros (m0 & Hm0 & ->)%fmap_Some. destruct (Hm i m0 Hm0) as (? & ? & [s ?] & ? & ? & ?).
    split_and!; [by apply set_null_references..| |done|done|done]. exists (slave_forgets id s). simpl. rewrite lookup_fmap.
    simpl in *. by apply fmap_Some; exists s.
  - intros sid st Hin. destruct (Hst sid st Hin) as [m Hm']. exists (mongod_forgets id m). simpl in *. rewrite lookup_fmap. apply fmap_Some. by exists m.
  - intros i p Hin. destruct (Hp i p Hin) as (Hps & ? & Hpm). split_and!; [|done|]; simpl in *.
    + destruct (Problem_SlaveID p); [|done]. simpl in *. by rewrite lookup_fmap, fmap_is_Some.
    + destruct (Problem_MongodID p); [|done]. simpl in *. by rewrite lookup_fmap, fmap_is_Some.
Qed.

(** The slave's row refers to the error [e], and nothing else changes. *)
Record error_recorded (slave : Slave) (e : msp.Error) (d d' : db) : Prop := {
  error_others : d' = set_slaves (slaves d') (set_msp_errors (msp_errors d') d);
  error_slave : ∃ eid, slaves d' = <[Slave_ID slave := Slave_set_ObservationErrorID (Some eid) slave]> (slaves d) ∧
    msp_errors d' = <[eid := set_row_id eid (mspErrorToModelMSPError e)]> (msp_errors d) ∧
    match Slave_ObservationErrorID slave with Some old => eid = old | None => msp_errors d !! eid = None end
}.

Section slave_error.
Context (ENG : Engine) (ORM : Gorm) (STORE : GormStore) (ASSOC : GormAssociations).
Context (Hrel : reliable_monitor ENG ORM STORE ASSOC).

Lemma wp_save_error (e : MSPError) (Q : option gerror → conn → Prop) E c :
  MSPError_ID e ≠ 0 → is_Some (msp_errors (cdb c) !! MSPError_ID e) →
  Q None (with_db (set_msp_errors (<[MSPError_ID e := e]> (msp_errors (cdb c))) (cdb c)) c) →
  wp (orm_save e) Q E c.
Proof.
  intros Hne Hin HQ. apply wp_orm_save; [done..|]. intros err Herr. by rewrite (monitor_save _ _ _ _ Hrel) in Herr.
Qed.

Lemma store_error_spec slave e c (Q : option gerror → conn → Prop) E :
  slaves (cdb c) !! Slave_ID slave = Some slave → Slave_ObservationErrorID slave ≠ Some 0 → well_kept (cdb c) →
  (∀ c', error_recorded slave e (cdb c) (cdb c') → cbus c' = cbus c → Q None c') →
  wp (updateSlaveObservationError slave (Some e)) Q E c.
Proof.
  intros Hs Hpos Hkept HQ. destruct (proj1 (kept_keys _ Hkept) _ _ Hs) as [_ Href].
  unfold updateSlaveObservationError, store_observation_error. wp_step. destruct (Slave_ObservationErrorID slave) as [eid|] eqn:He.
  - apply wp_save_error; simpl; [congruence|done|]. apply wp_ret, HQ; [|done]. split; [by destruct (cdb c)|]. exists eid. rewrite He.
    simpl. split_and!; [|done..].
    assert (Slave_set_ObservationErrorID (Some eid) slave = slave) as -> by (destruct slave; simpl in *; by subst).
    by rewrite insert_id.
  - wp_step. apply wp_orm_create; [done|done| |by intros err []; apply Hrel]. intros eid _ Hfresh.
    apply wp_orm_update; [|by intros err []; apply Hrel]. apply wp_ret, HQ; [|done]. split; [done|]. exists eid. rewrite He.
    simpl in *. split_and!; [by apply alter_as_insert|done..].
Qed.

(** A slave that answers has no observation error. *)
Definition error_cleared (slave : Slave) (d : db) : db :=
  match Slave_ObservationErrorID slave with Some eid => delete_msp_error d eid | None => d end.

Lemma clear_error_spec slave c (Q : option gerror → conn → Prop) E :
  slaves (cdb c) !! Slave_ID slave = Some slave → well_kept (cdb c) →
  (∀ c', cdb c' = error_cleared slave (cdb c) → cbus c' = cbus c → Q None c') →
  wp (updateSlaveObservationError slave None) Q E c.
Proof.
  intros Hs Hkept HQ. destruct (proj1 (kept_keys _ Hkept) _ _ Hs) as [_ Href].
  unfold updateSlaveObservationError, error_cleared in *. destruct (Slave_ObservationErrorID slave) as [eid|]; [|by apply wp_ret, HQ].
  wp_step. unfold wp at 1, sql_exec_rows. rewrite (reliable_eng _ _ (monitor_orm _ _ _ _ Hrel)). simpl.
  simpl in Href. destruct (decide (is_Some _)) as [_|]; [|done]. simpl. by apply wp_ret, HQ.
Qed.

Lemma error_cleared_well_kept slave d : well_kept d → well_kept (error_cleared slave d).
Proof. unfold error_cleared. destruct (Slave_ObservationErrorID slave); [apply delete_msp_error_well_kept|done]. Qed.

Lemma error_cleared_slaves slave d : is_Some (slaves d !! Slave_ID slave) → is_Some (slaves (error_cleared slave d) !! Slave_ID slave).
Proof. unfold error_cleared. destruct (Slave_ObservationErrorID slave); [|done]. simpl. by rewrite lookup_fmap, fmap_is_Some. Qed.

Lemma error_recorded_well_kept slave e d d' : slaves d !! Slave_ID slave = Some slave → well_kept d → error_recorded slave e d d' → well_kept d'.
Proof.
  intros Hs [Hok (Hks & Hm & Hst & Hp) Hkeyed] [Hd (eid & Es & Ee & Hold)]. rewrite Hd, Es, Ee. clear Hd.
  assert (∀ fk, references fk (msp_errors d) → references fk (<[eid := set_row_id eid (mspErrorToModelMSPError e)]> (msp_errors d))) as Herr.
  { intros [i|]; [|done]. simpl. rewrite lookup_insert_is_Some'. by right. }
  assert (∀ id, is_Some (slaves d !! id) → is_Some (<[Slave_ID slave := Slave_set_ObservationErrorID (Some eid) slave]> (slaves d) !! id)) as Hsl.
  { intros id. rewrite lookup_insert_is_Some'. by right. }
  split; [|split_and!|done].
  - split; simpl; try apply Hok.
    + intros id s [[<- <-]|[_ ?]]%lookup_insert_Some; [done|by eapply ok_slave_key].
    + intros id s [[<- <-]|[_ ?]]%lookup_insert_Some; [by apply (ok_slave_ports _ Hok (Slave_ID slave) slave)|by eapply ok_slave_ports].
    + intros id m Hin. by apply Hsl, (ok_parent _ Hok id m).
  - intros id s. simpl. intros [[<- <-]|[_ Hin]]%lookup_insert_Some.
    + split; [by apply (Hks (Slave_ID slave) slave)|]. simpl. rewrite lookup_insert_eq. by eexists.
    + destruct (Hks id s Hin). split; [done|by apply Herr].
  - intros id m Hin. destruct (Hm id m Hin) as (? & ? & ? & ? & ? & ?).
    split_and!; [by apply Herr..|by apply Hsl|done|done|done].
  - done.
  - intros id p Hin. destruct (Hp id p Hin) as (Hps & ? & ?). split_and!; [|done..].
    destruct (Problem_SlaveID p); [|done]. by apply Hsl.
Qed.
End slave_error.

(** ** A slave that answers *)

(** What the answer [l] of a slave makes of the mongods. *)
Record observed_by (slave : Slave) (l : list msp.Mongod) (d d' : db) : Prop := {
  by_tables : slaves d' = slaves d ∧ replica_sets d' = replica_sets d ∧ problems d' = problems d;
  by_kept id m : mongods d !! id = Some m → ∃ m', mongods d' !! id = Some m' ∧ unobserved m' = unobserved m ∧
    mongod_states d' !! Mongod_DesiredStateID m = mongod_states d !! Mongod_DesiredStateID m;
  by_elsewhere id m : mongods d !! id = Some m → Mongod_ParentSlaveID m ≠ Slave_ID slave →
    mongods d' !! id = Some m ∧ observed_state d' m = observed_state d m;
  by_gone id m : mongods d !! id = Some m → Mongod_ParentSlaveID m = Slave_ID slave → (∀ o, o ∈ l → ¬ same_mongod slave o m) →
    ∃ m' st, mongods d' !! id = Some m' ∧ Mongod_ObservationErrorID m' = None ∧ observed_state d' m' = Some st ∧
      MongodState_ExecutionState st = MongodExecutionStateDestroyed;
  by_reported o : o ∈ l → ∃ id m, mongods d' !! id = Some m ∧ same_mongod slave o m ∧ shows d' m o;
  by_new id m : mongods d !! id = None → mongods d' !! id = Some m → ∃ o, o ∈ l ∧ same_mongod slave o m ∧ unknown d' m o
}.

(** The reports by mongod. *)
Definition reports_of (slave : Slave) (l : list msp.Mongod) (d' : db) (idx : gmap Z msp.Mongod) : Prop :=
  (∀ id o, idx !! id = Some o → ∃ m, mongods d' !! id = Some m ∧ same_mongod slave o m) ∧
  (∀ o, o ∈ l → ∃ id, idx !! id = Some o).

Lemma marked_then_recorded slave l d d1 d2 gone idx :
  well_kept d → NoDup (identity <$> l) → marked d gone d1 → missing_of d slave l gone → recorded slave l ∅ idx d1 d2 →
  observed_by slave l d d2 ∧ reports_of slave l d2 idx.
Proof.
  intros Hkept Hnd Hmark Hgone Hrec. pose proof (marked_ok _ _ _ Hmark) as Hok1.
  assert (∀ id m, mongods d !! id = Some m → (∀ o, o ∈ l → ¬ same_mongod slave o m) → Mongod_ParentSlaveID m = Slave_ID slave →
    id ∈ gone) as Hin.
  { intros id m Hm Hno Hpar. apply Hgone. exists m. split_and!; [done..|]. intros o Ho [? ?]. by apply (Hno o Ho). }
  assert (∀ id m, mongods d !! id = Some m → Mongod_ParentSlaveID m ≠ Slave_ID slave → id ∉ gone) as Hnot.
  { intros id m Hm Hpar (m0 & ? & ? & _)%Hgone. congruence. }
  assert (∀ id m, mongods d !! id = Some m → ∃ m1, mongods d1 !! id = Some m1 ∧ unobserved m1 = unobserved m) as Hrow.
  { intros id m Hm. destruct (decide (id ∈ gone)) as [Hg|Hg].
    - destruct (marked_gone _ _ _ Hmark id m Hg Hm) as (m1 & st & ? & ? & _). by exists m1.
    - exists m. split; [|done]. by apply (marked_kept _ _ _ Hmark). }
  split; [split|split].
  - destruct (marked_tables _ _ _ Hmark) as (<- & <- & <-). by destruct (recorded_tables _ _ _ _ _ Hrec) as (? & ? & _ & ?).
  - intros id m Hm. destruct (Hrow id m Hm) as (m1 & Hm1 & Hu1).
    destruct (recorded_kept _ _ _ _ _ Hrec Hok1 id m1 Hm1) as (m2 & ? & Hu2 & Hd2). exists m2. split_and!; [done|congruence|].
    rewrite <- (marked_desired _ _ _ Hmark id m Hm). by rewrite (unobserved_desired _ _ Hu1) in Hd2.
  - intros id m Hm Hpar. destruct (marked_kept _ _ _ Hmark id m (Hnot _ _ Hm Hpar) Hm) as [Hm1 Ho1].
    destruct (recorded_others _ _ _ _ _ Hrec Hok1 id m Hm1) as (? & ? & _); [by intros o _ [? _]|]. split; [done|congruence].
  - intros id m Hm Hpar Hno. destruct (marked_gone _ _ _ Hmark id m (Hin _ _ Hm Hno Hpar) Hm) as (m1 & st & Hm1 & Hu & He & Hst & Hx).
    destruct (recorded_others _ _ _ _ _ Hrec Hok1 id m1 Hm1) as (? & Ho & _).
    { intros o Ho Hs. apply (Hno o Ho). by eapply unobserved_same. }
    exists m1, st. split_and!; [done..|congruence|done].
  - intros o Ho. destruct (recorded_reported _ _ _ _ _ Hrec Hok1 Hnd o Ho) as (id & m & ? & ? & ? & _). by exists id, m.
  - intros id m Hnone. apply (recorded_new _ _ _ _ _ Hrec Hok1). apply not_elem_of_dom. rewrite (marked_dom _ _ _ Hmark).
    by apply not_elem_of_dom.
  - intros id o Hidx. by apply (recorded_map _ _ _ _ _ Hrec Hok1 ltac:(by intros ??) id o).
  - intros o Ho. destruct (recorded_reported _ _ _ _ _ Hrec Hok1 Hnd o Ho) as (id & m & _ & _ & _ & ?). by exists id.
Qed.

Section handle.
Context (ENG : Engine) (ORM : Gorm) (STORE : GormStore) (ASSOC : GormAssociations).
Context (Hrel : reliable_monitor ENG ORM STORE ASSOC).

Lemma wp_commit_kept (Q : option gerror → session → Prop) E s :
  well_kept (cdb (tx s)) → Q None (mkSession (cdb (tx s)) (tick (tx s)) (calls s)) → wp Commit Q E s.
Proof.
  intros Hk HQ. apply wp_Commit; [done|]. intros e Hno. destruct (Hno (reliable_eng _ _ (monitor_orm _ _ _ _ Hrel) _)). apply Hk.
Qed.

Lemma handle_answer slave l s :
  well_kept (committed s) → slaves (committed s) !! Slave_ID slave = Some slave → Slave_ID slave ≠ 0 →
  Forall identified l → NoDup (identity <$> l) →
  wp (handleObservation l None slave) (λ _ s', calls s' = calls s ∧ well_kept (committed s') ∧
    observed_by slave l (error_cleared slave (committed s)) (committed s') ∧
    ∃ idx statuses, reports_of slave l (committed s') idx ∧ status_report (committed s') slave idx statuses ∧
      cbus (tx s') = cbus (tx s) ++ MsgConnection (connection_status slave None) :: (MsgMatch <$> statuses)) (λ _ _, False) s.
Proof.
  intros Hkept Hs Hid Hl Hnd. unfold handleObservation. wp_step. apply wp_in_tx, wp_send. wp_step. apply wp_session_begin. wp_step.
  apply wp_in_tx. simpl. eapply clear_error_spec; [done..|]. intros c1 E1 B1. simpl in *.
  pose proof (error_cleared_well_kept slave _ Hkept) as Hkept1. rewrite <- E1 in Hkept1.
  wp_step. apply wp_in_tx. simpl. eapply wp_mono; [apply updateMongodStatesNotObservedOnSlave_spec; [apply Hrel|apply Hkept1]| |done].
  intros r c2 (-> & B2 & gone & Hmark & Hgone). pose proof (marked_well_kept _ _ _ Hmark Hkept1) as Hkept2.
  wp_step. apply wp_in_tx. simpl. eapply wp_mono; [apply (updateOrCreate_spec ENG ORM STORE ASSOC Hrel slave l ∅ c2)| |done]; [|done..|].
  { destruct (marked_tables _ _ _ Hmark) as (-> & _). rewrite E1. apply error_cleared_slaves. by eexists. }
  intros [idx err] c3 (Herr & B3 & Hrec). simpl in Herr, Hrec. subst err. pose proof (recorded_well_kept _ _ _ _ _ Hrec Hkept2) as Hkept3.
  destruct (marked_then_recorded _ _ _ _ _ _ _ Hkept1 Hnd Hmark Hgone Hrec) as [Hby Hidx]. rewrite E1 in Hby.
  wp_step. apply wp_commit_kept; [done|]. simpl. unfold report_mismatches. wp_step. apply wp_session_begin. wp_step. apply wp_in_tx. simpl.
  eapply wp_mono; [apply sendMongodMismatchStatusToBus_spec; [apply Hrel|apply Hkept3]| |done].
  intros r c4 (-> & E4 & statuses & B4 & Hrep). apply wp_Rollback. simpl in *. split_and!; [done..|].
  exists idx, statuses. split_and!; [done..|]. by rewrite B4, B3, B2, B1, <- app_assoc.
Qed.
Lemma handle_error slave l e s :
  well_kept (committed s) → slaves (committed s) !! Slave_ID slave = Some slave → Slave_ObservationErrorID slave ≠ Some 0 →
  wp (handleObservation l (Some e) slave) (λ _ s', calls s' = calls s ∧ well_kept (committed s') ∧
    error_recorded slave e (committed s) (committed s') ∧
    cbus (tx s') = cbus (tx s) ++ [MsgConnection (connection_status slave (Some e))]) (λ _ _, False) s.
Proof.
  intros Hkept Hs Hpos. unfold handleObservation.
  wp_step. apply wp_in_tx, wp_send. wp_step. apply wp_session_begin. wp_step. apply wp_in_tx. simpl.
  eapply store_error_spec; [done..|]. simpl. intros c1 Herr B1.
  pose proof (error_recorded_well_kept _ _ _ _ Hs Hkept Herr) as Hkept1.
  wp_step. eapply wp_commit_kept; [done..|]. by apply wp_ret.
Qed.
End handle.

(** C28: When a slave, on a well-formed database, answers with reports that are pairwise
    distinct and each name a replica set and a port other than 0, and every statement is
    executed, the monitor commits exactly what the answer says: every reported mongod has
    the reported state and role, or its error; mongods the answer does not mention are
    destroyed; an unknown mongod gets a row that no replica set has and that is to be
    destroyed; mongods of other slaves, and what is desired of any mongod, stay as they are,
    and the slave has no observation error any more. The bus gets the connection status and
    one match status per mongod of the slave, computed from the committed rows and the
    reports. Not covered are reports without a name or with port 0, which match the mongod
    of another report: among them are those the slave sends itself for a mongod whose
    configuration it cannot read, which is then recorded as destroyed
    ([failed_report_recorded]). *)
Theorem observation_recorded (ENG : Engine) (ORM : Gorm) (STORE : GormStore) (ASSOC : GormAssociations) slave l s :
  reliable_monitor ENG ORM STORE ASSOC → well_kept (committed s) →
  slaves (committed s) !! Slave_ID slave = Some slave → Slave_ID slave ≠ 0 →
  Forall identified l → NoDup (identity <$> l) →
  ∃ s' idx statuses, handleObservation l None slave s = (s', Returned tt) ∧ calls s' = calls s ∧
    well_kept (committed s') ∧ observed_by slave l (error_cleared slave (committed s)) (committed s') ∧
    reports_of slave l (committed s') idx ∧ status_report (committed s') slave idx statuses ∧
    cbus (tx s') = cbus (tx s) ++ MsgConnection (connection_status slave None) :: (MsgMatch <$> statuses).
Proof.
  intros Hrel Hkept Hs Hid Hl Hnd.
  destruct (wp_returns _ _ _ (handle_answer ENG ORM STORE ASSOC Hrel slave l s Hkept Hs Hid Hl Hnd))
    as ([] & s' & Hrun & ? & ? & ? & idx & statuses & ? & ? & ?).
  by exists s', idx, statuses.
Qed.

(** C31: When a slave does not answer, and every statement is executed on a well-formed
    database, its row refers to the error, which replaces the
    one of an earlier failure, and nothing else changes, in particular no observed
    state; the bus gets one connection status, which says unreachable exactly for an
    error of communication. *)
Theorem observation_error_recorded (ENG : Engine) (ORM : Gorm) (STORE : GormStore) (ASSOC : GormAssociations) slave l e s :
  reliable_monitor ENG ORM STORE ASSOC → well_kept (committed s) →
  slaves (committed s) !! Slave_ID slave = Some slave → Slave_ObservationErrorID slave ≠ Some 0 →
  ∃ s', handleObservation l (Some e) slave s = (s', Returned tt) ∧ calls s' = calls s ∧
    well_kept (committed s') ∧ error_recorded slave e (committed s) (committed s') ∧
    cbus (tx s') = cbus (tx s) ++ [MsgConnection (mkConnectionStatus (bool_decide (msp.Identifier e = msp.CommunicationError)) slave e)].
Proof.
  intros Hrel Hkept Hs Hpos.
  destruct (wp_returns _ _ _ (handle_error ENG ORM STORE ASSOC Hrel slave l e s Hkept Hs Hpos)) as ([] & s' & Hrun & ? & ? & ? & ?).
  by exists s'.
Qed.

(** ** A slave with a known and an unknown mongod

    Slave 1 could not be reached before; now it reports its mongod and another one. *)

Definition nine_session : session := mkSession nine_db (mkConn nine_db 0 []) [].
Definition observed_slave : Slave := default zero_Slave (slaves nine_db !! 1).
Definition reported_mongod (port : PortNumber) (name state : string) : msp.Mongod :=
  msp.mkMongod port EmptyString (msp.mkReplicaSetConfig name [] msp.ShardingRoleNone msp.zero_Credential) None None state.
Definition example_reports : list msp.Mongod :=
  [reported_mongod 18080 "rs" msp.MongodStateRunning; reported_mongod 18085 "old" msp.MongodStateNotRunning].

Lemma nine_well_kept : well_kept nine_db.
Proof.
  split; [apply nine_ok|by apply (bool_decide_unpack _); vm_compute|].
  assert (map_Forall (λ sid st, MongodState_ID st = sid ∧ 0 < sid) (mongod_states nine_db)) as Hkeyed
    by (apply (bool_decide_unpack _); by vm_compute).
  exact Hkeyed.
Qed.

Example observation_example :
  let s := (@handleObservation ref_engine ref_gorm ref_store ref_associations example_reports None observed_slave nine_session).1 in
  let d := committed s in
  (Slave_ObservationErrorID <$> slaves d !! 1,
   (λ m, (Mongod_ID m, Mongod_Port m, MongodState_ExecutionState <$> observed_state d m,
          MongodState_ExecutionState <$> mongod_states d !! Mongod_DesiredStateID m)) <$>
     filter (λ m, Mongod_ParentSlaveID m = 1) ((map_to_list (mongods d)).*2), length (cbus (tx s))) =
  (Some None,
   [(10, 18085, Some MongodExecutionStateNotRunning, Some MongodExecutionStateForceDestroyed);
    (1, 18080, Some MongodExecutionStateRunning, Some MongodExecutionStateRunning)], 3%nat).
Proof. vm_compute. reflexivity. Qed.

(** A mongod whose configuration the slave cannot read is reported by its port alone.
    Compared by port and name, this report is that of no mongod, so the mongod is recorded
    as destroyed; the query by example then finds its row, and the error is attached. *)
Definition failed_report : msp.Mongod :=
  msp.mkMongod 18080 EmptyString msp.zero_ReplicaSetConfig
    (Some (msp.mkError msp.SlaveGetMongodStatusError "no reply" EmptyString)) None msp.MongodStateNotRunning.

Example failed_report_recorded :
  let s := (@handleObservation ref_engine ref_gorm ref_store ref_associations [failed_report] None observed_slave nine_session).1 in
  (λ m, (Mongod_Port m, MongodState_ExecutionState <$> observed_state (committed s) m, Mongod_ObservationErrorID m)) <$>
     filter (λ m, Mongod_ParentSlaveID m = 1) ((map_to_list (mongods (committed s))).*2) =
  [(18080, Some MongodExecutionStateDestroyed, Some 1)].
Proof. vm_compute. reflexivity. Qed.

Lemma observation_recorded_witness : ∃ s' idx statuses,
  @handleObservation ref_engine ref_gorm ref_store ref_associations example_reports None observed_slave nine_session = (s', Returned tt) ∧
  observed_by observed_slave example_reports (error_cleared observed_slave nine_db) (committed s') ∧
  reports_of observed_slave example_reports (committed s') idx ∧
  cbus (tx s') = MsgConnection (connection_status observed_slave None) :: (MsgMatch <$> statuses).
Proof.
  destruct (observation_recorded ref_engine ref_gorm ref_store ref_associations observed_slave example_reports nine_session)
    as (s' & idx & statuses & Hrun & _ & _ & Hby & Hreports & _ & Hb).
  - apply ref_reliable_monitor.
  - apply nine_well_kept.
  - by vm_compute.
  - by vm_compute.
  - repeat (apply Forall_cons; split; [by vm_compute|]). by apply Forall_nil.
  - apply (bool_decide_unpack _). by vm_compute.
  - exists s', idx, statuses. split; [exact Hrun|]. split; [exact Hby|]. split; [exact Hreports|exact Hb].
Defined.

Lemma observation_error_recorded_witness : ∃ s',
  @handleObservation ref_engine ref_gorm ref_store ref_associations [] (Some (msp.mkError msp.CommunicationError "d" "l")) observed_slave
    nine_session = (s', Returned tt) ∧
  error_recorded observed_slave (msp.mkError msp.CommunicationError "d" "l") nine_db (committed s').
Proof.
  destruct (observation_error_recorded ref_engine ref_gorm ref_store ref_associations observed_slave []
    (msp.mkError msp.CommunicationError "d" "l") nine_session) as (s' & Hrun & _ & _ & Herr & _).
  - apply ref_reliable_monitor.
  - apply nine_well_kept.
  - by vm_compute.
  - by vm_compute.
  - exists s'. split; [exact Hrun|exact Herr].
Defined.
