(* ===== verification/MonitorRound.v ===== *)
(** * The monitor: a whole round

    One tick of [Run]: every slave is asked, the answers are handled in the order in
    which they arrive, and the replica sets are checked at the end. *)

From stdpp Require Import base gmap sets list strings fin_maps.
From Stdlib Require Import Lia.
From S2P Require Import Prelude Msp Model Database Orm Store Session Members Projections Monitor Observation Recording.
From S2P Require Import ObservationProperties.

Open Scope Z_scope.
Set Warnings "-clear-no-such-hyp".

Lemma error_cleared_decisions slave d : decisions_kept d (error_cleared slave d).
Proof.
  unfold error_cleared. destruct (Slave_ObservationErrorID slave) as [eid|]; [|by split; eauto]. split; [done|].
  intros id m Hm. exists (mongod_forgets eid m). simpl. by rewrite lookup_fmap, Hm.
Qed.

Lemma observed_by_decisions slave l d d' : observed_by slave l d d' → decisions_kept d d'.
Proof.
  intros Hby. split; [apply (by_tables _ _ _ _ Hby)|]. intros id m Hm. destruct (by_kept _ _ _ _ Hby id m Hm) as (m' & ? & Hu & ?).
  exists m'. split_and!; [done|unfold decided; by rewrite Hu|done].
Qed.

Lemma error_recorded_decisions slave e d d' : error_recorded slave e d d' → decisions_kept d d'.
Proof. intros [Hd _]. rewrite Hd. split; [done|]. intros id m Hm. by exists m. Qed.

(** The rows of the other slaves, unless they share the error that is deleted. *)
Definition shares_no_error (s1 s2 : Slave) : Prop :=
  Slave_ObservationErrorID s1 = None ∨ Slave_ObservationErrorID s1 ≠ Slave_ObservationErrorID s2.

Lemma error_cleared_others slave d s : slaves d !! Slave_ID s = Some s → shares_no_error slave s →
  slaves (error_cleared slave d) !! Slave_ID s = Some s.
Proof.
  unfold error_cleared, shares_no_error. intros Hs Hno. destruct (Slave_ObservationErrorID slave) as [eid|]; [|done].
  simpl. rewrite lookup_fmap, Hs. simpl. f_equal. unfold slave_forgets, set_null. rewrite decide_False by naive_solver.
  by destruct s.
Qed.

(** The connection statuses among messages. *)
Definition connections (ms : list StatusMessage) : list ConnectionStatus :=
  omap (λ m, match m with MsgConnection c => Some c | _ => None end) ms.

Lemma connections_app ms1 ms2 : connections (ms1 ++ ms2) = connections ms1 ++ connections ms2.
Proof. apply omap_app. Qed.

Lemma connections_match statuses : connections (MsgMatch <$> statuses) = [].
Proof. by induction statuses. Qed.

(** ** One answer of the round *)

Definition acceptable (answer : list msp.Mongod * option msp.Error) : Prop :=
  answer.2 = None → Forall identified answer.1 ∧ NoDup (identity <$> answer.1).

Section round.
Context (ENG : Engine) (ORM : Gorm) (STORE : GormStore) (ASSOC : GormAssociations).
Context (Hrel : reliable_monitor ENG ORM STORE ASSOC).

Lemma handle_any slave answer s :
  well_kept (committed s) → slaves (committed s) !! Slave_ID slave = Some slave → Slave_ID slave ≠ 0 →
  Slave_ObservationErrorID slave ≠ Some 0 → acceptable answer →
  wp (handleObservation answer.1 answer.2 slave) (λ _ s', calls s' = calls s ∧ well_kept (committed s') ∧
    decisions_kept (committed s) (committed s') ∧
    (∀ s2, slaves (committed s) !! Slave_ID s2 = Some s2 → Slave_ID s2 ≠ Slave_ID slave → shares_no_error slave s2 →
       slaves (committed s') !! Slave_ID s2 = Some s2) ∧
    ∃ ms, cbus (tx s') = cbus (tx s) ++ ms ∧ connections ms = [connection_status slave answer.2]) (λ _ _, False) s.
Proof.
  intros Hkept Hs Hid Hpos Hans. destruct answer as [l [e|]]; simpl.
  - eapply wp_mono; [by eapply (handle_error ENG ORM STORE ASSOC Hrel slave l e s)| |done].
    intros [] s' (? & ? & Herr & Hb). split_and!; [done..|by eapply error_recorded_decisions| |by eexists].
    intros s2 Hs2 Hne _. destruct (error_slave _ _ _ _ Herr) as (eid & -> & _). by rewrite lookup_insert_ne.
  - destruct (Hans eq_refl) as [Hl Hnd].
    eapply wp_mono; [by apply (handle_answer ENG ORM STORE ASSOC Hrel slave l s)| |done].
    intros [] s' (? & ? & Hby & idx & statuses & _ & _ & Hb). split_and!; [done..| | |].
    + eapply decisions_kept_trans; [apply error_cleared_decisions|by eapply observed_by_decisions].
    + intros s2 Hs2 _ Hno. destruct (by_tables _ _ _ _ Hby) as (-> & _). by apply error_cleared_others.
    + eexists. split; [done|]. simpl. by rewrite connections_match.
Qed.

(** ** The round *)

Context (RequestStatus : msp.HostPort → list msp.Mongod * option msp.Error).
Definition answer_of (slave : Slave) : list msp.Mongod * option msp.Error :=
  RequestStatus (msp.mkHostPort (Slave_Hostname slave) (Slave_Port slave)).

(** After the answers of [pre] were handled. *)
Record answers_handled (s : session) (all pre : list Slave) (s' : session) : Prop := {
  handled_calls : calls s' = calls s;
  handled_kept : well_kept (committed s');
  handled_decisions : decisions_kept (committed s) (committed s');
  handled_others slave : slave ∈ all → slave ∉ pre → slaves (committed s') !! Slave_ID slave = Some slave;
  handled_bus : ∃ ms, cbus (tx s') = cbus (tx s) ++ ms ∧
    connections ms = (λ slave, connection_status slave (answer_of slave).2) <$> pre
}.

Lemma answers_loop all s :
  well_kept (committed s) → NoDup all →
  (∀ slave, slave ∈ all → slaves (committed s) !! Slave_ID slave = Some slave ∧ Slave_ID slave ≠ 0 ∧
     Slave_ObservationErrorID slave ≠ Some 0 ∧ acceptable (answer_of slave)) →
  (∀ s1 s2, s1 ∈ all → s2 ∈ all → s1 ≠ s2 → shares_no_error s1 s2) →
  wp (range all (λ slave,
    let '(observedMongods, mspError) := RequestStatus (msp.mkHostPort (Slave_Hostname slave) (Slave_Port slave)) in
    handleObservation observedMongods mspError slave)) (λ _ s', answers_handled s all all s') (λ _ _, False) s.
Proof.
  intros Hkept Hnd Hall Hshare. apply (wp_range _ _ (answers_handled s all)).
  - split; [done|done|by split; eauto|intros slave Hin _; by apply Hall|]. exists []. by rewrite app_nil_r.
  - intros pre slave todo s1 Heq [Hcalls Hk Hdec Hothers (ms & Hb & Hms)].
    assert (slave ∈ all ∧ slave ∉ pre) as [Hin Hnot].
    { rewrite Heq in Hnd |- *. apply NoDup_app in Hnd as (_ & Hdisj & _). split; [set_solver|]. intros Hp. apply (Hdisj _ Hp). left. }
    destruct (Hall slave Hin) as (Hs0 & Hid & Hpos & Hans). fold (answer_of slave).
    pose proof (handle_any slave (answer_of slave) s1 Hk (Hothers _ Hin Hnot) Hid Hpos Hans) as Hwp.
    destruct (answer_of slave) as [l err] eqn:Hanswer. simpl in Hwp. eapply wp_mono; [exact Hwp| |done].
    intros [] s2 (Hc2 & Hk2 & Hd2 & Ho2 & ms2 & Hb2 & Hms2). split.
    + congruence.
    + done.
    + by eapply decisions_kept_trans.
    + intros s' Hin' [Hnp Hne]%not_elem_of_app. rewrite list_elem_of_singleton in Hne.
      apply Ho2; [by apply Hothers| |by apply Hshare; [..|congruence]].
      intros Heqid. apply Hne. destruct (Hall s' Hin') as [Hs' _]. congruence.
    + exists (ms ++ ms2). rewrite Hb2, Hb, <- app_assoc. split; [done|]. rewrite connections_app, Hms, Hms2, fmap_app. simpl. by rewrite Hanswer.
Qed.
End round.

(** C29: In a round every slave is asked, whatever its configured state (a comment speaks of
    active slaves only), and its answer handled, in whatever order the answers arrive: the
    bus gets one connection status per slave, which says whether it could be reached, and
    at the end the two messages about every replica set, counted in the final database;
    what operators and allocator decided stays as it was, and the database stays
    well-formed. This is for a well-formed database in which slaves and errors have
    identifiers other than 0 and no two slaves share the row of an observation error, and
    which executes every statement, and for answers that are an
    error or pairwise distinct reports, each with a port other than 0 and a name. *)
Theorem monitor_round_complete (ENG : Engine) (ORM : Gorm) (STORE : GormStore) (ASSOC : GormAssociations) RequestStatus arrivals s :
  reliable_monitor ENG ORM STORE ASSOC → well_kept (committed s) → (∀ l, arrivals l ≡ₚ l) →
  (∀ id slave, slaves (committed s) !! id = Some slave →
     id ≠ 0 ∧ Slave_ObservationErrorID slave ≠ Some 0 ∧ acceptable (answer_of RequestStatus slave)) →
  (∀ id1 id2 s1 s2, slaves (committed s) !! id1 = Some s1 → slaves (committed s) !! id2 = Some s2 → id1 ≠ id2 → shares_no_error s1 s2) →
  ∃ s' ms rows, monitor_round RequestStatus arrivals s = (s', Returned tt) ∧ calls s' = calls s ∧
    well_kept (committed s') ∧ decisions_kept (committed s) (committed s') ∧
    cbus (tx s') = cbus (tx s) ++ ms ++ mjoin (replica_set_messages (committed s') <$> rows) ∧
    rows ≡ₚ (map_to_list (replica_sets (committed s))).*2 ∧
    connections ms ≡ₚ (λ slave, connection_status slave (answer_of RequestStatus slave).2) <$> (map_to_list (slaves (committed s))).*2.
Proof.
  intros Hrel Hkept Harr Hslaves Hshare. pose proof (kept_ok _ Hkept) as Hok.
  set (found := select (cstmts (tx s)) (λ _, true) (slaves (committed s))).
  assert (found ≡ₚ (map_to_list (slaves (committed s))).*2) as Hfound by apply select_all.
  assert (∀ slave, slave ∈ arrivals found → slaves (committed s) !! Slave_ID slave = Some slave) as Hin.
  { intros slave. rewrite Harr. intros (id & Hid & _)%elem_of_select. by rewrite (ok_slave_key _ Hok _ _ Hid). }
  assert (NoDup (arrivals found)) as Hnd.
  { rewrite Harr. apply (NoDup_fmap_1 Slave_ID), NoDup_select. intros i j s1 s2 H1 H2.
    by rewrite (ok_slave_key _ Hok _ _ H1), (ok_slave_key _ Hok _ _ H2). }
  assert (wp (monitor_round RequestStatus arrivals) (λ _ s', ∃ ms rows, calls s' = calls s ∧
    well_kept (committed s') ∧ decisions_kept (committed s) (committed s') ∧
    cbus (tx s') = cbus (tx s) ++ ms ++ mjoin (replica_set_messages (committed s') <$> rows) ∧
    rows ≡ₚ (map_to_list (replica_sets (committed s))).*2 ∧
    connections ms = (λ slave, connection_status slave (answer_of RequestStatus slave).2) <$> arrivals found) (λ _ _, False) s) as Hwp.
  { unfold monitor_round, read_slaves, check_replica_sets. wp_step. wp_step. apply wp_session_begin. wp_step. apply wp_in_tx. unfold orm_find.
    apply wp_sql_query; [|by intros e []; apply Hrel]. simpl. fold found. wp_step. apply wp_Rollback. apply wp_ret. simpl.
    wp_step. eapply wp_mono; [apply (answers_loop ENG ORM STORE ASSOC Hrel RequestStatus (arrivals found))| |done]; simpl; [done|done|..].
    - intros slave Hs. destruct (Hslaves _ _ (Hin _ Hs)) as (? & ? & ?). split_and!; [by apply Hin|done..].
    - intros s1 s2 H1 H2 Hne. apply (Hshare (Slave_ID s1) (Slave_ID s2)); [by apply Hin..|]. intros Heq.
      apply Hne. pose proof (Hin _ H1). pose proof (Hin _ H2). congruence.
    - intros [] s1 [Hcalls Hk Hdec _ (ms & Hb & Hms)]. simpl in *. wp_step. apply wp_session_begin. wp_step. apply wp_in_tx. simpl.
      eapply wp_mono; [apply (observeReplicaSets_spec ENG ORM); apply Hrel| |done]. simpl. intros [] c2 (rows & _ & Hrows & Hb2).
      apply wp_Rollback. exists ms, rows. simpl. rewrite (kept_replica_sets _ _ Hdec) in Hrows.
      split_and!; [done..| |done|done]. by rewrite Hb2, Hb, <- app_assoc. }
  apply wp_returns in Hwp as ([] & s' & Hrun & ms & rows & ? & ? & ? & ? & ? & Hms). exists s', ms, rows.
  split_and!; [done..|]. by rewrite Hms, Harr, Hfound.
Qed.

(** ** A round over nine slaves, of which the first answers *)

Definition round_db : db := delete_msp_error nine_db 1.
Definition round_session : session := mkSession round_db (mkConn round_db 0 []) [].
Definition example_answer (target : msp.HostPort) : list msp.Mongod * option msp.Error :=
  if decide (msp.Hostname target = "host1"%string) then (example_reports, None)
  else ([], Some (msp.mkError msp.CommunicationError "Error communicating with slave." "timeout")).

Example round_example :
  let s := (@monitor_round ref_engine ref_gorm ref_store ref_associations example_answer reverse round_session).1 in
  (length (connections (cbus (tx s))), length (cbus (tx s)), size (msp_errors (committed s)), size (mongods (committed s))) =
  (9, 13, 8, 10)%nat.
Proof. vm_compute. reflexivity. Qed.

Lemma example_answer_acceptable target : acceptable (example_answer target).
Proof.
  unfold acceptable, example_answer. destruct (decide _); [|done]. intros _. split.
  - repeat (apply Forall_cons; split; [by vm_compute|]). by apply Forall_nil.
  - apply (bool_decide_unpack _). by vm_compute.
Qed.

Lemma round_slaves : map_Forall (λ id slave, id ≠ 0 ∧ Slave_ObservationErrorID slave = None) (slaves round_db).
Proof. apply (bool_decide_unpack _). by vm_compute. Qed.

Lemma monitor_round_complete_witness : ∃ s' ms rows,
  @monitor_round ref_engine ref_gorm ref_store ref_associations example_answer reverse round_session = (s', Returned tt) ∧
  decisions_kept round_db (committed s') ∧ cbus (tx s') = ms ++ mjoin (replica_set_messages (committed s') <$> rows) ∧
  connections ms ≡ₚ (λ slave, connection_status slave (answer_of example_answer slave).2) <$> (map_to_list (slaves round_db)).*2.
Proof.
  destruct (monitor_round_complete ref_engine ref_gorm ref_store ref_associations example_answer reverse round_session)
    as (s' & ms & rows & Hrun & _ & _ & Hdec & Hb & _ & Hms).
  - apply ref_reliable_monitor.
  - apply delete_msp_error_well_kept, nine_well_kept.
  - intros l. apply reverse_Permutation.
  - intros id slave Hin. destruct (round_slaves id slave Hin) as [Hid ->]. split; [exact Hid|]. split; [discriminate|apply example_answer_acceptable].
  - intros id1 id2 s1 s2 Hin _ _. left. apply (round_slaves id1 s1 Hin).
  - exists s', ms, rows. split; [exact Hrun|]. split; [exact Hdec|]. split; [exact Hb|exact Hms].
Defined.
