(* ===== verification/Bus.v ===== *)
(** * The master's bus

    [master/bus.go]: a goroutine that takes messages from any number of write
    channels and copies each to all read channels.  Its loop, the users of the
    channels and the creation of channels are interleaved steps. *)

From stdpp Require Import base gmap sets list relations.
From Stdlib Require Import Lia.
From S2P Require Import Prelude.

Set Warnings "-clear-no-such-hyp".

(** ** State *)

(** What goes through a write channel; [A] is the type of the users' messages. *)
Inductive bus_message (A : Type) :=
  | killBusMessage
  | interruptBusMessage
  | Message (a : A).
Arguments killBusMessage {A}.
Arguments interruptBusMessage {A}.
Arguments Message {A} a.

(** [make(chan interface{}, 1000)] *)
Definition capacity : nat := 1000.

(** A read channel: its buffer, and, to state properties, what has been received
    from it, how many messages the bus had handled when it was created, and how many
    were dropped because it was full. *)
Record reader (A : Type) := mkReader { buffer : list A; consumed : list A; since : nat; dropped : nat }.
Arguments mkReader {A} buffer consumed since dropped.
Arguments buffer {A} r.
Arguments consumed {A} r.
Arguments since {A} r.
Arguments dropped {A} r.

(** Where the goroutine of [Run] is: at the top of the loop, in [reflect.Select]
    over the first [n] write channels, or returned. *)
Inductive run_state :=
  | AtTop
  | Selecting (n : nat)
  | Killed.

(** [writeChannels] starts with [internalChannel]; [interrupting] counts the calls
    of [GetNewWriteChannel] that have appended their channel and not yet sent their
    interrupt; [handled] is the history of the copied messages with the write
    channel each came from. *)
Record Bus (A : Type) := mkBus {
  readChannels : list (reader A);
  writeChannels : list (list (bus_message A));
  running : run_state;
  interrupting : nat;
  handled : list (nat * A)
}.
Arguments mkBus {A} readChannels writeChannels running interrupting handled.
Arguments readChannels {A} b.
Arguments writeChannels {A} b.
Arguments running {A} b.
Arguments interrupting {A} b.
Arguments handled {A} b.

Lemma sublist_same_length {A} (l k : list A) : sublist l k → length l = length k → l = k.
Proof.
  induction 1 as [|x l k H IH|x l k H IH]; simpl; intros Hlen; [done| |].
  - f_equal. apply IH. lia.
  - pose proof (sublist_length _ _ H). lia.
Qed.

Section bus.
Context {A : Type}.
Implicit Types (b : Bus A) (r : reader A).

Definition NewBus : Bus A := mkBus [] [[]] AtTop 0 [].

Definition set_readChannels v b := mkBus v (writeChannels b) (running b) (interrupting b) (handled b).
Definition set_writeChannels v b := mkBus (readChannels b) v (running b) (interrupting b) (handled b).
Definition set_running v b := mkBus (readChannels b) (writeChannels b) v (interrupting b) (handled b).
Definition set_interrupting v b := mkBus (readChannels b) (writeChannels b) (running b) v (handled b).
Definition set_handled v b := mkBus (readChannels b) (writeChannels b) (running b) (interrupting b) v.

(** [select { case channel <- recv.Interface(): default: }] *)
Definition offer (a : A) r : reader A :=
  if decide (length (buffer r) < capacity)%nat then mkReader (buffer r ++ [a]) (consumed r) (since r) (dropped r)
  else mkReader (buffer r) (consumed r) (since r) (S (dropped r)).

(** The loop body of [Run] after [reflect.Select] chose channel [i]. *)
Definition handle (i : nat) (recv : bus_message A) b : Bus A :=
  match recv with
  | killBusMessage => set_running Killed b
  | interruptBusMessage => set_running AtTop b
  | Message a => set_running AtTop (set_handled (handled b ++ [(i, a)]) (set_readChannels (offer a <$> readChannels b) b))
  end.

(** A send on write channel [i], possible while its buffer has room. *)
Definition push (i : nat) (m : bus_message A) b : Bus A :=
  set_writeChannels (alter (λ q, q ++ [m]) i (writeChannels b)) b.
Definition has_room (i : nat) b : Prop := ∃ q, writeChannels b !! i = Some q ∧ (length q < capacity)%nat.

Definition GetNewReadChannel b : Bus A :=
  set_readChannels (readChannels b ++ [mkReader [] [] (length (handled b)) 0]) b.
(** [GetNewWriteChannel] up to the interrupt, which is a step of its own. *)
Definition GetNewWriteChannel_append b : Bus A :=
  set_interrupting (S (interrupting b)) (set_writeChannels (writeChannels b ++ [[]]) b).

(** ** Steps *)

(** Steps of the goroutine of [Run]. *)
Inductive run_step b : Bus A → Prop :=
  | run_select : running b = AtTop → run_step b (set_running (Selecting (length (writeChannels b))) b)
  | run_receive n i m q : running b = Selecting n → (i < n)%nat → writeChannels b !! i = Some (m :: q) →
      run_step b (handle i m (set_writeChannels (<[i := q]> (writeChannels b)) b)).

Inductive bus_step b : Bus A → Prop :=
  | step_run b' : run_step b b' → bus_step b b'
  | step_new_reader : bus_step b (GetNewReadChannel b)
  | step_new_writer : bus_step b (GetNewWriteChannel_append b)
  | step_interrupt k : interrupting b = S k → has_room 0 b →
      bus_step b (set_interrupting k (push 0 interruptBusMessage b))
  | step_kill : has_room 0 b → bus_step b (push 0 killBusMessage b)
  | step_write i a : (0 < i)%nat → has_room i b → bus_step b (push i (Message a) b)
  | step_read j r a q : readChannels b !! j = Some r → buffer r = a :: q →
      bus_step b (set_readChannels (<[j := mkReader q (consumed r ++ [a]) (since r) (dropped r)]> (readChannels b)) b).

Definition reachable : Bus A → Prop := rtc bus_step NewBus.

(** ** Invariants *)

(** What a reader has got or will get is the history since its creation, except for
    the dropped messages. *)
Record reader_ok (history : list A) r : Prop := {
  reader_capacity : (length (buffer r) ≤ capacity)%nat;
  reader_since : (since r ≤ length history)%nat;
  reader_sublist : sublist (consumed r ++ buffer r) (drop (since r) history);
  reader_count : (length (consumed r ++ buffer r) + dropped r = length history - since r)%nat
}.

Record bus_ok b : Prop := {
  ok_readers j r : readChannels b !! j = Some r → reader_ok (snd <$> handled b) r;
  ok_writers i q : writeChannels b !! i = Some q → (length q ≤ capacity)%nat;
  ok_internal : ∃ q rest, writeChannels b = q :: rest ∧ ∀ a, Message a ∉ q;
  ok_selected n : running b = Selecting n → (0 < n ≤ length (writeChannels b))%nat;
  ok_wakeup n q : running b = Selecting n → (n < length (writeChannels b))%nat → writeChannels b !! 0%nat = Some q →
    (0 < interrupting b)%nat ∨ interruptBusMessage ∈ q
}.

Lemma offer_ok history a r : reader_ok history r → reader_ok (history ++ [a]) (offer a r).
Proof.
  intros [Hcap Hsince Hsub Hcount]. unfold offer. rewrite length_app in *. simpl in *.
  case_decide as Hroom; split; simpl; rewrite ?length_app, ?drop_app_le; simpl; try lia; try done.
  - rewrite app_assoc. by apply sublist_app.
  - etrans; [done|]. by apply sublist_inserts_r.
Qed.

Lemma NewBus_ok : bus_ok NewBus.
Proof.
  split; simpl.
  - done.
  - intros i q Hq. apply list_lookup_singleton_Some in Hq as [_ <-]. simpl. lia.
  - exists [], []. split; [done|]. intros a. apply not_elem_of_nil.
  - done.
  - done.
Qed.

Lemma push_lookup i m b j q' : writeChannels (push i m b) !! j = Some q' →
  ∃ q, writeChannels b !! j = Some q ∧ q' = if decide (i = j) then q ++ [m] else q.
Proof.
  unfold push. simpl. destruct (decide (i = j)) as [->|Hne].
  - rewrite list_lookup_alter_eq. intros (q & ? & ->)%fmap_Some. by exists q.
  - rewrite list_lookup_alter_ne by done. intros Hq. by exists q'.
Qed.

Lemma push_ok i m b : bus_ok b → has_room i b → (i = 0%nat → ∀ a, m ≠ Message a) → bus_ok (push i m b).
Proof.
  intros Hok (q0 & Hq0 & Hroom) Hm. destruct (ok_internal b Hok) as (q & rest & Hw & Hq). split.
  - apply Hok.
  - intros j q' (qj & Hj & ->)%push_lookup. case_decide; [|by eapply ok_writers].
    subst j. rewrite Hq0 in Hj. injection Hj as <-. rewrite length_app. simpl. lia.
  - unfold push. simpl. rewrite Hw. destruct i as [|i]; simpl; [|by exists q, (alter (λ q, q ++ [m]) i rest)].
    exists (q ++ [m]), rest. split; [done|]. intros a [Hin|Heq%list_elem_of_singleton]%elem_of_app; [by eapply Hq|].
    by eapply Hm.
  - intros n Hn. unfold push. simpl. rewrite length_alter. by apply ok_selected.
  - intros n q' Hn Hlt (qj & Hj & ->)%push_lookup. unfold push in Hlt. simpl in Hlt. rewrite length_alter in Hlt.
    destruct (ok_wakeup b Hok n qj Hn Hlt Hj) as [?|?]; [by left|right]. case_decide; set_solver.
Qed.

Lemma handle_ok i m b : bus_ok b → bus_ok (handle i m b).
Proof.
  intros Hok. destruct m as [| |a]; simpl; split; simpl; try done; try apply Hok.
  intros j r. rewrite list_lookup_fmap. intros (r0 & Hr0 & ->)%fmap_Some. rewrite fmap_app. simpl.
  apply offer_ok. by eapply ok_readers.
Qed.

(** Taking a message leaves the invariant but for the wake-up, which [handle] restores
    by returning to the top of the loop. *)
Lemma receive_ok i m q b : bus_ok b → writeChannels b !! i = Some (m :: q) →
  bus_ok (handle i m (set_writeChannels (<[i := q]> (writeChannels b)) b)).
Proof.
  intros Hok Hq.
  assert (bus_ok (set_running AtTop (set_writeChannels (<[i := q]> (writeChannels b)) b))) as Hok'.
  { destruct (ok_internal b Hok) as (q0 & rest & Hw & Hq0). split; simpl; try done; [apply Hok| |].
    - intros j q' [[_ [<- _]]|[_ Hj]]%list_lookup_insert_Some; [|by eapply ok_writers].
      pose proof (ok_writers b Hok i _ Hq) as Hlen. simpl in Hlen. lia.
    - rewrite Hw in *. destruct i as [|i]; simpl; [|by exists q0, (<[i := q]> rest)].
      exists q, rest. split; [done|]. intros a Hin. apply (Hq0 a). simpl in Hq. injection Hq as ->. by right. }
  apply (handle_ok i m) in Hok'. by destruct m.
Qed.

Lemma bus_step_ok b b' : bus_ok b → bus_step b b' → bus_ok b'.
Proof.
  intros Hok Hstep. destruct (ok_internal b Hok) as (q0 & rest & Hw & Hq0).
  destruct Hstep as [b' [Htop|n i m q Hn Hi Hq]| | |k Hk Hroom|Hroom|i a Hi Hroom|j r a q Hr Hbuf].
  - split; simpl; try apply Hok.
    + intros n [= <-]. rewrite Hw. simpl. lia.
    + intros n q [= <-]. lia.
  - by apply receive_ok.
  - split; simpl; try apply Hok. intros j r Hj. apply lookup_app_Some in Hj as [Hj|[_ Hj]]; [by eapply ok_readers|].
    apply list_lookup_singleton_Some in Hj as [_ <-].
    split; simpl; rewrite ?length_fmap; try lia. apply sublist_nil_l.
  - split; simpl; try apply Hok.
    + intros i q Hq. apply lookup_app_Some in Hq as [Hq|[_ Hq]]; [by eapply ok_writers|].
      apply list_lookup_singleton_Some in Hq as [_ <-]. simpl. lia.
    + rewrite Hw. by exists q0, (rest ++ [[]]).
    + intros n Hn. pose proof (ok_selected b Hok n Hn). rewrite length_app. lia.
    + intros n q _ _ _. left. lia.
  - assert (bus_ok (push 0 interruptBusMessage b)) as Hp by by apply push_ok.
    split; simpl; try apply Hp. intros n q Hn Hlt Hq. right.
    change (writeChannels (push 0 interruptBusMessage b) !! 0%nat = Some q) in Hq.
    apply push_lookup in Hq as (q' & _ & ->). simpl. set_solver.
  - by apply push_ok.
  - apply push_ok; [done|done|]. lia.
  - split; simpl; try apply Hok. intros j' r' [[_ [<- _]]|[_ Hj]]%list_lookup_insert_Some; [|by eapply ok_readers].
    destruct (ok_readers b Hok j r Hr) as [Hcap Hsince Hsub Hcount]. rewrite Hbuf in *. simpl in *.
    split; simpl; [lia|done|by rewrite <- app_assoc|by rewrite <- app_assoc].
Qed.

Lemma bus_reachable_ok b : reachable b → bus_ok b.
Proof.
  unfold reachable. generalize NewBus_ok. generalize NewBus. intros b0 Hok Hsteps. revert Hok.
  induction Hsteps as [|b1 b2 b3 Hstep _ IH]; intros Hok; [done|]. apply IH. by eapply bus_step_ok.
Qed.

(** What happens to the reader [r] when a message is copied to it: it is appended, or,
    only when the channel is full, dropped and counted. *)
Definition copied a r r' : Prop :=
  (length (buffer r) < 1000)%nat ∧ r' = mkReader (buffer r ++ [a]) (consumed r) (since r) (dropped r) ∨
  length (buffer r) = 1000%nat ∧ r' = mkReader (buffer r) (consumed r) (since r) (S (dropped r)).

(** The steps seen from one reader: the bus copies no message, and the reader is
    unchanged or its owner receives the oldest message; or it copies one, to it too. *)
Definition reader_step b b' r r' : Prop :=
  handled b' = handled b ∧ (r' = r ∨ ∃ a, buffer r = a :: buffer r' ∧ consumed r' = consumed r ++ [a] ∧
      since r' = since r ∧ dropped r' = dropped r) ∨
  ∃ i a, handled b' = handled b ++ [(i, a)] ∧ copied a r r'.

Lemma offer_copied a r : (length (buffer r) ≤ capacity)%nat → copied a r (offer a r).
Proof. intros Hcap. unfold copied, offer. fold capacity. case_decide; [left; done|right]. split; [lia|done]. Qed.

Lemma bus_step_reader b b' j r : bus_ok b → bus_step b b' → readChannels b !! j = Some r →
  ∃ r', readChannels b' !! j = Some r' ∧ reader_step b b' r r'.
Proof.
  intros Hok Hstep Hr.
  assert (∀ rs, rs !! j = Some r → ∃ r', rs !! j = Some r' ∧ reader_step b (set_readChannels rs b) r r') as Hsame.
  { intros rs Hrs. exists r. split; [done|]. left. split; [done|by left]. }
  destruct Hstep as [b' [Htop|n i m q Hn Hi Hq]| | |k Hk Hroom|Hroom|i a Hi Hroom|j' r0 a q Hr0 Hbuf].
  1, 4, 5, 6, 7 : by apply (Hsame (readChannels b)).
  - destruct m as [| |a]; try by apply (Hsame (readChannels b)).
    exists (offer a r). split; [simpl; by rewrite list_lookup_fmap, Hr|]. right. exists i, a.
    split; [done|]. apply offer_copied, (ok_readers b Hok j r Hr).
  - apply Hsame. by apply lookup_app_l_Some.
  - destruct (decide (j' = j)) as [->|Hne]; [|apply Hsame; by rewrite list_lookup_insert_ne].
    rewrite Hr in Hr0. injection Hr0 as <-. simpl. rewrite list_lookup_insert_eq by by eapply lookup_lt_Some.
    eexists. split; [done|]. left. split; [done|]. right. by exists a.
Qed.
End bus.

(** C30: What a reader has received and finds in its channel are, in order, messages
    the bus has copied since the channel was created, and exactly the counted drops
    are missing: all of them when nothing was dropped. In every step of the bus or of
    its users, each message the bus handles is appended to the channel when it holds
    fewer than its 1000 messages and is dropped only when it is full; no other step
    changes the reader, except that its owner takes the oldest message. *)
Theorem bus_delivers {A} (b : Bus A) j r :
  reachable b → readChannels b !! j = Some r →
  sublist (consumed r ++ buffer r) (drop (since r) (snd <$> handled b)) ∧
  (length (consumed r ++ buffer r) + dropped r = length (handled b) - since r)%nat ∧
  (dropped r = 0%nat → consumed r ++ buffer r = drop (since r) (snd <$> handled b)) ∧
  (length (buffer r) ≤ 1000)%nat ∧
  (∀ b', bus_step b b' → ∃ r', readChannels b' !! j = Some r' ∧ reader_step b b' r r').
Proof.
  intros Hok%bus_reachable_ok Hr. destruct (ok_readers b Hok j r Hr) as [Hcap Hsince Hsub Hcount].
  rewrite length_fmap in Hcount. split_and!; [done|done| |done|intros b' Hstep; by eapply bus_step_reader].
  intros Hd. apply sublist_same_length; [done|]. rewrite length_drop, length_fmap. lia.
Qed.

(** The bus never sleeps while a message waits: as long as it has not been
    killed, a pending message on any write channel, also on one created after the
    current select began, lets it move, unless the call that created a channel has
    not sent its interrupt yet. *)
Theorem bus_wakes_up {A} (b : Bus A) i m q :
  reachable b → running b ≠ Killed → interrupting b = 0%nat → writeChannels b !! i = Some (m :: q) →
  ∃ b', run_step b b'.
Proof.
  intros Hok%bus_reachable_ok Hkill Hint Hi. destruct (running b) as [|n|] eqn:Hrun; [by eexists; apply run_select| |done].
  destruct (decide (i < n)%nat) as [Hlt|Hge]; [eexists; by eapply run_receive|].
  pose proof (ok_selected b Hok n Hrun) as Hn. apply lookup_lt_Some in Hi.
  destruct (ok_internal b Hok) as (q0 & rest & Hw & _).
  assert (writeChannels b !! 0%nat = Some q0) as H0 by by rewrite Hw.
  destruct (ok_wakeup b Hok n q0 Hrun ltac:(lia) H0) as [?|Hin]; [lia|].
  destruct q0 as [|m0 q0]; [by apply not_elem_of_nil in Hin|]. eexists. eapply run_receive; [done| |done]. lia.
Qed.

(** ** One writer, one reader *)

(** Message 7 was sent, copied and is waiting for the reader; the bus is in its next
    select and does not know the second writer, whose message 8 waits. *)
Definition example_bus : Bus Z :=
  mkBus [mkReader [7] [] 0 0] [[interruptBusMessage]; []; [Message 8]] (Selecting 2) 0 [(1%nat, 7)].

Lemma example_bus_reachable : reachable example_bus.
Proof.
  unfold reachable.
  eapply rtc_l; [apply step_new_writer|].
  eapply rtc_l; [eapply step_interrupt; [reflexivity|exists []; split; [reflexivity|unfold capacity; simpl; lia]]|].
  eapply rtc_l; [apply step_new_reader|].
  eapply rtc_l; [apply step_run, run_select; reflexivity|].
  eapply rtc_l; [eapply step_run, (run_receive _ _ 0); [reflexivity| |reflexivity]; simpl; lia|].
  eapply rtc_l; [apply (step_write _ 1 7); [lia|exists []; split; [reflexivity|unfold capacity; simpl; lia]]|].
  eapply rtc_l; [apply step_run, run_select; reflexivity|].
  eapply rtc_l; [eapply step_run, (run_receive _ _ 1); [reflexivity| |reflexivity]; simpl; lia|].
  eapply rtc_l; [apply step_run, run_select; reflexivity|].
  eapply rtc_l; [apply step_new_writer|].
  eapply rtc_l; [apply (step_write _ 2 8); [lia|exists []; split; [reflexivity|unfold capacity; simpl; lia]]|].
  eapply rtc_l; [eapply step_interrupt; [reflexivity|exists []; split; [reflexivity|unfold capacity; simpl; lia]]|].
  match goal with |- rtc _ ?b _ => replace b with example_bus; [apply rtc_refl|] end.
  vm_compute. reflexivity.
Defined.

Lemma bus_delivers_witness : sublist [7] (drop 0 [7]) ∧ (1 + 0 = 1 - 0)%nat ∧ (0%nat = 0%nat → [7] = drop 0 [7]) ∧
  (1 ≤ 1000)%nat ∧
  (∀ b', bus_step example_bus b' → ∃ r', readChannels b' !! 0%nat = Some r' ∧ reader_step example_bus b' (mkReader [7] [] 0 0) r').
Proof. apply (bus_delivers example_bus 0 (mkReader [7] [] 0 0) example_bus_reachable). reflexivity. Defined.

Lemma bus_wakes_up_witness : ∃ b', run_step example_bus b'.
Proof. apply (bus_wakes_up example_bus 2 (Message 8) [] example_bus_reachable); [discriminate|reflexivity..]. Defined.
