(* ===== verification/ProblemManager.v ===== *)
(** * The problem manager

    [master/problem_manager.go]: turning the status messages of the bus into rows
    of the table [problems], one per subject, that come and go with the status. *)

From Stdlib Require Import Ascii.
From stdpp Require Import base gmap sets list strings fin_maps.
From Stdlib Require Import Lia.
From S2P Require Import Prelude Msp Model Database Orm Store Session.

Open Scope Z_scope.
Set Warnings "-clear-no-such-hyp".

(** ** gorm's upsert *)

(** [tx.Where(conditions).Assign(values).Attrs(attrs).FirstOrCreate(&p)]: the first
    row that satisfies the conditions gets the values; without one, a row with the
    conditions, the attributes and the values is created. *)
Class GormUpsert := {
  gorm_first_or_create {R} `{Table R} : nat → db → (R → bool) → R → (R → R) → (R → R) → db * option gerror;
  gorm_first_or_create_law {R} `{Table R} n d (where_ : R → bool) (conditions : R) (assign attrs : R → R) :
    match gorm_first_or_create n d where_ conditions assign attrs with
    | (d', None) =>
        (∃ id r, table d !! id = Some r ∧ where_ r = true ∧
           (∀ id' r', table d !! id' = Some r' → where_ r' = true → id ≤ id') ∧
           d' = set_table (<[id := assign r]> (table d)) d) ∨
        ((∀ id r, table d !! id = Some r → where_ r = false) ∧
           ∃ id, 0 < id ∧ table d !! id = None ∧
             d' = set_table (<[id := set_row_id id (assign (attrs conditions))]> (table d)) d)
    | (d', Some _) => d' = d
    end
}.

Section manager.
Context `{ENG : Engine} `{UPSERT : GormUpsert}.

(** ** Subjects *)

(** The conditions of the [Where] calls. *)
Definition about_slave (t : ProblemType) (sid : Z) (p : Problem) : bool :=
  bool_decide (Problem_ProblemType p = t) && bool_decide (Problem_SlaveID p = NullIntValue sid).
Definition about_replica_set (t : ProblemType) (rid : Z) (p : Problem) : bool :=
  bool_decide (Problem_ProblemType p = t) && bool_decide (Problem_ReplicaSetID p = NullIntValue rid).

Definition slave_problem (t : ProblemType) (sid : Z) : Problem :=
  mkProblem 0 EmptyString EmptyString t 0 0 (NullIntValue sid) None None.
Definition replica_set_problem (t : ProblemType) (rid : Z) : Problem :=
  mkProblem 0 EmptyString EmptyString t 0 0 None (NullIntValue rid) None.

(** [Assign] with a struct sets its fields that are not zero. *)
Definition assign_text (description longDescription : string) (now : Z) (p : Problem) : Problem :=
  mkProblem (Problem_ID p) (if decide (description = EmptyString) then Problem_Description p else description)
    (if decide (longDescription = EmptyString) then Problem_LongDescription p else longDescription)
    (Problem_ProblemType p) (Problem_FirstOccurred p) now (Problem_SlaveID p) (Problem_ReplicaSetID p) (Problem_MongodID p).
Definition attrs_first (now : Z) (p : Problem) : Problem :=
  mkProblem (Problem_ID p) (Problem_Description p) (Problem_LongDescription p) (Problem_ProblemType p) now
    (Problem_LastUpdated p) (Problem_SlaveID p) (Problem_ReplicaSetID p) (Problem_MongodID p).

(** The two calls; their errors are not looked at. *)
Definition first_or_create (where_ : Problem → bool) (conditions : Problem) (description longDescription : string) (now : Z)
    : GoM conn unit := λ c,
  let '(d', _) := gorm_first_or_create (cstmts c) (cdb c) where_ conditions (assign_text description longDescription now)
                    (attrs_first now) in
  (with_db d' c, Returned tt).
Definition delete_where (where_ : Problem → bool) : GoM conn unit :=
  _ ← sql_exec (λ d, set_problems (filter (λ kv : Z * Problem, where_ kv.2 = false) (problems d)) d);
  mret tt.

(** ** The messages *)

Definition counts_text (a b : Z) : string := fmt_d a +:+ "/" +:+ fmt_d b.
Definition newline : string := String (ascii_of_nat 10) EmptyString.

Definition connection_description (s : ConnectionStatus) : string :=
  "Slave `" +:+ Slave_Hostname (Connection_Slave s) +:+ "` is unreachable - " +:+
    msp.Description (Connection_CommunicationError s).
Definition desired_description (s : DesiredReplicaSetConstraintStatus) : string :=
  "Replica Set `" +:+ ReplicaSet_Name (Desired_ReplicaSet s) +:+ "` with unsatisfiable constraints".
Definition desired_long_description (s : DesiredReplicaSetConstraintStatus) : string :=
  "Not enough free ports on suitable Slaves are available." +:+ newline +:+
  "This Replica Set's member counts are less than desired (" +:+
  counts_text (Desired_ConfiguredPersistentCount s) (ReplicaSet_PersistentMemberCount (Desired_ReplicaSet s)) +:+ " persistent, " +:+
  counts_text (Desired_ConfiguredVolatileCount s) (ReplicaSet_VolatileMemberCount (Desired_ReplicaSet s)) +:+ " volatile).".
Definition observed_description (s : ObservedReplicaSetConstraintStatus) : string :=
  "Replica Set `" +:+ ReplicaSet_Name (Observed_ReplicaSet s) +:+ "` is degraded".
Definition observed_long_description (s : ObservedReplicaSetConstraintStatus) : string :=
  "One or more Mongods in this Replica Set are not running (" +:+
  counts_text (Observed_ActualPersistentCount s) (Observed_ConfiguredPersistentCount s) +:+ " persistent, " +:+
  counts_text (Observed_ActualVolatileCount s) (Observed_ConfiguredVolatileCount s) +:+ " volatile).".

(** The [switch message.(type)] of [Run]. *)
Definition handle_status (now : Z) (message : StatusMessage) : GoM conn unit :=
  match message with
  | MsgConnection connStatus =>
      let sid := Slave_ID (Connection_Slave connStatus) in
      if Connection_Unreachable connStatus &&
         bool_decide (Slave_ConfiguredState (Connection_Slave connStatus) = SlaveStateActive)
      then first_or_create (about_slave ProblemTypeConnection sid) (slave_problem ProblemTypeConnection sid)
             (connection_description connStatus) (msp.LongDescription (Connection_CommunicationError connStatus)) now
      else delete_where (about_slave ProblemTypeConnection sid)
  | MsgDesiredConstraint constrStatus =>
      let rid := ReplicaSet_ID (Desired_ReplicaSet constrStatus) in
      let t := ProblemTypeDesiredReplicaSetConstraint in
      if Desired_Unsatisfied constrStatus
      then first_or_create (about_replica_set t rid) (replica_set_problem t rid)
             (desired_description constrStatus) (desired_long_description constrStatus) now
      else delete_where (about_replica_set t rid)
  | MsgObservedConstraint constrStatus =>
      let rid := ReplicaSet_ID (Observed_ReplicaSet constrStatus) in
      let t := ProblemTypeObservedReplicaSetConstraint in
      if Observed_Unsatisfied constrStatus
      then first_or_create (about_replica_set t rid) (replica_set_problem t rid)
             (observed_description constrStatus) (observed_long_description constrStatus) now
      else delete_where (about_replica_set t rid)
  | MsgMatch _ | MsgInitiation _ => mret tt
  end.

(** One iteration of [Run]. *)
Definition handle_message (now : Z) (message : StatusMessage) : GoM session unit :=
  _ ← Begin;
  _ ← in_tx (handle_status now message);
  _ ← Commit; mret tt.
End manager.

(** ** At most one problem per subject *)

(** Two problems of one type about one slave, or one replica set. *)
Definition same_subject (p q : Problem) : Prop :=
  Problem_ProblemType p = Problem_ProblemType q ∧
  ((∃ sid, Problem_SlaveID p = Some sid ∧ Problem_SlaveID q = Some sid) ∨
   (∃ rid, Problem_ReplicaSetID p = Some rid ∧ Problem_ReplicaSetID q = Some rid)).

Definition problems_unique (d : db) : Prop := ∀ id1 id2 p1 p2,
  problems d !! id1 = Some p1 → problems d !! id2 = Some p2 → same_subject p1 p2 → id1 = id2.

(** The subject a message speaks about, whether it reports trouble, and how it
    describes it. *)
Definition subject (message : StatusMessage) : option (Problem → bool) :=
  match message with
  | MsgConnection s => Some (about_slave ProblemTypeConnection (Slave_ID (Connection_Slave s)))
  | MsgDesiredConstraint s =>
      Some (about_replica_set ProblemTypeDesiredReplicaSetConstraint (ReplicaSet_ID (Desired_ReplicaSet s)))
  | MsgObservedConstraint s =>
      Some (about_replica_set ProblemTypeObservedReplicaSetConstraint (ReplicaSet_ID (Observed_ReplicaSet s)))
  | MsgMatch _ | MsgInitiation _ => None
  end.
Definition trouble (message : StatusMessage) : Prop :=
  match message with
  | MsgConnection s => Connection_Unreachable s = true ∧ Slave_ConfiguredState (Connection_Slave s) = SlaveStateActive
  | MsgDesiredConstraint s => Desired_Unsatisfied s = true
  | MsgObservedConstraint s => Observed_Unsatisfied s = true
  | MsgMatch _ | MsgInitiation _ => False
  end.
Definition described (message : StatusMessage) : string :=
  match message with
  | MsgConnection s => connection_description s
  | MsgDesiredConstraint s => desired_description s
  | MsgObservedConstraint s => observed_description s
  | MsgMatch _ | MsgInitiation _ => EmptyString
  end.

(** What a message does to the problems of the subject [w]. *)
Record tracked (now : Z) (w : Problem → bool) (bad : Prop) (text : string) (d d' : db) : Prop := {
  tracked_raised : bad → ∃ id p, problems d' !! id = Some p ∧ w p = true ∧ Problem_Description p = text ∧
    Problem_LastUpdated p = now ∧
    Problem_FirstOccurred p = match problems d !! id with Some p0 => Problem_FirstOccurred p0 | None => now end ∧
    (∀ p0, problems d !! id = Some p0 → w p0 = true);
  tracked_resolved : ¬ bad → ∀ id p, problems d' !! id = Some p → w p = false;
  tracked_others id p : w p = false → problems d' !! id = Some p ↔ problems d !! id = Some p;
  tracked_unique : problems_unique d'
}.

Record upsert_reliable (ENG : Engine) (UPSERT : GormUpsert) : Prop := {
  upsert_eng n : eng_fault n = None;
  upsert_ok {R} `{Table R} n d (w : R → bool) r f g : (gorm_first_or_create n d w r f g).2 = None
}.

(** The conditions of a subject: the row they create, and only a row of the subject
    shares it; the text of a row does not matter. *)
Record is_subject (w : Problem → bool) (conditions : Problem) : Prop := {
  subject_conditions : w conditions = true;
  subject_only q : same_subject conditions q → w q = true;
  subject_text p q : Problem_ProblemType p = Problem_ProblemType q → Problem_SlaveID p = Problem_SlaveID q →
    Problem_ReplicaSetID p = Problem_ReplicaSetID q → w p = w q
}.

Lemma about_slave_subject t sid : is_subject (about_slave t sid) (slave_problem t sid).
Proof.
  split.
  - unfold about_slave. simpl. by rewrite !bool_decide_true.
  - intros q [Ht [(s & Hs & Hq)|(r & Hr & _)]]; simpl in *; [|done]. unfold about_slave.
    rewrite <- Ht, Hq, <- Hs. by rewrite !bool_decide_true.
  - intros p q Ht Hs _. unfold about_slave. by rewrite Ht, Hs.
Qed.

Lemma about_replica_set_subject t rid : is_subject (about_replica_set t rid) (replica_set_problem t rid).
Proof.
  split.
  - unfold about_replica_set. simpl. by rewrite !bool_decide_true.
  - intros q [Ht [(s & Hs & _)|(r & Hr & Hq)]]; simpl in *; [done|]. unfold about_replica_set.
    rewrite <- Ht, Hq, <- Hr. by rewrite !bool_decide_true.
  - intros p q Ht _ Hr. unfold about_replica_set. by rewrite Ht, Hr.
Qed.

Lemma same_subject_sym p q : same_subject p q → same_subject q p.
Proof. intros [Ht [(x & ? & ?)|(x & ? & ?)]]; split; [done|left|done|right]; by exists x. Qed.

Lemma insert_unique d id new : problems_unique d →
  (∀ id' q, problems d !! id' = Some q → same_subject new q → id' = id) →
  problems_unique (set_problems (<[id := new]> (problems d)) d).
Proof.
  intros Huniq Hnew id1 id2 p1 p2. simpl.
  intros [[<- <-]|[_ H1]]%lookup_insert_Some [[<- <-]|[_ H2]]%lookup_insert_Some Hs.
  - done.
  - symmetry. by eapply Hnew.
  - by eapply Hnew; [|apply same_subject_sym].
  - by apply (Huniq _ _ p1 p2).
Qed.

(** The row [FirstOrCreate] writes, from [d] to [d']. *)
Inductive upserted (w : Problem → bool) (conditions : Problem) (assign attrs : Problem → Problem) (d : db) : Z → Problem → Prop :=
  | upserted_old id r : problems d !! id = Some r → w r = true → upserted w conditions assign attrs d id (assign r)
  | upserted_new id : (∀ id' r, problems d !! id' = Some r → w r = false) → problems d !! id = None →
      upserted w conditions assign attrs d id (Problem_set_ID id (assign (attrs conditions))).

Lemma upsert_law `{UPSERT : GormUpsert} n d w conditions assign attrs :
  match gorm_first_or_create (R := Problem) n d w conditions assign attrs with
  | (d', None) => ∃ id new, upserted w conditions assign attrs d id new ∧ d' = set_problems (<[id := new]> (problems d)) d
  | (d', Some _) => d' = d
  end.
Proof.
  pose proof (gorm_first_or_create_law (R := Problem) n d w conditions assign attrs) as Hlaw.
  destruct (gorm_first_or_create _ _ _ _ _ _) as [d' [e|]]; [done|].
  destruct Hlaw as [(id & r & Hr & Hw & _ & ->)|(Hnone & id & _ & Hfresh & ->)].
  - exists id, (assign r). split; [by apply upserted_old|done].
  - exists id, (Problem_set_ID id (assign (attrs conditions))). split; [by apply upserted_new|done].
Qed.

Lemma upserted_unique w conditions text long now d id new : is_subject w conditions → problems_unique d →
  upserted w conditions (assign_text text long now) (attrs_first now) d id new →
  problems_unique (set_problems (<[id := new]> (problems d)) d).
Proof.
  intros [_ Honly _] Huniq Hup. apply insert_unique; [done|]. intros id' q Hq Hs. destruct Hup as [id r Hr _|id Hnone _].
  - by eapply Huniq; [exact Hq|exact Hr|apply same_subject_sym].
  - specialize (Hnone _ _ Hq). by rewrite (Honly q Hs) in Hnone.
Qed.

Section tracking.
Context (ENG : Engine) (UPSERT : GormUpsert) (Hrel : upsert_reliable ENG UPSERT).

(** The result of an upsert and of a deletion keeps the rest of the connection. *)
Definition only_problems (c c' : conn) : Prop := cdb c' = set_problems (problems (cdb c')) (cdb c) ∧ cbus c' = cbus c.

Lemma first_or_create_spec w conditions text long now (bad : Prop) c (Q : unit → conn → Prop) E :
  is_subject w conditions → text ≠ EmptyString → bad → problems_unique (cdb c) →
  (∀ c', only_problems c c' → tracked now w bad text (cdb c) (cdb c') → Q tt c') →
  wp (first_or_create w conditions text long now) Q E c.
Proof.
  intros Hsubj Hne Hbad Huniq HQ. pose proof Hsubj as [Hcond _ Htext]. unfold wp, first_or_create.
  pose proof (upsert_law (cstmts c) (cdb c) w conditions (assign_text text long now) (attrs_first now)) as Hlaw.
  pose proof (upsert_ok _ _ Hrel (cstmts c) (cdb c) w conditions (assign_text text long now) (attrs_first now)) as Hno.
  destruct (gorm_first_or_create _ _ _ _ _ _) as [d' [e|]]; [done|]. destruct Hlaw as (id & new & Hup & ->).
  pose proof (upserted_unique _ _ _ _ _ _ _ _ Hsubj Huniq Hup) as Hunew.
  assert (w new = true) as Hnew by (destruct Hup as [? r _ Hw|]; [rewrite <- Hw|rewrite <- Hcond]; by apply Htext).
  apply HQ; [done|]. split; simpl; [|by intros ?| |exact Hunew].
  - intros _. exists id, new. rewrite lookup_insert_eq.
    destruct Hup as [id r Hr Hw|id _ Hfresh]; rewrite ?Hr, ?Hfresh; simpl; rewrite decide_False by done; (split_and!; try done).
    by intros p0 [= <-].
  - intros id' p Hp. rewrite lookup_insert_Some. split; [|intros Hid'; right; split; [|done]].
    + intros [[<- <-]|[_ ?]]; [|done]. congruence.
    + intros <-. destruct Hup as [id r Hr Hw|id _ Hfresh]; congruence.
Qed.

Lemma delete_where_spec w now (bad : Prop) text c (Q : unit → conn → Prop) E :
  ¬ bad → problems_unique (cdb c) →
  (∀ c', only_problems c c' → tracked now w bad text (cdb c) (cdb c') → Q tt c') →
  wp (delete_where w) Q E c.
Proof.
  intros Hbad Huniq HQ. unfold delete_where. wp_step. unfold wp at 1, sql_exec. rewrite (upsert_eng _ _ Hrel).
  apply wp_ret, HQ; [done|]. split; simpl; [done| | |].
  - by intros _ id p [_ Hw]%map_lookup_filter_Some.
  - intros id p Hw. rewrite map_lookup_filter_Some. simpl. tauto.
  - intros id1 id2 p1 p2. simpl. intros [H1 _]%map_lookup_filter_Some [H2 _]%map_lookup_filter_Some. by apply Huniq.
Qed.
End tracking.

(** *** Whatever fails *)

(** From [d] to [d'] only problems about the subject of the message come, go or change. *)
Definition about_subject (message : StatusMessage) (d d' : db) : Prop :=
  d' = set_problems (problems d') d ∧
  ∀ id p, (∀ w, subject message = Some w → w p = false) → problems d' !! id = Some p ↔ problems d !! id = Some p.

Section any_manager.
Context `{ENG : Engine} `{UPSERT : GormUpsert}.

Lemma about_subject_refl message d : about_subject message d d.
Proof. split; [by destruct d|done]. Qed.

Lemma first_or_create_any message w conditions text long now c (Q : unit → conn → Prop) E :
  subject message = Some w → is_subject w conditions →
  (∀ c', about_subject message (cdb c) (cdb c') → Q tt c') → wp (first_or_create w conditions text long now) Q E c.
Proof.
  intros Hsub [Hcond _ Htext] HQ. unfold wp, first_or_create.
  pose proof (upsert_law (cstmts c) (cdb c) w conditions (assign_text text long now) (attrs_first now)) as Hlaw.
  destruct (gorm_first_or_create _ _ _ _ _ _) as [d' [e|]]; [subst; apply HQ, about_subject_refl|].
  destruct Hlaw as (id & new & Hup & ->). apply HQ. split; [done|]. intros id' p Hp. specialize (Hp w Hsub). simpl.
  assert (w new = true) as Hnew by (destruct Hup as [? r _ Hw|]; [rewrite <- Hw|rewrite <- Hcond]; by apply Htext).
  rewrite lookup_insert_Some. split; [intros [[<- <-]|[_ ?]]; [congruence|done]|intros Hin; right; split; [|done]].
  intros <-. destruct Hup as [id r Hr Hw|id _ Hfresh]; congruence.
Qed.

Lemma delete_where_any message w c (Q : unit → conn → Prop) E :
  subject message = Some w → (∀ c', about_subject message (cdb c) (cdb c') → Q tt c') → wp (delete_where w) Q E c.
Proof.
  intros Hsub HQ. unfold delete_where. wp_step. unfold wp at 1, sql_exec.
  destruct (eng_fault _); apply wp_ret, HQ; [apply about_subject_refl|]. split; [done|]. intros id p Hp. simpl.
  rewrite map_lookup_filter_Some. simpl. specialize (Hp w Hsub). tauto.
Qed.

Lemma handle_status_any now message c (Q : unit → conn → Prop) E :
  (∀ c', about_subject message (cdb c) (cdb c') → Q tt c') → wp (handle_status now message) Q E c.
Proof.
  intros HQ. destruct message as [s|s|s|s|s]; cbn [handle_status]; try by apply wp_ret, HQ, about_subject_refl.
  - case_match; [by eapply (first_or_create_any (MsgConnection s)); [|apply about_slave_subject|]|by eapply (delete_where_any (MsgConnection s))].
  - case_match; [by eapply (first_or_create_any (MsgDesiredConstraint s)); [|apply about_replica_set_subject|]|by eapply (delete_where_any (MsgDesiredConstraint s))].
  - case_match; [by eapply (first_or_create_any (MsgObservedConstraint s)); [|apply about_replica_set_subject|]|by eapply (delete_where_any (MsgObservedConstraint s))].
Qed.
End any_manager.

(** A status message keeps the table of problems in step with its subject: when
    it reports trouble there is a problem about the subject, with the current
    description and update time and the time of its first occurrence kept; when it
    does not, there is none. The problems of other subjects stay as they are, and
    there is never more than one problem per subject. Other messages change nothing. *)
Theorem problems_track_status (ENG : Engine) (UPSERT : GormUpsert) now message c :
  upsert_reliable ENG UPSERT → problems_unique (cdb c) →
  ∃ c', handle_status now message c = (c', Returned tt) ∧ only_problems c c' ∧
  match subject message with
  | Some w => tracked now w (trouble message) (described message) (cdb c) (cdb c')
  | None => c' = c
  end.
Proof.
  intros Hrel Huniq.
  enough (wp (handle_status now message) (λ _ c', only_problems c c' ∧
    match subject message with
    | Some w => tracked now w (trouble message) (described message) (cdb c) (cdb c')
    | None => c' = c
    end) (λ _ _, False) c) as Hwp.
  { apply wp_returns in Hwp as ([] & c' & Hrun & ? & ?). by exists c'. }
  assert (∀ c1 w, only_problems c c1 → tracked now w (trouble message) (described message) (cdb c) (cdb c1) →
    only_problems c c1 ∧ tracked now w (trouble message) (described message) (cdb c) (cdb c1)) as Hdone by done.
  assert (only_problems c c) as Hsame by by destruct c as [[] ? ?].
  destruct message as [s|s|s|s|s]; cbn [handle_status subject] in *; try by apply wp_ret.
  - destruct (Connection_Unreachable s) eqn:Hu; cbn [andb]; [case_bool_decide|].
    + by eapply (first_or_create_spec ENG UPSERT Hrel _ _ _ _ _ (trouble (MsgConnection s)));
        [apply about_slave_subject| | |done|intros; apply Hdone].
    + eapply (delete_where_spec ENG UPSERT Hrel _ _ (trouble (MsgConnection s))); [by intros [_ ?]|done|intros; by apply Hdone].
    + eapply (delete_where_spec ENG UPSERT Hrel _ _ (trouble (MsgConnection s)));
        [intros [? _]; congruence|done|intros; by apply Hdone].
  - destruct (Desired_Unsatisfied s) eqn:Hu.
    + by eapply (first_or_create_spec ENG UPSERT Hrel _ _ _ _ _ (trouble (MsgDesiredConstraint s)));
        [apply about_replica_set_subject| | |done|intros; apply Hdone].
    + eapply (delete_where_spec ENG UPSERT Hrel _ _ (trouble (MsgDesiredConstraint s)));
        [simpl; congruence|done|intros; by apply Hdone].
  - destruct (Observed_Unsatisfied s) eqn:Hu.
    + by eapply (first_or_create_spec ENG UPSERT Hrel _ _ _ _ _ (trouble (MsgObservedConstraint s)));
        [apply about_replica_set_subject| | |done|intros; apply Hdone].
    + eapply (delete_where_spec ENG UPSERT Hrel _ _ (trouble (MsgObservedConstraint s)));
        [simpl; congruence|done|intros; by apply Hdone].
Qed.

(** ** A concrete mapper, and a slave that comes and goes *)

Definition ref_upsert : GormUpsert.
Proof.
  refine {|
    gorm_first_or_create R H n d w r f g :=
      match first_key (filter (λ kv : Z * R, w kv.2 = true) (table d)) with
      | Some id => (set_table (alter f id (table d)) d, None)
      | None => (set_table (<[next_id (table d) := set_row_id (next_id (table d)) (f (g r))]> (table d)) d, None)
      end
  |}.
  intros R H n d w r f g. pose proof (first_key_spec (filter (λ kv : Z * R, w kv.2 = true) (table d))) as Hs.
  destruct (first_key _) as [id|].
  - destruct Hs as [[x Hx] Hmin]. apply map_lookup_filter_Some in Hx as [Hx Hw]. left. exists id, x.
    split_and!; [done|done| |].
    + intros id' r' Hr' Hw'. apply Hmin. exists r'. by apply map_lookup_filter_Some.
    + f_equal. rewrite <- (insert_id (table d) id x Hx) at 1. by rewrite alter_insert_eq.
  - right. split.
    + intros id x Hx. destruct (w x) eqn:Hw; [|done].
      assert (filter (λ kv : Z * R, w kv.2 = true) (table d) !! id = Some x) as Hin by by apply map_lookup_filter_Some.
      by rewrite Hs, lookup_empty in Hin.
    + exists (next_id (table d)). split_and!; [apply next_id_pos|apply next_id_fresh|done].
Defined.

Lemma ref_upsert_reliable : upsert_reliable ref_engine ref_upsert.
Proof. split; [done|]. intros R H n d w r f g. simpl. by destruct (first_key _). Qed.

Definition example_slave_down (unreachable : bool) : StatusMessage :=
  MsgConnection (mkConnectionStatus unreachable (mkSlave 3 "host3" 8081 18080 18090 true SlaveStateActive None None)
    (msp.mkError msp.CommunicationError "Error communicating with slave." "timeout")).

(** Unreachable at 100 and at 200: one problem, first seen at 100; reachable again: none. *)
Example problem_comes_and_goes :
  let run now b c := (@handle_status ref_engine ref_upsert now (example_slave_down b) c).1 in
  let c2 := run 200 true (run 100 true (mkConn empty_db 0 [])) in
  ((λ p, (Problem_FirstOccurred p, Problem_LastUpdated p, Problem_SlaveID p)) <$> (map_to_list (problems (cdb c2))).*2,
   map_to_list (problems (cdb (run 300 false c2)))) = ([(100, 200, Some 3)], []).
Proof. vm_compute. reflexivity. Qed.
