(* ===== verification/Api.v ===== *)
(** * The HTTP API: its data and the conversions

    The structs of [master/masterapi] that are sent as JSON, their conversions from
    and to the rows of the database ([model_projections*.go]), and the checks of
    [changeToSlaveAllowed] and [changeToReplicaSetAllowed].  A Go [uint] is a [Z]
    between 0 and [2^64]. *)

From stdpp Require Import base gmap sets list strings fin_maps.
From Stdlib Require Import Lia.
From S2P Require Import Prelude Msp Model Database Orm.

Open Scope Z_scope.
Set Warnings "-clear-no-such-hyp".

Module masterapi.

(** ** Data *)

Record Slave := mkSlave {
  ID : Z;
  Hostname : string;
  Port : Z;
  MongodPortRangeBegin : Z;
  MongodPortRangeEnd : Z;
  Slave_PersistentStorage : bool;
  ConfiguredState : string;
  ConfiguredStateTransitioning : bool;
  RiskGroupID : option Z
}.

Record ReplicaSet := mkReplicaSet {
  ReplicaSet_ID : Z;
  Name : string;
  PersistentNodeCount : Z;
  VolatileNodeCount : Z;
  ReplicaSet_ShardingRole : string
}.

Record RiskGroup := mkRiskGroup { RiskGroup_ID : Z; RiskGroup_Name : string }.

Record Problem := mkProblem {
  Problem_ID : Z;
  Description : string;
  LongDescription : string;
  FirstOccurred : Z;
  LastUpdated : Z;
  SlaveId : option Z;
  ReplicaSetId : option Z
}.

Record Mongod := mkMongod {
  Mongod_ID : Z;
  Mongod_Port : Z;
  ReplicaSetID : Z;
  ParentSlaveID : Z;
  ObservedExecutionState : string
}.

Record MongodKeyfile := mkMongodKeyfile { Content : string }.
Record MongodbCredential := mkMongodbCredential { Username : string; Password : string }.

#[export] Instance Slave_eq_dec : EqDecision Slave.
Proof. solve_decision. Defined.

Definition ShardingRoleNone : string := "none".
Definition ShardingRoleShardServer : string := "shardsvr".
Definition ShardingRoleConfigServer : string := "configsvr".

(** ** Validation helpers *)

Definition assertNoZeroFieldsSet (s : Slave) : option gerror := None.

Definition concatErrors (err1 err2 : gerror) : gerror :=
  TextError (error_text err1 +:+ ": " +:+ error_text err2).

Definition assertIsPortNumber (u : Z) : option gerror :=
  if decide (u < PortNumberMin ∨ u > PortNumberMax)
  then Some (TextError ("a port number must be in [" +:+ fmt_d PortNumberMin +:+ ", " +:+ fmt_d PortNumberMax +:+ "]"))
  else None.

(** ** Slaves *)

Definition SlaveJSONRepresentationToStruct (s : string) : gres SlaveState :=
  if decide (s = "active") then Ok SlaveStateActive
  else if decide (s = "disabled") then Ok SlaveStateDisabled
  else if decide (s = "maintenance") then Ok SlaveStateMaintenance
  else Err (TextError ("cannot convert JSON slave state representation '" +:+ s +:+ "' to internal value")).

Definition SlaveStateToJSONRepresentation (s : SlaveState) : string :=
  if decide (s = SlaveStateActive) then "active"
  else if decide (s = SlaveStateDisabled) then "disabled"
  else if decide (s = SlaveStateMaintenance) then "maintenance"
  else "undefined".

(** The loop over the three ports returns at the first error. *)
Fixpoint check_ports (genericErr : gerror) (ports : list Z) : option gerror :=
  match ports with
  | [] => None
  | i :: ports =>
      match assertIsPortNumber i with
      | Some err => Some (concatErrors genericErr err)
      | None => check_ports genericErr ports
      end
  end.

Definition ProjectSlaveToModelSlave (s : Slave) : gres Model.Slave :=
  let genericErr := TextError "Could not map slave representation to internal representation" in
  match check_ports genericErr [Port s; MongodPortRangeBegin s; MongodPortRangeEnd s] with
  | Some err => Err err
  | None =>
      if decide (Hostname s = EmptyString)
      then Err (concatErrors genericErr (TextError "Slaves hostname may not be empty"))
      else if decide (MongodPortRangeBegin s > MongodPortRangeEnd s)
      then Err (concatErrors genericErr (TextError "Port range end may not be smaller than port range begin"))
      else
        match SlaveJSONRepresentationToStruct (ConfiguredState s) with
        | Err stateErr => Err (concatErrors genericErr stateErr)
        | Ok state =>
            Ok (Model.mkSlave (ID s) (Hostname s) (port_wrap (Port s)) (port_wrap (MongodPortRangeBegin s))
                  (port_wrap (MongodPortRangeEnd s)) (Slave_PersistentStorage s) state
                  (PtrToNullInt (RiskGroupID s)) None)
        end
  end.

Section slave_queries.
Context `{ENG : Engine}.

(** [SELECT COUNT( * ) FROM mongods m WHERE m.parent_slave_id = ?] for a disabled slave *)
Definition SlaveConfiguredStateTransitioning (s : Model.Slave) : GoM conn (gres bool) :=
  if decide (Slave_ConfiguredState s = SlaveStateDisabled) then
    res ← sql_query (λ _ d, Z.of_nat (size (members_where d (hosted_on (Slave_ID s)))));
    match res with
    | Err err => mret (Err err)
    | Ok count => mret (Ok (negb (bool_decide (count = 0))))
    end
  else mret (Ok false).

Definition ProjectModelSlaveToSlave (m : Model.Slave) : GoM conn (gres Slave) :=
  res ← SlaveConfiguredStateTransitioning m;
  match res with
  | Err err => mret (Err err)
  | Ok configuredStateTransitioning =>
      mret (Ok (mkSlave (Slave_ID m) (Slave_Hostname m) (Slave_Port m) (Slave_MongodPortRangeBegin m)
        (Slave_MongodPortRangeEnd m) (Model.Slave_PersistentStorage m)
        (SlaveStateToJSONRepresentation (Slave_ConfiguredState m)) configuredStateTransitioning
        (NullIntToPtr (Slave_RiskGroupID m))))
  end.

(** [tx.Model(&s).Related(&s.Mongods, "Mongods")] *)
Definition RelatedMongods (s : Model.Slave) : GoM conn (gres (list Model.Mongod)) :=
  sql_query (λ n d, select n (hosted_on (Slave_ID s)) (mongods d)).

(** [func changeToSlaveAllowed(tx, currentSlave, updatedSlave) (permissionError, dbError error)] *)
Definition changeToSlaveAllowed (currentSlave updatedSlave : Model.Slave) : GoM conn (option gerror * option gerror) :=
  if bool_decide (Slave_ID currentSlave = Slave_ID updatedSlave) &&
     bool_decide (Slave_Hostname currentSlave = Slave_Hostname updatedSlave) &&
     bool_decide (Slave_Port currentSlave = Slave_Port updatedSlave) &&
     bool_decide (Slave_MongodPortRangeBegin currentSlave = Slave_MongodPortRangeBegin updatedSlave) &&
     bool_decide (Slave_MongodPortRangeEnd currentSlave = Slave_MongodPortRangeEnd updatedSlave) &&
     bool_decide (Model.Slave_PersistentStorage currentSlave = Model.Slave_PersistentStorage updatedSlave) &&
     bool_decide (Slave_RiskGroupID currentSlave = Slave_RiskGroupID updatedSlave)
  then mret (None, None)
  else if bool_decide (Slave_ConfiguredState currentSlave ≠ SlaveStateDisabled) &&
          bool_decide (Slave_ConfiguredState currentSlave ≠ SlaveStateMaintenance)
  then mret (Some (TextError "slave's desired state must be `maintenance` or `disabled`"), None)
  else
    res ← RelatedMongods currentSlave;
    match res with
    | Err err => mret (None, Some err)
    | Ok related =>
        if bool_decide (related ≠ []) then
          if bool_decide (Slave_MongodPortRangeBegin updatedSlave > Slave_MongodPortRangeBegin currentSlave) ||
             bool_decide (Slave_MongodPortRangeEnd updatedSlave < Slave_MongodPortRangeEnd currentSlave)
          then mret (Some (TextError "Cannot reduce port range to a subinterval while this Slave has Mongods"), None)
          else if bool_decide (Model.Slave_PersistentStorage updatedSlave ≠ Model.Slave_PersistentStorage currentSlave)
          then mret (Some (TextError "Cannot change persistence attribute while this Slave has Mongods"), None)
          else mret (None, None)
        else mret (None, None)
    end.
End slave_queries.

(** ** Replica sets *)

Definition ProjectShardingRoleToModelShardingRole (api : string) : gres string :=
  if decide (api = ShardingRoleNone) then Ok Model.ShardingRoleNone
  else if decide (api = ShardingRoleShardServer) then Ok Model.ShardingRoleShardServer
  else if decide (api = ShardingRoleConfigServer) then Ok Model.ShardingRoleConfigServer
  else Err (TextError ("cannot convert unknown model.ShardingRole `" +:+ api +:+ "`")).

Definition ProjectModelShardingRoleToShardingRole (modelRole : string) : gres string :=
  if decide (modelRole = Model.ShardingRoleNone) then Ok ShardingRoleNone
  else if decide (modelRole = Model.ShardingRoleShardServer) then Ok ShardingRoleShardServer
  else if decide (modelRole = Model.ShardingRoleConfigServer) then Ok ShardingRoleConfigServer
  else Err (TextError ("cannot convert unknown masterapi.ShardingRole `" +:+ modelRole +:+ "`")).

(** The function panics where this one returns an error. *)
Definition ProjectModelReplicaSetToReplicaSet (m : Model.ReplicaSet) : gres ReplicaSet :=
  match ProjectModelShardingRoleToShardingRole (Model.ReplicaSet_ShardingRole m) with
  | Err err => Err err
  | Ok shardingRole =>
      Ok (mkReplicaSet (Model.ReplicaSet_ID m) (ReplicaSet_Name m) (ReplicaSet_PersistentMemberCount m)
            (ReplicaSet_VolatileMemberCount m) shardingRole)
  end.

Definition ProjectReplicaSetToModelReplicaSet (r : ReplicaSet) : gres Model.ReplicaSet :=
  if decide (Name r = EmptyString) then Err (TextError "Replica set name may not be empty")
  else
    match ProjectShardingRoleToModelShardingRole (ReplicaSet_ShardingRole r) with
    | Err err => Err err
    | Ok shardingRole =>
        Ok (Model.mkReplicaSet (ReplicaSet_ID r) (Name r) (PersistentNodeCount r) (VolatileNodeCount r) shardingRole false)
    end.

(** [func changeToReplicaSetAllowed(tx, current, new) (allowed bool, msg string, err error)];
    the third result is always [nil], the sum of two [uint]s wraps. *)
Definition changeToReplicaSetAllowed (current : option Model.ReplicaSet) (new : Model.ReplicaSet) : bool * string :=
  let counted :=
    let newMemberCount := (ReplicaSet_VolatileMemberCount new + ReplicaSet_PersistentMemberCount new) `mod` 2 ^ 64 in
    if decide (newMemberCount < 1) then (false, "Replica Set must have at least one member") else (true, EmptyString) in
  match current with
  | Some current =>
      if decide (Model.ReplicaSet_ShardingRole current ≠ Model.ReplicaSet_ShardingRole new)
      then (false, "cannot change sharding role of a Replica Set after creation")
      else if decide (ReplicaSet_Name current ≠ ReplicaSet_Name new)
      then (false, "cannot change name of a Replica Set after creation")
      else if decide (ReplicaSet_Initiated current ≠ ReplicaSet_Initiated new)
      then (false, "Replica Set initiation status may not be changed - Internal error")
      else counted
  | None =>
      if decide (ReplicaSet_Initiated new ≠ false)
      then (false, "Replica Set initiation status of new Replica Set must be false - Internal error")
      else counted
  end.

(** ** Risk groups, problems, mongods, secrets *)

Definition ProjectModelRiskGroupToRiskGroup (m : Model.RiskGroup) : RiskGroup :=
  mkRiskGroup (Model.RiskGroup_ID m) (Model.RiskGroup_Name m).

Definition ProjectRiskGroupToModelRiskGroup (r : RiskGroup) : gres Model.RiskGroup :=
  if decide (RiskGroup_Name r = EmptyString) then Err (TextError "Risk group name may not be empty")
  else Ok (Model.mkRiskGroup (RiskGroup_ID r) (RiskGroup_Name r)).

Definition ProjectModelProblemToProblem (m : Model.Problem) : Problem :=
  mkProblem (Model.Problem_ID m) (Problem_Description m) (Problem_LongDescription m) (Problem_FirstOccurred m)
    (Problem_LastUpdated m) (NullIntToPtr (Problem_SlaveID m)) (NullIntToPtr (Problem_ReplicaSetID m)).

Definition ModelExecutionStateToApiMongodState (e : MongodExecutionState) : string :=
  if decide (e = MongodExecutionStateDestroyed) then msp.MongodStateDestroyed
  else if decide (e = MongodExecutionStateNotRunning) then msp.MongodStateNotRunning
  else if decide (e = MongodExecutionStateRecovering) then msp.MongodStateRecovering
  else if decide (e = MongodExecutionStateRunning) then msp.MongodStateRunning
  else if decide (e = MongodExecutionStateForceDestroyed) then msp.MongodStateForceDestroyed
  else if decide (e = MongodExecutionStateUninitiated) then msp.MongodStateUninitialized
  else "invalid".

(** [ReplicaSetID.Int64] of a NULL is 0; [m.ObservedState] is the loaded row. *)
Definition ProjectModelMongodToMongod (m : Model.Mongod) (ObservedState : MongodState) : Mongod :=
  mkMongod (Model.Mongod_ID m) (Model.Mongod_Port m) (default 0 (Mongod_ReplicaSetID m)) (Mongod_ParentSlaveID m)
    (if decide (is_Some (Mongod_ObservedStateID m))
     then ModelExecutionStateToApiMongodState (MongodState_ExecutionState ObservedState) else "unobserved").

Definition zero_MongodState : MongodState := mkMongodState 0 0 EmptyString 0.

(** [tx.Model(&m).Related(&m.ObservedState, "ObservedState")], then the projection;
    a missing row leaves the zero struct. *)
Definition mongodToApiMongod `{ENG : Engine} (m : Model.Mongod) : GoM conn (gres Mongod) :=
  res ← sql_query (λ _ d, observed_state d m);
  match res with
  | Err err => mret (Err err)
  | Ok row => mret (Ok (ProjectModelMongodToMongod m (default zero_MongodState row)))
  end.

Definition ProjectModelMongodKeyfileToAPIMongodKeyfile (m : Model.MongodKeyfile) : MongodKeyfile :=
  mkMongodKeyfile (Keyfile_Content m).
Definition ProjectModelMongodbCredentialToAPIMongodbCredential (m : Model.MongodbCredential) : MongodbCredential :=
  mkMongodbCredential (Credential_Username m) (Credential_Password m).

End masterapi.
