(* ===== verification/ApiServer.v ===== *)
(** * The HTTP API: requests, answers and transactions

    What the handlers of [master/masterapi] share ([server.go]): the answer being
    written, the transaction, the calls on gorm beyond those of [Orm], and
    [attemptClusterAllocator] and [attemptCommit].  An exchange is one request: it
    ends with what is committed and what the client is told. *)

From stdpp Require Import base gmap sets list strings fin_maps.
From Stdlib Require Import QArith Lia.
From S2P Require Import Prelude Msp Model Database Orm Store Allocator Api.

Open Scope Z_scope.
Set Warnings "-clear-no-such-hyp".

(** ** Exchanges *)

(** What [json.NewEncoder(w).Encode] is given. *)
Inductive api_value :=
  | JSlave (s : masterapi.Slave)
  | JSlaves (l : list masterapi.Slave)
  | JReplicaSet (r : masterapi.ReplicaSet)
  | JReplicaSets (l : list masterapi.ReplicaSet)
  | JRiskGroup (r : masterapi.RiskGroup)
  | JRiskGroups (l : list masterapi.RiskGroup)
  | JProblem (p : masterapi.Problem)
  | JProblems (l : list masterapi.Problem)
  | JMongods (l : list masterapi.Mongod)
  | JKeyfile (k : masterapi.MongodKeyfile)
  | JCredential (k : masterapi.MongodbCredential).

(** The calls that write to the body: [fmt.Fprint], [fmt.Fprintf], [Encode]. *)
Inductive output :=
  | Printed (s : string)
  | Formatted (format : string) (args : list string)
  | Encoded (v : api_value).

(** What is committed, the transaction and whether it is open, the status sent to
    the client and the body. *)
Record exchange := mkExchange {
  ex_committed : db;
  ex_tx : conn;
  ex_open : bool;
  ex_status : option Z;
  ex_body : list output
}.

Definition set_tx (c : conn) (x : exchange) : exchange :=
  mkExchange (ex_committed x) c (ex_open x) (ex_status x) (ex_body x).

(** [w.WriteHeader(code)]: only the first call counts; a write sends 200 before the
    body when there was none. *)
Definition WriteHeader (code : Z) : GoM exchange unit :=
  modify_state (λ x, mkExchange (ex_committed x) (ex_tx x) (ex_open x)
    (Some (default code (ex_status x))) (ex_body x)).
Definition write (o : output) : GoM exchange unit :=
  modify_state (λ x, mkExchange (ex_committed x) (ex_tx x) (ex_open x)
    (Some (default 200 (ex_status x))) (ex_body x ++ [o])).
(** An answer with a status and a text. *)
Definition answer (code : Z) (o : output) : GoM exchange unit := _ ← WriteHeader code; write o.
Definition answer_error (code : Z) (err : gerror) : GoM exchange unit := answer code (Printed (error_text err)).

(** The status a client sees: a handler that writes nothing is answered with 200. *)
Definition final_status (x : exchange) : Z := default 200 (ex_status x).

Definition ErrTxDone : gerror := TextError "sql: Transaction has already been committed or rolled back".

Section server.
Context `{ENG : Engine} `{ORM : Gorm} `{API : GormStore}.

Definition run_tx {A} (m : GoM conn A) : GoM exchange A := in_part ex_tx set_tx m.

Definition Begin : GoM exchange unit :=
  modify_state (λ x, mkExchange (ex_committed x) (with_db (ex_committed x) (ex_tx x)) true (ex_status x) (ex_body x)).

(** The transaction ends in any case. *)
Definition Rollback : GoM exchange (option gerror) := λ x,
  if ex_open x then
    (mkExchange (ex_committed x) (with_db (ex_committed x) (ex_tx x)) false (ex_status x) (ex_body x),
     Returned (eng_fault (cstmts (ex_tx x))))
  else (x, Returned (Some ErrTxDone)).

Definition Commit : GoM exchange (option gerror) := λ x,
  if ex_open x then
    let failed e := (mkExchange (ex_committed x) (with_db (ex_committed x) (ex_tx x)) false (ex_status x) (ex_body x),
                     Returned (Some e)) in
    match eng_fault (cstmts (ex_tx x)) with
    | Some e => failed e
    | None =>
        if decide (foreign_keys (cdb (ex_tx x)))
        then (mkExchange (cdb (ex_tx x)) (tick (ex_tx x)) false (ex_status x) (ex_body x), Returned None)
        else failed (PqError "23" "violates foreign key constraint")
    end
  else (x, Returned (Some ErrTxDone)).

(** ** [server.go] *)

(** [m.ClusterAllocator.BusWriteChannel != nil] *)
Context (has_bus : bool).

(** The result of the rollback overwrites [err], so that a failure of the allocator
    that was rolled back is reported to the caller as success. *)
Definition attemptClusterAllocator : GoM exchange (option gerror) :=
  err ← run_tx (CompileMongodLayout has_bus);
  match err with
  | Some e =>
      _ ← answer 500 (Formatted "cluster allocator failure: %s\n" [error_text e]);
      err ← Rollback;
      match err with
      | Some e =>
          _ ← write (Formatted "cluster allocator rollback failure: %s\n" [error_text e]);
          mret (Some e)
      | None => mret None
      end
  | None => mret None
  end.

Definition attemptCommit : GoM exchange (option gerror) :=
  err ← Commit;
  match err with
  | Some e =>
      _ ← answer 500 (Formatted "commit failed with error %s\n" [error_text e]);
      mret (Some e)
  | None => mret None
  end.

(** The end of most handlers that change something. *)
Definition allocate_and_commit : GoM exchange unit :=
  err ← attemptClusterAllocator;
  match err with
  | Some _ => mret tt
  | None => _ ← attemptCommit; mret tt
  end.
End server.
