(* ===== verification/ApiHandlers.v ===== *)
(** * The HTTP API: the handlers

    Every handler of [master/masterapi], with its guards, answers and the order of
    its statements.  The variables of the URL are strings, the body of a request is
    the result of decoding it. *)

From stdpp Require Import base gmap sets list strings fin_maps.
From Stdlib Require Import Lia.
From S2P Require Import Prelude Msp Model Database Orm Store Strconv Allocator Api ApiServer ProblemManager.

Open Scope Z_scope.
Set Warnings "-clear-no-such-hyp".

(** [err.Error()] on a [nil] error *)
Definition nil_dereference : goval := VString "runtime error: invalid memory address or nil pointer dereference".

Section handlers.
Context `{ENG : Engine} `{ORM : Gorm} `{API : GormStore}.
Context (has_bus : bool).

Definition end_tx : GoM exchange unit := _ ← Rollback; mret tt.
Definition bad_request : GoM exchange unit := WriteHeader 400.
Definition bad_id : GoM exchange unit := answer 400 (Formatted "id may not be 0" []).

(** A handler that reads: [tx := m.DB.Begin(); defer tx.Rollback()] *)
Definition defer_rollback (body : GoM exchange unit) : GoM exchange unit := λ x,
  let '(x', r) := body x in ((Rollback x').1, r).
Definition reading (body : GoM exchange unit) : GoM exchange unit :=
  _ ← Begin;
  defer_rollback body.

(** The loops that fill [out]. *)
Fixpoint project_all {A B} (f : A → GoM conn (gres B)) (l : list A) : GoM conn (gres (list B)) :=
  match l with
  | [] => mret (Ok [])
  | v :: l =>
      res ← f v;
      match res with
      | Err err => mret (Err err)
      | Ok b =>
          rest ← project_all f l;
          match rest with
          | Err err => mret (Err err)
          | Ok bs => mret (Ok (b :: bs))
          end
      end
  end.

(** ** [slaves.go] *)

Definition SlaveIndex : GoM exchange unit := reading (
  slaves ← run_tx (orm_find_ordered (R := Slave) (λ _, true));
  match slaves with
  | Err err => answer_error 500 err
  | Ok slaves =>
      out ← run_tx (project_all masterapi.ProjectModelSlaveToSlave slaves);
      match out with
      | Err err => answer 500 (Formatted "cannot project model slave to slave: %s" [error_text err])
      | Ok out => write (Encoded (JSlaves out))
      end
  end).

Definition SlaveById (idStr : string) : GoM exchange unit :=
  match ParseUint 64 idStr with
  | None => bad_request
  | Some id =>
      if decide (id = 0) then bad_id
      else reading (
        res ← run_tx (orm_first_id (R := Slave) id);
        match res with
        | Err ErrRecordNotFound => WriteHeader 404
        | Err err => answer_error 500 err
        | Ok slave =>
            apiSlave ← run_tx (masterapi.ProjectModelSlaveToSlave slave);
            match apiSlave with
            | Err err => answer 500 (Formatted "cannot project model slave to slave: %s" [error_text err])
            | Ok apiSlave => write (Encoded (JSlave apiSlave))
            end
        end)
  end.

Definition cannot_parse (err : gerror) : GoM exchange unit :=
  answer 400 (Formatted "cannot parse object (%s)" [error_text err]).

Definition SlavePut (body : gres masterapi.Slave) : GoM exchange unit :=
  match body with
  | Err err => cannot_parse err
  | Ok postSlave =>
      if decide (masterapi.ID postSlave ≠ 0)
      then answer 400 (Formatted "must not specify the slave ID in PUT request" [])
      else
        match masterapi.ProjectSlaveToModelSlave postSlave with
        | Err err => answer_error 400 err
        | Ok modelSlave =>
            _ ← Begin;
            created ← run_tx (orm_create modelSlave);
            match created with
            | Err err =>
                _ ← answer_error (if IsIntegrityConstraintViolation (Some err) then 400 else 500) err;
                end_tx
            | Ok modelSlave =>
                err ← attemptClusterAllocator has_bus;
                match err with
                | Some _ => mret tt
                | None =>
                    apiSlave ← run_tx (masterapi.ProjectModelSlaveToSlave modelSlave);
                    match apiSlave with
                    | Err err =>
                        _ ← answer 500 (Formatted "cannot project model slave to slave: %s" [error_text err]);
                        end_tx
                    | Ok apiSlave =>
                        _ ← write (Encoded (JSlave apiSlave));
                        _ ← attemptCommit;
                        mret tt
                    end
                end
            end
        end
  end.

Definition SlaveUpdate (idStr : string) (body : gres masterapi.Slave) : GoM exchange unit :=
  match ParseInt 64 idStr with
  | None => bad_request
  | Some id =>
    match body with
    | Err err => cannot_parse err
    | Ok postSlave =>
      if decide (masterapi.ID postSlave ≠ id) then answer 400 (Formatted "must not change the id of an object" [])
      else
        match masterapi.assertNoZeroFieldsSet postSlave with
        | Some err =>
            answer 400 (Formatted "must not POST JSON with zero values in any field: %s" [error_text err])
        | None =>
          _ ← Begin;
          modelSlaveRes ← run_tx (orm_first_id (R := Slave) id);
          match modelSlaveRes with
          | Err ErrRecordNotFound => _ ← WriteHeader 404; end_tx
          | Err err => _ ← answer_error 500 err; end_tx
          | Ok modelSlave =>
            match masterapi.ProjectSlaveToModelSlave postSlave with
            | Err err => _ ← answer_error 400 err; end_tx
            | Ok updatedModelSlave =>
              allowed ← run_tx (masterapi.changeToSlaveAllowed modelSlave updatedModelSlave);
              match allowed with
              | (_, Some dbError) => _ ← answer_error 500 dbError; end_tx
              | (Some permissionError, None) => _ ← answer_error 403 permissionError; end_tx
              | (None, None) =>
                err ← run_tx (orm_save updatedModelSlave);
                match err with
                | Some err =>
                    _ ← answer_error (if IsIntegrityConstraintViolation (Some err) then 400 else 500) err;
                    end_tx
                | None => allocate_and_commit has_bus
                end
              end
            end
          end
        end
    end
  end.

Definition SlaveDelete (idStr : string) : GoM exchange unit :=
  match ParseInt 64 idStr with
  | None => bad_request
  | Some id =>
      _ ← Begin;
      res ← run_tx (orm_first_id (R := Slave) id);
      match res with
      | Err err => _ ← answer_error 500 err; end_tx
      | Ok currentSlave =>
        related ← run_tx (masterapi.RelatedMongods currentSlave);
        match related with
        | Err err => _ ← answer_error 500 err; end_tx
        | Ok related =>
          if bool_decide (related ≠ []) && bool_decide (Slave_ConfiguredState currentSlave ≠ SlaveStateDisabled)
          then
            _ ← answer 403 (Formatted "slave `%d` is not disabled and has active Mongods" [Slave_Hostname currentSlave]);
            end_tx
          else
            s ← run_tx (orm_delete Slave id);
            match s with
            | (_, Some err) => _ ← answer_error 500 err; end_tx
            | (RowsAffected, None) =>
                if decide (RowsAffected = 0) then _ ← WriteHeader 404; end_tx
                else allocate_and_commit has_bus
            end
        end
      end
  end.

(** ** [replicaSets.go] *)

Definition ReplicaSetIndex : GoM exchange unit := reading (
  replicasets ← run_tx (orm_find_ordered (R := ReplicaSet) (λ _, true));
  match replicasets with
  | Err err => answer_error 500 err
  | Ok replicasets =>
      out ← run_tx (project_all (λ r, mret (masterapi.ProjectModelReplicaSetToReplicaSet r)) replicasets);
      out ← or_panic out;
      write (Encoded (JReplicaSets out))
  end).

Definition ReplicaSetById (idStr : string) : GoM exchange unit :=
  match ParseUint 64 idStr with
  | None => bad_request
  | Some id =>
      if decide (id = 0) then bad_id
      else reading (
        res ← run_tx (orm_first_id (R := ReplicaSet) id);
        match res with
        | Err ErrRecordNotFound => WriteHeader 404
        | Err err => answer_error 500 err
        | Ok replSet =>
            out ← or_panic (masterapi.ProjectModelReplicaSetToReplicaSet replSet);
            write (Encoded (JReplicaSet out))
        end)
  end.

Definition ReplicaSetPut (body : gres masterapi.ReplicaSet) : GoM exchange unit :=
  match body with
  | Err err => cannot_parse err
  | Ok postReplSet =>
      if decide (masterapi.ReplicaSet_ID postReplSet ≠ 0)
      then answer 400 (Formatted "must not specify the slave ID in PUT request" [])
      else
        match masterapi.ProjectReplicaSetToModelReplicaSet postReplSet with
        | Err err => answer 400 (Formatted (error_text err) [])
        | Ok modelReplSet =>
            _ ← Begin;
            match masterapi.changeToReplicaSetAllowed None modelReplSet with
            | (false, msg) => _ ← end_tx; answer 400 (Printed msg)
            | (true, _) =>
                created ← run_tx (orm_create modelReplSet);
                match created with
                | Err err =>
                    _ ← end_tx;
                    answer_error (if IsIntegrityConstraintViolation (Some err) then 400 else 500) err
                | Ok modelReplSet =>
                    err ← attemptClusterAllocator has_bus;
                    match err with
                    | Some _ => mret tt
                    | None =>
                        _ ← attemptCommit;
                        out ← or_panic (masterapi.ProjectModelReplicaSetToReplicaSet modelReplSet);
                        write (Encoded (JReplicaSet out))
                    end
                end
            end
        end
  end.

(** An error of [Save] that is no constraint violation is not looked at. *)
Definition ReplicaSetUpdate (idStr : string) (body : gres masterapi.ReplicaSet) : GoM exchange unit :=
  match ParseInt 64 idStr with
  | None => bad_request
  | Some id =>
    match body with
    | Err err => cannot_parse err
    | Ok postReplSet =>
      if decide (masterapi.ReplicaSet_ID postReplSet ≠ id)
      then answer 400 (Formatted "must not change the id of an object" [])
      else
        _ ← Begin;
        dbRes ← run_tx (orm_first_id (R := ReplicaSet) id);
        match dbRes with
        | Err ErrRecordNotFound => _ ← end_tx; WriteHeader 404
        | Err err => _ ← end_tx; answer_error 500 err
        | Ok modelReplSet =>
          match masterapi.ProjectReplicaSetToModelReplicaSet postReplSet with
          | Err err => _ ← end_tx; answer_error 400 err
          | Ok replSet =>
            let replSet := ReplicaSet_set_Initiated (ReplicaSet_Initiated modelReplSet) replSet in
            match masterapi.changeToReplicaSetAllowed (Some modelReplSet) replSet with
            | (false, msg) => _ ← end_tx; answer 400 (Printed msg)
            | (true, _) =>
                err ← run_tx (orm_save replSet);
                match err with
                | Some e =>
                    if IsIntegrityConstraintViolation err then _ ← end_tx; answer_error 400 e
                    else allocate_and_commit has_bus
                | None => allocate_and_commit has_bus
                end
            end
          end
        end
    end
  end.

(** [s.RowsAffected] is looked at before [s.Error]; [err] is [nil] at [err.Error()]. *)
Definition ReplicaSetDelete (idStr : string) : GoM exchange unit :=
  match ParseInt 64 idStr with
  | None => bad_request
  | Some id =>
      _ ← Begin;
      s ← run_tx (orm_delete ReplicaSet id);
      let '(RowsAffected, dbError) := s in
      if decide (RowsAffected = 0) then _ ← end_tx; WriteHeader 404
      else
        match dbError with
        | Some _ => _ ← end_tx; _ ← WriteHeader 500; panic nil_dereference
        | None => allocate_and_commit has_bus
        end
  end.

(** [SELECT s.* FROM slaves s JOIN mongods m ON m.parent_slave_id = s.id WHERE m.replica_set_id = ?] *)
Definition replica_set_slaves (rid : Z) (n : nat) (d : db) : list Slave :=
  omap (λ m, slaves d !! Mongod_ParentSlaveID m)
    (select n (λ m, bool_decide (Mongod_ReplicaSetID m = Some rid)) (mongods d)).

Definition ReplicaSetGetSlaves (idStr : string) : GoM exchange unit :=
  match ParseUint 64 idStr with
  | None => bad_request
  | Some id =>
      if decide (id = 0) then bad_id
      else reading (
        res ← run_tx (orm_first_id (R := ReplicaSet) id);
        match res with
        | Err ErrRecordNotFound => WriteHeader 404
        | Err err => answer_error 500 err
        | Ok _ =>
            slaves ← run_tx (sql_query (replica_set_slaves id));
            match slaves with
            | Err err => answer_error 500 err
            | Ok slaves =>
                out ← run_tx (project_all masterapi.ProjectModelSlaveToSlave slaves);
                match out with
                | Err err => answer_error 500 err
                | Ok out => write (Encoded (JSlaves out))
                end
            end
        end)
  end.

(** ** [riskGroup.go] *)

Definition RiskGroupIndex : GoM exchange unit := reading (
  riskGroups ← run_tx (orm_find_ordered (R := RiskGroup) (λ _, true));
  match riskGroups with
  | Err err => answer_error 500 err
  | Ok riskGroups => write (Encoded (JRiskGroups (masterapi.ProjectModelRiskGroupToRiskGroup <$> riskGroups)))
  end).

Definition RiskGroupById (idStr : string) : GoM exchange unit :=
  match ParseUint 64 idStr with
  | None => bad_request
  | Some id =>
      if decide (id = 0) then bad_id
      else reading (
        res ← run_tx (orm_first_id (R := RiskGroup) id);
        match res with
        | Err ErrRecordNotFound => WriteHeader 404
        | Err err => answer_error 500 err
        | Ok riskgroup => write (Encoded (JRiskGroup (masterapi.ProjectModelRiskGroupToRiskGroup riskgroup)))
        end)
  end.

Definition RiskGroupPut (body : gres masterapi.RiskGroup) : GoM exchange unit :=
  match body with
  | Err err => cannot_parse err
  | Ok postRiskGroup =>
      if decide (masterapi.RiskGroup_ID postRiskGroup ≠ 0)
      then answer 400 (Formatted "must not specify the risk group ID in PUT request" [])
      else
        match masterapi.ProjectRiskGroupToModelRiskGroup postRiskGroup with
        | Err err => answer 400 (Formatted (error_text err) [])
        | Ok modelRiskGroup =>
            _ ← Begin;
            created ← run_tx (orm_create modelRiskGroup);
            match created with
            | Err err =>
                _ ← end_tx;
                answer_error (if IsIntegrityConstraintViolation (Some err) then 400 else 500) err
            | Ok modelRiskGroup =>
                err ← attemptClusterAllocator has_bus;
                match err with
                | Some _ => mret tt
                | None =>
                    _ ← attemptCommit;
                    write (Encoded (JRiskGroup (masterapi.ProjectModelRiskGroupToRiskGroup modelRiskGroup)))
                end
            end
        end
  end.

(** The return after a failed projection leaves the transaction open; an error of
    [Save] that is no constraint violation is not looked at. *)
Definition RiskGroupUpdate (idStr : string) (body : gres masterapi.RiskGroup) : GoM exchange unit :=
  match ParseInt 64 idStr with
  | None => bad_request
  | Some id =>
    match body with
    | Err err => cannot_parse err
    | Ok postRiskGroup =>
      if decide (masterapi.RiskGroup_ID postRiskGroup ≠ id)
      then answer 400 (Formatted "must not change the id of an object" [])
      else
        _ ← Begin;
        findRes ← run_tx (orm_first_id (R := RiskGroup) id);
        match findRes with
        | Err ErrRecordNotFound => _ ← end_tx; WriteHeader 404
        | Err err => _ ← end_tx; answer_error 500 err
        | Ok _ =>
          match masterapi.ProjectRiskGroupToModelRiskGroup postRiskGroup with
          | Err err => answer 400 (Formatted (error_text err) [])
          | Ok save =>
              err ← run_tx (orm_save save);
              match err with
              | Some e =>
                  if IsIntegrityConstraintViolation err then _ ← end_tx; answer_error 400 e
                  else allocate_and_commit has_bus
              | None => allocate_and_commit has_bus
              end
          end
        end
    end
  end.

(** [err] is [nil] where the error of [Delete] is reported. *)
Definition RiskGroupDelete (idStr : string) : GoM exchange unit :=
  match ParseInt 64 idStr with
  | None => bad_request
  | Some id =>
      _ ← Begin;
      findRes ← run_tx (orm_first_id (R := RiskGroup) id);
      match findRes with
      | Err ErrRecordNotFound => _ ← WriteHeader 404; end_tx
      | Err err => _ ← WriteHeader 500; _ ← end_tx; write (Printed (error_text err))
      | Ok _ =>
        again ← run_tx (orm_first_id (R := RiskGroup) id);
        match again with
        | Err err => _ ← WriteHeader 500; _ ← end_tx; write (Printed (error_text err))
        | Ok currentRiskGroup =>
          related ← run_tx (orm_find (λ s : Slave,
                      bool_decide (Slave_RiskGroupID s = Some (RiskGroup_ID currentRiskGroup))));
          match related with
          | Err err => _ ← WriteHeader 500; _ ← end_tx; write (Printed (error_text err))
          | Ok slaves =>
            if bool_decide (slaves ≠ []) then
              _ ← WriteHeader 403; _ ← end_tx;
              write (Formatted "riskgroup with id %d has assigned slaves" [fmt_d (RiskGroup_ID currentRiskGroup)])
            else
              s ← run_tx (orm_delete RiskGroup id);
              match s with
              | (_, Some _) => _ ← WriteHeader 500; panic nil_dereference
              | (RowsAffected, None) =>
                  if decide (RowsAffected = 0) then _ ← WriteHeader 404; end_tx
                  else allocate_and_commit has_bus
              end
          end
        end
      end
  end.

(** The id "null" asks for the slaves without a risk group. *)
Definition RiskGroupGetSlaves (idStr : string) : GoM exchange unit :=
  let list_slaves (P : Slave → bool) :=
    slaves ← run_tx (orm_find P);
    match slaves with
    | Err err => answer 500 (Formatted (error_text err) [])
    | Ok slaves =>
        out ← run_tx (project_all masterapi.ProjectModelSlaveToSlave slaves);
        match out with
        | Err err => answer_error 500 err
        | Ok out => write (Encoded (JSlaves out))
        end
    end in
  if decide (idStr = "null") then reading (list_slaves (λ s, bool_decide (Slave_RiskGroupID s = None)))
  else
    match ParseInt 64 idStr with
    | None => bad_request
    | Some id => reading (
        riskgroupRes ← run_tx (orm_first_id (R := RiskGroup) id);
        match riskgroupRes with
        | Err ErrRecordNotFound => answer 404 (Formatted "Riskgroup not found" [])
        | Err err => answer 500 (Formatted (error_text err) [])
        | Ok _ => list_slaves (λ s, bool_decide (Slave_RiskGroupID s = Some id))
        end)
    end.

Definition Slave_set_RiskGroupID (v : option Z) (s : Slave) : Slave :=
  mkSlave (Slave_ID s) (Slave_Hostname s) (Slave_Port s) (Slave_MongodPortRangeBegin s) (Slave_MongodPortRangeEnd s)
    (Slave_PersistentStorage s) (Slave_ConfiguredState s) v (Slave_ObservationErrorID s).

(** The ids in the URL and the rows they name. *)
Definition parse_ids (riskgroupIdStr slaveIdStr : string) : option (Z * Z) :=
  riskgroupId ← ParseInt 64 riskgroupIdStr;
  slaveId ← ParseInt 64 slaveIdStr;
  Some (riskgroupId, slaveId).

(** After a constraint violation the handler goes on to [attemptCommit]; the
    allocator is not run. *)
Definition RiskGroupAssignSlave (riskgroupIdStr slaveIdStr : string) : GoM exchange unit :=
  match parse_ids riskgroupIdStr slaveIdStr with
  | None => bad_request
  | Some (riskgroupId, slaveId) =>
    if bool_decide (riskgroupId = 0) || bool_decide (slaveId = 0) then answer 400 (Formatted "Id may not be 0" [])
    else
      _ ← Begin;
      riskgroupRes ← run_tx (orm_first_id (R := RiskGroup) riskgroupId);
      match riskgroupRes with
      | Err ErrRecordNotFound => _ ← end_tx; answer 404 (Formatted "Riskgroup not found" [])
      | Err err => _ ← end_tx; answer 500 (Formatted (error_text err) [])
      | Ok _ =>
        slaveRes ← run_tx (orm_first_id (R := Slave) slaveId);
        match slaveRes with
        | Err err => _ ← end_tx; answer_error 500 err
        | Ok modelSlave =>
          let updatedSlave := Slave_set_RiskGroupID (NullIntValue riskgroupId) modelSlave in
          allowed ← run_tx (masterapi.changeToSlaveAllowed modelSlave updatedSlave);
          match allowed with
          | (_, Some dbError) => _ ← end_tx; answer_error 500 dbError
          | (Some permissionError, None) => _ ← end_tx; answer_error 403 permissionError
          | (None, None) =>
              err ← run_tx (orm_save updatedSlave);
              _ ← match err with
                  | Some e =>
                      if IsIntegrityConstraintViolation err then _ ← end_tx; answer_error 400 e else mret tt
                  | None => mret tt
                  end;
              _ ← attemptCommit;
              mret tt
          end
        end
      end
  end.

(** The error of [Update] is not looked at: [err] is still [nil]. *)
Definition RiskGroupRemoveSlave (riskgroupIdStr slaveIdStr : string) : GoM exchange unit :=
  match parse_ids riskgroupIdStr slaveIdStr with
  | None => bad_request
  | Some (riskgroupId, slaveId) =>
    if bool_decide (riskgroupId = 0) || bool_decide (slaveId = 0) then answer 400 (Formatted "Id may not be 0" [])
    else
      _ ← Begin;
      riskgroupRes ← run_tx (orm_first_id (R := RiskGroup) riskgroupId);
      match riskgroupRes with
      | Err ErrRecordNotFound => _ ← end_tx; answer 404 (Formatted "Riskgroup not found" [])
      | Err err => _ ← end_tx; answer 500 (Formatted (error_text err) [])
      | Ok _ =>
        slaveRes ← run_tx (orm_first_id (R := Slave) slaveId);
        match slaveRes with
        | Err err => _ ← end_tx; answer_error 500 err
        | Ok modelSlave =>
          if decide (Slave_RiskGroupID modelSlave ≠ Some riskgroupId) then
            _ ← end_tx;
            answer 404 (Formatted "Slave not found in this riskgroup. (Slave is in other riskgroup)" [])
          else
            let updatedSlave := Slave_set_RiskGroupID NullInt modelSlave in
            allowed ← run_tx (masterapi.changeToSlaveAllowed modelSlave updatedSlave);
            match allowed with
            | (_, Some dbError) => _ ← end_tx; answer_error 500 dbError
            | (Some permissionError, None) => _ ← end_tx; answer_error 403 permissionError
            | (None, None) =>
                _ ← run_tx (orm_update modelSlave (Slave_set_RiskGroupID NullInt));
                allocate_and_commit has_bus
            end
        end
      end
  end.

(** ** [problems.go], [mongods.go], [system.go] *)

Definition ProblemIndex : GoM exchange unit := reading (
  problems ← run_tx (orm_find_ordered (R := Problem) (λ _, true));
  match problems with
  | Err err => answer_error 500 err
  | Ok problems => write (Encoded (JProblems (masterapi.ProjectModelProblemToProblem <$> problems)))
  end).

Definition ProblemById (idStr : string) : GoM exchange unit :=
  match ParseUint 64 idStr with
  | None => bad_request
  | Some id =>
      if decide (id = 0) then bad_id
      else reading (
        res ← run_tx (orm_first_id (R := Problem) id);
        match res with
        | Err ErrRecordNotFound => WriteHeader 404
        | Err err => answer_error 500 err
        | Ok problem => write (Encoded (JProblem (masterapi.ProjectModelProblemToProblem problem)))
        end)
  end.

(** The rows that belong to a row of [R], ordered by id, and what is made of them. *)
Definition related_to {R Q} `{Table R} `{Table Q} (id : Z) (belongs : Q → bool)
    (encode : list Q → GoM exchange unit) : GoM exchange unit := reading (
  owner ← run_tx (orm_first_id (R := R) id);
  match owner with
  | Err ErrRecordNotFound => WriteHeader 404
  | Err err => answer 500 (Formatted (error_text err) [])
  | Ok _ =>
      related ← run_tx (orm_find_ordered belongs);
      match related with
      | Err err => answer 500 (Formatted (error_text err) [])
      | Ok related => encode related
      end
  end).

Definition encode_problems (problems : list Problem) : GoM exchange unit :=
  write (Encoded (JProblems (masterapi.ProjectModelProblemToProblem <$> problems))).

Definition ProblemBySlave (idStr : string) : GoM exchange unit :=
  match ParseUint 64 idStr with
  | None => bad_request
  | Some slaveId =>
      related_to (R := Slave) slaveId (λ p, bool_decide (Problem_SlaveID p = Some slaveId)) encode_problems
  end.

Definition ProblemByReplicaSet (idStr : string) : GoM exchange unit :=
  match ParseUint 64 idStr with
  | None => bad_request
  | Some replicaSetId =>
      related_to (R := ReplicaSet) replicaSetId (λ p, bool_decide (Problem_ReplicaSetID p = Some replicaSetId)) encode_problems
  end.

Definition encode_mongods (mongods : list Mongod) : GoM exchange unit :=
  out ← run_tx (project_all masterapi.mongodToApiMongod mongods);
  match out with
  | Err err => answer 500 (Formatted (error_text err) [])
  | Ok out => write (Encoded (JMongods out))
  end.

Definition MongodsBySlave (idStr : string) : GoM exchange unit :=
  match ParseInt 64 idStr with
  | None => bad_request
  | Some slaveId => related_to (R := Slave) slaveId (hosted_on slaveId) encode_mongods
  end.

Definition MongodsByReplicaSet (idStr : string) : GoM exchange unit :=
  match ParseInt 64 idStr with
  | None => bad_request
  | Some replicaSetId =>
      related_to (R := ReplicaSet) replicaSetId (λ m, bool_decide (Mongod_ReplicaSetID m = Some replicaSetId)) encode_mongods
  end.

Definition KeyfileGet : GoM exchange unit := reading (
  res ← run_tx (orm_first (R := MongodKeyfile));
  match res with
  | Err err => answer 500 (Formatted "error querying keyfile: %s" [error_text err])
  | Ok modelKeyfile => write (Encoded (JKeyfile (masterapi.ProjectModelMongodKeyfileToAPIMongodKeyfile modelKeyfile)))
  end).

Definition ManagementUserGet : GoM exchange unit := reading (
  res ← run_tx (orm_first (R := MongodbCredential));
  match res with
  | Err err => answer 500 (Formatted "error querying MAMID management user credential: %s" [error_text err])
  | Ok modelUser =>
      write (Encoded (JCredential (masterapi.ProjectModelMongodbCredentialToAPIMongodbCredential modelUser)))
  end).
End handlers.
