(* ===== verification/ApiInvariant.v ===== *)
(** * The HTTP API: what a consistent database is

    The invariant the API keeps: the well-formedness the allocator needs, valid and
    uniquely named rows, and every mongod on a port of its slave's range.  Each
    change a handler makes, and a run of the allocator, preserve it. *)

From stdpp Require Import base gmap sets list strings fin_maps relations.
From Stdlib Require Import Lia.
From S2P Require Import Prelude Msp Model Database Orm Store Allocator AllocatorRemoval AllocatorAdd AllocatorSpec Api ApiServer.

Open Scope Z_scope.
Set Warnings "-clear-no-such-hyp".

(** ** The invariant *)

Record valid_slave (s : Slave) : Prop := {
  valid_port : PortNumberMin ≤ Slave_Port s ≤ PortNumberMax;
  valid_begin : PortNumberMin ≤ Slave_MongodPortRangeBegin s;
  valid_range : Slave_MongodPortRangeBegin s ≤ Slave_MongodPortRangeEnd s;
  valid_end : Slave_MongodPortRangeEnd s ≤ PortNumberMax;
  valid_hostname : Slave_Hostname s ≠ EmptyString;
  valid_state : Slave_ConfiguredState s ∈ [SlaveStateActive; SlaveStateMaintenance; SlaveStateDisabled]
}.

Record valid_replica_set (r : ReplicaSet) : Prop := {
  valid_name : ReplicaSet_Name r ≠ EmptyString;
  valid_counts : 0 ≤ ReplicaSet_PersistentMemberCount r ∧ 0 ≤ ReplicaSet_VolatileMemberCount r;
  valid_members : 1 ≤ ReplicaSet_PersistentMemberCount r + ReplicaSet_VolatileMemberCount r;
  valid_role : ReplicaSet_ShardingRole r ∈ [ShardingRoleNone; ShardingRoleShardServer; ShardingRoleConfigServer]
}.

Definition valid_risk_group (id : Z) (g : RiskGroup) : Prop := RiskGroup_ID g = id ∧ 0 < id ∧ RiskGroup_Name g ≠ EmptyString.

(** A [UNIQUE] column. *)
Definition rows_unique {R} `{Table R} (t : gmap Z R) : Prop := ∀ id1 id2 r1 r2 v,
  t !! id1 = Some r1 → t !! id2 = Some r2 → row_unique r1 = Some v → row_unique r2 = Some v → id1 = id2.

Definition in_range (s : Slave) (p : PortNumber) : Prop :=
  Slave_MongodPortRangeBegin s ≤ p < Slave_MongodPortRangeEnd s.

(** Members of replica sets, the mongods the allocator has placed: each has a port of
    its slave that no other member has. *)
Definition is_member (m : Mongod) : Prop := is_Some (Mongod_ReplicaSetID m).
Definition member_slots (d : db) : Prop := ∀ id1 id2 m1 m2,
  mongods d !! id1 = Some m1 → mongods d !! id2 = Some m2 → is_member m1 → is_member m2 →
  Mongod_ParentSlaveID m1 = Mongod_ParentSlaveID m2 → Mongod_Port m1 = Mongod_Port m2 → id1 = id2.
Definition ports_fit (d : db) : Prop := ∀ id m s,
  mongods d !! id = Some m → is_member m → slaves d !! Mongod_ParentSlaveID m = Some s → in_range s (Mongod_Port m).

(** What tells the mongods apart, for the monitor as well: slave, port and name. *)
Definition mongod_identity (m : Mongod) : Z * PortNumber * string := (Mongod_ParentSlaveID m, Mongod_Port m, Mongod_ReplSetName m).
Definition told_apart (d : db) : Prop := ∀ id1 id2 m1 m2,
  mongods d !! id1 = Some m1 → mongods d !! id2 = Some m2 → mongod_identity m1 = mongod_identity m2 → id1 = id2.

Record consistent (d : db) : Prop := {
  cons_ok : db_ok d;
  cons_apart : told_apart d;
  cons_slots : member_slots d;
  cons_fit : ports_fit d;
  cons_slaves id s : slaves d !! id = Some s → valid_slave s;
  cons_slave_ids id s : slaves d !! id = Some s → 0 < id;
  cons_replica_sets id r : replica_sets d !! id = Some r → valid_replica_set r;
  cons_risk_groups id g : risk_groups d !! id = Some g → valid_risk_group id g;
  cons_hostnames : rows_unique (slaves d);
  cons_names : rows_unique (replica_sets d);
  cons_group_names : rows_unique (risk_groups d);
  cons_states : states_keyed d;
  cons_errors eid e : msp_errors d !! eid = Some e → 0 < eid
}.

Lemma empty_consistent : consistent empty_db ∧ foreign_keys empty_db.
Proof. split; [|by apply (bool_decide_unpack _); vm_compute]. split; by try apply db_okb_sound. Qed.

(** ** Rows *)

Lemma rows_unique_insert {R} `{Table R} d id (r : R) :
  rows_unique (table d) → ¬ conflicts d id r → rows_unique (<[id := r]> (table d)).
Proof.
  intros Huniq Hfree id1 id2 r1 r2 v. unfold conflicts in Hfree.
  intros [[<- <-]|[Hne1 H1]]%lookup_insert_Some [[<- <-]|[Hne2 H2]]%lookup_insert_Some Hv1 Hv2; [done| | |by eapply Huniq].
  - exfalso. apply Hfree. rewrite Hv1. by exists id2, r2.
  - exfalso. apply Hfree. rewrite Hv2. by exists id1, r1.
Qed.

Lemma rows_unique_sub {R} `{Table R} (t t' : gmap Z R) : t' ⊆ t → rows_unique t → rows_unique t'.
Proof.
  intros Hsub Huniq id1 id2 r1 r2 v H1 H2. apply (Huniq id1 id2 r1 r2); by eapply lookup_weaken.
Qed.

(** ** Changes of the database *)

Section changes.
Context (d : db) (Hd : consistent d).

Lemma delete_mongods_consistent M : consistent (delete_mongods d M).
Proof.
  pose proof (cons_ok _ Hd) as Hok. split; [by apply delete_mongods_ok| | | |apply Hd|apply Hd|apply Hd|apply Hd|apply Hd|apply Hd|apply Hd| |apply Hd].
  - intros id1 id2 m1 m2 [H1 _]%delete_mongods_lookup [H2 _]%delete_mongods_lookup; [|done..]. by apply (cons_apart _ Hd).
  - intros id1 id2 m1 m2 [H1 _]%delete_mongods_lookup [H2 _]%delete_mongods_lookup; [|done..]. by apply (cons_slots _ Hd).
  - intros id m s [Hm _]%delete_mongods_lookup; [|done]. by apply (cons_fit _ Hd id).
  - intros sid st [Hin _]%delete_mongods_states; [|done]. by apply (cons_states _ Hd).
Qed.

Lemma delete_slave_consistent sid : consistent (delete_slave d sid).
Proof.
  pose proof (delete_mongods_consistent (members_where d (hosted_on sid))) as Hd1. pose proof (cons_ok _ Hd) as Hok.
  set (d1 := delete_mongods d (members_where d (hosted_on sid))) in *. pose proof (cons_ok _ Hd1) as Hok1.
  assert (∀ id s, slaves (delete_slave d sid) !! id = Some s ↔ slaves d1 !! id = Some s ∧ id ≠ sid) as Hs.
  { intros id s. simpl. rewrite lookup_delete_Some. naive_solver. }
  assert (∀ id m, mongods d1 !! id = Some m → Mongod_ParentSlaveID m ≠ sid) as Hpar.
  { intros id m [Hm Hid]%delete_mongods_lookup Heq; [|done]. apply Hid, elem_of_members_where. exists m.
    split; [done|]. by apply bool_decide_eq_true. }
  split; try apply Hd1.
  - split; try apply Hok1.
    + intros id s [Hin _]%Hs. by apply (ok_slave_key _ Hok1).
    + intros id s [Hin _]%Hs. by eapply (ok_slave_ports _ Hok1).
    + intros id m Hm. destruct (ok_parent _ Hok1 id m Hm) as [s Hin]. exists s. apply Hs. split; [done|by eapply Hpar].
  - intros id m s Hm Hmem [Hin _]%Hs. by apply (cons_fit _ Hd1 id m s).
  - intros id s [Hin _]%Hs. by eapply (cons_slaves _ Hd1).
  - intros id s [Hin _]%Hs. by eapply (cons_slave_ids _ Hd1).
  - eapply rows_unique_sub; [apply delete_subseteq|apply Hd1].
Qed.

Lemma delete_replica_set_mongods rid id m :
  mongods (delete_replica_set d rid) !! id = Some m →
  ∃ m0, mongods d !! id = Some m0 ∧
    (m = m0 ∧ Mongod_ReplicaSetID m0 ≠ Some rid ∨ m = Mongod_set_ReplicaSetID None m0).
Proof.
  simpl. rewrite lookup_fmap. intros (m0 & Hm0 & ->)%fmap_Some. exists m0. split; [done|].
  case_decide; [by right|by left].
Qed.

Lemma delete_replica_set_ok rid : db_ok (delete_replica_set d rid).
Proof.
  pose proof (delete_replica_set_mongods rid) as Hm. pose proof (cons_ok _ Hd) as Hok.
  assert (∀ id r, replica_sets (delete_replica_set d rid) !! id = Some r ↔ replica_sets d !! id = Some r ∧ id ≠ rid) as Hrs.
  { intros id r. simpl. rewrite lookup_delete_Some. naive_solver. }
  split; try apply Hok.
  - intros id m (m0 & Hm0 & [[-> _]| ->])%Hm; by apply (ok_mongod_key _ Hok id m0).
  - intros id r [Hr _]%Hrs. by apply (ok_rs_key _ Hok).
  - intros id r [Hr _]%Hrs. by eapply (ok_rs_counts _ Hok).
  - intros id m (m0 & Hm0 & [[-> _]| ->])%Hm; by apply (ok_parent _ Hok id m0).
  - intros id m r (m0 & Hm0 & [[-> Hne]| ->])%Hm Hr; [|done]. destruct (ok_rs _ Hok id m0 r Hm0 Hr) as [x Hx].
    exists x. apply Hrs. split; [done|]. intros ->. done.
  - intros id m (m0 & Hm0 & [[-> _]| ->])%Hm; by apply (ok_desired _ Hok id m0).
  - intros id m o (m0 & Hm0 & [[-> _]| ->])%Hm; by apply (ok_observed _ Hok id m0).
Qed.

Lemma delete_replica_set_consistent rid : consistent (delete_replica_set d rid).
Proof.
  pose proof (delete_replica_set_mongods rid) as Hm.
  split; [apply delete_replica_set_ok| | | |apply Hd|apply Hd| |apply Hd|apply Hd| |apply Hd|apply Hd|apply Hd].
  - intros id1 id2 m1 m2 (n1 & H1 & [[-> _]| ->])%Hm (n2 & H2 & [[-> _]| ->])%Hm; by apply (cons_apart _ Hd id1 id2 n1 n2).
  - intros id1 id2 m1 m2 (n1 & H1 & [[-> _]| ->])%Hm (n2 & H2 & [[-> _]| ->])%Hm [? ?] [? ?] Hp Hport; try done.
    by apply (cons_slots _ Hd id1 id2 n1 n2 H1 H2); [eexists..| |].
  - intros id m s (m0 & Hm0 & [[-> _]| ->])%Hm [? ?] Hs; [|done]. apply (cons_fit _ Hd id m0 s Hm0); [by eexists|done].
  - intros id r. simpl. intros [_ Hr]%lookup_delete_Some. by eapply (cons_replica_sets _ Hd).
  - eapply rows_unique_sub; [apply delete_subseteq|apply Hd].
Qed.

(** The allocator's invariant does not speak about risk groups. *)
Lemma set_risk_groups_consistent t :
  map_Forall valid_risk_group t → rows_unique t → consistent (set_risk_groups t d).
Proof.
  intros Hvalid Huniq. pose proof (cons_ok _ Hd) as Hok.
  split; [split; apply Hok|apply Hd|apply Hd|apply Hd|apply Hd|apply Hd|apply Hd|done|apply Hd|apply Hd|done|apply Hd|apply Hd].
Qed.

Lemma delete_risk_group_consistent gid : consistent (set_risk_groups (delete gid (risk_groups d)) d).
Proof.
  apply set_risk_groups_consistent.
  - intros id g [_ Hin]%lookup_delete_Some. by apply (cons_risk_groups _ Hd).
  - eapply rows_unique_sub; [apply delete_subseteq|apply Hd].
Qed.

Lemma put_slave_consistent s :
  valid_slave s → 0 < Slave_ID s → ¬ conflicts d (Slave_ID s) s →
  (∀ id m, mongods d !! id = Some m → is_member m → Mongod_ParentSlaveID m = Slave_ID s → in_range s (Mongod_Port m)) →
  consistent (set_slaves (<[Slave_ID s := s]> (slaves d)) d).
Proof.
  intros Hvalid Hpos Hfree Hfit. pose proof (cons_ok _ Hd) as Hok. split; try apply Hd.
  - split; try apply Hok; simpl.
    + intros id s' [[<- <-]|[_ Hs]]%lookup_insert_Some; [done|by apply (ok_slave_key _ Hok)].
    + intros id s' [[<- <-]|[_ Hs]]%lookup_insert_Some; [|by eapply (ok_slave_ports _ Hok)].
      destruct Hvalid. unfold PortNumberMin, PortNumberMax, is_port in *. lia.
    + intros id m Hm. rewrite lookup_insert_is_Some'. right. by eapply (ok_parent _ Hok).
  - intros id m s' Hm Hmem. simpl. intros [[Heq <-]|[_ Hs]]%lookup_insert_Some; [by eapply Hfit|by apply (cons_fit _ Hd id m s')].
  - intros id s'. simpl. intros [[<- <-]|[_ Hs]]%lookup_insert_Some; [done|by eapply (cons_slaves _ Hd)].
  - intros id s'. simpl. intros [[<- <-]|[_ Hs]]%lookup_insert_Some; [done|by eapply (cons_slave_ids _ Hd)].
  - exact (rows_unique_insert d _ s (cons_hostnames _ Hd) Hfree).
Qed.

Lemma put_replica_set_consistent r :
  0 < ReplicaSet_ID r → valid_replica_set r → ¬ conflicts d (ReplicaSet_ID r) r →
  consistent (set_replica_sets (<[ReplicaSet_ID r := r]> (replica_sets d)) d).
Proof.
  intros Hpos Hvalid Hfree. pose proof (cons_ok _ Hd) as Hok. split; try apply Hd.
  - split; try apply Hok; simpl.
    + intros id r' [[<- <-]|[_ Hr]]%lookup_insert_Some; [done|by apply (ok_rs_key _ Hok)].
    + intros id r' [[<- <-]|[_ Hr]]%lookup_insert_Some; [apply Hvalid|by eapply (ok_rs_counts _ Hok)].
    + intros id m r' Hm Hr. rewrite lookup_insert_is_Some'. right. by eapply (ok_rs _ Hok).
  - intros id r'. simpl. intros [[<- <-]|[_ Hr]]%lookup_insert_Some; [done|by eapply (cons_replica_sets _ Hd)].
  - exact (rows_unique_insert d _ r (cons_names _ Hd) Hfree).
Qed.

Lemma put_risk_group_consistent g :
  0 < RiskGroup_ID g → RiskGroup_Name g ≠ EmptyString → ¬ conflicts d (RiskGroup_ID g) g →
  consistent (set_risk_groups (<[RiskGroup_ID g := g]> (risk_groups d)) d).
Proof.
  intros Hpos Hname Hfree. apply set_risk_groups_consistent.
  - intros id g'. simpl. intros [[<- <-]|[_ Hin]]%lookup_insert_Some; [done|by apply (cons_risk_groups _ Hd)].
  - exact (rows_unique_insert d _ g (cons_group_names _ Hd) Hfree).
Qed.

(** A slave's own row does not conflict with itself. *)
Lemma no_conflict_self id s s' :
  slaves d !! id = Some s → Slave_Hostname s' = Slave_Hostname s → ¬ conflicts d id s'.
Proof.
  intros Hs Hname (id' & s2 & Hs2 & Hne & Hv). simpl in *. rewrite Hname in Hv.
  by apply Hne, (cons_hostnames _ Hd id' id s2 s (Slave_Hostname s)).
Qed.
End changes.

(** ** A run of the allocator *)

Lemma delete_mongods_keys d M : db_ok d → foreign_keys d → foreign_keys (delete_mongods d M).
Proof.
  intros Hok (Hs & Hm & Hst & Hp). split_and!.
  - done.
  - intros id m [Hin Hid]%delete_mongods_lookup; [|done]. destruct (Hm _ _ Hin) as (? & ? & ? & ? & ? & ?).
    split_and!; try done.
    + destruct (ok_desired _ Hok _ _ Hin) as (st & Hd & Hpar). exists st. apply delete_mongods_states; [done|].
      by rewrite Hpar.
    + destruct (Mongod_ObservedStateID m) as [o|] eqn:Ho; [|done].
      destruct (ok_observed _ Hok _ _ _ Hin Ho) as (_ & st & Hd & Hpar). exists st. apply delete_mongods_states; [done|].
      by rewrite Hpar.
  - intros sid st [Hin Hpar]%delete_mongods_states; [|done]. destruct (Hst _ _ Hin) as [m Hm'].
    exists m. by apply delete_mongods_lookup.
  - intros pid p. unfold delete_mongods. simpl. intros [Hin Hno]%map_lookup_filter_Some.
    destruct (Hp _ _ Hin) as (? & ? & Hmid). split_and!; [done..|].
    simpl in Hno. rewrite cascade_ok in Hno by done.
    destruct (Problem_MongodID p) as [mid|]; [|done]. destruct Hmid as [m Hm']. exists m. by apply delete_mongods_lookup.
Qed.

Lemma same_layout_keys d d' : same_layout d d' → foreign_keys d → foreign_keys d'.
Proof.
  intros Hsame (Hs & Hm & Hst & Hp). pose proof (λ sid st, same_layout_parent d d' sid st Hsame) as Hpar.
  destruct Hsame as [Es Em Er [= Eg Ee Ep] Epar _].
  split_and!; unfold slave_keys, mongod_keys, state_keys, problem_keys in *; rewrite ?Es, ?Em, ?Er, ?Eg, ?Ee, ?Ep; try done.
  - intros id m Hin. destruct (Hm _ _ Hin) as (? & ? & ? & ? & [st Hd] & Ho). split_and!; try done.
    + destruct (Hpar _ _ Hd) as (st' & ? & _). by exists st'.
    + destruct (Mongod_ObservedStateID m) as [o|]; [|done]. destruct Ho as [st' Ho].
      destruct (Hpar _ _ Ho) as (st2 & ? & _). by exists st2.
  - intros sid st Hin. specialize (Epar sid). rewrite Hin in Epar.
    destruct (mongod_states d !! sid) as [st0|] eqn:H0; [|done]. injection Epar as _ -> _ . by apply (Hst sid).
Qed.

Lemma grown_keys d d' : db_ok d → grown d d' → foreign_keys d → foreign_keys d'.
Proof.
  intros Hok Hg Hk. generalize dependent d'. refine (grown_ind d _ Hk _).
  intros d1 d2 p _ [r s mid sid port Hr Hs _ _ _ _ Hfresh] (Hks & Hm & Hst & Hp). split_and!; simpl.
  - done.
  - intros id m Hin. apply (spawn_mongods d1 mid sid port s r) in Hin as [[-> ->]|Hin]; [| |done].
    + unfold mongod_keys. simpl. rewrite lookup_insert_eq. split_and!; try done; by eexists.
    + destruct (Hm _ _ Hin) as (? & ? & ? & ? & [st Hd] & Ho). unfold mongod_keys. split_and!; try done; simpl.
      * rewrite lookup_insert_is_Some'. right. by eexists.
      * destruct (Mongod_ObservedStateID m); [|done]. simpl. rewrite lookup_insert_is_Some'. by right.
  - intros id st [[<- <-]|[_ Hin]]%lookup_insert_Some; unfold state_keys; simpl; rewrite lookup_insert_is_Some'; [by left|right].
    by apply (Hst id).
  - intros id q Hin. destruct (Hp _ _ Hin) as (? & ? & Hmid). split_and!; [done..|].
    destruct (Problem_MongodID q); [|done]. simpl. rewrite lookup_insert_is_Some'. by right.
Qed.

Lemma grown_member_slots d d' : grown d d' → member_slots d → member_slots d'.
Proof.
  intros Hg Hslots. generalize dependent d'. apply (grown_ind d _ Hslots).
  intros d1 d2 p _ [r s mid sid port _ _ _ _ _ _ Hfresh] Hd1 id1 id2 m1 m2.
  rewrite !spawn_mongods by done. pose proof (fresh_port _ _ _ _ _ Hfresh) as Hport.
  intros [[-> ->]|H1] [[-> ->]|H2] Hm1 Hm2 Hpar Hp; simpl in *; [done| | |by apply (Hd1 _ _ m1 m2)].
  - by destruct (Hport id2 m2 H2).
  - by destruct (Hport id1 m1 H1).
Qed.

Lemma grown_told_apart d d' : grown d d' → told_apart d → told_apart d'.
Proof.
  intros Hg Hapart. generalize dependent d'. apply (grown_ind d _ Hapart).
  intros d1 d2 p _ [r s mid sid port _ _ _ _ _ _ Hfresh] Hd1 id1 id2 m1 m2.
  rewrite !spawn_mongods by done. pose proof (fresh_port _ _ _ _ _ Hfresh) as Hport.
  intros [[-> ->]|H1] [[-> ->]|H2] Heq; simpl in *; [done| | |by apply (Hd1 _ _ m1 m2)].
  - injection Heq as Hpar Hp _. by destruct (Hport id2 m2 H2).
  - injection Heq as Hpar Hp _. by destruct (Hport id1 m1 H1).
Qed.

Section compiled.
Context {has_bus : bool} {d d1 d2 d3 : db} {unsat : list Z} {ms : list StatusMessage}.
Context (Hd : consistent d) (Hrun : compiled has_bus d d1 d2 d3 unsat ms).

Lemma compiled_tables : slaves d3 = slaves d ∧ replica_sets d3 = replica_sets d ∧ risk_groups d3 = risk_groups d.
Proof.
  destruct Hrun as [-> Hsame _ Hg _ _]. destruct (grown_tables _ _ Hg) as [Es Er].
  pose proof (grown_others _ _ Hg) as [= Eg _ _]. pose proof (same_others _ _ Hsame) as [= Eg' _ _].
  rewrite Es, Er, Eg, Eg'. split_and!; [by rewrite (same_slaves _ _ Hsame)|by rewrite (same_replica_sets _ _ Hsame)|done].
Qed.

Lemma compiled_consistent : consistent d3.
Proof.
  destruct compiled_tables as (Es & Er & Eg). destruct Hrun as [-> Hsame _ Hg _ _].
  destruct Hd as [Hok Hapart Hslots Hfit Hs Hids Hr Hgr Hu Hn Hgn Hkeyed Herr].
  assert (db_ok d2) as Hok2 by (eapply same_layout_ok; [done|by apply cleaned_ok]).
  split; rewrite ?Es, ?Er, ?Eg; try done.
  - by eapply grown_ok.
  - apply (grown_told_apart d2); [done|]. intros id1 id2 m1 m2. rewrite (same_mongods _ _ Hsame).
    intros H1%cleaned_mongods H2%cleaned_mongods; [by apply Hapart|done..].
  - apply (grown_member_slots d2); [done|]. intros id1 id2 m1 m2. rewrite (same_mongods _ _ Hsame).
    intros H1%cleaned_mongods H2%cleaned_mongods; [by apply Hslots|done..].
  - intros id m s Hm Hmem Hs'. destruct (mongods d2 !! id) as [m2|] eqn:Hm2.
    + pose proof (grown_mongods _ _ _ _ Hg Hm2). assert (m2 = m) as -> by congruence.
      rewrite (same_mongods _ _ Hsame) in Hm2. apply cleaned_mongods in Hm2; [|done].
      rewrite Es in Hs'. by apply (Hfit id m s).
    + destruct (grown_well_placed d2 _ _ _ Hg Hm Hm2) as (s' & rid & Hplaced).
      destruct Hplaced as [Hpar _ _ Hport _ _ _]. unfold in_range. congruence.
  - eapply grown_keyed; [done|]. eapply same_layout_keyed; [done|]. by apply cleaned_keyed.
  - pose proof (grown_others _ _ Hg) as [= _ Ee _]. pose proof (same_others _ _ Hsame) as [= _ Ee' _].
    by rewrite Ee, Ee'.
Qed.

Lemma compiled_keys : foreign_keys d → foreign_keys d3.
Proof.
  intros Hk. destruct Hrun as [-> Hsame _ Hg _ _]. pose proof (cons_ok _ Hd) as Hok.
  assert (db_ok (mark_orphaned d)) as Hokm by (eapply same_layout_ok; [apply mark_orphaned_layout|done]).
  eapply grown_keys; [|done|].
  - eapply same_layout_ok; [done|by apply cleaned_ok].
  - eapply same_layout_keys; [done|]. unfold cleaned, remove_destroyed. apply delete_mongods_keys; [done|].
    eapply same_layout_keys; [apply mark_orphaned_layout|done].
Qed.
End compiled.
