(* ===== verification/ApiRules.v ===== *)
(** * The HTTP API: what a request may do

    The outcomes of an exchange, the rules for the steps the handlers share, and one
    specification per handler. *)

From stdpp Require Import base gmap sets list strings fin_maps relations.
From Stdlib Require Import Lia.
From S2P Require Import Prelude Msp Model Database Orm Store Strconv Allocator AllocatorRemoval AllocatorAdd AllocatorSpec.
From S2P Require Import Api ApiServer ApiHandlers ApiInvariant ProblemManager.

Open Scope Z_scope.
Set Warnings "-clear-no-such-hyp".

(** The proofs below run the handlers step by step. *)
#[global] Arguments wp : simpl never.
#[global] Arguments masterapi.changeToReplicaSetAllowed : simpl never.
#[global] Arguments IsIntegrityConstraintViolation : simpl never.

(** A request arrives: no transaction is open, nothing is answered. *)
Definition arrival (d : db) (c : conn) : exchange := mkExchange d c false None [].

(** The database between requests. *)
Record sound (d : db) : Prop := {
  sound_consistent : consistent d;
  sound_keys : foreign_keys d
}.

(** What [CompileMongodLayout] makes of a database. *)
Definition allocated (has_bus : bool) (d d' : db) : Prop :=
  ∃ d1 d2 unsat ms, compiled has_bus d d1 d2 d' unsat ms.

Lemma allocated_consistent has_bus d d' : allocated has_bus d d' → consistent d → consistent d'.
Proof. intros (d1 & d2 & unsat & ms & Hrun) Hd. by eapply compiled_consistent. Qed.

(** The two ways a handler that changes something ends: nothing is committed and the
    client is told so, or its change [P], completed by [finish], is committed and the
    client is told 200. *)
Inductive settled (finish : db → db → Prop) (P : db → Prop) (d : db) (x' : exchange) : Prop :=
  | settled_refused : ex_committed x' = d → final_status x' ≠ 200 → settled finish P d x'
  | settled_done d1 : P d1 → consistent d1 → finish d1 (ex_committed x') → foreign_keys (ex_committed x') →
      final_status x' = 200 → settled finish P d x'.

Lemma settled_mono finish (P P' : db → Prop) d x' : (∀ d1, P d1 → P' d1) → settled finish P d x' → settled finish P' d x'.
Proof. intros HP [? ?|d1 ? ? ? ? ?]; [by apply settled_refused|by apply (settled_done _ _ _ _ d1); [apply HP|..]]. Qed.

Lemma settled_sound has_bus P d x' : sound d → settled (allocated has_bus) P d x' → sound (ex_committed x').
Proof. intros Hd [-> _|d1 _ Hd1 Hrun Hk _]; [done|]. split; [by eapply allocated_consistent|done]. Qed.

(** A panic leaves what is committed alone. *)
Abbreviation aborted d := (λ (_ : goval) x', ex_committed x' = d).

Section rules.
Context `{ENG : Engine} `{ORM : Gorm} `{API : GormStore} (has_bus : bool).
Implicit Types (x : exchange).

Lemma wp_answer code o (Q : unit → exchange → Prop) E x :
  Q tt (mkExchange (ex_committed x) (ex_tx x) (ex_open x) (Some (default code (ex_status x))) (ex_body x ++ [o])) →
  wp (answer code o) Q E x.
Proof. done. Qed.

Lemma wp_write o (Q : unit → exchange → Prop) E x :
  Q tt (mkExchange (ex_committed x) (ex_tx x) (ex_open x) (Some (default 200 (ex_status x))) (ex_body x ++ [o])) →
  wp (write o) Q E x.
Proof. done. Qed.

Lemma wp_WriteHeader code (Q : unit → exchange → Prop) E x :
  Q tt (mkExchange (ex_committed x) (ex_tx x) (ex_open x) (Some (default code (ex_status x))) (ex_body x)) →
  wp (WriteHeader code) Q E x.
Proof. done. Qed.

Lemma wp_Begin (Q : unit → exchange → Prop) E x :
  Q tt (mkExchange (ex_committed x) (with_db (ex_committed x) (ex_tx x)) true (ex_status x) (ex_body x)) → wp Begin Q E x.
Proof. done. Qed.

Lemma wp_end_tx (Q : unit → exchange → Prop) E x :
  ex_open x = true →
  Q tt (mkExchange (ex_committed x) (with_db (ex_committed x) (ex_tx x)) false (ex_status x) (ex_body x)) → wp end_tx Q E x.
Proof. intros Hopen HQ. unfold end_tx, wp, mbind, gom_bind, Rollback. by rewrite Hopen. Qed.

Lemma wp_run_tx {A} (m : GoM conn A) Q E x :
  wp m (λ a c, Q a (set_tx c x)) (λ v c, E v (set_tx c x)) (ex_tx x) → wp (run_tx m) Q E x.
Proof. apply wp_in_part. Qed.

Lemma wp_CompileMongodLayout c Q E :
  db_ok (cdb c) → (∀ c', allocated has_bus (cdb c) (cdb c') → Q None c') → (∀ v c', E v c') →
  wp (CompileMongodLayout has_bus) Q E c.
Proof.
  intros Hok HQ HE. pose proof (compileBody_spec True ltac:(done) has_bus c Hok ltac:(done)) as Hbody.
  unfold wp, CompileMongodLayout in *. destruct (compileBody has_bus c) as [c' [res|v|]]; [| |done].
  - destruct Hbody as (-> & d1 & d2 & unsat & ms & _ & Hrun). apply HQ. by exists d1, d2, unsat, ms.
  - destruct Hbody as [_ (e & ->)]. unfold deferred_recover.
    rewrite decide_False by done. rewrite decide_False by done. apply HE.
Qed.

Lemma wp_attemptClusterAllocator x Q E :
  db_ok (cdb (ex_tx x)) →
  (∀ c', allocated has_bus (cdb (ex_tx x)) (cdb c') → Q None (set_tx c' x)) → (∀ v c', E v (set_tx c' x)) →
  wp (attemptClusterAllocator has_bus) Q E x.
Proof.
  intros Hok HQ HE. unfold attemptClusterAllocator. wp_step. apply wp_run_tx, wp_CompileMongodLayout; [done| |done].
  intros c' Hrun. wp_step. by apply HQ.
Qed.

(** [attemptCommit] publishes the transaction or answers 500. *)
Lemma wp_attemptCommit x Q E :
  ex_open x = true →
  (∀ c', foreign_keys (cdb (ex_tx x)) → Q None (mkExchange (cdb (ex_tx x)) c' false (ex_status x) (ex_body x))) →
  (∀ e c' body, Q (Some e) (mkExchange (ex_committed x) c' false (Some (default 500 (ex_status x))) body)) →
  wp attemptCommit Q E x.
Proof.
  intros Hopen HQ HF. unfold attemptCommit, wp, mbind, gom_bind, Commit. rewrite Hopen.
  destruct (eng_fault _); [apply HF|]. destruct (decide _); [by apply HQ|apply HF].
Qed.

Lemma wp_allocate_and_commit d c body :
  consistent (cdb c) →
  wp (allocate_and_commit has_bus) (λ _ x', settled (allocated has_bus) (eq (cdb c)) d x') (aborted d)
    (mkExchange d c true None body).
Proof.
  intros Hc. unfold allocate_and_commit. wp_step. apply wp_attemptClusterAllocator; [apply Hc| |done].
  intros c' Hrun. wp_step. apply wp_attemptCommit; [done| |].
  - intros c2 Hk. wp_step. by apply (settled_done _ _ _ _ (cdb c)).
  - intros e c2 body'. wp_step. by apply settled_refused.
Qed.

(** The database after a [Delete], and the number of rows it reports. *)
Definition deleted {R} `{Deletable R} (id : Z) (d : db) : db :=
  if decide (id = 0) then foldr delete_row d (table_keys (R := R) d) else delete_row id d.

Lemma wp_orm_delete {R} `{Deletable R} id Q E c :
  (∀ rows, (rows ≠ 0 → id ≠ 0 → is_Some (table (R := R) (cdb c) !! id)) →
     Q (rows, None) (with_db (deleted (R := R) id (cdb c)) c)) →
  (∀ e, Q (0, Some e) (tick c)) →
  wp (orm_delete R id) Q E c.
Proof.
  intros HQ HF. unfold wp, orm_delete. pose proof (gorm_delete_law (R := R) (cstmts c) (cdb c) id) as Hlaw.
  destruct (gorm_delete _ _ _) as [d' [rows [e|]]]; [destruct Hlaw as [-> ->]; apply HF|].
  revert Hlaw HQ. unfold deleted. case_decide as Hid.
  - intros [-> ->] HQ. by apply HQ.
  - intros [-> ->] HQ. apply HQ. by case_decide.
Qed.
End rules.

(** One step of a handler, and a branch that ends by refusing the request. *)
Ltac api_step :=
  first [ wp_step | apply wp_answer | apply wp_write | apply wp_WriteHeader | apply wp_Begin
        | apply wp_end_tx; [reflexivity|] | apply wp_run_tx ].
Ltac refused :=
  unfold answer_error, cannot_parse, bad_request, bad_id;
  repeat first [ wp_step | apply wp_answer | apply wp_write | apply wp_WriteHeader | apply wp_end_tx; [reflexivity|] ];
  apply settled_refused; [done|unfold final_status; simpl; repeat case_match; done].
