(* ===== verification/ApiSlaves.v ===== *)
(** * The HTTP API: the handlers of slaves *)

From stdpp Require Import base gmap sets list strings fin_maps relations.
From Stdlib Require Import Lia.
From S2P Require Import Prelude Msp Model Database Orm Store Strconv Allocator AllocatorRemoval AllocatorAdd AllocatorSpec.
From S2P Require Import Api ApiServer ApiHandlers ApiInvariant ApiRules.

Open Scope Z_scope.
Set Warnings "-clear-no-such-hyp".

(** ** The conversion and the permission *)

Lemma check_ports_none g l : masterapi.check_ports g l = None → Forall (λ p, PortNumberMin ≤ p ≤ PortNumberMax) l.
Proof.
  induction l as [|p l IH]; simpl; [done|]. unfold masterapi.assertIsPortNumber. case_decide as Hp; [done|].
  intros Hl. constructor; [lia|by apply IH].
Qed.

Lemma project_state s st : masterapi.SlaveJSONRepresentationToStruct s = Ok st →
  st ∈ [SlaveStateActive; SlaveStateMaintenance; SlaveStateDisabled] ∧ masterapi.SlaveStateToJSONRepresentation st = s.
Proof.
  unfold masterapi.SlaveJSONRepresentationToStruct. repeat case_decide; intros [= <-]; subst; (split; [|done]); set_solver.
Qed.

Lemma port_wrap_id p : PortNumberMin ≤ p ≤ PortNumberMax → port_wrap p = p.
Proof. unfold PortNumberMin, PortNumberMax, port_wrap. intros. apply Z.mod_small. lia. Qed.

(** What a slave that passes the validation becomes. *)
Lemma project_slave p s : masterapi.ProjectSlaveToModelSlave p = Ok s →
  valid_slave s ∧
  s = mkSlave (masterapi.ID p) (masterapi.Hostname p) (masterapi.Port p) (masterapi.MongodPortRangeBegin p)
        (masterapi.MongodPortRangeEnd p) (masterapi.Slave_PersistentStorage p) (Slave_ConfiguredState s)
        (masterapi.RiskGroupID p) None ∧
  masterapi.SlaveStateToJSONRepresentation (Slave_ConfiguredState s) = masterapi.ConfiguredState p.
Proof.
  unfold masterapi.ProjectSlaveToModelSlave. destruct (masterapi.check_ports _ _) eqn:Hports; [done|].
  apply check_ports_none in Hports. repeat rewrite Forall_cons in Hports. destruct Hports as (H1 & H2 & H3 & _).
  case_decide as Hhost; [done|]. case_decide as Hrange; [done|].
  destruct (masterapi.SlaveJSONRepresentationToStruct _) as [st|] eqn:Hst; [|done]. intros [= <-].
  apply project_state in Hst as [Hst Hst']. rewrite !port_wrap_id by done. split_and!; [|by destruct (masterapi.RiskGroupID p)|done].
  split; simpl; try done; lia.
Qed.

(** The fields whose change needs a permission. *)
Definition same_configuration (s0 s1 : Slave) : Prop :=
  Slave_ID s0 = Slave_ID s1 ∧ Slave_Hostname s0 = Slave_Hostname s1 ∧ Slave_Port s0 = Slave_Port s1 ∧
  Slave_MongodPortRangeBegin s0 = Slave_MongodPortRangeBegin s1 ∧ Slave_MongodPortRangeEnd s0 = Slave_MongodPortRangeEnd s1 ∧
  Slave_PersistentStorage s0 = Slave_PersistentStorage s1 ∧ Slave_RiskGroupID s0 = Slave_RiskGroupID s1.

Definition hosts_nothing (d : db) (s : Slave) : Prop := ∀ id m, mongods d !! id = Some m → Mongod_ParentSlaveID m ≠ Slave_ID s.

(** Only the state changes; or the slave is out of service, and keeps its ports and
    its persistence as long as it hosts mongods. *)
Definition slave_change_allowed (d : db) (s0 s1 : Slave) : Prop :=
  same_configuration s0 s1 ∨
  ((Slave_ConfiguredState s0 = SlaveStateDisabled ∨ Slave_ConfiguredState s0 = SlaveStateMaintenance) ∧
   (hosts_nothing d s0 ∨
    (Slave_MongodPortRangeBegin s1 ≤ Slave_MongodPortRangeBegin s0 ∧
     Slave_MongodPortRangeEnd s0 ≤ Slave_MongodPortRangeEnd s1 ∧
     Slave_PersistentStorage s1 = Slave_PersistentStorage s0))).

(** Reading the state of a slave for an answer. *)
Lemma read_only_slave `{ENG : Engine} `{ORM : Gorm} s : read_only (masterapi.ProjectModelSlaveToSlave s).
Proof.
  unfold masterapi.ProjectModelSlaveToSlave, masterapi.SlaveConfiguredStateTransitioning. read_only_tac.
Qed.

Section slaves.
Context `{ENG : Engine} `{ORM : Gorm} `{API : GormStore} (has_bus : bool).

Lemma related_nil n d s : select n (hosted_on (Slave_ID s)) (mongods d) = [] ↔ hosts_nothing d s.
Proof.
  split.
  - intros Hnil id m Hm Hpar. assert (m ∈ select n (hosted_on (Slave_ID s)) (mongods d)) as Hin.
    { apply elem_of_select. exists id. split; [done|]. by apply bool_decide_eq_true. }
    rewrite Hnil in Hin. by apply not_elem_of_nil in Hin.
  - intros Hno. destruct (select _ _ _) as [|m l] eqn:Hsel; [done|].
    assert (m ∈ select n (hosted_on (Slave_ID s)) (mongods d)) as Hin by (rewrite Hsel; left).
    apply elem_of_select in Hin as (id & Hm & Hh%bool_decide_eq_true). by destruct (Hno id m Hm).
Qed.

Lemma same_configuration_spec s0 s1 :
  (bool_decide (Slave_ID s0 = Slave_ID s1) && bool_decide (Slave_Hostname s0 = Slave_Hostname s1) &&
   bool_decide (Slave_Port s0 = Slave_Port s1) &&
   bool_decide (Slave_MongodPortRangeBegin s0 = Slave_MongodPortRangeBegin s1) &&
   bool_decide (Slave_MongodPortRangeEnd s0 = Slave_MongodPortRangeEnd s1) &&
   bool_decide (Slave_PersistentStorage s0 = Slave_PersistentStorage s1) &&
   bool_decide (Slave_RiskGroupID s0 = Slave_RiskGroupID s1) = true) ↔ same_configuration s0 s1.
Proof. unfold same_configuration. rewrite !andb_true_iff, !bool_decide_eq_true. tauto. Qed.

Lemma wp_changeToSlaveAllowed s0 s1 Q E c :
  (∀ c', cdb c' = cdb c → slave_change_allowed (cdb c) s0 s1 → Q (None, None) c') →
  (∀ e c', cdb c' = cdb c → ¬ slave_change_allowed (cdb c) s0 s1 → Q (Some e, None) c') →
  (∀ e c', cdb c' = cdb c → Q (None, Some e) c') →
  wp (masterapi.changeToSlaveAllowed s0 s1) Q E c.
Proof.
  intros HOk HNo HErr. unfold masterapi.changeToSlaveAllowed.
  destruct (_ && _) eqn:Hsame; [apply wp_ret, HOk; [done|left; by apply same_configuration_spec]|].
  assert (¬ same_configuration s0 s1) as Hdiff by (rewrite <- same_configuration_spec, Hsame; done).
  unfold slave_change_allowed in *.
  destruct (bool_decide (_ ≠ SlaveStateDisabled) && _) eqn:Hactive.
  { apply andb_true_iff in Hactive as [H1%bool_decide_eq_true H2%bool_decide_eq_true]. apply wp_ret, HNo; [done|tauto]. }
  assert (Slave_ConfiguredState s0 = SlaveStateDisabled ∨ Slave_ConfiguredState s0 = SlaveStateMaintenance) as Hout.
  { apply andb_false_iff in Hactive as [H|H]; apply bool_decide_eq_false in H; [left|right]; by apply dec_stable. }
  clear Hsame Hactive. wp_step. unfold masterapi.RelatedMongods. apply wp_sql_query; [|by intros; apply wp_ret, HErr].
  destruct (bool_decide (select _ _ _ ≠ [])) eqn:Hrel; [apply bool_decide_eq_true in Hrel|apply bool_decide_eq_false in Hrel].
  - assert (¬ hosts_nothing (cdb c) s0) as Hhosts by by intros H%(related_nil (cstmts c)).
    destruct (_ || _) eqn:Hrange.
    + apply orb_true_iff in Hrange. rewrite !bool_decide_eq_true in Hrange. apply wp_ret, HNo; [done|].
      intros [?|[_ [?|(? & ? & _)]]]; [done|done|lia].
    + apply orb_false_iff in Hrange as [H1%bool_decide_eq_false H2%bool_decide_eq_false].
      clear Hrel. case_bool_decide as Hpers; apply wp_ret; [apply HNo|apply HOk]; [done| |done|].
      * intros [?|[_ [?|(_ & _ & ?)]]]; done.
      * right. split; [done|right]. split_and!; [lia|lia|done].
  - apply wp_ret, HOk; [done|]. right. split; [done|left]. apply (related_nil (cstmts c)). by apply dec_stable.
Qed.

(** ** [SlaveUpdate] *)

(** The row that replaces the one of the slave; it has no observation error. *)
Definition slave_updated (idStr : string) (body : gres masterapi.Slave) (d d1 : db) : Prop :=
  ∃ post s0 s1, ParseInt 64 idStr = Some (masterapi.ID post) ∧ body = Ok post ∧
    slaves d !! masterapi.ID post = Some s0 ∧ masterapi.ProjectSlaveToModelSlave post = Ok s1 ∧
    slave_change_allowed d s0 s1 ∧ d1 = set_slaves (<[masterapi.ID post := s1]> (slaves d)) d.

Lemma change_fits d s0 s1 id m :
  consistent d → slaves d !! Slave_ID s0 = Some s0 → Slave_ID s1 = Slave_ID s0 → slave_change_allowed d s0 s1 →
  mongods d !! id = Some m → is_member m → Mongod_ParentSlaveID m = Slave_ID s1 → in_range s1 (Mongod_Port m).
Proof.
  intros Hd Hs0 Hid Hallowed Hm Hmem Hpar. rewrite Hid in Hpar.
  pose proof (cons_fit _ Hd id m s0 Hm Hmem ltac:(congruence)) as Hin. unfold in_range in *.
  destruct Hallowed as [(_ & _ & _ & <- & <- & _)|[_ [Hno|(? & ? & _)]]]; [done|by destruct (Hno id m Hm)|lia].
Qed.

Lemma SlaveUpdate_spec idStr body d c :
  sound d →
  wp (SlaveUpdate has_bus idStr body)
    (λ _ x', settled (allocated has_bus) (slave_updated idStr body d) d x') (aborted d) (arrival d c).
Proof.
  intros [Hd _]. unfold SlaveUpdate. destruct (ParseInt 64 idStr) as [id|] eqn:Hid; [|refused].
  destruct body as [post|err]; [|refused]. case_decide as Heq; [refused|]. subst id. unfold masterapi.assertNoZeroFieldsSet.
  do 2 api_step. api_step. apply wp_run_tx, wp_orm_first_id; [|intros _; refused|intros e Hne _; destruct e; refused].
  simpl. intros s0 Hs0. pose proof (ok_slave_key _ (cons_ok _ Hd) _ _ Hs0) as Hkey.
  destruct (masterapi.ProjectSlaveToModelSlave post) as [s1|err] eqn:Hproj; [|refused].
  destruct (project_slave _ _ Hproj) as (Hvalid & Hs1 & _).
  assert (Slave_ID s1 = masterapi.ID post) as Hid1 by by rewrite Hs1.
  api_step. apply wp_run_tx, wp_changeToSlaveAllowed; [|intros; refused|intros; refused].
  simpl. intros c1 Hc1 Hallowed. api_step. apply wp_run_tx, wp_orm_save; simpl.
  - rewrite Hid1. pose proof (cons_slave_ids _ Hd _ _ Hs0). lia.
  - rewrite Hid1, Hc1. by eexists.
  - rewrite Hid1, Hc1. intros Hfree. eapply wp_mono; [apply wp_allocate_and_commit| |done].
    + simpl. rewrite <- Hid1. apply put_slave_consistent; [done..| | |].
      * rewrite Hid1. by eapply cons_slave_ids.
      * by rewrite Hid1.
      * intros id m. apply (change_fits d s0 s1); [done|congruence|congruence|done].
    + intros [] x'. apply settled_mono. intros d1 <-. by exists post, s0, s1.
  - intros e _. refused.
Qed.

(** ** [SlaveDelete] *)

(** Only a slave that is disabled or hosts nothing is deleted. *)
Definition slave_removed (idStr : string) (d d1 : db) : Prop :=
  ∃ id s, ParseInt 64 idStr = Some id ∧ slaves d !! id = Some s ∧
    (Slave_ConfiguredState s = SlaveStateDisabled ∨ hosts_nothing d s) ∧ d1 = delete_slave d id.

Lemma SlaveDelete_spec idStr d c :
  sound d →
  wp (SlaveDelete has_bus idStr)
    (λ _ x', settled (allocated has_bus) (slave_removed idStr d) d x') (aborted d) (arrival d c).
Proof.
  intros [Hd _]. unfold SlaveDelete. destruct (ParseInt 64 idStr) as [id|] eqn:Hid; [|refused].
  do 2 api_step. api_step. apply wp_run_tx, wp_orm_first_id; [|intros _; refused|intros e _ _; refused].
  simpl. intros s Hs. pose proof (cons_slave_ids _ Hd _ _ Hs) as Hpos.
  api_step. apply wp_run_tx, wp_sql_query; [|intros; refused]. simpl.
  destruct (bool_decide (select _ _ _ ≠ []) && _) eqn:Hguard; [refused|].
  api_step. apply wp_run_tx, wp_orm_delete; [|intros; refused].
  simpl. intros rows _. destruct (decide (rows = 0)); [refused|].
  unfold deleted. rewrite decide_False by lia. eapply wp_mono; [apply wp_allocate_and_commit| |done].
  - by apply delete_slave_consistent.
  - intros [] x'. apply settled_mono. intros d1 <-. exists id, s. split_and!; [done..| |done].
    apply andb_false_iff in Hguard. rewrite !bool_decide_eq_false in Hguard.
    destruct Hguard as [Hno|Hno]; [right|left]; [|by apply dec_stable].
    apply (related_nil (cstmts (tick (with_db d c)))). by apply dec_stable.
Qed.

(** ** [SlavePut] *)

Definition slave_created (body : gres masterapi.Slave) (d d1 : db) : Prop :=
  ∃ post s id, body = Ok post ∧ masterapi.ID post = 0 ∧ masterapi.ProjectSlaveToModelSlave post = Ok s ∧
    0 < id ∧ slaves d !! id = None ∧ d1 = set_slaves (<[id := set_row_id id s]> (slaves d)) d.

(** The client is told 200 and nothing is committed. *)
Definition lost (d : db) (x' : exchange) : Prop := ex_committed x' = d ∧ final_status x' = 200.

Lemma set_row_id_valid id s : valid_slave s → valid_slave (set_row_id id s).
Proof. intros []. by split. Qed.

Lemma created_consistent d id s :
  consistent d → valid_slave s → 0 < id → slaves d !! id = None → ¬ conflicts d id s →
  consistent (set_slaves (<[id := set_row_id id s]> (slaves d)) d).
Proof.
  intros Hd Hvalid Hpos Hnone Hfree. refine (put_slave_consistent d Hd (set_row_id id s) _ _ _ _); [by apply set_row_id_valid|done|done|].
  simpl. intros mid m Hm _ Hpar. destruct (ok_parent _ (cons_ok _ Hd) _ _ Hm) as [s' Hs']. congruence.
Qed.

(** The answer is written before the commit is attempted. *)
Lemma SlavePut_spec body d c :
  sound d →
  wp (SlavePut has_bus body)
    (λ _ x', settled (allocated has_bus) (slave_created body d) d x' ∨ lost d x') (aborted d) (arrival d c).
Proof.
  intros [Hd _]. unfold SlavePut. destruct body as [post|err]; [|left; refused].
  case_decide as Hid; [left; refused|]. destruct (masterapi.ProjectSlaveToModelSlave post) as [s|err] eqn:Hproj; [|left; refused].
  destruct (project_slave _ _ Hproj) as (Hvalid & Hs & _). do 3 api_step.
  apply wp_run_tx, wp_orm_create_unique; [by rewrite Hs| |intros; left; refused].
  simpl. intros id Hpos Hnone Hfree. pose proof (created_consistent _ _ _ Hd Hvalid Hpos Hnone Hfree) as Hd1.
  api_step. apply wp_attemptClusterAllocator; [apply Hd1| |done]. simpl. intros c1 Hrun.
  api_step. apply wp_run_tx. eapply wp_mono; [apply read_only_slave| |done]. simpl.
  intros [apiSlave|err] c2 [Hc2 _]; [|left; refused]. do 2 api_step. api_step. apply wp_attemptCommit; [done| |].
  - intros c3 Hk. wp_step. left. apply (settled_done _ _ _ _ (set_slaves (<[id := set_row_id id s]> (slaves d)) d)); try done.
    + exists post, s, id. split_and!; [done|lia|done..].
    + simpl in *. by rewrite Hc2.
  - intros e c3 body'. wp_step. right. done.
Qed.
End slaves.
