(* ===== verification/ApiReplicaSets.v ===== *)
(** * The HTTP API: the handlers of replica sets *)

From stdpp Require Import base gmap sets list strings fin_maps relations.
From Stdlib Require Import Lia.
From S2P Require Import Prelude Msp Model Database Orm Store Strconv Allocator AllocatorRemoval AllocatorAdd AllocatorSpec.
From S2P Require Import Api ApiServer ApiHandlers ApiInvariant ApiRules.

Open Scope Z_scope.
Set Warnings "-clear-no-such-hyp".

(** ** The conversion and the permission *)

(** Decoded counts are [uint]s. *)
Definition typed_replica_set (body : gres masterapi.ReplicaSet) : Prop :=
  match body with
  | Ok p => 0 ≤ masterapi.PersistentNodeCount p < 2 ^ 64 ∧ 0 ≤ masterapi.VolatileNodeCount p < 2 ^ 64
  | Err _ => True
  end.

Lemma project_role role r : masterapi.ProjectShardingRoleToModelShardingRole role = Ok r →
  r = role ∧ r ∈ [ShardingRoleNone; ShardingRoleShardServer; ShardingRoleConfigServer].
Proof.
  unfold masterapi.ProjectShardingRoleToModelShardingRole. repeat case_decide; intros [= <-]; subst; (split; [done|set_solver]).
Qed.

Lemma project_model_role r : r ∈ [ShardingRoleNone; ShardingRoleShardServer; ShardingRoleConfigServer] →
  masterapi.ProjectModelShardingRoleToShardingRole r = Ok r.
Proof.
  rewrite !elem_of_cons, elem_of_nil. by intros [->|[->|[->|[]]]].
Qed.

Lemma project_replica_set p r : masterapi.ProjectReplicaSetToModelReplicaSet p = Ok r →
  r = mkReplicaSet (masterapi.ReplicaSet_ID p) (masterapi.Name p) (masterapi.PersistentNodeCount p)
        (masterapi.VolatileNodeCount p) (masterapi.ReplicaSet_ShardingRole p) false ∧
  masterapi.Name p ≠ EmptyString ∧
  masterapi.ReplicaSet_ShardingRole p ∈ [ShardingRoleNone; ShardingRoleShardServer; ShardingRoleConfigServer].
Proof.
  unfold masterapi.ProjectReplicaSetToModelReplicaSet. case_decide; [done|].
  destruct (masterapi.ProjectShardingRoleToModelShardingRole _) as [role|] eqn:Hrole; [|done].
  intros [= <-]. by apply project_role in Hrole as [-> ?].
Qed.

(** The wrapped sum is positive only if the sum is. *)
Lemma enough_members v p msg : 0 ≤ v → 0 ≤ p →
  (if decide ((v + p) `mod` 2 ^ 64 < 1) then (false, "Replica Set must have at least one member") else (true, EmptyString))
  = (true, msg) → 1 ≤ v + p.
Proof.
  intros Hv Hp. destruct (decide (v + p = 0)) as [->|]; [done|lia].
Qed.

(** What may change of a replica set. *)
Lemma replica_set_allowed current new msg :
  masterapi.changeToReplicaSetAllowed current new = (true, msg) →
  0 ≤ ReplicaSet_PersistentMemberCount new → 0 ≤ ReplicaSet_VolatileMemberCount new →
  1 ≤ ReplicaSet_VolatileMemberCount new + ReplicaSet_PersistentMemberCount new ∧
  match current with
  | Some r0 => ReplicaSet_ShardingRole r0 = ReplicaSet_ShardingRole new ∧ ReplicaSet_Name r0 = ReplicaSet_Name new ∧
               ReplicaSet_Initiated r0 = ReplicaSet_Initiated new
  | None => ReplicaSet_Initiated new = false
  end.
Proof.
  intros Hallowed Hp Hv. unfold masterapi.changeToReplicaSetAllowed in Hallowed. destruct current as [r0|].
  - destruct (decide (Model.ReplicaSet_ShardingRole r0 ≠ _)) as [|H1]; [done|].
    destruct (decide (ReplicaSet_Name r0 ≠ _)) as [|H2]; [done|].
    destruct (decide (ReplicaSet_Initiated r0 ≠ _)) as [|H3]; [done|].
    apply enough_members in Hallowed; [|done..]. split_and!; [done|by apply dec_stable..].
  - destruct (decide (ReplicaSet_Initiated new ≠ false)) as [|H1]; [done|].
    apply enough_members in Hallowed; [|done..]. split; [done|by apply dec_stable].
Qed.

Section replica_sets.
Context `{ENG : Engine} `{ORM : Gorm} `{API : GormStore} (has_bus : bool).

(** ** [ReplicaSetPut] *)

Definition replica_set_created (body : gres masterapi.ReplicaSet) (d d1 : db) : Prop :=
  ∃ post id, body = Ok post ∧ masterapi.ReplicaSet_ID post = 0 ∧ 0 < id ∧ replica_sets d !! id = None ∧
    d1 = set_replica_sets (<[id := mkReplicaSet id (masterapi.Name post) (masterapi.PersistentNodeCount post)
           (masterapi.VolatileNodeCount post) (masterapi.ReplicaSet_ShardingRole post) false]> (replica_sets d)) d.

Lemma ReplicaSetPut_spec body d c :
  sound d → typed_replica_set body →
  wp (ReplicaSetPut has_bus body)
    (λ _ x', settled (allocated has_bus) (replica_set_created body d) d x') (aborted d) (arrival d c).
Proof.
  intros [Hd _] Htyped. unfold ReplicaSetPut. destruct body as [post|err]; [|refused]. destruct Htyped as [Hp Hv].
  case_decide as Hid; [refused|]. destruct (masterapi.ProjectReplicaSetToModelReplicaSet post) as [r|err] eqn:Hproj; [|refused].
  apply project_replica_set in Hproj as (-> & Hname & Hrole). do 2 api_step.
  destruct (masterapi.changeToReplicaSetAllowed _ _) as [[|] msg] eqn:Hallowed; [|refused].
  apply replica_set_allowed in Hallowed as [Hmembers _]; simpl in *; [|lia..].
  api_step. apply wp_run_tx, wp_orm_create_unique; [simpl; lia| |intros; refused].
  simpl. intros id Hpos Hnone Hfree.
  set (r := mkReplicaSet id _ _ _ _ _). set (d1 := set_replica_sets (<[id := r]> (replica_sets d)) d).
  assert (consistent d1) as Hd1 by (apply (put_replica_set_consistent d Hd r); [done|split; simpl; [done|lia|lia|done]|done]).
  api_step. apply wp_attemptClusterAllocator; [apply Hd1| |done]. simpl. intros c1 Hrun.
  api_step. unfold masterapi.ProjectModelReplicaSetToReplicaSet. simpl. rewrite project_model_role by done.
  apply wp_attemptCommit; [done| |].
  - intros c3 Hk. do 2 api_step. { intros a _. api_step. apply (settled_done _ _ _ _ d1); try done. exists post, id. split_and!; [done|lia|done..]. }
    done.
  - intros e c3 body'. do 2 api_step; [|done]. intros a _. api_step. by apply settled_refused.
Qed.

(** ** [ReplicaSetUpdate] *)

(** Only the member counts change; or nothing, when the error of [Save] is not looked at. *)
Definition replica_set_updated (idStr : string) (body : gres masterapi.ReplicaSet) (d d1 : db) : Prop :=
  ∃ post id r0, ParseInt 64 idStr = Some id ∧ body = Ok post ∧ replica_sets d !! id = Some r0 ∧
    (d1 = d ∨
     d1 = set_replica_sets (<[id := mkReplicaSet id (ReplicaSet_Name r0) (masterapi.PersistentNodeCount post)
            (masterapi.VolatileNodeCount post) (ReplicaSet_ShardingRole r0) (ReplicaSet_Initiated r0)]> (replica_sets d)) d).

Lemma ReplicaSetUpdate_spec idStr body d c :
  sound d → typed_replica_set body →
  wp (ReplicaSetUpdate has_bus idStr body)
    (λ _ x', settled (allocated has_bus) (replica_set_updated idStr body d) d x') (aborted d) (arrival d c).
Proof.
  intros [Hd _] Htyped. unfold ReplicaSetUpdate. destruct (ParseInt 64 idStr) as [id|] eqn:Hid; [|refused].
  destruct body as [post|err]; [|refused]. destruct Htyped as [Hp Hv]. case_decide as Heq; [refused|].
  do 2 api_step. api_step. apply wp_run_tx, wp_orm_first_id; [|intros _; refused|intros e Hne _; destruct e; refused].
  simpl. intros r0 Hr0. destruct (ok_rs_key _ (cons_ok _ Hd) _ _ Hr0) as [Hkey Hpos].
  destruct (masterapi.ProjectReplicaSetToModelReplicaSet post) as [r|err] eqn:Hproj; [|refused].
  apply project_replica_set in Hproj as (-> & Hname & Hrole). set (r := ReplicaSet_set_Initiated _ _).
  destruct (masterapi.changeToReplicaSetAllowed _ r) as [[|] msg] eqn:Hallowed; [|refused].
  apply replica_set_allowed in Hallowed as [Hmembers (E1 & E2 & _)]; simpl in *; [|lia..].
  assert (r = mkReplicaSet id (ReplicaSet_Name r0) (masterapi.PersistentNodeCount post) (masterapi.VolatileNodeCount post)
                (ReplicaSet_ShardingRole r0) (ReplicaSet_Initiated r0)) as Hr
    by (unfold r, ReplicaSet_set_Initiated; simpl; congruence).
  clearbody r. subst r. set (r1 := mkReplicaSet _ _ _ _ _ _). set (d1 := set_replica_sets (<[id := r1]> (replica_sets d)) d).
  api_step. apply wp_run_tx, wp_orm_save; simpl; [lia|by eexists| |].
  - intros Hfree. eapply wp_mono; [apply wp_allocate_and_commit| |done].
    + apply (put_replica_set_consistent d Hd r1); [done|split; simpl; [congruence|lia|lia|congruence]|done].
    + intros [] x'. apply settled_mono. intros d2 <-. exists post, id, r0. split_and!; [done..|by right].
  - intros e _. destruct (IsIntegrityConstraintViolation (Some e)); [refused|].
    eapply wp_mono; [by apply wp_allocate_and_commit| |done].
    intros [] x'. apply settled_mono. intros d2 <-. exists post, id, r0. split_and!; [done..|by left].
Qed.

(** ** [ReplicaSetDelete] *)

Definition replica_set_removed (idStr : string) (d d1 : db) : Prop :=
  ∃ id, ParseInt 64 idStr = Some id ∧
    (id ≠ 0 ∧ d1 = delete_replica_set d id ∨ id = 0 ∧ d1 = deleted (R := ReplicaSet) 0 d).

Lemma deleted_replica_sets_consistent id d : consistent d → consistent (deleted (R := ReplicaSet) id d).
Proof.
  intros Hd. unfold deleted. destruct (decide (id = 0)); [|by apply delete_replica_set_consistent].
  induction (table_keys d); simpl; [done|by apply delete_replica_set_consistent].
Qed.

Lemma ReplicaSetDelete_spec idStr d c :
  sound d →
  wp (ReplicaSetDelete has_bus idStr)
    (λ _ x', settled (allocated has_bus) (replica_set_removed idStr d) d x') (aborted d) (arrival d c).
Proof.
  intros [Hd _]. unfold ReplicaSetDelete. destruct (ParseInt 64 idStr) as [id|] eqn:Hid; [|refused].
  do 2 api_step. api_step. apply wp_run_tx, wp_orm_delete; [|intros; refused].
  simpl. intros rows _. destruct (decide (rows = 0)); [refused|].
  eapply wp_mono; [apply wp_allocate_and_commit| |done]; simpl.
  - by apply deleted_replica_sets_consistent.
  - intros [] x'. apply settled_mono. intros d1 <-. exists id. split; [done|].
    destruct (decide (id = 0)) as [->|Hne]; [by right|left]. split; [done|]. unfold deleted. by rewrite decide_False.
Qed.
End replica_sets.
