(* ===== verification/ApiRiskGroups.v ===== *)
(** * The HTTP API: the handlers of risk groups *)

From stdpp Require Import base gmap sets list strings fin_maps relations.
From Stdlib Require Import Lia.
From S2P Require Import Prelude Msp Model Database Orm Store Strconv Allocator AllocatorRemoval AllocatorAdd AllocatorSpec.
From S2P Require Import Api ApiServer ApiHandlers ApiInvariant ApiRules ApiSlaves.

Open Scope Z_scope.
Set Warnings "-clear-no-such-hyp".

Section risk_groups.
Context `{ENG : Engine} `{ORM : Gorm} `{API : GormStore} (has_bus : bool).

Lemma project_risk_group p g : masterapi.ProjectRiskGroupToModelRiskGroup p = Ok g →
  g = mkRiskGroup (masterapi.RiskGroup_ID p) (masterapi.RiskGroup_Name p) ∧ masterapi.RiskGroup_Name p ≠ EmptyString.
Proof. unfold masterapi.ProjectRiskGroupToModelRiskGroup. case_decide; by intros [= <-]. Qed.

(** ** [RiskGroupPut] and [RiskGroupUpdate] *)

Definition put_risk_group (id : Z) (name : string) (d : db) : db :=
  set_risk_groups (<[id := mkRiskGroup id name]> (risk_groups d)) d.

Definition risk_group_created (body : gres masterapi.RiskGroup) (d d1 : db) : Prop :=
  ∃ post id, body = Ok post ∧ masterapi.RiskGroup_ID post = 0 ∧ 0 < id ∧ risk_groups d !! id = None ∧
    d1 = put_risk_group id (masterapi.RiskGroup_Name post) d.

Lemma RiskGroupPut_spec body d c :
  sound d →
  wp (RiskGroupPut has_bus body)
    (λ _ x', settled (allocated has_bus) (risk_group_created body d) d x') (aborted d) (arrival d c).
Proof.
  intros [Hd _]. unfold RiskGroupPut. destruct body as [post|err]; [|refused].
  case_decide as Hid; [refused|]. destruct (masterapi.ProjectRiskGroupToModelRiskGroup post) as [g|err] eqn:Hproj; [|refused].
  apply project_risk_group in Hproj as [-> Hname]. do 3 api_step.
  apply wp_run_tx, wp_orm_create_unique; [simpl; lia| |intros; refused].
  simpl. intros id Hpos Hnone Hfree. set (d1 := put_risk_group id (masterapi.RiskGroup_Name post) d).
  assert (consistent d1) as Hd1 by (apply (put_risk_group_consistent d Hd (mkRiskGroup id _)); done).
  api_step. apply wp_attemptClusterAllocator; [apply Hd1| |done]. simpl. intros c1 Hrun.
  api_step. apply wp_attemptCommit; [done| |].
  - intros c3 Hk. api_step. apply (settled_done _ _ _ _ d1); try done. exists post, id. split_and!; [done|lia|done..].
  - intros e c3 body'. api_step. by apply settled_refused.
Qed.

(** A new name; or nothing, when the error of [Save] is not looked at. *)
Definition risk_group_updated (idStr : string) (body : gres masterapi.RiskGroup) (d d1 : db) : Prop :=
  ∃ post id, ParseInt 64 idStr = Some id ∧ body = Ok post ∧ is_Some (risk_groups d !! id) ∧
    (d1 = d ∨ d1 = put_risk_group id (masterapi.RiskGroup_Name post) d).

Lemma RiskGroupUpdate_spec idStr body d c :
  sound d →
  wp (RiskGroupUpdate has_bus idStr body)
    (λ _ x', settled (allocated has_bus) (risk_group_updated idStr body d) d x') (aborted d) (arrival d c).
Proof.
  intros [Hd _]. unfold RiskGroupUpdate. destruct (ParseInt 64 idStr) as [id|] eqn:Hid; [|refused].
  destruct body as [post|err]; [|refused]. case_decide as Heq; [refused|].
  do 2 api_step. api_step. apply wp_run_tx, wp_orm_first_id; [|intros _; refused|intros e Hne _; destruct e; refused].
  simpl. intros g0 Hg0. destruct (cons_risk_groups _ Hd _ _ Hg0) as (Hkey & Hpos & _).
  destruct (masterapi.ProjectRiskGroupToModelRiskGroup post) as [g|err] eqn:Hproj; [|refused].
  apply project_risk_group in Hproj as [-> Hname]. assert (masterapi.RiskGroup_ID post = id) as -> by lia.
  api_step. apply wp_run_tx, wp_orm_save; simpl; [lia|by eexists| |].
  - intros Hfree. eapply wp_mono; [apply wp_allocate_and_commit| |done].
    + by apply (put_risk_group_consistent d Hd (mkRiskGroup id _)).
    + intros [] x'. apply settled_mono. intros d2 <-. exists post, id. split_and!; [done|done|by eexists|by right].
  - intros e _. destruct (IsIntegrityConstraintViolation (Some e)); [refused|].
    eapply wp_mono; [by apply wp_allocate_and_commit| |done].
    intros [] x'. apply settled_mono. intros d2 <-. exists post, id. split_and!; [done|done|by eexists|by left].
Qed.

(** ** [RiskGroupDelete] *)

(** Only a risk group without slaves is deleted. *)
Definition risk_group_removed (idStr : string) (d d1 : db) : Prop :=
  ∃ id, ParseInt 64 idStr = Some id ∧ is_Some (risk_groups d !! id) ∧
    (∀ sid s, slaves d !! sid = Some s → Slave_RiskGroupID s ≠ Some id) ∧
    d1 = set_risk_groups (delete id (risk_groups d)) d.

Lemma select_nil {R} n (P : R → bool) (t : gmap Z R) : select n P t = [] → ∀ id r, t !! id = Some r → P r = false.
Proof.
  intros Hnil id r Hr. destruct (P r) eqn:HP; [|done].
  assert (r ∈ select n P t) as Hin by (apply elem_of_select; eauto). rewrite Hnil in Hin. by apply not_elem_of_nil in Hin.
Qed.

Lemma RiskGroupDelete_spec idStr d c :
  sound d →
  wp (RiskGroupDelete has_bus idStr)
    (λ _ x', settled (allocated has_bus) (risk_group_removed idStr d) d x') (aborted d) (arrival d c).
Proof.
  intros [Hd _]. unfold RiskGroupDelete. destruct (ParseInt 64 idStr) as [id|] eqn:Hid; [|refused].
  do 2 api_step. api_step. apply wp_run_tx, wp_orm_first_id; [|intros _; refused|intros e Hne _; destruct e; refused].
  simpl. intros g0 Hg0. api_step. apply wp_run_tx, wp_orm_first_id; [|intros _; refused|intros e _ _; refused].
  simpl. intros g Hg. destruct (cons_risk_groups _ Hd _ _ Hg) as (Hkey & Hpos & _).
  api_step. apply wp_run_tx. unfold orm_find. apply wp_sql_query; [|intros; refused]. simpl.
  destruct (bool_decide (select _ _ _ ≠ [])) eqn:Hguard; [refused|].
  assert (select (cstmts (tick (tick (with_db d c)))) (λ s, bool_decide (Slave_RiskGroupID s = Some (RiskGroup_ID g))) (slaves d) = [])
    as Hnil by (apply dec_stable; by apply bool_decide_eq_false in Hguard).
  api_step. apply wp_run_tx, wp_orm_delete; [|intros; by repeat api_step].
  simpl. intros rows _. destruct (decide (rows = 0)); [refused|]. unfold deleted. rewrite decide_False by lia.
  eapply wp_mono; [apply wp_allocate_and_commit| |done]; simpl.
  - by apply delete_risk_group_consistent.
  - intros [] x'. apply settled_mono. intros d1 <-. exists id. split_and!; [done|by eexists| |done].
    intros sid s Hs Heq. pose proof (select_nil _ _ _ Hnil sid s Hs) as Hno. apply bool_decide_eq_false in Hno. congruence.
Qed.

(** ** [RiskGroupAssignSlave] and [RiskGroupRemoveSlave] *)

Definition regroup (sid : Z) (s : Slave) (group : option Z) (d : db) : db :=
  set_slaves (<[sid := Slave_set_RiskGroupID group s]> (slaves d)) d.

(** The slave of the request gets the group; or nothing changes, when the error of
    the write is not looked at. *)
Definition slave_regrouped (riskgroupIdStr slaveIdStr : string) (group : Z → option Z) (member : Z → Slave → Prop)
    (d d1 : db) : Prop :=
  ∃ gid sid s, parse_ids riskgroupIdStr slaveIdStr = Some (gid, sid) ∧ is_Some (risk_groups d !! gid) ∧
    slaves d !! sid = Some s ∧ member gid s ∧ slave_change_allowed d s (Slave_set_RiskGroupID (group gid) s) ∧
    (d1 = d ∨ d1 = regroup sid s (group gid) d).

Lemma regroup_consistent d sid s group :
  consistent d → slaves d !! sid = Some s → consistent (regroup sid s group d).
Proof.
  intros Hd Hs. pose proof (ok_slave_key _ (cons_ok _ Hd) _ _ Hs) as Hkey. pose proof (cons_slave_ids _ Hd _ _ Hs).
  unfold regroup. rewrite <- Hkey in Hs |- *.
  refine (put_slave_consistent d Hd (Slave_set_RiskGroupID group s) _ _ _ _); [|simpl; lia| |].
  - destruct (cons_slaves _ Hd _ _ Hs). by split.
  - by apply (no_conflict_self d Hd (Slave_ID s) s).
  - intros id m Hm Hmem Hpar. apply (cons_fit _ Hd id m s Hm Hmem). by rewrite Hpar.
Qed.

Lemma wp_attemptCommit_closed x Q E :
  ex_open x = false → Q (Some ErrTxDone) (mkExchange (ex_committed x) (ex_tx x) false (Some (default 500 (ex_status x)))
    (ex_body x ++ [Formatted "commit failed with error %s\n" [error_text ErrTxDone]])) →
  wp attemptCommit Q E x.
Proof.
  intros Hopen HQ. unfold attemptCommit, wp, mbind, gom_bind, Commit. rewrite Hopen. simpl. by rewrite Hopen.
Qed.

Lemma RiskGroupAssignSlave_spec g s d c :
  sound d →
  wp (RiskGroupAssignSlave g s)
    (λ _ x', settled eq (slave_regrouped g s Some (λ _ _, True) d) d x') (aborted d) (arrival d c).
Proof.
  intros [Hd _]. unfold RiskGroupAssignSlave. destruct (parse_ids g s) as [[gid sid]|] eqn:Hids; [|refused].
  destruct (bool_decide (gid = 0) || _) eqn:Hzero; [refused|].
  apply orb_false_iff in Hzero as [Hg0%bool_decide_eq_false Hs0%bool_decide_eq_false].
  do 2 api_step. api_step. apply wp_run_tx, wp_orm_first_id; [|intros _; refused|intros e Hne _; destruct e; refused].
  simpl. intros rg Hrg. api_step. apply wp_run_tx, wp_orm_first_id; [|intros _; refused|intros e _ _; refused].
  simpl. intros s0 Hs. pose proof (ok_slave_key _ (cons_ok _ Hd) _ _ Hs) as Hkey.
  api_step. apply wp_run_tx, wp_changeToSlaveAllowed; [|intros; refused|intros; refused].
  simpl. intros c1 Hc1 Hallowed. pose proof (regroup_consistent d sid s0 (Some gid) Hd Hs) as Hd1.
  api_step. apply wp_run_tx, wp_orm_save; simpl; rewrite ?Hkey, ?Hc1; [done|by eexists| |].
  - intros Hfree. do 2 api_step. api_step. apply wp_attemptCommit; [done| |].
    + intros c2 Hk. wp_step. apply (settled_done _ _ _ _ (regroup sid s0 (Some gid) d)); try done.
      exists gid, sid, s0. split_and!; [done|by eexists|done..|by right].
    + intros e c2 body. wp_step. by apply settled_refused.
  - intros e _. destruct (IsIntegrityConstraintViolation (Some e)).
    + do 2 api_step. unfold answer_error. do 2 api_step. apply wp_attemptCommit_closed; [done|]. wp_step. by apply settled_refused.
    + do 3 api_step. apply wp_attemptCommit; [done| |].
      * intros c2 Hk. simpl in Hk. wp_step. apply (settled_done _ _ _ _ d); simpl; rewrite ?Hc1 in *; try done.
        exists gid, sid, s0. split_and!; [done|by eexists|done..|by left].
      * intros e' c2 body. wp_step. by apply settled_refused.
Qed.

Lemma RiskGroupRemoveSlave_spec g s d c :
  sound d →
  wp (RiskGroupRemoveSlave has_bus g s)
    (λ _ x', settled (allocated has_bus)
       (slave_regrouped g s (λ _, None) (λ gid s, Slave_RiskGroupID s = Some gid) d) d x') (aborted d) (arrival d c).
Proof.
  intros [Hd _]. unfold RiskGroupRemoveSlave. destruct (parse_ids g s) as [[gid sid]|] eqn:Hids; [|refused].
  destruct (bool_decide (gid = 0) || _) eqn:Hzero; [refused|].
  do 2 api_step. api_step. apply wp_run_tx, wp_orm_first_id; [|intros _; refused|intros e Hne _; destruct e; refused].
  simpl. intros rg Hrg. api_step. apply wp_run_tx, wp_orm_first_id; [|intros _; refused|intros e _ _; refused].
  simpl. intros s0 Hs. pose proof (ok_slave_key _ (cons_ok _ Hd) _ _ Hs) as Hkey.
  destruct (decide (Slave_RiskGroupID s0 ≠ Some gid)) as [|Hin]; [refused|apply dec_stable in Hin].
  api_step. apply wp_run_tx, wp_changeToSlaveAllowed; [|intros; refused|intros; refused].
  simpl. intros c1 Hc1 Hallowed. pose proof (regroup_consistent d sid s0 None Hd Hs) as Hd1.
  api_step. apply wp_run_tx, wp_orm_update; simpl.
  - rewrite Hkey, Hc1.
    assert (set_slaves (alter (Slave_set_RiskGroupID NullInt) sid (slaves d)) d = regroup sid s0 None d) as ->.
    { unfold regroup. f_equal. by apply alter_as_insert. }
    eapply wp_mono; [by apply wp_allocate_and_commit| |done].
    intros [] x'. apply settled_mono. intros d2 <-. exists gid, sid, s0. split_and!; [done|by eexists|done..|by right].
  - intros e _. eapply wp_mono; [apply wp_allocate_and_commit; simpl; by rewrite Hc1| |done].
    intros [] x'. apply settled_mono. simpl. rewrite Hc1. intros d2 <-. exists gid, sid, s0.
    split_and!; [done|by eexists|done..|by left].
Qed.
End risk_groups.
