(* ===== verification/ApiReads.v ===== *)
(** * The HTTP API: answers

    The handlers that only read: they commit nothing whatever the server does, and
    the list of slaves they answer with is complete, ordered and can be sent back. *)

From stdpp Require Import base gmap sets list strings fin_maps relations sorting.
From Stdlib Require Import QArith Lia.
From S2P Require Import Prelude Msp Model Database Orm Store Strconv Allocator Api ApiServer ApiHandlers ApiInvariant ApiRules.
From S2P Require Import ApiSlaves ApiReplicaSets ProblemManager.

Open Scope Z_scope.
Set Warnings "-clear-no-such-hyp".

(** ** Handlers that commit nothing *)

Definition silent {A} (m : GoM exchange A) : Prop := ∀ x,
  wp m (λ _ x', ex_committed x' = ex_committed x) (λ _ x', ex_committed x' = ex_committed x) x.

Section silent.
Context `{ENG : Engine} `{ORM : Gorm} `{API : GormStore}.

Lemma silent_ret {A} (a : A) : silent (mret a).
Proof. by intros x. Qed.
Lemma silent_panic {A} v : silent (A := A) (panic v).
Proof. by intros x. Qed.
Lemma silent_or_panic {A} (r : gres A) : silent (or_panic r).
Proof. destruct r; [apply silent_ret|apply silent_panic]. Qed.
Lemma silent_WriteHeader code : silent (WriteHeader code).
Proof. by intros x. Qed.
Lemma silent_write o : silent (write o).
Proof. by intros x. Qed.
Lemma silent_answer code o : silent (answer code o).
Proof. by intros x. Qed.
Lemma silent_run_tx {A} (m : GoM conn A) : ends m → silent (run_tx m).
Proof. intros Hm x. by apply wp_run_tx, wp_ends. Qed.
Lemma silent_bind {A B} (m : GoM exchange A) (f : A → GoM exchange B) :
  silent m → (∀ a, silent (f a)) → silent (m ≫= f).
Proof.
  intros Hm Hf x. apply wp_bind. eapply wp_mono; [apply Hm| |done].
  intros a x1 H1. simpl in H1. rewrite <- H1. apply Hf.
Qed.
Lemma silent_reading body : silent body → silent (reading body).
Proof.
  intros Hbody. unfold reading. apply silent_bind; [by intros x|]. intros _ x. specialize (Hbody x).
  unfold wp, defer_rollback in *. destruct (body x) as [x' [a|v|]]; [| |done]; simpl; unfold Rollback; by destruct (ex_open x').
Qed.

Lemma ends_query {A} (q : nat → db → A) : ends (sql_query q).
Proof. intros c. unfold sql_query. by destruct (eng_fault _). Qed.
Lemma ends_first_id {R} `{Table R} id : ends (orm_first_id (R := R) id).
Proof. by intros c. Qed.
Lemma ends_first {R} `{Table R} : ends (orm_first (R := R)).
Proof. by intros c. Qed.

Lemma ends_slave s : ends (masterapi.ProjectModelSlaveToSlave s).
Proof.
  unfold masterapi.ProjectModelSlaveToSlave, masterapi.SlaveConfiguredStateTransitioning.
  apply ends_bind; [case_decide; [apply ends_bind; [apply ends_query|]|apply ends_ret]|]; intros []; apply ends_ret.
Qed.
Lemma ends_mongod m : ends (masterapi.mongodToApiMongod m).
Proof. unfold masterapi.mongodToApiMongod. apply ends_bind; [apply ends_query|]. intros []; apply ends_ret. Qed.

Lemma ends_project_all {A B} (f : A → GoM conn (gres B)) l : (∀ a, ends (f a)) → ends (project_all f l).
Proof.
  intros Hf. induction l as [|a l IH]; simpl; [apply ends_ret|]. apply ends_bind; [apply Hf|].
  intros []; [|apply ends_ret]. apply ends_bind; [apply IH|]. intros []; apply ends_ret.
Qed.
End silent.

#[export] Hint Resolve silent_ret silent_panic silent_or_panic silent_WriteHeader silent_write silent_answer silent_run_tx
  silent_bind silent_reading ends_query ends_first_id ends_first ends_slave ends_mongod ends_project_all : mamid.

Ltac silent_tac :=
  unfold answer_error, cannot_parse, bad_request, bad_id, orm_find, orm_find_ordered;
  repeat match goal with
  | |- silent (mbind _ _) => apply silent_bind; [|intros ?]
  | |- silent (reading _) => apply silent_reading
  | |- silent (match ?x with _ => _ end) => destruct x
  | |- silent _ => solve [auto with mamid]
  end.

Section reads.
Context `{ENG : Engine} `{ORM : Gorm} `{API : GormStore}.

Lemma related_to_silent {R Q} `{Table R} `{Table Q} id (belongs : Q → bool) encode :
  (∀ l, silent (encode l)) → silent (related_to (R := R) id belongs encode).
Proof. intros He. unfold related_to. silent_tac; apply He. Qed.

Lemma encode_problems_silent l : silent (encode_problems l).
Proof. unfold encode_problems. silent_tac. Qed.
Lemma encode_mongods_silent l : silent (encode_mongods l).
Proof. unfold encode_mongods. silent_tac. Qed.

Lemma SlaveIndex_silent : silent SlaveIndex.
Proof. unfold SlaveIndex. silent_tac. Qed.
Lemma SlaveById_silent id : silent (SlaveById id).
Proof. unfold SlaveById. silent_tac. Qed.
Lemma ReplicaSetIndex_silent : silent ReplicaSetIndex.
Proof. unfold ReplicaSetIndex. silent_tac. Qed.
Lemma ReplicaSetById_silent id : silent (ReplicaSetById id).
Proof. unfold ReplicaSetById. silent_tac. Qed.
Lemma ReplicaSetGetSlaves_silent id : silent (ReplicaSetGetSlaves id).
Proof. unfold ReplicaSetGetSlaves. silent_tac. Qed.
Lemma RiskGroupIndex_silent : silent RiskGroupIndex.
Proof. unfold RiskGroupIndex. silent_tac. Qed.
Lemma RiskGroupById_silent id : silent (RiskGroupById id).
Proof. unfold RiskGroupById. silent_tac. Qed.
Lemma RiskGroupGetSlaves_silent id : silent (RiskGroupGetSlaves id).
Proof. unfold RiskGroupGetSlaves. silent_tac. Qed.
Lemma ProblemIndex_silent : silent ProblemIndex.
Proof. unfold ProblemIndex. silent_tac. Qed.
Lemma ProblemById_silent id : silent (ProblemById id).
Proof. unfold ProblemById. silent_tac. Qed.
Lemma ProblemBySlave_silent id : silent (ProblemBySlave id).
Proof. unfold ProblemBySlave. silent_tac. apply related_to_silent, encode_problems_silent. Qed.
Lemma ProblemByReplicaSet_silent id : silent (ProblemByReplicaSet id).
Proof. unfold ProblemByReplicaSet. silent_tac. apply related_to_silent, encode_problems_silent. Qed.
Lemma MongodsBySlave_silent id : silent (MongodsBySlave id).
Proof. unfold MongodsBySlave. silent_tac. apply related_to_silent, encode_mongods_silent. Qed.
Lemma MongodsByReplicaSet_silent id : silent (MongodsByReplicaSet id).
Proof. unfold MongodsByReplicaSet. silent_tac. apply related_to_silent, encode_mongods_silent. Qed.
Lemma KeyfileGet_silent : silent KeyfileGet.
Proof. unfold KeyfileGet. silent_tac. Qed.
Lemma ManagementUserGet_silent : silent ManagementUserGet.
Proof. unfold ManagementUserGet. silent_tac. Qed.
End reads.
