(* ===== verification/ApiRequests.v ===== *)
(** * The HTTP API: all requests together

    The routes of [MasterAPI.Setup] as one function on requests, the changes a
    request may make as an abstract specification, and the refinement: whatever the
    server does, a request makes a permitted change or none. *)

From stdpp Require Import base gmap sets list strings fin_maps relations.
From Stdlib Require Import Lia.
From S2P Require Import Prelude Msp Model Database Orm Store Strconv Allocator AllocatorRemoval AllocatorAdd AllocatorSpec.
From S2P Require Import Api ApiServer ApiHandlers ApiInvariant ApiRules ApiSlaves ApiReplicaSets ApiRiskGroups ApiReads.

Open Scope Z_scope.
Set Warnings "-clear-no-such-hyp".

(** ** Routes *)

(** The variables of the path, and the decoded body of [PUT] and [POST] requests. *)
Inductive api_request :=
  | GetSlaves
  | GetSlave (slaveId : string)
  | PutSlave (body : gres masterapi.Slave)
  | PostSlave (slaveId : string) (body : gres masterapi.Slave)
  | DeleteSlave (slaveId : string)
  | GetReplicaSets
  | GetReplicaSet (replicasetId : string)
  | PutReplicaSet (body : gres masterapi.ReplicaSet)
  | PostReplicaSet (replicasetId : string) (body : gres masterapi.ReplicaSet)
  | DeleteReplicaSet (replicasetId : string)
  | GetReplicaSetSlaves (replicasetId : string)
  | GetRiskGroups
  | GetRiskGroup (riskgroupId : string)
  | PutRiskGroup (body : gres masterapi.RiskGroup)
  | PostRiskGroup (riskgroupId : string) (body : gres masterapi.RiskGroup)
  | DeleteRiskGroup (riskgroupId : string)
  | GetRiskGroupSlaves (riskgroupId : string)
  | PutRiskGroupSlave (riskgroupId slaveId : string)
  | DeleteRiskGroupSlave (riskgroupId slaveId : string)
  | GetProblems
  | GetProblem (problemId : string)
  | GetSlaveProblems (slaveId : string)
  | GetReplicaSetProblems (replicasetId : string)
  | GetSlaveMongods (slaveId : string)
  | GetReplicaSetMongods (replicasetId : string)
  | GetKeyfile
  | GetManagementUser.

(** [func (m *MasterAPI) Setup()] *)
Definition serve `{ENG : Engine} `{ORM : Gorm} `{API : GormStore} (has_bus : bool) (req : api_request) : GoM exchange unit :=
  match req with
  | GetSlaves => SlaveIndex
  | GetSlave id => SlaveById id
  | PutSlave body => SlavePut has_bus body
  | PostSlave id body => SlaveUpdate has_bus id body
  | DeleteSlave id => SlaveDelete has_bus id
  | GetReplicaSets => ReplicaSetIndex
  | GetReplicaSet id => ReplicaSetById id
  | PutReplicaSet body => ReplicaSetPut has_bus body
  | PostReplicaSet id body => ReplicaSetUpdate has_bus id body
  | DeleteReplicaSet id => ReplicaSetDelete has_bus id
  | GetReplicaSetSlaves id => ReplicaSetGetSlaves id
  | GetRiskGroups => RiskGroupIndex
  | GetRiskGroup id => RiskGroupById id
  | PutRiskGroup body => RiskGroupPut has_bus body
  | PostRiskGroup id body => RiskGroupUpdate has_bus id body
  | DeleteRiskGroup id => RiskGroupDelete has_bus id
  | GetRiskGroupSlaves id => RiskGroupGetSlaves id
  | PutRiskGroupSlave g s => RiskGroupAssignSlave g s
  | DeleteRiskGroupSlave g s => RiskGroupRemoveSlave has_bus g s
  | GetProblems => ProblemIndex
  | GetProblem id => ProblemById id
  | GetSlaveProblems id => ProblemBySlave id
  | GetReplicaSetProblems id => ProblemByReplicaSet id
  | GetSlaveMongods id => MongodsBySlave id
  | GetReplicaSetMongods id => MongodsByReplicaSet id
  | GetKeyfile => KeyfileGet
  | GetManagementUser => ManagementUserGet
  end.

(** ** The abstract specification *)

(** The change of the tables a request may make. *)
Definition api_change (req : api_request) (d d1 : db) : Prop :=
  match req with
  | PutSlave body => slave_created body d d1
  | PostSlave id body => slave_updated id body d d1
  | DeleteSlave id => slave_removed id d d1
  | PutReplicaSet body => replica_set_created body d d1
  | PostReplicaSet id body => replica_set_updated id body d d1
  | DeleteReplicaSet id => replica_set_removed id d d1
  | PutRiskGroup body => risk_group_created body d d1
  | PostRiskGroup id body => risk_group_updated id body d d1
  | DeleteRiskGroup id => risk_group_removed id d d1
  | PutRiskGroupSlave g s => slave_regrouped g s Some (λ _ _, True) d d1
  | DeleteRiskGroupSlave g s => slave_regrouped g s (λ _, None) (λ gid s, Slave_RiskGroupID s = Some gid) d d1
  | _ => False
  end.

(** What a request deletes: no row of mongods, states and problems, or a slave or
    replica sets with all that goes with them. *)
Inductive deletes (d : db) : db → Prop :=
  | deletes_nothing d1 : mongods d1 = mongods d → mongod_states d1 = mongod_states d → problems d1 = problems d → deletes d d1
  | deletes_slave id : deletes d (delete_slave d id)
  | deletes_replica_sets l : deletes d (foldr (delete_row (R := ReplicaSet)) d l).

Lemma change_deletes req d d1 : api_change req d d1 → deletes d d1.
Proof.
  intros Hc. destruct req; try done; simpl in Hc.
  - by destruct Hc as (post & s & i & _ & _ & _ & _ & _ & ->); apply deletes_nothing.
  - by destruct Hc as (post & t0 & t1 & _ & _ & _ & _ & _ & ->); apply deletes_nothing.
  - destruct Hc as (i & s & _ & _ & _ & ->). apply deletes_slave.
  - by destruct Hc as (post & i & _ & _ & _ & _ & ->); apply deletes_nothing.
  - by destruct Hc as (post & i & r0 & _ & _ & _ & [->| ->]); apply deletes_nothing.
  - destruct Hc as (i & _ & [[_ ->]|[_ ->]]); [apply (deletes_replica_sets d [i])|]. unfold deleted. rewrite decide_True by done.
    apply deletes_replica_sets.
  - by destruct Hc as (post & i & _ & _ & _ & _ & ->); apply deletes_nothing.
  - by destruct Hc as (post & i & _ & _ & _ & [->| ->]); apply deletes_nothing.
  - by destruct Hc as (i & _ & _ & _ & ->); apply deletes_nothing.
  - by destruct Hc as (g & i & s & _ & _ & _ & _ & _ & [->| ->]); apply deletes_nothing.
  - by destruct Hc as (g & i & s & _ & _ & _ & _ & _ & [->| ->]); apply deletes_nothing.
Qed.

(** What follows it: the allocator, except after assigning a slave to a risk group. *)
Definition api_finish (has_bus : bool) (req : api_request) : db → db → Prop :=
  match req with
  | PutRiskGroupSlave _ _ => eq
  | _ => allocated has_bus
  end.

(** The requests that only read. *)
Definition reads (req : api_request) : bool :=
  match req with
  | PutSlave _ | PostSlave _ _ | DeleteSlave _ | PutReplicaSet _ | PostReplicaSet _ _ | DeleteReplicaSet _ | PutRiskGroup _
  | PostRiskGroup _ _ | DeleteRiskGroup _ | PutRiskGroupSlave _ _ | DeleteRiskGroupSlave _ _ => false
  | _ => true
  end.

(** The requests that may be answered with 200 without a change: the readers, and
    [SlavePut], which answers before it commits. *)
Definition answers_early (req : api_request) : bool :=
  reads req || match req with PutSlave _ => true | _ => false end.

(** Decoded numbers are in the range of their types. *)
Definition typed_request (req : api_request) : Prop :=
  match req with
  | PutReplicaSet body | PostReplicaSet _ body => typed_replica_set body
  | _ => True
  end.

(** ** The refinement *)

Definition api_outcome (has_bus : bool) (req : api_request) (d : db) (x' : exchange) : Prop :=
  settled (api_finish has_bus req) (api_change req d) d x' ∨ (answers_early req = true ∧ lost d x').

Section refinement.
Context `{ENG : Engine} `{ORM : Gorm} `{API : GormStore} (has_bus : bool).

Lemma silent_outcome (m : GoM exchange unit) req d c :
  silent m → answers_early req = true → wp m (λ _ x', api_outcome has_bus req d x') (aborted d) (arrival d c).
Proof.
  intros Hm Hearly. eapply wp_mono; [apply Hm| |done]. intros [] x' Hx.
  destruct (decide (final_status x' = 200)); [right; by split|left; by apply settled_refused].
Qed.

Lemma settled_outcome (m : GoM exchange unit) req d c :
  wp m (λ _ x', settled (api_finish has_bus req) (api_change req d) d x') (aborted d) (arrival d c) →
  wp m (λ _ x', api_outcome has_bus req d x') (aborted d) (arrival d c).
Proof. intros Hm. eapply wp_mono; [apply Hm| |done]. intros [] x' Hx. by left. Qed.

Lemma reads_silent req : reads req = true → silent (serve has_bus req).
Proof.
  destruct req; simpl; intros; try done; auto using SlaveIndex_silent, SlaveById_silent, ReplicaSetIndex_silent,
    ReplicaSetById_silent, ReplicaSetGetSlaves_silent, RiskGroupIndex_silent, RiskGroupById_silent,
    RiskGroupGetSlaves_silent, ProblemIndex_silent, ProblemById_silent, ProblemBySlave_silent,
    ProblemByReplicaSet_silent, MongodsBySlave_silent, MongodsByReplicaSet_silent, KeyfileGet_silent,
    ManagementUserGet_silent.
Qed.

Lemma serve_outcome req d c :
  sound d → typed_request req →
  wp (serve has_bus req) (λ _ x', api_outcome has_bus req d x') (aborted d) (arrival d c).
Proof.
  intros Hd Htyped. destruct (reads req) eqn:Hreads.
  { apply silent_outcome; [by apply reads_silent|]. unfold answers_early. rewrite Hreads. done. }
  destruct req; try done; [|apply settled_outcome..].
  - eapply wp_mono; [by apply SlavePut_spec| |done]. intros [] x' [?|?]; [by left|by right].
  - by apply SlaveUpdate_spec.
  - by apply SlaveDelete_spec.
  - by apply ReplicaSetPut_spec.
  - by apply ReplicaSetUpdate_spec.
  - by apply ReplicaSetDelete_spec.
  - by apply RiskGroupPut_spec.
  - by apply RiskGroupUpdate_spec.
  - by apply RiskGroupDelete_spec.
  - by apply RiskGroupAssignSlave_spec.
  - by apply RiskGroupRemoveSlave_spec.
Qed.

(** The three ways a request can end, for a client that looks at the database. *)
Lemma serve_cases req d c :
  sound d → typed_request req →
  ∃ x' r, serve has_bus req (arrival d c) = (x', r) ∧ r ≠ OutOfFuel ∧
    (ex_committed x' = d ∨
     ∃ d1, api_change req d d1 ∧ consistent d1 ∧ api_finish has_bus req d1 (ex_committed x') ∧ foreign_keys (ex_committed x')).
Proof.
  intros Hd Htyped. pose proof (serve_outcome req d c Hd Htyped) as Hwp. unfold wp in Hwp.
  destruct (serve has_bus req (arrival d c)) as [x' [a|v|]]; [| |done]; eexists x', _; (split; [done|split; [done|]]).
  - destruct Hwp as [[? _|d1 ? ? ? ? _]|[_ [? _]]]; [by left|right; by exists d1|by left].
  - by left.
Qed.

Lemma finish_tables req d1 d' : consistent d1 → api_finish has_bus req d1 d' →
  consistent d' ∧ slaves d' = slaves d1 ∧ replica_sets d' = replica_sets d1 ∧ risk_groups d' = risk_groups d1.
Proof.
  intros Hd1 Hf. assert (d1 = d' ∨ allocated has_bus d1 d') as [<-|(x & y & unsat & ms & Hrun)]; [|done|].
  { destruct req; simpl in Hf; auto. }
  split; [by eapply compiled_consistent|by eapply compiled_tables].
Qed.

Lemma serve_sound req d c : sound d → typed_request req → sound (ex_committed (serve has_bus req (arrival d c)).1).
Proof.
  intros Hd Htyped. destruct (serve_cases req d c Hd Htyped) as (x' & r & -> & _ & Hcase). simpl.
  destruct Hcase as [->|(d1 & _ & Hd1 & Hf & Hk)]; [done|]. split; [|done]. by apply (finish_tables req d1).
Qed.
End refinement.

(** ** What the changes leave alone *)

Lemma same_configuration_refl s : same_configuration s s.
Proof. by split_and!. Qed.

(** A slave's row before a change and what is left of it. *)
Definition slave_protected (d : db) (s0 : Slave) (after : option Slave) : Prop :=
  match after with
  | Some s1 => slave_change_allowed d s0 s1
  | None => Slave_ConfiguredState s0 = SlaveStateDisabled ∨ hosts_nothing d s0
  end.

Definition replica_set_protected (id : Z) (r0 : ReplicaSet) (req : api_request) (after : option ReplicaSet) : Prop :=
  match after with
  | Some r1 => ReplicaSet_Name r1 = ReplicaSet_Name r0 ∧ ReplicaSet_ShardingRole r1 = ReplicaSet_ShardingRole r0 ∧
               ReplicaSet_Initiated r1 = ReplicaSet_Initiated r0
  | None => ∃ idStr i, req = DeleteReplicaSet idStr ∧ ParseInt 64 idStr = Some i ∧ (i = id ∨ i = 0)
  end.

Lemma deleted_replica_sets_tables d l : let d' := foldr (delete_row (R := ReplicaSet)) d l in
  slaves d' = slaves d ∧ risk_groups d' = risk_groups d ∧ (∀ id, replica_sets d' !! id = replica_sets d !! id ∨ replica_sets d' !! id = None).
Proof.
  induction l as [|i l (IHs & IHg & IHr)]; [by split_and!; [..|left]|]. split_and!; [done|done|]. intros id. simpl.
  destruct (decide (i = id)) as [->|Hne]; [right; apply lookup_delete_eq|]. rewrite lookup_delete_ne by done. apply IHr.
Qed.

Lemma slave_kept d s : slave_protected d s (Some s).
Proof. left. apply same_configuration_refl. Qed.

Lemma change_slaves req d d1 id s0 :
  consistent d → api_change req d d1 → slaves d !! id = Some s0 → slave_protected d s0 (slaves d1 !! id).
Proof.
  intros Hd Hc Hs. destruct req; try done; simpl in Hc.
  - destruct Hc as (post & s & i & _ & _ & _ & _ & Hnone & ->). simpl. rewrite lookup_insert_ne by congruence.
    rewrite Hs. apply slave_kept.
  - destruct Hc as (post & t0 & t1 & _ & _ & Ht0 & _ & Hallowed & ->). simpl.
    destruct (decide (masterapi.ID post = id)) as [<-|Hne].
    + rewrite lookup_insert_eq. simpl. congruence.
    + rewrite lookup_insert_ne, Hs by done. apply slave_kept.
  - destruct Hc as (i & s & _ & Hi & Hguard & ->). simpl. destruct (decide (i = id)) as [<-|Hne].
    + rewrite lookup_delete_eq. simpl. congruence.
    + rewrite lookup_delete_ne, Hs by done. apply slave_kept.
  - destruct Hc as (post & i & _ & _ & _ & _ & ->). simpl. rewrite Hs. apply slave_kept.
  - destruct Hc as (post & i & r0 & _ & _ & _ & [->| ->]); simpl; rewrite Hs; apply slave_kept.
  - destruct Hc as (i & _ & [[_ ->]|[_ ->]]); [simpl; rewrite Hs; apply slave_kept|].
    unfold deleted. rewrite decide_True by done. destruct (deleted_replica_sets_tables d (table_keys (R := ReplicaSet) d)) as (-> & _).
    rewrite Hs. apply slave_kept.
  - destruct Hc as (post & i & _ & _ & _ & _ & ->). simpl. rewrite Hs. apply slave_kept.
  - destruct Hc as (post & i & _ & _ & _ & [->| ->]); simpl; rewrite Hs; apply slave_kept.
  - destruct Hc as (i & _ & _ & _ & ->). simpl. rewrite Hs. apply slave_kept.
  - destruct Hc as (g & i & s & _ & _ & Hi & _ & Hallowed & [->| ->]); simpl; [rewrite Hs; apply slave_kept|].
    destruct (decide (i = id)) as [<-|Hne]; [rewrite lookup_insert_eq; simpl; congruence|].
    rewrite lookup_insert_ne, Hs by done. apply slave_kept.
  - destruct Hc as (g & i & s & _ & _ & Hi & _ & Hallowed & [->| ->]); simpl; [rewrite Hs; apply slave_kept|].
    destruct (decide (i = id)) as [<-|Hne]; [rewrite lookup_insert_eq; simpl; congruence|].
    rewrite lookup_insert_ne, Hs by done. apply slave_kept.
Qed.

Lemma change_replica_sets req d d1 id r0 :
  api_change req d d1 → replica_sets d !! id = Some r0 → replica_set_protected id r0 req (replica_sets d1 !! id).
Proof.
  intros Hc Hr. assert (replica_sets d1 = replica_sets d → replica_set_protected id r0 req (replica_sets d1 !! id)) as Hsame
    by (intros ->; by rewrite Hr).
  destruct req; try done; simpl in Hc;
    try (apply Hsame; unfold slave_created, slave_updated, slave_removed, risk_group_created, risk_group_updated,
           risk_group_removed, slave_regrouped in Hc; decompose [ex and or] Hc; by subst).
  - destruct Hc as (post & i & _ & _ & _ & Hnone & ->). simpl. by rewrite lookup_insert_ne, Hr by congruence.
  - destruct Hc as (post & i & r & _ & _ & Hi & [->| ->]); [by apply Hsame|]. simpl.
    destruct (decide (i = id)) as [<-|Hne]; [|by rewrite lookup_insert_ne, Hr by done].
    rewrite lookup_insert_eq. simpl. assert (r0 = r) as -> by congruence. done.
  - destruct Hc as (i & Hi & [[Hi0 ->]|[-> ->]]).
    + simpl. destruct (decide (i = id)) as [<-|Hne]; [rewrite lookup_delete_eq|by rewrite lookup_delete_ne, Hr by done].
      exists replicasetId, i. split_and!; [done..|by left].
    + unfold deleted. rewrite decide_True by done.
      destruct (deleted_replica_sets_tables d (table_keys (R := ReplicaSet) d)) as (_ & _ & Hall).
      destruct (Hall id) as [->| ->]; [by rewrite Hr|]. exists replicasetId, 0. split_and!; [done..|by right].
Qed.
