(* ===== verification/ApiProperties.v ===== *)
(** * The HTTP API: properties

    That every request refines its specification, and what a client can rely on in the
    answers, including two answers it cannot rely on. *)

From stdpp Require Import base gmap sets list strings fin_maps relations sorting.
From Stdlib Require Import QArith Lia.
From S2P Require Import Prelude Msp Model Database Orm Store Strconv Allocator AllocatorRemoval AllocatorAdd AllocatorSpec.
From S2P Require Import Api ApiServer ApiHandlers ApiInvariant ApiRules ApiSlaves ApiReplicaSets ApiRiskGroups ApiReads ApiRequests.

Open Scope Z_scope.
Set Warnings "-clear-no-such-hyp".

(** ** A small cluster built by requests *)

Definition run_requests (d : db) (reqs : list api_request) : db :=
  foldl (λ d req, ex_committed (@serve ref_engine ref_gorm ref_store true req (arrival d (mkConn d 0 []))).1) d reqs.

Definition example_put_slave (host : string) (group : option Z) : masterapi.Slave :=
  masterapi.mkSlave 0 host 8081 18080 18082 true "active" false group.
Definition example_put_replica_set : masterapi.ReplicaSet := masterapi.mkReplicaSet 0 "rs1" 2 0 "none".

(** Two risk groups with a slave each and a replica set with two members; the
    allocator has placed both. *)
Definition example_requests : list api_request :=
  [PutRiskGroup (Ok (masterapi.mkRiskGroup 0 "rack1")); PutRiskGroup (Ok (masterapi.mkRiskGroup 0 "rack2"));
   PutSlave (Ok (example_put_slave "host1" (Some 1))); PutSlave (Ok (example_put_slave "host2" (Some 2))); PutReplicaSet (Ok example_put_replica_set)].
Definition example_cluster : db := run_requests empty_db example_requests.

Example example_cluster_placed :
  (λ m, (Mongod_ID m, Mongod_Port m, Mongod_ParentSlaveID m)) <$> (map_to_list (mongods example_cluster)).*2
  = [(2, 18080, 1); (1, 18080, 2)].
Proof. vm_compute. reflexivity. Qed.

Lemma run_requests_sound d reqs : sound d → Forall typed_request reqs → sound (run_requests d reqs).
Proof.
  intros Hd Hreqs. revert d Hd. induction Hreqs as [|req reqs Hreq _ IH]; intros d Hd; simpl; [done|]. apply IH.
  by apply serve_sound.
Qed.

Lemma empty_sound : sound empty_db.
Proof. destruct empty_consistent. by split. Qed.

Lemma example_sound : sound example_cluster.
Proof. apply run_requests_sound; [apply empty_sound|]. repeat (apply Forall_cons; split; [by vm_compute|]). constructor. Qed.

Lemma example_cluster_slots : slots_distinct example_cluster.
Proof. by apply slots_distinctb_sound; vm_compute. Qed.

(** ** Every request *)

(** C14: Whatever a request asks for and however the database server and the mapper
    fail, the handler ends, and it either commits nothing, and says so unless it
    only reads or is [SlavePut], or commits a change its specification allows,
    completed by the allocator, and answers 200. *)
Theorem api_refines_specification (ENG : Engine) (ORM : Gorm) (API : GormStore) has_bus req d c :
  sound d → typed_request req →
  wp (serve has_bus req)
    (λ _ x', (ex_committed x' = d ∧ (final_status x' = 200 → answers_early req = true)) ∨
       ∃ d1, api_change req d d1 ∧ api_finish has_bus req d1 (ex_committed x') ∧ final_status x' = 200)
    (λ _ x', ex_committed x' = d) (arrival d c).
Proof.
  intros Hd Htyped. eapply wp_mono; [by apply serve_outcome| |done].
  intros [] x' [[? ?|d1 ? ? ? ? ?]|[? [? ?]]]; [by left|right; by exists d1|by left].
Qed.

(** ** A server that executes every statement *)

Section reliable.
Context (ENG : Engine) (ORM : Gorm) (API : GormStore) (Hrel : reliable ENG ORM) (has_bus : bool).

Lemma reliable_attemptClusterAllocator x Q :
  consistent (cdb (ex_tx x)) → slots_distinct (cdb (ex_tx x)) →
  (∀ c', allocated has_bus (cdb (ex_tx x)) (cdb c') → Q None (set_tx c' x)) →
  wp (attemptClusterAllocator has_bus) Q (λ _ _, False) x.
Proof.
  intros Hc Hslots HQ. unfold attemptClusterAllocator. wp_step. apply wp_run_tx.
  pose proof (compileBody_spec False ltac:(auto) has_bus (ex_tx x) (cons_ok _ Hc) (λ H, H Hslots)) as Hbody.
  unfold wp, CompileMongodLayout in *. destruct (compileBody has_bus (ex_tx x)) as [c' [res|v|]]; [|by destruct Hbody|done].
  destruct Hbody as (-> & d1 & d2 & unsat & ms & _ & Hrun). apply HQ. by exists d1, d2, unsat, ms.
Qed.

Lemma reliable_attemptCommit x Q :
  ex_open x = true →
  (∀ c', foreign_keys (cdb (ex_tx x)) → Q None (mkExchange (cdb (ex_tx x)) c' false (ex_status x) (ex_body x))) →
  (∀ c' e, ¬ foreign_keys (cdb (ex_tx x)) →
     Q (Some e) (mkExchange (ex_committed x) c' false (Some (default 500 (ex_status x)))
       (ex_body x ++ [Formatted "commit failed with error %s\n" [error_text e]]))) →
  wp attemptCommit Q (λ _ _, False) x.
Proof.
  intros Hopen HQ HF. unfold attemptCommit, wp, mbind, gom_bind, Commit. rewrite Hopen, (reliable_eng _ _ Hrel).
  destruct (decide _); [by apply HQ|by apply HF].
Qed.

(** What the API shows of a slave. *)
Definition slave_view (d : db) (s : Slave) : masterapi.Slave :=
  masterapi.mkSlave (Slave_ID s) (Slave_Hostname s) (Slave_Port s) (Slave_MongodPortRangeBegin s) (Slave_MongodPortRangeEnd s)
    (Slave_PersistentStorage s) (masterapi.SlaveStateToJSONRepresentation (Slave_ConfiguredState s))
    (bool_decide (Slave_ConfiguredState s = SlaveStateDisabled) && negb (bool_decide (current_mongods d s = 0)))
    (Slave_RiskGroupID s).

Lemma wp_slave_view (s : Slave) Q c :
  (∀ c', cdb c' = cdb c → Q (Ok (slave_view (cdb c) s)) c') →
  (∀ e c', cdb c' = cdb c → ¬ reliable ENG ORM → Q (Err e) c') →
  wp (masterapi.ProjectModelSlaveToSlave s) Q (λ _ _, False) c.
Proof.
  intros HOk HErr. unfold masterapi.ProjectModelSlaveToSlave, masterapi.SlaveConfiguredStateTransitioning, slave_view in *.
  assert (NullIntToPtr (Slave_RiskGroupID s) = Slave_RiskGroupID s) as -> by by destruct (Slave_RiskGroupID s).
  destruct (decide _) as [Hdis|Hdis]; wp_step.
  - rewrite bool_decide_true in HOk by done. wp_step. apply wp_sql_query.
    + do 2 wp_step. by apply HOk.
    + intros e He. do 2 wp_step. by apply HErr.
  - rewrite bool_decide_false in HOk by done. do 2 wp_step. by apply HOk.
Qed.

(** The transaction's database after the row of [SlavePut]. *)
Lemma put_slave_keys d id s : foreign_keys d →
  Slave_ObservationErrorID s = None →
  foreign_keys (set_slaves (<[id := set_row_id id s]> (slaves d)) d) ↔ references (Slave_RiskGroupID s) (risk_groups d).
Proof.
  intros (Hs & Hm & Hst & Hp) Herr. split.
  - intros (Hs' & _). destruct (Hs' id (set_row_id id s)) as [? _]; [apply lookup_insert_eq|done].
  - intros Hrg. split_and!; simpl.
    + intros i s' [[<- <-]|[_ Hin]]%lookup_insert_Some; [|by apply (Hs i)]. split; [done|]. simpl. by rewrite Herr.
    + intros i m Hin. destruct (Hm _ _ Hin) as (? & ? & ? & ? & ? & ?). split_and!; try done. simpl.
      rewrite lookup_insert_is_Some'. by right.
    + done.
    + intros i p Hin. destruct (Hp _ _ Hin) as (Hsl & ? & ?). split_and!; try done.
      destruct (Problem_SlaveID p); [|done]. simpl. rewrite lookup_insert_is_Some'. by right.
Qed.

Lemma wp_orm_create_accepted {R} `{Table R} (r : R) Q E c :
  row_id r = 0 → (∃ r', (gorm_create (cstmts c) (cdb c) r).2 = Ok r') →
  (∀ id, 0 < id → table (cdb c) !! id = None → ¬ conflicts (cdb c) id r →
     Q (Ok (set_row_id id r)) (with_db (set_table (<[id := set_row_id id r]> (table (cdb c))) (cdb c)) c)) →
  wp (orm_create r) Q E c.
Proof.
  intros Hid [r' Hok] HQ. unfold wp, orm_create. pose proof (gorm_create_law (cstmts c) (cdb c) r Hid) as Hlaw.
  destruct (gorm_create _ _ _) as [d' [r2|e]]; [|done]. destruct Hlaw as (id & ? & ? & ? & -> & ->). by apply HQ.
Qed.

(** The allocator neither adds nor mends a reference of a slave. *)
Lemma allocated_keys d1 d2 id s : consistent d1 → allocated has_bus d1 d2 → slaves d1 !! id = Some s →
  (references (Slave_RiskGroupID s) (risk_groups d1) → foreign_keys d1) →
  foreign_keys d2 ↔ references (Slave_RiskGroupID s) (risk_groups d1).
Proof.
  intros Hd1 (x & y & unsat & ms & Hrun) Hs Hiff. destruct (compiled_tables Hrun) as (Es & _ & Eg). split.
  - intros (Hk & _). rewrite Es in Hk. destruct (Hk id s Hs) as [Hrg _]. by rewrite Eg in Hrg.
  - intros Hrg. eapply compiled_keys; [done..|by apply Hiff].
Qed.

(** C32: When every statement is executed, on a sound database in which no two mongods of a
    slave share a port, a valid new slave whose row the database accepts is always
    answered with 200 and the posted slave, its new identifier filled in; it is committed
    exactly when its risk group exists: otherwise the commit fails after the answer, and
    nothing is there. The answer says that the state is changing for a disabled slave
    at most. *)
Theorem SlavePut_answers post s d c :
  sound d → slots_distinct d → masterapi.ID post = 0 → masterapi.ProjectSlaveToModelSlave post = Ok s →
  (∀ n, ∃ s', (gorm_create n d s).2 = Ok s') →
  wp (SlavePut has_bus (Ok post))
    (λ _ x', final_status x' = 200 ∧ ∃ id transitioning rest,
       ex_body x' = Encoded (JSlave (masterapi.mkSlave id (masterapi.Hostname post) (masterapi.Port post)
         (masterapi.MongodPortRangeBegin post) (masterapi.MongodPortRangeEnd post) (masterapi.Slave_PersistentStorage post)
         (masterapi.ConfiguredState post) transitioning (masterapi.RiskGroupID post))) :: rest ∧
       (transitioning = true → masterapi.ConfiguredState post = "disabled"%string) ∧ 0 < id ∧ slaves d !! id = None ∧
       (references (masterapi.RiskGroupID post) (risk_groups d) → slaves (ex_committed x') !! id = Some (set_row_id id s)) ∧
       (¬ references (masterapi.RiskGroupID post) (risk_groups d) → ex_committed x' = d))
    (λ _ _, False) (arrival d c).
Proof.
  intros [Hd Hk] Hslots Hid Hproj Haccept. destruct (project_slave _ _ Hproj) as (Hvalid & Hs & Hstate).
  unfold SlavePut. rewrite decide_False, Hproj by lia. do 3 api_step.
  apply wp_run_tx, wp_orm_create_accepted; [by rewrite Hs|apply Haccept|]. simpl. intros id Hpos Hnone Hfree.
  pose proof (created_consistent _ _ _ Hd Hvalid Hpos Hnone Hfree) as Hd1.
  set (d1 := set_slaves (<[id := set_row_id id s]> (slaves d)) d) in *.
  api_step. apply reliable_attemptClusterAllocator; [done..|]. simpl. intros c1 Hrun.
  assert (slaves d1 !! id = Some (set_row_id id s)) as Hin by (unfold d1; simpl; by rewrite lookup_insert_eq).
  assert (foreign_keys (cdb c1) ↔ references (masterapi.RiskGroupID post) (risk_groups d)) as Hkeys.
  { rewrite (allocated_keys _ _ id (set_row_id id s) Hd1 Hrun Hin); rewrite Hs; [done|]. intros Hrg.
    unfold d1. apply put_slave_keys; [done|by rewrite Hs|by rewrite Hs]. }
  assert (∀ d', ∃ t, slave_view d' (set_row_id id s) = masterapi.mkSlave id (masterapi.Hostname post) (masterapi.Port post)
    (masterapi.MongodPortRangeBegin post) (masterapi.MongodPortRangeEnd post) (masterapi.Slave_PersistentStorage post)
    (masterapi.ConfiguredState post) t (masterapi.RiskGroupID post) ∧ (t = true → masterapi.ConfiguredState post = "disabled"%string)) as Hview.
  { intros d'. eexists. unfold slave_view. simpl. rewrite <- Hstate. split.
    - f_equal; by rewrite Hs.
    - intros [->%bool_decide_eq_true _]%andb_true_iff. done. }
  api_step. apply wp_run_tx, wp_slave_view; [|done]. simpl. intros c2 Hc2. do 2 api_step. api_step.
  destruct (Hview (cdb c1)) as (t & Hanswer & Ht).
  apply reliable_attemptCommit; [done|intros c3 Hrg|intros c3 e Hrg]; simpl in *; rewrite Hc2, Hkeys in Hrg; wp_step; (split; [done|]).
  - eexists id, t, []. split_and!; [simpl; by rewrite Hanswer|done|done|done| |done].
    intros _. simpl. rewrite Hc2. destruct Hrun as (x & y & unsat & ms & Hrun). by destruct (compiled_tables Hrun) as (-> & _).
  - eexists id, t, _. by split_and!; [simpl; by rewrite Hanswer|..].
Qed.

(** ** Deleting the replica set 0 *)

Lemma delete_replica_set_keys d rid : foreign_keys d → foreign_keys (delete_replica_set d rid).
Proof.
  intros (Hs & Hm & Hst & Hp). split_and!.
  - done.
  - intros id m. simpl. rewrite lookup_fmap. intros (m0 & Hm0 & ->)%fmap_Some. destruct (Hm _ _ Hm0) as (? & ? & ? & Hrs & ? & ?).
    case_decide as Heq; split_and!; try done. simpl. destruct (Mongod_ReplicaSetID m0) as [r|]; [|done]. simpl in *.
    rewrite lookup_delete_ne by congruence. done.
  - intros sid st Hin. destruct (Hst _ _ Hin) as [m Hm']. unfold state_keys. simpl. rewrite lookup_fmap, Hm'. by eexists.
  - intros pid p. simpl. intros [Hin Hno]%map_lookup_filter_Some. destruct (Hp _ _ Hin) as (? & Hrs & Hmid). split_and!; [done| |]; simpl.
    + destruct (Problem_ReplicaSetID p) as [r|] eqn:Hr; [|done]. simpl in *. rewrite lookup_delete_ne by congruence. done.
    + destruct (Problem_MongodID p); [|done]. destruct Hmid as [m Hm']. simpl. rewrite lookup_fmap, Hm'. by eexists.
Qed.

Lemma delete_all_replica_sets d l : foreign_keys d → let d' := foldr (delete_row (R := ReplicaSet)) d l in
  foreign_keys d' ∧ ∀ id, id ∈ l → replica_sets d' !! id = None.
Proof.
  intros Hk. induction l as [|i l [IHk IH]]; simpl; [split; [done|by intros id ?%not_elem_of_nil]|].
  split; [by apply delete_replica_set_keys|]. intros id [->|Hin]%elem_of_cons; [apply lookup_delete_eq|].
  destruct (decide (i = id)) as [->|Hne]; [apply lookup_delete_eq|]. rewrite lookup_delete_ne by done. by apply IH.
Qed.

Lemma delete_all_replica_sets_slots d l : slots_distinct d → slots_distinct (foldr (delete_row (R := ReplicaSet)) d l).
Proof.
  intros Hslots. induction l as [|i l IH]; simpl; [done|]. intros id1 id2 m1 m2.
  intros (n1 & H1 & E1)%delete_replica_set_mongods (n2 & H2 & E2)%delete_replica_set_mongods Hp Hport.
  apply (IH id1 id2 n1 n2 H1 H2); destruct E1 as [[-> _]| ->], E2 as [[-> _]| ->]; done.
Qed.

(** A request to delete the replica set 0, which does not exist, deletes every
    replica set and is answered with 200. *)
Theorem ReplicaSetDelete_zero d c :
  sound d → slots_distinct d → replica_sets d ≠ ∅ → (∀ n, (gorm_delete (R := ReplicaSet) n d 0).2.2 = None) →
  wp (ReplicaSetDelete has_bus "0")
    (λ _ x', final_status x' = 200 ∧ replica_sets (ex_committed x') = ∅) (λ _ _, False) (arrival d c).
Proof.
  intros [Hd Hk] Hslots Hne Hexec. unfold ReplicaSetDelete.
  assert (ParseInt 64 "0" = Some 0) as -> by done. cbv iota. do 2 api_step. api_step. apply wp_run_tx.
  unfold wp, orm_delete. simpl. pose proof (gorm_delete_law (R := ReplicaSet) (S (cstmts c)) d 0) as Hlaw.
  specialize (Hexec (S (cstmts c))). destruct (gorm_delete _ _ _) as [d' [rows err]]. simpl in Hexec. subst err.
  destruct Hlaw as [-> ->]. simpl.
  rewrite decide_False by (intros Hz; apply Hne, map_size_empty_iff; lia).
  set (d1 := foldr _ _ _). assert (consistent d1) as Hd1 by apply (deleted_replica_sets_consistent 0 d Hd).
  destruct (delete_all_replica_sets d (table_keys (R := ReplicaSet) d) Hk) as [Hk1 Hnone]. fold d1 in Hk1, Hnone.
  assert (slots_distinct d1) as Hslots1 by by apply delete_all_replica_sets_slots.
  unfold allocate_and_commit. apply wp_bind. apply reliable_attemptClusterAllocator; [done..|]. simpl.
  intros c1 (x & y & unsat & ms & Hrun). apply wp_bind. destruct (compiled_tables Hrun) as (_ & Er & _).
  apply reliable_attemptCommit; [done| |]; simpl.
  - intros c2 _. apply wp_ret. split; [done|]. simpl. rewrite Er. apply map_eq. intros id. rewrite lookup_empty.
    destruct (replica_sets d !! id) as [r|] eqn:Hr.
    + apply Hnone, elem_of_elements, elem_of_dom. by eexists.
    + destruct (deleted_replica_sets_tables d (table_keys (R := ReplicaSet) d)) as (_ & _ & Hall).
      destruct (Hall id) as [E|E]; [by rewrite <- Hr|done].
  - intros c2 e Hno. destruct Hno. by eapply compiled_keys.
Qed.
End reliable.

(** ** Answers *)

Section answers.
Context (ENG : Engine) (ORM : Gorm).

Lemma project_all_slaves l c :
  wp (project_all masterapi.ProjectModelSlaveToSlave l)
    (λ r c', cdb c' = cdb c ∧ (∀ out, r = Ok out → out = slave_view (cdb c) <$> l) ∧
       (∀ e, r = Err e → ¬ reliable ENG ORM)) (λ _ _, False) c.
Proof.
  revert c. induction l as [|s l IH]; intros c; simpl; [apply wp_ret; split_and!; [done|by intros ? [= <-]|done]|].
  wp_step. apply (wp_slave_view ENG ORM).
  - intros c1 Hc1. wp_step. eapply wp_mono; [apply IH| |done]. rewrite Hc1. intros [out|e] c2 (Hc2 & Hout & Herr); wp_step.
    + split_and!; [congruence| |done]. intros out' [= <-]. by rewrite (Hout out eq_refl).
    + split_and!; [congruence|done|]. intros e' [= <-]. by apply (Herr e).
  - intros e c1 Hc1 He. wp_step. split_and!; [done|done|by intros ? _].
Qed.

(** The order of [Order("id")]. *)
Lemma key_le_ids (a b : Z) : key_le (a, 0, 0%Q) (b, 0, 0%Q) ↔ a ≤ b.
Proof.
  unfold key_le. simpl. split; [lia|]. intros Hle. destruct (decide (a = b)) as [->|]; [right|left; lia].
  split; [done|right]. split; [done|]. apply Qle_refl.
Qed.

(** The list of slaves is complete: it has one entry per slave, ordered by id,
    that shows its row and, for a disabled slave, whether it still hosts mongods;
    otherwise the server has failed and the answer is 500. *)
Theorem SlaveIndex_complete d c :
  wp SlaveIndex
    (λ _ x', ex_committed x' = d ∧
       ((final_status x' = 500 ∧ ¬ reliable ENG ORM) ∨
        final_status x' = 200 ∧ ∃ rows, ex_body x' = [Encoded (JSlaves (slave_view d <$> rows))] ∧
          rows ≡ₚ (map_to_list (slaves d)).*2 ∧ StronglySorted (λ a b, Slave_ID a ≤ Slave_ID b) rows))
    (λ _ _, False) (arrival d c).
Proof.
  unfold SlaveIndex, reading. api_step. api_step. unfold wp, defer_rollback. simpl.
  match goal with |- context [(?m ≫= ?f) ?x] => assert (wp (m ≫= f) (λ _ x', ex_committed x' = d ∧
       ((final_status x' = 500 ∧ ¬ reliable ENG ORM) ∨
        final_status x' = 200 ∧ ∃ rows, ex_body x' = [Encoded (JSlaves (slave_view d <$> rows))] ∧
          rows ≡ₚ (map_to_list (slaves d)).*2 ∧ StronglySorted (λ a b, Slave_ID a ≤ Slave_ID b) rows)) (λ _ _, False) x) as Hwp end.
  { api_step. apply wp_run_tx. unfold orm_find_ordered. apply wp_sql_query; simpl.
    - set (rows := order_by _ _). api_step. apply wp_run_tx. eapply wp_mono; [apply project_all_slaves| |done].
      intros [out|e] c1 (Hc1 & Hout & Herr); simpl.
      + rewrite (Hout out eq_refl). apply wp_write. split; [done|right]. split; [done|]. exists rows. split_and!; [done| |].
        * unfold rows. by rewrite order_by_perm, select_all.
        * pose proof (StronglySorted_merge_sort (by_key (λ s : Slave, (Slave_ID s, 0, 0%Q)))
            (select (S (cstmts c)) (λ _, true) (slaves d))) as Hsort.
          fold (order_by (λ s : Slave, (Slave_ID s, 0, 0%Q)) (select (S (cstmts c)) (λ _, true) (slaves d))) in Hsort.
          eapply StronglySorted_weaken; [|exact Hsort]. intros a b. apply key_le_ids.
      + apply wp_answer. split; [done|left]. split; [done|by apply (Herr e)].
    - intros e He. apply wp_answer. split; [done|left]. by split. }
  unfold wp in Hwp. destruct (_ ≫= _) as [x' [[]|v|]]; [|done|done]. destruct Hwp as [Hcom Hrest]. unfold Rollback.
  by destruct (ex_open x').
Qed.

(** A slave the API shows can be sent back unchanged: the conversion of the
    answer is accepted and gives the row it came from, without the error of its
    last observation. *)
Theorem slave_roundtrip s c :
  reliable ENG ORM → valid_slave s →
  ∃ a c', masterapi.ProjectModelSlaveToSlave s c = (c', Returned (Ok a)) ∧
    masterapi.ProjectSlaveToModelSlave a =
      Ok (mkSlave (Slave_ID s) (Slave_Hostname s) (Slave_Port s) (Slave_MongodPortRangeBegin s) (Slave_MongodPortRangeEnd s)
            (Slave_PersistentStorage s) (Slave_ConfiguredState s) (Slave_RiskGroupID s) None).
Proof.
  intros Hrel [Hport Hbegin Hrange Hend Hhost Hstate].
  assert (wp (masterapi.ProjectModelSlaveToSlave s) (λ r _, r = Ok (slave_view (cdb c) s)) (λ _ _, False) c) as Hwp
    by (apply (wp_slave_view ENG ORM); [done|by intros e c' _ []]).
  apply wp_returns in Hwp as (r & c' & Hrun & ->). exists (slave_view (cdb c) s), c'. split; [done|].
  unfold masterapi.ProjectSlaveToModelSlave, slave_view. simpl. unfold masterapi.assertIsPortNumber.
  repeat (rewrite decide_False by lia). rewrite (decide_False (P := Slave_Hostname s = _)) by done.
  rewrite decide_False by lia. rewrite !port_wrap_id by lia.
  assert (masterapi.SlaveJSONRepresentationToStruct (masterapi.SlaveStateToJSONRepresentation (Slave_ConfiguredState s)) =
          Ok (Slave_ConfiguredState s)) as ->.
  { rewrite !elem_of_cons, elem_of_nil in Hstate. by destruct Hstate as [->|[->|[->|[]]]]. }
  by destruct (Slave_RiskGroupID s).
Qed.
End answers.

(** ** Instances *)

Definition example_arrival : exchange := arrival example_cluster (mkConn example_cluster 0 []).

(** The first slave, and its update: a new state, and ports taken away. *)
Definition example_slave_row : Slave := mkSlave 1 "host1" 8081 18080 18082 true SlaveStateActive (Some 1) None.
Definition example_post (begin_ : Z) : api_request :=
  PostSlave "1" (Ok (masterapi.mkSlave 1 "host1" 8081 begin_ 18082 true "maintenance" false (Some 1))).
Definition example_run (req : api_request) : exchange := (@serve ref_engine ref_gorm ref_store true req example_arrival).1.

Example update_answers :
  (final_status (example_run (example_post 18080)), final_status (example_run (example_post 18081)),
   final_status (example_run (DeleteSlave "1")), final_status (example_run (DeleteSlave "7")),
   final_status (example_run (DeleteRiskGroup "2")), final_status (example_run (PutRiskGroup (Ok (masterapi.mkRiskGroup 0 "rack1")))))
  = (200, 403, 403, 500, 403, 400).
Proof. vm_compute. reflexivity. Qed.

Lemma example_slave_present : slaves example_cluster !! 1 = Some example_slave_row.
Proof. vm_compute. reflexivity. Qed.

Lemma api_refines_specification_witness :
  wp (@serve ref_engine ref_gorm ref_store true (example_post 18080))
    (λ _ x', (ex_committed x' = example_cluster ∧ (final_status x' = 200 → false = true)) ∨
       ∃ d1, api_change (example_post 18080) example_cluster d1 ∧ allocated true d1 (ex_committed x') ∧ final_status x' = 200)
    (λ _ x', ex_committed x' = example_cluster) example_arrival.
Proof. apply (api_refines_specification ref_engine ref_gorm ref_store true (example_post 18080)); [apply example_sound|exact I]. Defined.

(** A slave of a risk group that does not exist. *)
Definition example_orphan : masterapi.Slave := example_put_slave "host3" (Some 9).

Lemma SlavePut_answers_witness :
  final_status (example_run (PutSlave (Ok example_orphan))) = 200 ∧
  ex_committed (example_run (PutSlave (Ok example_orphan))) = example_cluster.
Proof.
  pose proof (SlavePut_answers ref_engine ref_gorm ref_reliable true example_orphan
    (mkSlave 0 "host3" 8081 18080 18082 true SlaveStateActive (Some 9) None) example_cluster (mkConn example_cluster 0 [])
    example_sound example_cluster_slots eq_refl eq_refl) as H.
  unfold example_run, example_arrival, wp in *. cbn [serve].
  destruct (SlavePut true (Ok example_orphan) _) as [x' [a|v|]].
  - destruct H as (Hstatus & id & t & rest & _ & _ & _ & _ & _ & Hlost).
    + intros n. eexists. vm_compute. reflexivity.
    + split; [exact Hstatus|]. apply Hlost. intros [g Hg]. vm_compute in Hg. discriminate Hg.
  - destruct H. intros n. eexists. vm_compute. reflexivity.
  - destruct H. intros n. eexists. vm_compute. reflexivity.
Defined.

Lemma ReplicaSetDelete_zero_witness :
  final_status (example_run (DeleteReplicaSet "0")) = 200 ∧ replica_sets (ex_committed (example_run (DeleteReplicaSet "0"))) = ∅.
Proof.
  pose proof (ReplicaSetDelete_zero ref_engine ref_gorm ref_store ref_reliable true example_cluster (mkConn example_cluster 0 [])
    example_sound example_cluster_slots) as H.
  assert (replica_sets example_cluster ≠ ∅) as Hne by (intros Hempty%(f_equal size); by vm_compute in Hempty).
  specialize (H Hne (λ _, eq_refl)). unfold example_run, example_arrival, wp in *. cbn [serve].
  destruct (ReplicaSetDelete true "0" _) as [x' [a|v|]]; [exact H|destruct H|destruct H].
Defined.

Lemma slave_roundtrip_witness : ∃ a c', @masterapi.ProjectModelSlaveToSlave ref_engine example_slave_row (mkConn example_cluster 0 []) =
    (c', Returned (Ok a)) ∧ masterapi.ProjectSlaveToModelSlave a = Ok example_slave_row.
Proof.
  apply (slave_roundtrip ref_engine ref_gorm example_slave_row (mkConn example_cluster 0 []) ref_reliable).
  apply (cons_slaves _ (sound_consistent _ example_sound) 1), example_slave_present.
Defined.
