(* ===== verification/Coherence.v ===== *)
(** * The database inside a transaction of the monitor

    While the monitor writes, some references dangle: an unknown mongod has no
    desired state yet, and the slave it was seen on may have been deleted.
    [coherent] is the part of [consistent] that holds throughout; with the foreign
    keys that [COMMIT] checks it gives [consistent] back.  The lemmas say which
    changes of single rows keep it. *)

From stdpp Require Import base gmap sets list strings fin_maps.
From Stdlib Require Import Lia.
From S2P Require Import Prelude Msp Model Database Orm Store Session Projections Monitor Observation Api ApiInvariant.

Open Scope Z_scope.
Set Warnings "-clear-no-such-hyp".

(** The state [sid] belongs to the mongod [mid]. *)
Definition owned (d : db) (mid sid : Z) : Prop :=
  ∃ st, mongod_states d !! sid = Some st ∧ MongodState_ParentMongodID st = mid.

Record coherent (d : db) : Prop := {
  coh_slave id s : slaves d !! id = Some s → Slave_ID s = id ∧ 0 < id ∧ valid_slave s;
  coh_replica_set id r : replica_sets d !! id = Some r → ReplicaSet_ID r = id ∧ 0 < id ∧ valid_replica_set r;
  coh_risk_group id g : risk_groups d !! id = Some g → valid_risk_group id g;
  coh_mongod id m : mongods d !! id = Some m → Mongod_ID m = id;
  coh_desired id m : mongods d !! id = Some m → Mongod_DesiredStateID m = 0 ∨ owned d id (Mongod_DesiredStateID m);
  coh_observed id m o : mongods d !! id = Some m → Mongod_ObservedStateID m = Some o →
    o ≠ Mongod_DesiredStateID m ∧ owned d id o;
  coh_apart : told_apart d;
  coh_slots : member_slots d;
  coh_fit : ports_fit d;
  coh_hostnames : rows_unique (slaves d);
  coh_names : rows_unique (replica_sets d);
  coh_group_names : rows_unique (risk_groups d);
  coh_states : states_keyed d;
  coh_errors eid e : msp_errors d !! eid = Some e → 0 < eid
}.

Lemma consistent_coherent d : consistent d → coherent d.
Proof.
  intros Hd. pose proof (cons_ok _ Hd) as Hok. split; [|..|apply Hd|apply Hd|apply Hd|apply Hd|apply Hd|apply Hd|apply Hd|apply Hd].
  - intros id s Hs. split_and!; [by apply (ok_slave_key _ Hok)|by eapply cons_slave_ids|by eapply cons_slaves].
  - intros id r Hr. destruct (ok_rs_key _ Hok _ _ Hr). split_and!; [done..|by eapply cons_replica_sets].
  - apply (cons_risk_groups _ Hd).
  - intros id m. apply (ok_mongod_key _ Hok).
  - intros id m Hm. right. by apply (ok_desired _ Hok).
  - intros id m o. apply (ok_observed _ Hok).
Qed.

Lemma coherent_consistent d : coherent d → foreign_keys d → consistent d.
Proof.
  intros [Hs Hr Hg Hm Hdes Hobs ? ? ? ? ? ? Hst ?] (Hks & Hkm & _ & _). split; try done.
  - split.
    + intros id s Hin. by apply (Hs id s).
    + intros id s Hin. destruct (Hs id s Hin) as (_ & _ & [? ? ? ? _ _]). unfold PortNumberMin, PortNumberMax, is_port in *. lia.
    + done.
    + intros id r Hin. by destruct (Hr id r Hin) as (? & ? & _).
    + intros id r Hin. by destruct (Hr id r Hin) as (_ & _ & []).
    + intros id m Hin. by destruct (Hkm id m Hin) as (_ & _ & ? & _).
    + intros id m r Hin Hrs. destruct (Hkm id m Hin) as (_ & _ & _ & Href & _). by rewrite Hrs in Href.
    + intros id m Hin. destruct (Hdes id m Hin) as [H0|]; [|done]. destruct (Hkm id m Hin) as (_ & _ & _ & _ & [st Hrow] & _).
      rewrite H0 in Hrow. destruct (Hst _ _ Hrow). lia.
    + done.
  - intros id s Hin. by apply (Hs id s).
  - intros id s Hin. by apply (Hs id s).
  - intros id r Hin. by apply (Hr id r).
Qed.

(** The clauses a change does not touch. *)
Ltac coherent_rest H :=
  first [ exact (coh_slave _ H) | exact (coh_replica_set _ H) | exact (coh_risk_group _ H) | exact (coh_mongod _ H)
        | exact (coh_desired _ H) | exact (coh_observed _ H) | exact (coh_apart _ H) | exact (coh_slots _ H) | exact (coh_fit _ H)
        | exact (coh_hostnames _ H) | exact (coh_names _ H) | exact (coh_group_names _ H) | exact (coh_states _ H)
        | exact (coh_errors _ H) ].

(** ** Changing a row *)

(** A state may change as long as it stays with its mongod. *)
Lemma put_state_owned d sid st mid i :
  (∀ st0, mongod_states d !! sid = Some st0 → MongodState_ParentMongodID st0 = MongodState_ParentMongodID st) →
  owned d mid i → owned (set_mongod_states (<[sid := st]> (mongod_states d)) d) mid i.
Proof.
  intros Hsame (st0 & Hst0 & Hpar). destruct (decide (sid = i)) as [<-|Hne].
  - exists st. simpl. rewrite lookup_insert_eq. split; [done|]. by rewrite <- (Hsame _ Hst0).
  - exists st0. simpl. by rewrite lookup_insert_ne.
Qed.

Section changes.
Context (d : db) (Hd : coherent d).

Lemma put_state_coherent sid st :
  MongodState_ID st = sid → 0 < sid →
  (∀ st0, mongod_states d !! sid = Some st0 → MongodState_ParentMongodID st0 = MongodState_ParentMongodID st) →
  coherent (set_mongod_states (<[sid := st]> (mongod_states d)) d).
Proof.
  intros Hid Hpos Hsame. pose proof (λ mid i, put_state_owned d sid st mid i Hsame) as Howned.
  split; try coherent_rest Hd.
  - intros id m Hm. destruct (coh_desired _ Hd id m Hm); [by left|right; by apply Howned].
  - intros id m o Hm Ho. destruct (coh_observed _ Hd id m o Hm Ho). split; [done|by apply Howned].
  - intros i st'. simpl. intros [[<- <-]|[_ Hin]]%lookup_insert_Some; [done|by apply (coh_states _ Hd)].
Qed.

(** A mongod's row may change if it stays where it is; a new one is no member and none
    that is known. *)
Definition placed_as (old : option Mongod) (m : Mongod) : Prop :=
  match old with
  | Some m0 => mongod_identity m = mongod_identity m0 ∧ Mongod_ReplicaSetID m = Mongod_ReplicaSetID m0
  | None => Mongod_ReplicaSetID m = None ∧ ∀ id m', mongods d !! id = Some m' → mongod_identity m' ≠ mongod_identity m
  end.

Lemma put_mongod_coherent mid m :
  Mongod_ID m = mid → placed_as (mongods d !! mid) m →
  (Mongod_DesiredStateID m = 0 ∨ owned d mid (Mongod_DesiredStateID m)) →
  (∀ o, Mongod_ObservedStateID m = Some o → o ≠ Mongod_DesiredStateID m ∧ owned d mid o) →
  coherent (set_mongods (<[mid := m]> (mongods d)) d).
Proof.
  intros Hid Hplace Hdes Hobs.
  assert (∀ id m1, <[mid := m]> (mongods d) !! id = Some m1 → is_member m1 → ∃ m0, mongods d !! id = Some m0 ∧ is_member m0 ∧
    Mongod_Port m1 = Mongod_Port m0 ∧ Mongod_ParentSlaveID m1 = Mongod_ParentSlaveID m0) as Hmem.
  { intros id m1 [[<- <-]|[_ Hin]]%lookup_insert_Some Hm1; [|by exists m1]. unfold placed_as, is_member in *.
    destruct (mongods d !! mid) as [m0|]; [|destruct Hplace as [Hrs _]; rewrite Hrs in Hm1; by destruct Hm1]. exists m0.
    destruct Hplace as ([= ? ? _] & <-). done. }
  split; try coherent_rest Hd; simpl.
  - intros id m1 [[<- <-]|[_ ?]]%lookup_insert_Some; [done|by apply (coh_mongod _ Hd)].
  - intros id m1 [[<- <-]|[_ ?]]%lookup_insert_Some; [done|by apply (coh_desired _ Hd)].
  - intros id m1 o [[<- <-]|[_ ?]]%lookup_insert_Some; [by apply Hobs|by apply (coh_observed _ Hd)].
  - assert (∀ id m', mongods d !! id = Some m' → mongod_identity m = mongod_identity m' → mid = id) as Hsame.
    { intros id m' Hm' Heq. unfold placed_as in Hplace. destruct (mongods d !! mid) as [m0|] eqn:Hm0.
      - apply (coh_apart _ Hd mid id m0 m'); [done..|]. destruct Hplace. congruence.
      - destruct Hplace as [_ Hnew]. by destruct (Hnew id m' Hm'). }
    intros id1 id2 m1 m2. simpl. intros [[<- <-]|[_ H1]]%lookup_insert_Some [[<- <-]|[_ H2]]%lookup_insert_Some Heq; [done| | |by apply (coh_apart _ Hd id1 id2 m1 m2)].
    + by apply (Hsame id2 m2).
    + symmetry. by apply (Hsame id1 m1).
  - intros id1 id2 m1 m2 Hm1 Hm2 Hmem1 Hmem2 Hpar Hport.
    destruct (Hmem _ _ Hm1 Hmem1) as (n1 & ? & ? & ? & ?), (Hmem _ _ Hm2 Hmem2) as (n2 & ? & ? & ? & ?).
    apply (coh_slots _ Hd id1 id2 n1 n2); first [done|congruence].
  - intros id m1 s Hm1 Hmem1 Hs. destruct (Hmem _ _ Hm1 Hmem1) as (m0 & Hm0 & ? & -> & Hpar).
    apply (coh_fit _ Hd id m0 s Hm0); [done|by rewrite <- Hpar].
Qed.

(** Writing observations into the row of a mongod. *)
Lemma alter_mongod_coherent f mid :
  (∀ m, mongods d !! mid = Some m → Mongod_ID (f m) = Mongod_ID m ∧ placed_as (Some m) (f m) ∧
     (Mongod_DesiredStateID (f m) = Mongod_DesiredStateID m ∨ owned d mid (Mongod_DesiredStateID (f m))) ∧
     (∀ o, Mongod_ObservedStateID (f m) = Some o → o ≠ Mongod_DesiredStateID (f m) ∧ owned d mid o)) →
  coherent (set_mongods (alter f mid (mongods d)) d).
Proof.
  intros Hf. destruct (mongods d !! mid) as [m|] eqn:Hm.
  - rewrite (alter_as_insert _ _ _ _ Hm).
    destruct (Hf m eq_refl) as (Hid & Hplace & Hdes & Hobs). apply put_mongod_coherent; [|by rewrite Hm| |done].
    + rewrite Hid. by apply (coh_mongod _ Hd).
    + destruct Hdes as [->|]; [by apply (coh_desired _ Hd)|by right].
  - rewrite alter_id; [by destruct d|]. intros m Hm'. congruence.
Qed.

End changes.

(** No mongod refers to a state that does not exist. *)
Lemma new_state_unused d mid sid m : coherent d → 0 < sid → mongod_states d !! sid = None → mongods d !! mid = Some m → sid ≠ Mongod_DesiredStateID m ∧ Mongod_ObservedStateID m ≠ Some sid.
Proof.
  intros Hd Hpos Hfresh Hm. split.
  - intros ->. destruct (coh_desired _ Hd _ _ Hm) as [?|(st & Hst & _)]; [lia|congruence].
  - intros Ho. destruct (coh_observed _ Hd _ _ _ Hm Ho) as (_ & st & Hst & _). congruence.
Qed.

(** A new state for a mongod, and then the key that refers to it. *)
Section new_state.
Context (d : db) (Hd : coherent d) (mid sid : Z) (role : ShardingRole) (ex : MongodExecutionState).
Context (Hpos : 0 < sid) (Hfresh : mongod_states d !! sid = None).
Let d1 := set_mongod_states (<[sid := mkMongodState sid mid role ex]> (mongod_states d)) d.

Lemma new_state_coherent : coherent d1.
Proof. apply put_state_coherent; [done|done|done|congruence]. Qed.

Lemma new_state_owned : owned d1 mid sid.
Proof. eexists. simpl. by rewrite lookup_insert_eq. Qed.

Lemma new_observed_coherent : coherent (set_mongods (alter (Mongod_set_ObservedStateID (Some sid)) mid (mongods d1)) d1).
Proof.
  apply alter_mongod_coherent; [apply new_state_coherent|]. intros m Hm. split_and!; [done..|by left|]. simpl. intros o [= <-].
  split; [by apply (new_state_unused d mid)|apply new_state_owned].
Qed.

Lemma new_desired_coherent : coherent (set_mongods (alter (Mongod_set_DesiredStateID sid) mid (mongods d1)) d1).
Proof.
  apply alter_mongod_coherent; [apply new_state_coherent|]. intros m Hm. split_and!; [done..|right; apply new_state_owned|]. simpl. intros o Ho.
  destruct (coh_observed _ new_state_coherent _ _ _ Hm Ho) as [_ ?]. split; [|done]. intros ->. by destruct (new_state_unused d mid sid m Hd Hpos Hfresh Hm).
Qed.
End new_state.

(** Changes of other tables. *)
Section other_changes.
Context (d : db) (Hd : coherent d).

Lemma set_msp_errors_coherent t : (∀ eid e, t !! eid = Some e → 0 < eid) → coherent (set_msp_errors t d).
Proof. intros Ht. split; try coherent_rest Hd. exact Ht. Qed.

Lemma put_error_coherent eid e : 0 < eid → coherent (set_msp_errors (<[eid := e]> (msp_errors d)) d).
Proof.
  intros Hpos. apply set_msp_errors_coherent. intros i e' [[<- _]|[_ ?]]%lookup_insert_Some; [done|by eapply (coh_errors _ Hd)].
Qed.

(** Mapping the rows of the slaves and of the mongods, their errors apart. *)
Lemma forget_error_coherent eid : coherent (delete_msp_error d eid).
Proof.
  assert (∀ id s, (slave_forgets eid <$> slaves d) !! id = Some s → ∃ s0, slaves d !! id = Some s0 ∧ s = slave_forgets eid s0) as Hs.
  { intros id s. rewrite lookup_fmap. intros (s0 & ? & ->)%fmap_Some. by exists s0. }
  assert (∀ id m, (mongod_forgets eid <$> mongods d) !! id = Some m → ∃ m0, mongods d !! id = Some m0 ∧ m = mongod_forgets eid m0) as Hm.
  { intros id m. rewrite lookup_fmap. intros (m0 & ? & ->)%fmap_Some. by exists m0. }
  split; try coherent_rest Hd; simpl.
  - intros id s (s0 & Hs0 & ->)%Hs. destruct (coh_slave _ Hd id s0 Hs0) as (? & ? & []). by split_and!.
  - intros id m (m0 & Hm0 & ->)%Hm. by apply (coh_mongod _ Hd id m0).
  - intros id m (m0 & Hm0 & ->)%Hm. by apply (coh_desired _ Hd id m0).
  - intros id m o (m0 & Hm0 & ->)%Hm. by apply (coh_observed _ Hd id m0).
  - intros id1 id2 m1 m2 (n1 & H1 & ->)%Hm (n2 & H2 & ->)%Hm. by apply (coh_apart _ Hd id1 id2 n1 n2).
  - intros id1 id2 m1 m2 (n1 & H1 & ->)%Hm (n2 & H2 & ->)%Hm. by apply (coh_slots _ Hd id1 id2 n1 n2).
  - intros id m s (m0 & Hm0 & ->)%Hm Hmem (s0 & Hs0 & ->)%Hs. by apply (coh_fit _ Hd id m0 s0).
  - intros id1 id2 s1 s2 v (r1 & H1 & ->)%Hs (r2 & H2 & ->)%Hs. by apply (coh_hostnames _ Hd id1 id2 r1 r2).
  - intros i e [_ ?]%lookup_delete_Some. by eapply (coh_errors _ Hd).
Qed.

Lemma slave_error_coherent eid sid :
  coherent (set_slaves (alter (Slave_set_ObservationErrorID eid) sid (slaves d)) d).
Proof.
  assert (∀ id s, alter (Slave_set_ObservationErrorID eid) sid (slaves d) !! id = Some s →
    ∃ s0 e, slaves d !! id = Some s0 ∧ s = Slave_set_ObservationErrorID e s0) as Hs.
  { intros id s. destruct (decide (sid = id)) as [<-|Hne].
    - rewrite lookup_alter_eq. intros (s0 & ? & ->)%fmap_Some. by exists s0, eid.
    - rewrite lookup_alter_ne by done. intros Hin. exists s, (Slave_ObservationErrorID s). split; [done|by destruct s]. }
  split; try coherent_rest Hd; simpl.
  - intros id s (s0 & e & Hs0 & ->)%Hs. destruct (coh_slave _ Hd id s0 Hs0) as (? & ? & []). by split_and!.
  - intros id m s Hm Hmem (s0 & e & Hs0 & ->)%Hs. by apply (coh_fit _ Hd id m s0).
  - intros id1 id2 s1 s2 v (r1 & e1 & H1 & ->)%Hs (r2 & e2 & H2 & ->)%Hs. by apply (coh_hostnames _ Hd id1 id2 r1 r2).
Qed.

Lemma initiated_coherent rid :
  coherent (set_replica_sets (alter (ReplicaSet_set_Initiated true) rid (replica_sets d)) d).
Proof.
  assert (∀ id r, alter (ReplicaSet_set_Initiated true) rid (replica_sets d) !! id = Some r →
    ∃ r0 b, replica_sets d !! id = Some r0 ∧ r = ReplicaSet_set_Initiated b r0) as Hr.
  { intros id r. destruct (decide (rid = id)) as [<-|Hne].
    - rewrite lookup_alter_eq. intros (r0 & ? & ->)%fmap_Some. by exists r0, true.
    - rewrite lookup_alter_ne by done. intros Hin. exists r, (ReplicaSet_Initiated r). split; [done|by destruct r]. }
  split; try coherent_rest Hd; simpl.
  - intros id r (r0 & b & Hr0 & ->)%Hr. destruct (coh_replica_set _ Hd id r0 Hr0) as (? & ? & []). by split_and!.
  - intros id1 id2 r1 r2 v (q1 & b1 & H1 & ->)%Hr (q2 & b2 & H2 & ->)%Hr. by apply (coh_names _ Hd id1 id2 q1 q2).
Qed.

(** The tables no clause speaks about. *)
Lemma set_problems_coherent t : coherent (set_problems t d).
Proof. split; coherent_rest Hd. Qed.
End other_changes.

(** A state belongs to the mongod that refers to it. *)
Lemma desired_owner d id m mid sid : coherent d → mongods d !! id = Some m → Mongod_DesiredStateID m = sid → owned d mid sid → id = mid.
Proof.
  intros Hd Hm Hsid (st & Hst & Hpar). destruct (coh_states _ Hd _ _ Hst).
  destruct (coh_desired _ Hd _ _ Hm) as [?|(st' & Hst' & Hpar')]; [lia|congruence].
Qed.

Lemma fresh_undesired d sid : coherent d → 0 < sid → mongod_states d !! sid = None →
  ∀ id m, mongods d !! id = Some m → Mongod_DesiredStateID m ≠ sid.
Proof. intros Hd Hpos Hfresh id m Hm Hsid. by destruct (new_state_unused d id sid m Hd Hpos Hfresh Hm). Qed.

(** ** What the monitor leaves alone *)

(** A slave without what the monitor knows about it. *)
Definition decided_slave (s : Slave) : Slave := Slave_set_ObservationErrorID None s.

Definition sharding_roles : list ShardingRole := [ShardingRoleNone; ShardingRoleShardServer; ShardingRoleConfigServer].

(** A mongod the master does not want. *)
Definition unwanted (d : db) (m : Mongod) : Prop := ¬ is_member m ∧
  ∀ st, mongod_states d !! Mongod_DesiredStateID m = Some st →
    MongodState_ExecutionState st = MongodExecutionStateForceDestroyed ∧ MongodState_ShardingRole st ∈ sharding_roles.

(** From [d] to [d'] only observations change: no decision about a slave, a replica set
    or a mongod, and a mongod that is new is no member of a replica set and to be
    destroyed. *)
Record maintained (d d' : db) : Prop := {
  mnt_decisions : decisions_kept d d';
  mnt_slaves : decided_slave <$> slaves d' = decided_slave <$> slaves d;
  mnt_tables : risk_groups d' = risk_groups d ∧ problems d' = problems d ∧ mongod_keyfiles d' = mongod_keyfiles d ∧
    mongodb_root_credentials d' = mongodb_root_credentials d;
  mnt_new id m : mongods d !! id = None → mongods d' !! id = Some m → unwanted d' m;
  mnt_owned mid sid : owned d mid sid → owned d' mid sid
}.

Lemma decisions_kept_same d d' : replica_sets d' = replica_sets d → mongods d' = mongods d →
  (∀ id m, mongods d !! id = Some m → mongod_states d' !! Mongod_DesiredStateID m = mongod_states d !! Mongod_DesiredStateID m) →
  decisions_kept d d'.
Proof. intros Er Em Hst. split; [done|]. intros id m Hm. exists m. rewrite Em. split_and!; [done..|by eapply Hst]. Qed.

Lemma maintained_trans d1 d2 d3 : maintained d1 d2 → maintained d2 d3 → maintained d1 d3.
Proof.
  intros [H1 Hs1 (Hg1 & Hp1 & Hk1 & Hc1) Hn1 Ho1] [H2 Hs2 (Hg2 & Hp2 & Hk2 & Hc2) Hn2 Ho2].
  split; [by eapply decisions_kept_trans|congruence|split_and!; congruence| |auto].
  intros id m Hnone Hm. destruct (mongods d2 !! id) as [m2|] eqn:Hm2; [|by eapply Hn2].
  destruct (Hn1 id m2 Hnone Hm2) as [Hno Hst]. destruct (kept_mongods _ _ H2 id m2 Hm2) as (m3 & Hm3 & Hdec & Hsame).
  assert (m3 = m) as -> by congruence. injection Hdec as _ _ _ _ Hrs Hdes. unfold unwanted, is_member in *.
  rewrite Hrs, Hdes, Hsame. done.
Qed.

Section maintained.
Context (d : db).

Lemma maintained_refl : maintained d d.
Proof. split; [by apply decisions_kept_same|done|done|congruence|done]. Qed.

(** A row of [msp_errors], or the error of a slave. *)
Lemma maintained_errors t : maintained d (set_msp_errors t d).
Proof. split; [by apply decisions_kept_same|done|done|simpl; congruence|done]. Qed.

Lemma maintained_slave_error eid sid : maintained d (set_slaves (alter (Slave_set_ObservationErrorID eid) sid (slaves d)) d).
Proof.
  split; [by apply decisions_kept_same| |done|simpl; congruence|done]. simpl. apply map_eq. intros i. rewrite !lookup_fmap.
  destruct (decide (sid = i)) as [<-|]; [rewrite lookup_alter_eq; by destruct (slaves d !! sid)|by rewrite lookup_alter_ne].
Qed.

Lemma maintained_forget eid : maintained d (delete_msp_error d eid).
Proof.
  split; [split; [done|]| |done| |done].
  - intros id m Hm. exists (mongod_forgets eid m). simpl. by rewrite lookup_fmap, Hm.
  - simpl. rewrite <- map_fmap_compose. by apply map_fmap_ext.
  - intros id m Hm. simpl. by rewrite lookup_fmap, Hm.
Qed.

(** A state that no mongod desires, or that is written as it is. *)
Lemma maintained_state sid st :
  (∀ st0, mongod_states d !! sid = Some st0 → MongodState_ParentMongodID st0 = MongodState_ParentMongodID st) →
  (mongod_states d !! sid = Some st ∨ ∀ id m, mongods d !! id = Some m → Mongod_DesiredStateID m ≠ sid) →
  maintained d (set_mongod_states (<[sid := st]> (mongod_states d)) d).
Proof.
  intros Hsame Hfree. split; [apply decisions_kept_same; [done|done|]|done|done|simpl; congruence|]; simpl.
  - intros id m Hm. destruct Hfree as [Hst|Hfree]; [by rewrite insert_id|]. rewrite lookup_insert_ne; [done|]. intros ->. by apply (Hfree id m).
  - intros mid i. by apply put_state_owned.
Qed.

(** What is observed of a mongod. *)
Lemma maintained_mongod f mid : (∀ m, decided (f m) = decided m) →
  maintained d (set_mongods (alter f mid (mongods d)) d).
Proof.
  intros Hf. split; [split; [done|]|done|done| |done]; simpl.
  - intros id m Hm. exists (if decide (mid = id) then f m else m). split_and!; [|by case_decide|done].
    case_decide as Heq; [subst; by rewrite lookup_alter_eq, Hm|by rewrite lookup_alter_ne].
  - intros id m Hnone. destruct (decide (mid = id)) as [<-|]; [rewrite lookup_alter_eq, Hnone; done|rewrite lookup_alter_ne by done; congruence].
Qed.

Lemma maintained_put_mongod mid m m0 : mongods d !! mid = Some m0 → decided m = decided m0 →
  maintained d (set_mongods (<[mid := m]> (mongods d)) d).
Proof.
  intros Hm Hdec. split; [split; [done|]|done|done| |done]; simpl.
  - intros id m1 Hm1. destruct (decide (mid = id)) as [<-|Hne].
    + exists m. rewrite lookup_insert_eq. split_and!; [done|congruence|done].
    + exists m1. by rewrite lookup_insert_ne.
  - intros id m1 Hnone [[<- <-]|[_ ?]]%lookup_insert_Some; congruence.
Qed.

(** An unknown mongod with its desired state. *)
Lemma maintained_unknown mid sid m0 st :
  MongodState_ExecutionState st = MongodExecutionStateForceDestroyed → MongodState_ShardingRole st ∈ sharding_roles →
  mongods d !! mid = None → Mongod_ReplicaSetID m0 = None → mongod_states d !! sid = None →
  (∀ id m, mongods d !! id = Some m → Mongod_DesiredStateID m ≠ sid) →
  maintained d (set_mongods (alter (Mongod_set_DesiredStateID sid) mid (<[mid := m0]> (mongods d)))
    (set_mongod_states (<[sid := st]> (mongod_states d)) d)).
Proof.
  intros Hex Hrole Hfresh Hrs Hsid Hfree. rewrite alter_insert_eq. split; [split; [done|]|done|done| |]; simpl.
  - intros id m Hm. exists m. rewrite lookup_insert_ne by congruence. split_and!; [done..|].
    rewrite lookup_insert_ne; [done|]. intros ->. by apply (Hfree id m).
  - intros id m Hnone [[<- <-]|[_ ?]]%lookup_insert_Some; [|congruence]. split; [intros [r Hr]; simpl in *; congruence|].
    intros st'. simpl. rewrite lookup_insert_eq. by intros [= <-].
  - intros mid' i Hown. eapply (put_state_owned d sid st mid' i) in Hown; [exact Hown|congruence].
Qed.
End maintained.
