(* ===== verification/DesiredStates.v ===== *)
(** * What is desired of mongods

    Every desired state the master ever stores can be pushed to a slave: its execution
    state is to run, to be destroyed or to be destroyed by force, and its sharding role
    is one of the three the protocol knows.  The allocator, the requests of the API and
    the monitor keep that. *)

From stdpp Require Import base gmap sets list strings fin_maps relations.
From Stdlib Require Import Lia.
From S2P Require Import Prelude Msp Model Database Orm Store Allocator AllocatorRemoval AllocatorAdd AllocatorSpec Monitor Observation.
From S2P Require Import Api ApiServer ApiHandlers ApiInvariant ApiRules ApiSlaves ApiReplicaSets ApiRiskGroups ApiRequests Coherence.

Open Scope Z_scope.
Set Warnings "-clear-no-such-hyp".

Record valid_desired (st : MongodState) : Prop := {
  valid_execution : MongodState_ExecutionState st ∈
    [MongodExecutionStateRunning; MongodExecutionStateDestroyed; MongodExecutionStateForceDestroyed];
  valid_state_role : MongodState_ShardingRole st ∈ sharding_roles
}.

Definition desires_valid (d : db) : Prop := ∀ id m st,
  mongods d !! id = Some m → mongod_states d !! Mongod_DesiredStateID m = Some st → valid_desired st.

(** ** Deletion *)

(** Rows disappear, or forget their replica set. *)
Record shrinks (d d' : db) : Prop := {
  shrinks_mongods id m : mongods d' !! id = Some m →
    ∃ m0, mongods d !! id = Some m0 ∧ Mongod_DesiredStateID m0 = Mongod_DesiredStateID m;
  shrinks_states : mongod_states d' ⊆ mongod_states d
}.

Lemma shrinks_valid d d' : shrinks d d' → desires_valid d → desires_valid d'.
Proof.
  intros [Hm Hst] Hd id m st (m0 & Hm0 & Heq)%Hm Hin. apply (Hd id m0); [done|]. rewrite Heq. by eapply lookup_weaken.
Qed.

Lemma shrinks_refl d d' : mongods d' = mongods d → mongod_states d' = mongod_states d → shrinks d d'.
Proof. intros Em Es. split; rewrite ?Em, ?Es; [|done]. intros id m Hm. by exists m. Qed.

Lemma shrinks_trans d1 d2 d3 : shrinks d1 d2 → shrinks d2 d3 → shrinks d1 d3.
Proof.
  intros [Hm1 Hs1] [Hm2 Hs2]. split; [|by etrans]. intros id m (m2 & Hm2' & <-)%Hm2. by apply Hm1.
Qed.

Lemma delete_mongods_shrinks d M : db_ok d → shrinks d (delete_mongods d M).
Proof.
  intros Hok. split; [|apply map_filter_subseteq]. intros id m [Hm _]%delete_mongods_lookup; [|done]. by exists m.
Qed.

Lemma delete_slave_shrinks d sid : db_ok d → shrinks d (delete_slave d sid).
Proof.
  intros Hok. eapply shrinks_trans; [by apply (delete_mongods_shrinks d (members_where d (hosted_on sid)))|]. by apply shrinks_refl.
Qed.

Lemma delete_replica_set_shrinks d rid : shrinks d (delete_replica_set d rid).
Proof.
  split; [|done]. intros id m (m0 & Hm0 & Heq)%delete_replica_set_mongods. exists m0. split; [done|].
  by destruct Heq as [[-> _]| ->].
Qed.

Lemma delete_replica_sets_shrinks d l : shrinks d (foldr (delete_row (R := ReplicaSet)) d l).
Proof.
  induction l as [|rid l IH]; simpl; [by apply shrinks_refl|]. eapply shrinks_trans; [exact IH|apply delete_replica_set_shrinks].
Qed.

(** No request creates a mongod or a state itself. *)
Lemma change_shrinks req d d1 : consistent d → api_change req d d1 → shrinks d d1.
Proof.
  intros Hd Hc. destruct (change_deletes req d d1 Hc) as [d1 Em Es _|sid|l].
  - by apply shrinks_refl.
  - apply delete_slave_shrinks, Hd.
  - apply delete_replica_sets_shrinks.
Qed.

(** ** The allocator *)

Lemma same_layout_desires d d' : same_layout d d' → desires_valid d → desires_valid d'.
Proof.
  intros Hsame Hd id m st. rewrite (same_mongods _ _ Hsame). intros Hm Hst.
  pose proof (same_parents _ _ Hsame (Mongod_DesiredStateID m)) as Hpar. rewrite Hst in Hpar.
  destruct (mongod_states d !! _) as [st0|] eqn:Hst0; [|done]. injection Hpar as _ _ Hrole.
  destruct (Hd id m st0 Hm Hst0) as [Hex Hr]. destruct (same_or_doomed _ _ Hsame _ _ Hst) as [Hin|Hdoomed].
  - by assert (st = st0) as -> by congruence.
  - split; [|by rewrite Hrole]. destruct Hdoomed as [->| ->]; set_solver.
Qed.

Lemma grown_desires d d' : db_ok d → (∀ id r, replica_sets d !! id = Some r → valid_replica_set r) →
  grown d d' → desires_valid d → desires_valid d'.
Proof.
  intros Hok Hrs Hg Hd. generalize dependent d'. refine (grown_ind d _ Hd _).
  intros d1 d2 p Hg [r s mid sid port Hr _ _ _ _ _ Hfresh] Hd1 id m st. pose proof (grown_ok d Hok d1 Hg) as Hok1.
  intros [[-> ->]|Hm]%(spawn_mongods d1 mid sid port s r); [| |done]; simpl.
  - rewrite lookup_insert_eq. intros [= <-]. split; simpl; [left|].
    destruct (grown_tables d d1 Hg) as [_ Er]. rewrite Er in Hr. by apply (valid_role _ (Hrs _ _ Hr)).
  - intros [[Heq <-]|[_ Hst]]%lookup_insert_Some; [|by apply (Hd1 id m)].
    destruct (ok_desired _ Hok1 _ _ Hm) as (st & Hst & _). exfalso. destruct Hfresh. congruence.
Qed.

Lemma allocated_desires has_bus d d' : consistent d → allocated has_bus d d' → desires_valid d → desires_valid d'.
Proof.
  intros Hd (d1 & d2 & unsat & ms & Hrun) Hv. destruct Hrun as [-> Hsame _ Hg _ _]. pose proof (cons_ok _ Hd) as Hok.
  apply (grown_desires d2 d'); [|..|exact Hg|].
  - eapply same_layout_ok; [done|by apply cleaned_ok].
  - rewrite (same_replica_sets _ _ Hsame). apply (cons_replica_sets _ Hd).
  - eapply same_layout_desires; [done|]. unfold cleaned, remove_destroyed.
    eapply shrinks_valid; [apply delete_mongods_shrinks|].
    + eapply same_layout_ok; [apply mark_orphaned_layout|done].
    + eapply same_layout_desires; [apply mark_orphaned_layout|done].
Qed.

(** ** The monitor *)

Lemma maintained_desires d d' : maintained d d' → desires_valid d → desires_valid d'.
Proof.
  intros Hmt Hd id m st Hm Hst. destruct (mongods d !! id) as [m0|] eqn:Hm0.
  - destruct (kept_mongods _ _ (mnt_decisions _ _ Hmt) id m0 Hm0) as (m1 & Hm1 & Hdec & Hsame).
    assert (m1 = m) as -> by congruence. injection Hdec as _ _ _ _ _ Heq. apply (Hd id m0); [done|]. by rewrite <- Hsame, <- Heq.
  - destruct (mnt_new _ _ Hmt id m Hm0 Hm) as [_ Hnew]. destruct (Hnew st Hst) as [Hex Hrole]. split; [|done]. rewrite Hex. set_solver.
Qed.
