(* ===== verification/MonitorSafety.v ===== *)
(** * The monitor under failures

    Whatever statement fails, whatever a slave answers and however old the row of the
    slave is: a transaction of the monitor that is committed leaves the database
    consistent.  Every step keeps [coherent], unless it reports an error, which makes
    the monitor roll back. *)

From stdpp Require Import base gmap sets list strings fin_maps.
From Stdlib Require Import Lia.
From S2P Require Import Prelude Msp Model Database Orm Store Session Members Projections Monitor Observation Api ApiInvariant ApiRules Coherence.

Open Scope Z_scope.
Set Warnings "-clear-no-such-hyp".

(** ** Associations *)

Lemma association_error d e key d' :
  coherent d → MSPError_ID e = 0 → association_saved zero_MSPError d e key d' →
  coherent d' ∧ maintained d d' ∧ mongods d' = mongods d ∧ mongod_states d' = mongod_states d.
Proof.
  intros Hd Hid. unfold association_saved. case_decide; [intros [_ ->]; split_and!; [done|apply maintained_refl|done..]|].
  simpl. rewrite decide_True by done. intros (id & Hpos & _ & _ & ->).
  split_and!; [by apply put_error_coherent|apply maintained_errors|done..].
Qed.

(** A state that may be saved for the mongod [mid]: one of its own, or a new one. *)
Definition own_state (d : db) (mid : Z) (a : MongodState) : Prop :=
  if decide (MongodState_ID a = 0) then a = zero_MongodState ∨ MongodState_ParentMongodID a = mid
  else MongodState_ParentMongodID a = mid ∧ owned d mid (MongodState_ID a) ∧
    (mongod_states d !! MongodState_ID a = Some a ∨ ∀ id m, mongods d !! id = Some m → Mongod_DesiredStateID m ≠ MongodState_ID a).

Lemma association_state d a mid key d' :
  coherent d → own_state d mid a → association_saved zero_MongodState d a key d' →
  coherent d' ∧ maintained d d' ∧ mongods d' = mongods d ∧
  match key with
  | None => d' = d ∧ a = zero_MongodState
  | Some sid => owned d' mid sid ∧ if decide (MongodState_ID a = 0) then mongod_states d !! sid = None else sid = MongodState_ID a
  end.
Proof.
  intros Hd Hown. unfold association_saved, own_state in *.
  destruct (decide (a = zero_MongodState)) as [Hz|Hz]; [intros [-> ->]; by split_and!; [|apply maintained_refl|..]|]. simpl.
  destruct (decide (MongodState_ID a = 0)) as [Hid|Hid].
  - destruct Hown as [?|Hpar]; [done|]. intros (id & Hpos & Hfresh & -> & ->). simpl in Hfresh. split_and!; [| |done| |done].
    + apply put_state_coherent; [done|done|done|congruence].
    + apply maintained_state; [congruence|]. right. by apply fresh_undesired.
    + eexists. simpl. by rewrite lookup_insert_eq.
  - intros [-> ->]. destruct Hown as (Hpar & (st & Hst & Hst') & Hfree). destruct (coh_states _ Hd _ _ Hst) as [_ Hpos].
    split_and!; [| |done| |done].
    + apply put_state_coherent; [done|done|done|congruence].
    + apply maintained_state; [congruence|done].
    + eexists. simpl. by rewrite lookup_insert_eq.
Qed.

(** The states that are read back for a mongod. *)
Definition state_of (d : db) (id : option Z) : MongodState := default zero_MongodState (id ≫= λ i, mongod_states d !! i).

Lemma desired_own d m : coherent d → mongods d !! Mongod_ID m = Some m →
  own_state d (Mongod_ID m) (state_of d (Some (Mongod_DesiredStateID m))) ∧
  (state_of d (Some (Mongod_DesiredStateID m)) = zero_MongodState ∨
   MongodState_ID (state_of d (Some (Mongod_DesiredStateID m))) = Mongod_DesiredStateID m ∧ 0 < Mongod_DesiredStateID m).
Proof.
  intros Hd Hm. unfold state_of, own_state. simpl. destruct (mongod_states d !! _) as [st|] eqn:Hst; simpl; [|by split; left].
  destruct (coh_states _ Hd _ _ Hst) as [Hid Hpos]. rewrite Hid, decide_False by lia.
  destruct (coh_desired _ Hd _ _ Hm) as [?|(st' & Hst' & Hpar)]; [lia|].
  assert (st' = st) as -> by congruence. split; [split_and!; [done|by exists st|by left]|by right].
Qed.

(** The observed state that is written. *)
Lemma observed_own d m ds o : coherent d → mongods d !! Mongod_ID m = Some m →
  own_state d (Mongod_ID m) (value_ObservedState (observed_value m ds (state_of d (Mongod_ObservedStateID m)) o)) ∧
  MongodState_ID (value_ObservedState (observed_value m ds (state_of d (Mongod_ObservedStateID m)) o)) =
    default 0 (Mongod_ObservedStateID m).
Proof.
  intros Hd Hm. unfold state_of, own_state, observed_value. destruct (Mongod_ObservedStateID m) as [i|] eqn:Hi; simpl.
  - destruct (coh_observed _ Hd _ _ _ Hm Hi) as (Hne & st & Hst & Hpar). rewrite Hst. simpl.
    destruct (coh_states _ Hd _ _ Hst) as [Hid Hpos].
    assert (∀ id m', mongods d !! id = Some m' → Mongod_DesiredStateID m' ≠ i) as Hfree.
    { intros id m' Hm' Heq. assert (id = Mongod_ID m) as -> by by apply (desired_owner d id m' _ i); [..|exists st].
      by assert (m' = m) as -> by congruence. }
    destruct (msp.StatusError o); simpl; rewrite Hid, decide_False by lia; (split; [split_and!; [done|by exists st|by right]|done]).
  - destruct (msp.StatusError o); simpl; try rewrite decide_True by done; (split; [|done]); [by left|by right].
Qed.

Lemma save_coherent d m o e d1 ds d2 os d3 v :
  coherent d → mongods d !! Mongod_ID m = Some m →
  v = observed_value m (state_of d (Some (Mongod_DesiredStateID m))) (state_of d (Mongod_ObservedStateID m)) o →
  association_saved zero_MSPError d (value_ObservationError v) e d1 →
  association_saved zero_MongodState d1 (value_DesiredState v) ds d2 →
  association_saved zero_MongodState d2 (value_ObservedState v) os d3 →
  let d' := set_mongods (<[Mongod_ID m := with_keys e ds os m]> (mongods d3)) d3 in coherent d' ∧ maintained d d'.
Proof.
  intros Hd Hm Hv He Hds Hos.
  assert (MSPError_ID (value_ObservationError v) = 0) as Hz by (rewrite Hv; unfold observed_value; by destruct (msp.StatusError o)).
  destruct (association_error _ _ _ _ Hd Hz He) as (Hd1 & Hmt1 & Em1 & Es1).
  assert (value_DesiredState v = state_of d1 (Some (Mongod_DesiredStateID m))) as Hvd.
  { rewrite Hv. unfold observed_value, state_of. rewrite Es1. by destruct (msp.StatusError o). }
  rewrite <- Em1 in Hm. destruct (desired_own _ _ Hd1 Hm) as [Hown Hid]. rewrite Hvd in Hds.
  destruct (association_state _ _ _ _ _ Hd1 Hown Hds) as (Hd2 & Hmt2 & Em2 & Hkey).
  assert (default (Mongod_DesiredStateID m) ds = Mongod_DesiredStateID m) as Hdsid.
  { destruct ds as [sid|]; [|done]. simpl. destruct Hkey as [_ Hkey]. destruct Hid as [Hid|[Hid Hpos]].
    - rewrite Hid in Hds. unfold association_saved in Hds. rewrite decide_True in Hds by done. by destruct Hds.
    - rewrite Hid, decide_False in Hkey by lia. done. }
  assert (mongod_states d2 = mongod_states d1) as Es2.
  { destruct ds as [sid|]; [|by destruct Hkey as [-> _]]. unfold association_saved in Hds. revert Hds.
    destruct (decide (state_of d1 _ = zero_MongodState)) as [Hzero|Hzero]; [by intros [_ ->]|]. destruct Hid as [?|[Hid Hpos]]; [done|]. simpl. rewrite Hid, decide_False by lia.
    intros [_ ->]. simpl. apply insert_id. unfold state_of in *. simpl in *. by destruct (mongod_states d1 !! _). }
  assert (value_ObservedState v = value_ObservedState (observed_value m (value_DesiredState v) (state_of d2 (Mongod_ObservedStateID m)) o)) as Hvo.
  { rewrite Hv. unfold observed_value, state_of. rewrite Es2, Es1. by destruct (msp.StatusError o). }
  rewrite <- Em2 in Hm. destruct (observed_own d2 m (value_DesiredState v) o Hd2 Hm) as [Hown2 Hid2]. rewrite <- Hvo in Hown2, Hid2.
  destruct (association_state _ _ _ _ _ Hd2 Hown2 Hos) as (Hd3 & Hmt3 & Em3 & Hkey3). rewrite <- Em3 in Hm.
  split.
  2: { do 3 (eapply maintained_trans; [done|]). apply (maintained_put_mongod _ _ _ m Hm). unfold decided, with_keys, Mongod_set_DesiredStateID. simpl. by rewrite Hdsid. }
  apply put_mongod_coherent; [done|done|by rewrite Hm| |]; simpl; rewrite Hdsid; [by apply (coh_desired _ Hd3)|].
  intros i. destruct os as [sid|]; simpl; [|by apply (coh_observed _ Hd3)]. intros [= <-]. destruct Hkey3 as [Hsid Hkey3].
  split; [|done]. rewrite Hid2 in Hkey3. rewrite Em3 in Hm.
  destruct (decide (default 0 (Mongod_ObservedStateID m) = 0)) as [Hno|Hno].
  - destruct (coh_desired _ Hd2 _ _ Hm) as [->|(st & Hst & _)]; [|congruence].
    destruct Hsid as (st & Hst & _). destruct (coh_states _ Hd3 _ _ Hst). lia.
  - destruct (Mongod_ObservedStateID m) as [oid|] eqn:Ho; [|done]. simpl in Hkey3. subst. by apply (coh_observed _ Hd2 _ _ _ Hm Ho).
Qed.


(** The role reported for a mongod is one of the three. *)
Lemma reported_role_known o : reported_role o ∈ sharding_roles.
Proof. unfold reported_role, ProjectMSPShardingRoleToModelShardingRole, sharding_roles. repeat case_decide; set_solver. Qed.

(** ** Steps *)

Section steps.
Context `{ENG : Engine} `{ORM : Gorm} `{STORE : GormStore} `{ASSOC : GormAssociations}.

(** From [d] on: the database is coherent and no decision has changed. *)
Definition advanced (d d' : db) : Prop := coherent d' ∧ maintained d d'.

Lemma advanced_refl d : coherent d → advanced d d.
Proof. intros Hd. split; [done|apply maintained_refl]. Qed.
Lemma advanced_trans d1 d2 d3 : advanced d1 d2 → advanced d2 d3 → advanced d1 d3.
Proof. intros [_ H12] [Hd3 H23]. split; [done|by eapply maintained_trans]. Qed.

(** A step that reports its errors advances the database or fails; a panic is not
    looked at. *)
Definition advances_unless (d : db) (err : option gerror) (c : conn) : Prop := err = None → advanced d (cdb c).
Definition advances (m : GoM conn (option gerror)) : Prop := ∀ c,
  coherent (cdb c) → wp m (advances_unless (cdb c)) (λ _ _, True) c.

Lemma failed d e c : advances_unless d (Some e) c.
Proof. done. Qed.
Lemma succeeded d c : advanced d (cdb c) → advances_unless d None c.
Proof. by intros Hd _. Qed.
Hint Resolve failed advanced_refl : core.

Lemma wp_succeed d c : advanced d (cdb c) → wp (mret None) (advances_unless d) (λ _ _, True) c.
Proof. intros Hd. by apply wp_ret, succeeded. Qed.

(** One step after another, as the monitor writes it. *)
Lemma advances_then m (fail : gerror → gerror) (k : GoM conn (option gerror)) d c :
  advances m → coherent (cdb c) → advanced d (cdb c) →
  (∀ c', coherent (cdb c') → advanced (cdb c) (cdb c') → advanced d (cdb c') → wp k (advances_unless d) (λ _ _, True) c') →
  wp (err ← m; match err with Some e => mret (Some (fail e)) | None => k end) (advances_unless d) (λ _ _, True) c.
Proof.
  intros Hm Hc Hd Hk. wp_step. eapply wp_mono; [by apply Hm| |done]. intros [e|] c' Hc'; [by apply wp_ret|].
  destruct (Hc' eq_refl) as [? ?]. apply Hk; [done|done|]. by eapply advanced_trans.
Qed.

(** *** The slave's error *)

Definition positive_key (key : option Z) : Prop := ∀ id, key = Some id → 0 < id.

Lemma store_observation_error_advances slave e :
  positive_key (Slave_ObservationErrorID slave) → advances (store_observation_error slave e).
Proof.
  intros Hpos c Hc. unfold store_observation_error. destruct (Slave_ObservationErrorID slave) as [id|].
  - specialize (Hpos id eq_refl). apply wp_orm_save_any; simpl; [lia| |by intros _; apply succeeded, advanced_refl|by intros err _].
    intros _. apply succeeded. split; [by apply put_error_coherent|apply maintained_errors].
  - wp_step. apply wp_orm_create; [done|done| |by intros err _; apply wp_ret]. intros id Hid _.
    apply wp_orm_update; [|by intros err _]. apply succeeded. simpl. split.
    + exact (slave_error_coherent _ (put_error_coherent _ Hc _ _ Hid) _ _).
    + eapply maintained_trans; [apply maintained_errors|]. exact (maintained_slave_error (set_msp_errors _ (cdb c)) _ _).
Qed.

Lemma updateSlaveObservationError_advances slave mspError :
  positive_key (Slave_ObservationErrorID slave) → advances (updateSlaveObservationError slave mspError).
Proof.
  intros Hpos c Hc. unfold updateSlaveObservationError. destruct mspError as [e|].
  - apply (advances_then _ (λ e, TextError _)); [by apply store_observation_error_advances|by auto..|]. intros c' _ _ Hc'. by apply wp_succeed.
  - destruct (Slave_ObservationErrorID slave) as [id|]; [|by apply wp_succeed, advanced_refl].
    wp_step. apply wp_sql_exec_rows; simpl; [|by intros e _; apply wp_ret].
    destruct (decide _); [by apply wp_ret|]. apply wp_succeed. split; [by apply forget_error_coherent|apply maintained_forget].
Qed.

(** *** Mongods that are not reported *)

(** A row that was read before: its observed state is still its own, and not the one
    that is desired. *)
Definition read_row (d : db) (m : Mongod) : Prop := ∃ m0, mongods d !! Mongod_ID m = Some m0 ∧
  ∀ o, Mongod_ObservedStateID m = Some o → owned d (Mongod_ID m) o ∧ Mongod_DesiredStateID m0 ≠ o.

Lemma just_read d id m : coherent d → mongods d !! id = Some m → read_row d m.
Proof.
  intros Hd Hm. pose proof (coh_mongod _ Hd _ _ Hm) as <-. exists m. split; [done|]. intros o Ho.
  by destruct (coh_observed _ Hd _ _ _ Hm Ho).
Qed.

Lemma read_row_maintained d d' m : maintained d d' → read_row d m → read_row d' m.
Proof.
  intros Hmt (m0 & Hm0 & Hkey). destruct (kept_mongods _ _ (mnt_decisions _ _ Hmt) _ _ Hm0) as (m1 & Hm1 & Hdec & _).
  exists m1. split; [done|]. intros o Ho. destruct (Hkey o Ho). injection Hdec as _ _ _ _ _ ->. split; [by apply (mnt_owned _ _ Hmt)|done].
Qed.

Lemma read_row_undesired d m o : coherent d → read_row d m → Mongod_ObservedStateID m = Some o →
  ∀ id m', mongods d !! id = Some m' → Mongod_DesiredStateID m' ≠ o.
Proof.
  intros Hd (m0 & Hm0 & Hkey) Ho id m' Hm' Heq. destruct (Hkey o Ho) as [Hown Hne].
  assert (id = Mongod_ID m) as -> by by apply (desired_owner d id m' _ o). congruence.
Qed.

Lemma set_observed_destroyed_advances m c :
  coherent (cdb c) → read_row (cdb c) m → wp (set_observed_destroyed m) (advances_unless (cdb c)) (λ _ _, True) c.
Proof.
  intros Hc Hread. unfold set_observed_destroyed. destruct (Mongod_ObservedStateID m) as [o|] eqn:Ho.
  - wp_step. apply wp_orm_update; [|intros e _; by apply wp_succeed, advanced_refl]. apply wp_succeed. simpl.
    pose proof (read_row_undesired _ _ _ Hc Hread Ho) as Hfree. destruct Hread as (m0 & _ & Hkey). destruct (Hkey o Ho) as [(st & Hst & Hpar) _].
    rewrite (alter_as_insert _ _ _ _ Hst). destruct (coh_states _ Hc _ _ Hst).
    split; [apply put_state_coherent|apply maintained_state]; try done; [..|by right]; intros st0; simpl; congruence.
  - wp_step. apply wp_orm_create; [done|done| |intros e _; by apply wp_ret]. intros o Hpos Hfresh. simpl in Hfresh.
    wp_step. apply wp_orm_update; [|intros e _; by apply wp_ret]. apply wp_succeed. simpl. split.
    + by apply (new_observed_coherent (cdb c) Hc).
    + eapply maintained_trans; [|by apply (maintained_mongod (set_mongod_states _ (cdb c)))].
      apply maintained_state; [congruence|right; by apply fresh_undesired].
Qed.

Lemma clear_observation_error_advances m : advances (clear_observation_error m).
Proof.
  intros c Hc. unfold clear_observation_error. destruct (Mongod_ObservationErrorID m); [|by apply wp_succeed, advanced_refl].
  apply wp_orm_update; [|by intros e _]. apply succeeded. simpl. split; [|by apply maintained_mongod].
  apply alter_mongod_coherent; [done|]. intros m0 Hm0. split_and!; [done..|by left|]. intros o Ho. by apply (coh_observed _ Hc _ m0).
Qed.

Lemma mark_unobserved_advances l ms d c :
  coherent (cdb c) → advanced d (cdb c) → Forall (read_row (cdb c)) ms →
  wp (mark_unobserved l ms) (advances_unless d) (λ _ _, True) c.
Proof.
  revert c. induction ms as [|m ms IH]; intros c Hc Hd Hms; simpl; [by apply wp_succeed|].
  apply Forall_cons in Hms as [Hm Hms]. destruct (reported l m); [by apply IH|].
  wp_step. eapply wp_mono; [by apply set_observed_destroyed_advances| |done]. intros [e|] c1 H1; [by apply wp_ret|].
  destruct (H1 eq_refl) as [Hc1 Hmt1]. apply (advances_then _ (λ e, e)); [apply clear_observation_error_advances|done|by eapply advanced_trans|].
  intros c2 Hc2 [_ Hmt2] Hd2. apply IH; [done|done|]. eapply Forall_impl; [exact Hms|]. intros m'. simpl.
  intros Hread. by eapply read_row_maintained, read_row_maintained.
Qed.

Lemma updateMongodStatesNotObservedOnSlave_advances slave l : advances (updateMongodStatesNotObservedOnSlave slave l).
Proof.
  intros c Hc. unfold updateMongodStatesNotObservedOnSlave, related_mongods. wp_step.
  apply wp_sql_query; [|intros e _; by apply wp_ret]. apply mark_unobserved_advances; [done|by apply advanced_refl|].
  apply Forall_forall. intros m (id & Hm & _)%elem_of_select. by eapply just_read.
Qed.

(** *** Mongods that are reported *)

(** The row that is found or created. *)
Definition found_row (d : db) (r : gres Mongod) (c : conn) : Prop :=
  ∀ m, r = Ok m → advanced d (cdb c) ∧ mongods (cdb c) !! Mongod_ID m = Some m.

(** Whatever the report, a row with its identity is found by the query. *)
Lemma identity_like slave o m : mongod_identity m = mongod_identity (observed_row slave o) → like (observed_row slave o) m = true.
Proof.
  intros [= E1 E2 E3]. unfold like, zero_or_equal. simpl. rewrite <- E1, <- E2, <- E3.
  by rewrite !andb_true_iff, !orb_true_iff, !bool_decide_eq_true; auto 10.
Qed.

Lemma create_unknown_advances slave o c : coherent (cdb c) →
  (∀ id m, mongods (cdb c) !! id = Some m → mongod_identity m ≠ mongod_identity (observed_row slave o)) → wp (create_unknown slave o) (found_row (cdb c)) (λ _ _, True) c.
Proof.
  intros Hc Hnew. unfold create_unknown. wp_step.
  apply wp_orm_create; [done|done| |by intros e _; apply wp_ret]. intros mid Hpos Hfresh. simpl in Hfresh. wp_step.
  apply wp_orm_create; [done|done| |by intros e _; apply wp_ret]. intros sid Hspos Hsfresh. simpl in Hsfresh. wp_step.
  apply wp_orm_update; [|by intros e _; apply wp_ret]. apply wp_ret. intros m' [= <-]. simpl.
  split; [split|by rewrite lookup_alter_eq, lookup_insert_eq].
  - pose proof (put_mongod_coherent (cdb c) Hc mid (set_row_id mid (observed_row slave o)) eq_refl) as Hd1.
    rewrite Hfresh in Hd1. specialize (Hd1 (conj eq_refl Hnew) (or_introl eq_refl) ltac:(done)).
    exact (new_desired_coherent _ Hd1 mid sid _ _ Hspos Hsfresh).
  - refine (maintained_unknown (cdb c) mid sid (set_row_id mid (observed_row slave o)) _ _ _ Hfresh eq_refl Hsfresh
      (fresh_undesired _ _ Hc Hspos Hsfresh)); [done|apply reported_role_known].
Qed.

Lemma find_mongod_advances slave o c : coherent (cdb c) → wp (find_mongod slave o) (found_row (cdb c)) (λ _ _, True) c.
Proof.
  intros Hc. unfold find_mongod. wp_step. unfold wp at 1, orm_first_like.
  pose proof (gorm_first_like_law (cstmts c) (cdb c) (observed_row slave o)) as Hlaw.
  destruct (gorm_first_like _ _ _) as [m|e].
  - destruct Hlaw as (id & Hm & _). apply wp_ret. intros m' [= <-]. split; [by apply advanced_refl|]. by rewrite (coh_mongod _ Hc _ _ Hm).
  - destruct e; try (by apply wp_ret). apply (create_unknown_advances slave o (tick c) Hc). intros id m Hm Heq%identity_like.
    by rewrite (Hlaw id m Hm) in Heq.
Qed.

Lemma wp_related_or_zero_any id (Q : gres MongodState → conn → Prop) E c :
  (∀ c', cdb c' = cdb c → Q (Ok (state_of (cdb c) id)) c') → (∀ e c', Q (Err e) c') → wp (related_or_zero id) Q E c.
Proof.
  intros HQ HE. unfold related_or_zero, related_state, state_of in *. wp_step. destruct id as [id|]; simpl in HQ.
  - apply wp_orm_first_id; simpl.
    + intros st Hst. rewrite Hst in HQ. apply wp_ret. by apply HQ.
    + intros Hst. rewrite Hst in HQ. apply wp_ret. by apply HQ.
    + intros e Hne _. destruct e; by apply wp_ret.
  - apply wp_ret, wp_ret. by apply HQ.
Qed.

Lemma save_observation_advances slave m o c : coherent (cdb c) → mongods (cdb c) !! Mongod_ID m = Some m →
  wp (save_observation slave m o) (advances_unless (cdb c)) (λ _ _, True) c.
Proof.
  intros Hc Hm. unfold save_observation. wp_step. apply wp_related_or_zero_any; [|by intros e c'; apply wp_ret]. intros c1 E1.
  wp_step. apply wp_related_or_zero_any; [|by intros e c'; apply wp_ret]. rewrite E1. intros c2 E2. wp_step.
  set (v := observed_value _ _ _ _). assert (value_row v = m) as Hrow by (unfold v, observed_value; by destruct (msp.StatusError o)).
  unfold wp at 1, orm_save_mongod. pose proof (gorm_save_mongod_law (cstmts c2) (cdb c2) v) as Hlaw. rewrite Hrow, E2 in Hlaw.
  rewrite E2. specialize (Hlaw ltac:(by eexists)). destruct (gorm_save_mongod _ _ _) as [d' [e|]]; [by apply wp_ret|].
  apply wp_succeed. destruct Hlaw as (e & d1 & ds & d2 & os & d3 & He & Hds & Hos & ->). by eapply save_coherent.
Qed.

(** The loop. *)
Lemma updateOrCreateObservedMongodStates_advances slave l seen d c : coherent (cdb c) → advanced d (cdb c) →
  wp (updateOrCreateObservedMongodStates slave l seen) (λ r c', advances_unless d r.2 c') (λ _ _, True) c.
Proof.
  revert seen c. induction l as [|o l IH]; intros seen c Hc Hd; simpl; [by apply wp_ret, succeeded|].
  wp_step. eapply wp_mono; [by apply find_mongod_advances| |done]. intros [m|e] c1 Hm; [|by apply wp_ret].
  destruct (Hm m eq_refl) as [H1 Hin]. wp_step. eapply wp_mono; [apply save_observation_advances; [apply H1|done]| |done].
  intros [e|] c2 Hc2; [by apply wp_ret|]. specialize (Hc2 eq_refl). apply IH; [apply Hc2|]. by do 2 (eapply advanced_trans; [done|]).
Qed.
End steps.

(** ** Transactions *)

(** What a component may do between two sound databases. *)
Definition safely (R : db → db → Prop) (s s' : session) : Prop :=
  sound (committed s') ∧ (committed s' = committed s ∨ R (committed s) (committed s')).

Section transactions.
Context `{ENG : Engine} `{ORM : Gorm} `{STORE : GormStore} `{ASSOC : GormAssociations}.

Lemma wp_in_tx_any {A} (m : GoM conn A) (Q : A → session → Prop) (E : goval → session → Prop) s :
  wp m (λ a c, Q a (mkSession (committed s) c (calls s))) (λ _ _, True) (tx s) →
  (∀ v c, E v (mkSession (committed s) c (calls s))) → wp (in_tx m) Q E s.
Proof. intros Hm HE. apply wp_in_tx. eapply wp_mono; [exact Hm|done|]. intros v c _. apply HE. Qed.

Lemma wp_in_tx_ends {A} (m : GoM conn A) (Q : A → session → Prop) (E : goval → session → Prop) s :
  ends m → (∀ a c, Q a (mkSession (committed s) c (calls s))) → (∀ v c, E v (mkSession (committed s) c (calls s))) →
  wp (in_tx m) Q E s.
Proof. intros Hm HQ HE. apply wp_in_tx. by apply wp_ends. Qed.

Lemma read_only_ends {A} (m : GoM conn A) : read_only m → ends m.
Proof. intros Hm c. specialize (Hm c). unfold wp in Hm. by destruct (m c) as [c' [a|v|]]. Qed.

Lemma ends_range {A} (l : list A) (body : A → GoM conn unit) : (∀ a, ends (body a)) → ends (range l body).
Proof. intros Hbody. induction l as [|a l IH]; simpl; [apply ends_ret|apply ends_bind; [done|by intros []]]. Qed.

Lemma ends_send m : ends (send m).
Proof. by intros c. Qed.

Lemma compareStates_read_only m o : read_only (compareStates m o).
Proof. unfold compareStates, related_state. read_only_tac. Qed.

Lemma sendMongodMismatchStatusToBus_ends slave observed : ends (sendMongodMismatchStatusToBus slave observed).
Proof.
  unfold sendMongodMismatchStatusToBus. apply ends_bind; [apply read_only_ends, read_only_query|]. intros [ms|e]; [|apply ends_ret].
  apply ends_bind; [|intros; apply ends_ret]. apply ends_range. intros m.
  apply ends_bind; [apply read_only_ends, compareStates_read_only|]. intros [s [e|]]; [apply ends_ret|apply ends_send].
Qed.

Lemma observeReplicaSets_ends : ends observeReplicaSets.
Proof.
  unfold observeReplicaSets. apply ends_bind; [apply read_only_ends, read_only_query|]. intros [rows|e]; [|apply ends_ret].
  apply ends_range. intros row. apply ends_bind; [apply ends_send|intros; apply ends_send].
Qed.

(** The transaction sees what is committed and what was done in it since. *)
Lemma wp_commit_safely (R : db → db → Prop) s0 s (Q : option gerror → session → Prop) E :
  sound (committed s0) → committed s = committed s0 → coherent (cdb (tx s)) → R (committed s0) (cdb (tx s)) →
  (∀ err s', safely R s0 s' → Q err s') → wp Commit Q E s.
Proof.
  intros Hs0 Heq Hc HR HQ. apply wp_Commit.
  - intros _ Hk. apply HQ. split; [|by right]. split; [by apply coherent_consistent|done].
  - intros e _. apply HQ. split; simpl; [congruence|by left].
Qed.

Lemma safely_refl R s s' : sound (committed s) → committed s' = committed s → safely R s s'.
Proof. intros Hs Heq. split; [congruence|by left]. Qed.

Lemma handleObservation_safely l mspError slave s :
  sound (committed s) → positive_key (Slave_ObservationErrorID slave) →
  wp (handleObservation l mspError slave) (λ _, safely maintained s) (λ _, safely maintained s) s.
Proof.
  intros Hs Hpos. pose proof (λ s', safely_refl maintained s s' Hs) as Hsame.
  assert (coherent (committed s)) as Hc by apply consistent_coherent, Hs.
  unfold handleObservation. wp_step. apply wp_in_tx, wp_send. wp_step. apply wp_session_begin. wp_step.
  apply wp_in_tx_any; [|intros v c; by apply Hsame]. simpl.
  eapply wp_mono; [by apply updateSlaveObservationError_advances|simpl|done]. intros [e|] c1 H1; [by apply wp_Rollback, Hsame|].
  destruct (H1 eq_refl) as [Hc1 Hmt1]. destruct mspError as [e|].
  { wp_step. eapply (wp_commit_safely maintained s); [done..|]. intros _ s' Hs'. by apply wp_ret. }
  wp_step. apply wp_in_tx_any; [|intros v c; by apply Hsame]. simpl.
  eapply wp_mono; [by apply updateMongodStatesNotObservedOnSlave_advances|simpl|done].
  intros [e|] c2 H2; [by apply wp_Rollback, Hsame|]. destruct (H2 eq_refl) as [Hc2 Hmt2].
  wp_step. apply wp_in_tx_any; [|intros v c; by apply Hsame]. simpl.
  eapply wp_mono; [apply (updateOrCreateObservedMongodStates_advances slave l ∅ (committed s) c2); [done|]|simpl|done].
  { split; [done|by eapply maintained_trans]. }
  intros [idx [e|]] c3 H3; [by apply wp_Rollback, Hsame|]. destruct (H3 eq_refl) as [Hc3 Hmt3].
  wp_step. eapply (wp_commit_safely maintained s); [done..|]. intros _ s' Hs'. unfold report_mismatches.
  wp_step. apply wp_session_begin. wp_step. apply wp_in_tx_ends; [apply sendMongodMismatchStatusToBus_ends| |done].
  intros _ c4. by apply wp_Rollback.
Qed.
End transactions.
