(* ===== verification/System.v ===== *)
(** * The master as a whole

    The components of the master share the database and the bus.  Their transactions
    and messages are the steps of one transition system: requests of the API, the
    ticks of the allocator and of the monitor, the messages the deployer and the
    problem manager take from the bus, and restarts of the process.  A component that
    panics ends its step; that this also ends the process is a restart that follows. *)

From stdpp Require Import base gmap sets list strings fin_maps relations.
From Stdlib Require Import Lia.
From S2P Require Import Prelude Strconv Msp Model Database Orm Store Session Secrets Allocator AllocatorSpec Members Deployer Monitor Observation.
From S2P Require Import ObservationProperties ProblemManager Api ApiServer ApiHandlers ApiInvariant ApiRules ApiSlaves ApiRequests ApiProperties Coherence MonitorSafety Session.

Open Scope Z_scope.
Set Warnings "-clear-no-such-hyp".

(** ** The loops that have no component of their own *)

Section loops.
Context `{ENG : Engine} `{ORM : Gorm}.

(** One tick of [ClusterAllocator.Run]; a transaction whose layout could not be
    compiled is neither committed nor rolled back. *)
Definition allocator_tick (has_bus : bool) : GoM session unit :=
  _ ← Begin;
  compileErr ← in_tx (CompileMongodLayout has_bus);
  match compileErr with
  | Some _ => mret tt
  | None => _ ← Commit; mret tt
  end.

(** The transaction at the start of [main]; [Fatalf] ends the process. *)
Definition initialize_secrets (rand_read : nat → nat → gres (list Z)) : GoM session unit :=
  _ ← Begin;
  err ← in_tx (InitializeGlobalSecrets rand_read);
  match err with
  | Some e => _ ← Rollback; panic (VString ("Error initializing global secrets: " +:+ error_text e))
  | None => _ ← Commit; mret tt
  end.
End loops.

(** ** State and steps *)

(** Where the monitor is: between two rounds, or in one, with the rows of the slaves
    whose answers it has still to handle. *)
Inductive monitor_state :=
  | Waiting
  | Handling (slaves : list Slave).

Record master := mkMaster {
  stored : db;
  monitor : monitor_state;
  deployer_queue : list StatusMessage;
  manager_queue : list StatusMessage
}.

Definition empty_master : master := mkMaster empty_db Waiting [] [].

(** A component opens its connection on what is stored. *)
Definition open_session (d : db) (n : nat) : session := mkSession d (mkConn d n []) [].

(** After a step that stored [d] and sent [ms]: the bus copies the messages to both
    readers, in order, but for those that find a full channel. *)
Inductive published (d : db) (mon : monitor_state) (ms : list StatusMessage) (m : master) : master → Prop :=
  | publish l1 l2 : sublist l1 ms → sublist l2 ms →
      published d mon ms m (mkMaster d mon (deployer_queue m ++ l1) (manager_queue m ++ l2)).

Inductive event :=
  | Start
  | Request (has_bus : bool) (req : api_request)
  | Allocate (has_bus : bool)
  | Ask
  | Answer (slave : Slave)
  | CheckReplicaSets
  | Deploy (msg : StatusMessage) (made : list msp_call)
  | Manage (now : Z) (msg : StatusMessage).

(** Every step may find another server and mapper, with other failures. *)
Inductive master_step (m : master) : event → master → Prop :=
  | step_start (ENG : Engine) (ORM : Gorm) rand_read n :
      master_step m Start (mkMaster (committed (initialize_secrets rand_read (open_session (stored m) n)).1) Waiting [] [])
  | step_request (ENG : Engine) (ORM : Gorm) (STORE : GormStore) has_bus req n m' :
      typed_request req →
      let x := (serve has_bus req (arrival (stored m) (mkConn (stored m) n []))).1 in
      published (ex_committed x) (monitor m) (cbus (ex_tx x)) m m' →
      master_step m (Request has_bus req) m'
  | step_allocate (ENG : Engine) (ORM : Gorm) has_bus n m' :
      let s := (allocator_tick has_bus (open_session (stored m) n)).1 in
      published (committed s) (monitor m) (cbus (tx s)) m m' →
      master_step m (Allocate has_bus) m'
  | step_ask (ENG : Engine) (ORM : Gorm) n s found arrived :
      monitor m = Waiting → read_slaves (open_session (stored m) n) = (s, Returned found) → arrived ≡ₚ found →
      master_step m Ask (mkMaster (committed s) (Handling arrived) (deployer_queue m) (manager_queue m))
  | step_answer (ENG : Engine) (ORM : Gorm) (STORE : GormStore) (ASSOC : GormAssociations) n slave rest l mspError m' :
      monitor m = Handling (slave :: rest) →
      let s := (handleObservation l mspError slave (open_session (stored m) n)).1 in
      published (committed s) (Handling rest) (cbus (tx s)) m m' →
      master_step m (Answer slave) m'
  | step_check (ENG : Engine) (ORM : Gorm) n m' :
      monitor m = Handling [] →
      let s := (check_replica_sets (open_session (stored m) n)).1 in
      published (committed s) Waiting (cbus (tx s)) m m' →
      master_step m CheckReplicaSets m'
  | step_deploy (ENG : Engine) (ORM : Gorm) (CLIENT : MSPClient) n msg q :
      deployer_queue m = msg :: q →
      let s := (dispatch msg (open_session (stored m) n)).1 in
      master_step m (Deploy msg (calls s)) (mkMaster (committed s) (monitor m) q (manager_queue m))
  | step_manage (ENG : Engine) (UPSERT : GormUpsert) n now msg q :
      manager_queue m = msg :: q →
      let s := (handle_message now msg (open_session (stored m) n)).1 in
      master_step m (Manage now msg) (mkMaster (committed s) (monitor m) (deployer_queue m) q).

Definition any_step (m m' : master) : Prop := ∃ e, master_step m e m'.
Definition master_reachable : master → Prop := rtc any_step empty_master.

(** ** What each step may do *)

Definition event_allows (e : event) (d d' : db) : Prop :=
  match e with
  | Start => secrets_created d d'
  | Request has_bus req => ∃ d1, api_change req d d1 ∧ consistent d1 ∧ api_finish has_bus req d1 d'
  | Allocate has_bus => allocated has_bus d d'
  | Ask | CheckReplicaSets => False
  | Answer _ => maintained d d'
  | Deploy msg made => ∃ st target rs, msg = MsgInitiation st ∧ Initiation_Initiated st = false ∧
      made = [CallInitiateReplicaSet target rs] ∧
      d' = set_replica_sets (alter (ReplicaSet_set_Initiated true) (ReplicaSet_ID (Initiation_ReplicaSet st)) (replica_sets d)) d
  | Manage _ msg => about_subject msg d d'
  end.

(** ** The steps keep the database sound *)

Lemma wp_fst {S A} (m : GoM S A) (P : S → Prop) s : wp m (λ _, P) (λ _, P) s → P (m s).1.
Proof. unfold wp. by destruct (m s) as [s' [a|v|]]. Qed.

(** Tables that [consistent] and the foreign keys do not speak about. *)
Lemma secrets_created_sound d d' : sound d → secrets_created d d' → sound d'.
Proof.
  intros [Hd Hk] (E & _ & _). assert (foreign_keys d') as Hk' by (rewrite E; exact Hk). split; [|done].
  apply coherent_consistent; [|done]. pose proof (consistent_coherent _ Hd) as Hc. rewrite E. split; coherent_rest Hc.
Qed.

Lemma initiated_sound d rid : sound d →
  sound (set_replica_sets (alter (ReplicaSet_set_Initiated true) rid (replica_sets d)) d).
Proof.
  intros [Hd (Hs & Hm & Hst & Hp)]. set (d' := set_replica_sets _ d).
  assert (∀ fk, references fk (replica_sets d) → references fk (replica_sets d')) as Hrs.
  { intros [i|]; [|done]. simpl. intros [r Hr]. destruct (decide (rid = i)) as [<-|].
    - rewrite lookup_alter_eq, Hr. by eexists.
    - rewrite lookup_alter_ne by done. by eexists. }
  assert (foreign_keys d') as Hk'.
  { split_and!; [done| |done|].
    - intros id m Hin. destruct (Hm id m Hin) as (? & ? & ? & ? & ? & ?). split_and!; try done. by apply Hrs.
    - intros id p Hin. destruct (Hp id p Hin) as (? & ? & ?). split_and!; try done. by apply Hrs. }
  split; [|done]. apply coherent_consistent; [|done]. by apply initiated_coherent, consistent_coherent.
Qed.

(** The rows the monitor has read were rows of a sound database. *)
Definition rows_read (mon : monitor_state) : Prop :=
  match mon with
  | Waiting => True
  | Handling l => Forall (λ slave, positive_key (Slave_ObservationErrorID slave)) l
  end.
Definition master_ok (m : master) : Prop := sound (stored m) ∧ rows_read (monitor m).

Section outcomes.
Context `{ENG : Engine} `{ORM : Gorm}.
Context (d : db) (Hd : sound d) (n : nat).

Lemma initialize_secrets_outcome rand_read :
  safely secrets_created (open_session d n) (initialize_secrets rand_read (open_session d n)).1.
Proof.
  apply wp_fst. pose proof (λ s', safely_refl secrets_created (open_session d n) s' Hd) as Hsame. unfold initialize_secrets.
  wp_step. apply wp_session_begin. wp_step. apply wp_in_tx. simpl.
  eapply wp_mono; [apply InitializeGlobalSecrets_any|simpl|intros v c _; by apply Hsame]. intros [e|] c1 Hc1.
  - wp_step. apply wp_Rollback, wp_panic. by apply Hsame.
  - pose proof (secrets_created_sound _ _ Hd Hc1) as Hd1. wp_step.
    eapply (wp_commit_safely secrets_created (open_session d n)); [done|done|by apply consistent_coherent, Hd1|done|].
    intros _ s' Hs'. by apply wp_ret.
Qed.

Lemma allocator_tick_outcome has_bus :
  safely (allocated has_bus) (open_session d n) (allocator_tick has_bus (open_session d n)).1.
Proof.
  apply wp_fst. pose proof (λ s', safely_refl (allocated has_bus) (open_session d n) s' Hd) as Hsame. unfold allocator_tick.
  wp_step. apply wp_session_begin. wp_step. apply wp_in_tx. simpl. apply wp_CompileMongodLayout; simpl; [apply Hd| |intros v c; by apply Hsame].
  intros c' Hrun. wp_step.
  eapply (wp_commit_safely (allocated has_bus) (open_session d n)); [done|done| |done|intros _ s' Hs'; by apply wp_ret].
  apply consistent_coherent. eapply allocated_consistent; [done|apply Hd].
Qed.

Lemma read_slaves_outcome s found : read_slaves (open_session d n) = (s, Returned found) →
  committed s = d ∧ Forall (λ slave, positive_key (Slave_ObservationErrorID slave)) found.
Proof.
  intros Hrun. assert (wp read_slaves (λ found s, committed s = d ∧ Forall (λ slave, positive_key (Slave_ObservationErrorID slave)) found)
    (λ _ _, False) (open_session d n)) as Hwp; [|by unfold wp in Hwp; rewrite Hrun in Hwp].
  unfold read_slaves. wp_step. apply wp_session_begin. wp_step. apply wp_in_tx. simpl. unfold orm_find.
  apply wp_sql_query; simpl; [|intros e _; wp_step; by apply wp_Rollback, wp_ret].
  wp_step. apply wp_Rollback, wp_ret. simpl. split; [done|]. apply Forall_forall. intros slave (id & Hs & _)%elem_of_select eid Heid.
  destruct Hd as [Hc (Hks & _)]. destruct (Hks id slave Hs) as [_ Href]. rewrite Heid in Href. destruct Href as [e He].
  by apply (cons_errors _ Hc eid e).
Qed.

Lemma check_replica_sets_outcome : committed (check_replica_sets (open_session d n)).1 = d.
Proof.
  apply wp_fst. unfold check_replica_sets. wp_step. apply wp_session_begin. wp_step.
  apply wp_in_tx_ends; [apply observeReplicaSets_ends| |done]. intros _ c. by apply wp_Rollback.
Qed.

Lemma dispatch_outcome (CLIENT : MSPClient) msg :
  safely (event_allows (Deploy msg (calls (dispatch msg (open_session d n)).1))) (open_session d n) (dispatch msg (open_session d n)).1.
Proof.
  destruct msg as [|m| | |st]; try by apply safely_refl.
  2: { simpl. pose proof (initiation_spec ENG ORM CLIENT st (open_session d n)) as Hwp. unfold wp in Hwp.
    destruct (handleReplicaSetInitiationStatus st (open_session d n)) as [s [[]|v|]]; simpl in *; [|done|done].
    destruct Hwp as [[Heq _]|(Hno & t & rs & Hcalls & _ & Heq)]; simpl in *; [by apply safely_refl|].
    split; rewrite Heq; [by apply initiated_sound|right]. by exists st, t, rs. }
  simpl. unfold handleMatchStatus. destruct (Match_Mismatch m); [|by apply safely_refl].
  destruct (push_spec ENG ORM (Match_Mongod m) (open_session d n)) as (? & ? & ? & ? & _ & s' & Hrun & Heq & _).
  rewrite Hrun. by apply safely_refl.
Qed.

Lemma handle_message_outcome (UPSERT : GormUpsert) now msg :
  safely (about_subject msg) (open_session d n) (handle_message now msg (open_session d n)).1.
Proof.
  apply wp_fst. unfold handle_message. wp_step. apply wp_session_begin. wp_step. apply wp_in_tx. simpl.
  apply handle_status_any. simpl. intros c1 Hc1. wp_step.
  eapply (wp_commit_safely (about_subject msg) (open_session d n)); [done|done| |done|intros _ s' Hs'; by apply wp_ret]. simpl.
  destruct Hc1 as [-> _]. by apply set_problems_coherent, consistent_coherent, Hd.
Qed.
End outcomes.

(** Every step keeps the master in order and does what its event allows, if anything. *)
Lemma step_outcome m e m' : master_ok m → master_step m e m' →
  master_ok m' ∧ (stored m' = stored m ∨ event_allows e (stored m) (stored m')).
Proof.
  intros [Hd Hrows] Hstep.
  assert (∀ mon mon' q q' d', sound d' → rows_read mon' → (d' = stored m ∨ event_allows e (stored m) d') →
    master_ok (mkMaster d' mon' q q') ∧ (stored (mkMaster d' mon q q') = stored m ∨ event_allows e (stored m) (stored (mkMaster d' mon q q')))) as Hdone
    by done.
  destruct Hstep as [ENG ORM rand n|ENG ORM STORE has_bus req n m' Htyped x [l1 l2 _ _]|ENG ORM has_bus n m' s [l1 l2 _ _]
    |ENG ORM n s found arrived Hmon Hrun Hperm|ENG ORM STORE ASSOC n slave rest l err m' Hmon s [l1 l2 _ _]
    |ENG ORM n m' Hmon s [l1 l2 _ _]|ENG ORM CLIENT n msg q Hq s|ENG UPSERT n now msg q Hq s].
  - destruct (initialize_secrets_outcome (stored m) Hd n rand). by apply (Hdone Waiting).
  - destruct (serve_cases has_bus req (stored m) (mkConn (stored m) n []) Hd Htyped) as (x' & r & Hx & _ & Hcase).
    subst x. rewrite Hx. simpl. apply (Hdone (monitor m)); [|done|].
    + destruct Hcase as [->|(d1 & _ & Hd1 & Hf & Hk)]; [done|]. split; [by apply (finish_tables has_bus req d1)|done].
    + destruct Hcase as [->|(d1 & Hc & Hd1 & Hf & _)]; [by left|right; by exists d1].
  - destruct (allocator_tick_outcome (stored m) Hd n has_bus). by apply (Hdone (monitor m)).
  - destruct (read_slaves_outcome (stored m) Hd n s found Hrun) as [-> Hfound]. apply (Hdone Waiting); [done| |by left]. simpl. by rewrite Hperm.
  - rewrite Hmon in Hrows. apply Forall_cons in Hrows as [Hpos Hrest].
    destruct (wp_fst _ _ _ (handleObservation_safely l err slave (open_session (stored m) n) Hd Hpos)). by apply (Hdone Waiting).
  - subst s. rewrite check_replica_sets_outcome. apply (Hdone Waiting); [done|done|by left].
  - destruct (dispatch_outcome (stored m) Hd n CLIENT msg). by apply (Hdone (monitor m)).
  - destruct (handle_message_outcome (stored m) Hd n UPSERT now msg). by apply (Hdone (monitor m)).
Qed.

Lemma master_reachable_ok m : master_reachable m → master_ok m.
Proof.
  revert m. apply rtc_ind_r; [by split; [apply empty_sound|]|]. intros m1 m2 _ [e Hstep] IH. by apply (step_outcome m1 e m2).
Qed.

(** ** Properties *)

(** C6: However the components of the master are interleaved, whatever statement fails,
    whatever the slaves answer and however often the process restarts: every member of
    a replica set runs on an existing slave, on a port of its range that no other
    member has; names are unique and not empty, ranges and counts valid, and no
    reference dangles. *)
Theorem master_reachable_sound m : master_reachable m → consistent (stored m) ∧ foreign_keys (stored m).
Proof. intros Hm. by destruct (master_reachable_ok m Hm) as [[] _]. Qed.

(** C5: Each component changes the database only as its specification says: a request
    as the API allows, completed by the allocator; an answer of a slave only what is
    observed; the deployer only that a replica set is initiated, after the one call
    that initiates it; the problem manager only problems of the subject of its message;
    and a restart only creates the secrets that are missing. *)
Theorem master_refines_specification m e m' : master_reachable m → master_step m e m' →
  stored m' = stored m ∨ event_allows e (stored m) (stored m').
Proof. intros Hm Hstep. apply (step_outcome m e m'); [by apply master_reachable_ok|done]. Qed.

(** Steps that leave the rows of slaves and replica sets alone. *)
Lemma allows_tables e d d' : consistent d → event_allows e d d' →
  match e with
  | Start | Allocate _ | Manage _ _ => slaves d' = slaves d ∧ replica_sets d' = replica_sets d
  | Answer _ => replica_sets d' = replica_sets d
  | Deploy _ _ => slaves d' = slaves d
  | _ => True
  end.
Proof.
  intros Hd. destruct e as [|has_bus req|has_bus| |slave| |msg made|now msg]; simpl; try done.
  - by intros (-> & _).
  - intros (d1 & d2 & unsat & ms & Hrun). by destruct (compiled_tables Hrun) as (? & ? & _).
  - intros Hmt. apply (kept_replica_sets _ _ (mnt_decisions _ _ Hmt)).
  - by intros (st & target & rs & _ & _ & _ & ->).
  - by intros (-> & _).
Qed.

Lemma allows_slaves e d d' id s0 : consistent d → event_allows e d d' → slaves d !! id = Some s0 →
  slave_protected d s0 (slaves d' !! id) ∧ (is_Some (slaves d' !! id) ∨ ∃ has_bus req, e = Request has_bus req).
Proof.
  intros Hd Hallows Hs. pose proof (allows_tables e d d' Hd Hallows) as Htables.
  assert (slaves d' = slaves d → slave_protected d s0 (slaves d' !! id) ∧ (is_Some (slaves d' !! id) ∨ ∃ has_bus req, e = Request has_bus req)) as Hkept.
  { intros ->. rewrite Hs. split; [apply slave_kept|left; by eexists]. }
  destruct e as [|has_bus req|has_bus| |slave| |msg made|now msg]; try done; try by apply Hkept, Htables.
  - destruct Hallows as (d1 & Hc & Hd1 & Hf). destruct (finish_tables has_bus req d1 d' Hd1 Hf) as (_ & -> & _).
    split; [by apply (change_slaves req d d1 id s0)|right; by eexists _, _].
  - pose proof (f_equal (.!! id) (mnt_slaves _ _ Hallows)) as Heq. rewrite !lookup_fmap, Hs in Heq.
    destruct (slaves d' !! id) as [s1|]; [|done]. simpl in *. split; [|left; by eexists]. left. by injection Heq.
Qed.

Lemma allows_replica_sets e d d' id r0 : consistent d → event_allows e d d' → replica_sets d !! id = Some r0 →
  match replica_sets d' !! id with
  | Some r1 => ReplicaSet_Name r1 = ReplicaSet_Name r0 ∧ ReplicaSet_ShardingRole r1 = ReplicaSet_ShardingRole r0 ∧
      (ReplicaSet_Initiated r1 = ReplicaSet_Initiated r0 ∨
       ReplicaSet_Initiated r1 = true ∧ ∃ st target rs, ReplicaSet_ID (Initiation_ReplicaSet st) = id ∧
         e = Deploy (MsgInitiation st) [CallInitiateReplicaSet target rs])
  | None => ∃ has_bus idStr i, e = Request has_bus (DeleteReplicaSet idStr) ∧ ParseInt 64 idStr = Some i ∧ (i = id ∨ i = 0)
  end.
Proof.
  intros Hd Hallows Hr. pose proof (allows_tables e d d' Hd Hallows) as Htables.
  destruct e as [|has_bus req|has_bus| |slave| |msg made|now msg]; try done;
    try by (first [rewrite Htables|rewrite (proj2 Htables)]; rewrite Hr; split_and!; [..|left]).
  - destruct Hallows as (d1 & Hc & Hd1 & Hf). destruct (finish_tables has_bus req d1 d' Hd1 Hf) as (_ & _ & -> & _).
    pose proof (change_replica_sets req d d1 id r0 Hc Hr) as Hp. unfold replica_set_protected in Hp.
    destruct (replica_sets d1 !! id) as [r1|]; [destruct Hp as (? & ? & ?); split_and!; [done..|by left]|].
    destruct Hp as (idStr & i & -> & ? & ?). by eexists _, _, _.
  - destruct Hallows as (st & target & rs & -> & _ & -> & ->). simpl.
    destruct (decide (ReplicaSet_ID (Initiation_ReplicaSet st) = id)) as [<-|Hne].
    + rewrite lookup_alter_eq, Hr. simpl. split_and!; [done..|right]. split; [done|]. by exists st, target, rs.
    + rewrite lookup_alter_ne, Hr by done. split_and!; [done..|by left].
Qed.

(** C15: No step of any component changes a slave that is in service but for its state
    and what is observed of it, takes ports or the persistence away from a slave that
    hosts mongods, or removes a slave; only a request can remove one, and only if it is
    disabled or hosts nothing. *)
Theorem master_protects_slaves m e m' id s0 : master_reachable m → master_step m e m' → slaves (stored m) !! id = Some s0 →
  match slaves (stored m') !! id with
  | Some s1 => slave_change_allowed (stored m) s0 s1
  | None => (∃ has_bus req, e = Request has_bus req) ∧
      (Slave_ConfiguredState s0 = SlaveStateDisabled ∨ hosts_nothing (stored m) s0)
  end.
Proof.
  intros Hm Hstep Hs. pose proof (master_reachable_ok m Hm) as Hok. destruct (step_outcome m e m' Hok Hstep) as [_ [->|Hallows]].
  - rewrite Hs. apply (slave_kept (stored m)).
  - destruct Hok as [[Hd _] _]. destruct (allows_slaves e _ _ id s0 Hd Hallows Hs) as [Hp Hsome]. unfold slave_protected in Hp.
    destruct (slaves (stored m') !! id); [done|]. split; [|done]. by destruct Hsome as [[? ?]|].
Qed.

(** C24: No step of any component changes the name or the sharding role of a replica
    set; only the deployer marks one as initiated, in a step in which it called a slave
    to initiate it, and nothing takes that back; and only a request to delete it, or one
    to delete the replica set 0, makes it disappear. *)
Theorem master_protects_replica_sets m e m' id r0 : master_reachable m → master_step m e m' → replica_sets (stored m) !! id = Some r0 →
  match replica_sets (stored m') !! id with
  | Some r1 => ReplicaSet_Name r1 = ReplicaSet_Name r0 ∧ ReplicaSet_ShardingRole r1 = ReplicaSet_ShardingRole r0 ∧
      (ReplicaSet_Initiated r1 = ReplicaSet_Initiated r0 ∨
       ReplicaSet_Initiated r1 = true ∧ ∃ st target rs, ReplicaSet_ID (Initiation_ReplicaSet st) = id ∧
         e = Deploy (MsgInitiation st) [CallInitiateReplicaSet target rs])
  | None => ∃ has_bus idStr i, e = Request has_bus (DeleteReplicaSet idStr) ∧ ParseInt 64 idStr = Some i ∧ (i = id ∨ i = 0)
  end.
Proof.
  intros Hm Hstep Hr. pose proof (master_reachable_ok m Hm) as Hok. destruct (step_outcome m e m' Hok Hstep) as [_ [->|Hallows]].
  - rewrite Hr. split_and!; [done..|by left].
  - destruct Hok as [[Hd _] _]. by apply (allows_replica_sets e (stored m) (stored m') id r0).
Qed.

(** ** A concrete master *)

Inductive action :=
  | DoStart
  | DoRequest (req : api_request)
  | DoAllocate
  | DoAsk
  | DoAnswer (l : list msp.Mongod) (mspError : option msp.Error)
  | DoCheck
  | DoDeploy
  | DoManage (now : Z).

Definition publish_all (d : db) (mon : monitor_state) (ms : list StatusMessage) (m : master) : master :=
  mkMaster d mon (deployer_queue m ++ ms) (manager_queue m ++ ms).

Definition ref_random (n len : nat) : gres (list Z) := Ok (replicate len 77).

(** The step an action stands for, on a server that executes every statement and with
    slaves that accept everything; an action that is not enabled does nothing. *)
Definition run_action (m : master) (a : action) : master :=
  let d := stored m in
  match a with
  | DoStart => mkMaster (committed (@initialize_secrets ref_engine ref_gorm ref_random (open_session d 0)).1) Waiting [] []
  | DoRequest req =>
      let x := (@serve ref_engine ref_gorm ref_store true req (arrival d (mkConn d 0 []))).1 in
      publish_all (ex_committed x) (monitor m) (cbus (ex_tx x)) m
  | DoAllocate =>
      let s := (@allocator_tick ref_engine ref_gorm true (open_session d 0)).1 in
      publish_all (committed s) (monitor m) (cbus (tx s)) m
  | DoAsk =>
      match monitor m, @read_slaves ref_engine (open_session d 0) with
      | Waiting, (s, Returned found) => mkMaster (committed s) (Handling found) (deployer_queue m) (manager_queue m)
      | _, _ => m
      end
  | DoAnswer l mspError =>
      match monitor m with
      | Handling (slave :: rest) =>
          let s := (@handleObservation ref_engine ref_gorm ref_store ref_associations l mspError slave (open_session d 0)).1 in
          publish_all (committed s) (Handling rest) (cbus (tx s)) m
      | _ => m
      end
  | DoCheck =>
      match monitor m with
      | Handling [] =>
          let s := (@check_replica_sets ref_engine (open_session d 0)).1 in
          publish_all (committed s) Waiting (cbus (tx s)) m
      | _ => m
      end
  | DoDeploy =>
      match deployer_queue m with
      | msg :: q => mkMaster (committed (@dispatch ref_engine ref_gorm accepting_client msg (open_session d 0)).1) (monitor m) q (manager_queue m)
      | [] => m
      end
  | DoManage now =>
      match manager_queue m with
      | msg :: q => mkMaster (committed (@handle_message ref_engine ref_upsert now msg (open_session d 0)).1) (monitor m) (deployer_queue m) q
      | [] => m
      end
  end.

Definition typed_action (a : action) : Prop := match a with DoRequest req => typed_request req | _ => True end.

Lemma published_all d mon ms m : published d mon ms m (publish_all d mon ms m).
Proof. by constructor. Qed.

Lemma run_action_step m a : typed_action a → run_action m a = m ∨ any_step m (run_action m a).
Proof.
  intros Htyped. destruct a as [|req| | |l e| | |now]; unfold run_action; cbv zeta.
  - right. eexists. apply (step_start m ref_engine ref_gorm).
  - right. eexists. by apply (step_request m ref_engine ref_gorm ref_store true req 0), published_all.
  - right. eexists. apply (step_allocate m ref_engine ref_gorm true 0), published_all.
  - destruct (monitor m) eqn:Hmon; [|by left]. destruct (@read_slaves ref_engine (open_session (stored m) 0)) as [s [found|v|]] eqn:Hrun; [|by left..].
    right. eexists. by apply (step_ask m ref_engine ref_gorm 0 s found found).
  - destruct (monitor m) as [|[|slave rest]] eqn:Hmon; [by left..|]. right. eexists.
    by apply (step_answer m ref_engine ref_gorm ref_store ref_associations 0 slave rest l e), published_all.
  - destruct (monitor m) as [|[|slave rest]] eqn:Hmon; [by left| |by left]. right. eexists.
    by apply (step_check m ref_engine ref_gorm 0), published_all.
  - destruct (deployer_queue m) as [|msg q] eqn:Hq; [by left|]. right. eexists.
    by apply (step_deploy m ref_engine ref_gorm accepting_client 0 msg q).
  - destruct (manager_queue m) as [|msg q] eqn:Hq; [by left|]. right. eexists.
    by apply (step_manage m ref_engine ref_upsert 0 now msg q).
Qed.

Definition run_actions : master → list action → master := foldl run_action.

Lemma run_actions_reachable actions m : master_reachable m → Forall typed_action actions → master_reachable (run_actions m actions).
Proof.
  intros Hm Hactions. revert m Hm. induction Hactions as [|a actions Ha _ IH]; intros m Hm; simpl; [done|]. apply IH.
  destruct (run_action_step m a Ha) as [->|Hstep]; [done|]. by eapply rtc_r.
Qed.

(** The cluster of the API's example is set up; one slave reports the mongod it was given
    and one that is not known, the other does not answer; the problem manager and the
    deployer take all messages. *)
Definition answer_of_first : list msp.Mongod :=
  [reported_mongod 18080 "rs1" msp.MongodStateRunning; reported_mongod 18081 "old" msp.MongodStateRunning].
Definition no_answer : msp.Error := msp.mkError msp.CommunicationError "Error communicating with slave." "timeout".
Definition example_actions : list action :=
  DoStart :: (DoRequest <$> example_requests) ++
  [DoAsk; DoAnswer answer_of_first None; DoAnswer [] (Some no_answer); DoCheck;
   DoManage 100; DoManage 100; DoManage 100; DoManage 100; DoManage 100; DoManage 100; DoManage 100;
   DoDeploy; DoDeploy; DoDeploy; DoDeploy; DoDeploy; DoDeploy].
Definition example_uninitiated : master := run_actions empty_master example_actions.
Definition example_master : master := run_action example_uninitiated DoDeploy.

Example example_master_run :
  let d := stored example_master in
  ((λ m, (Mongod_ID m, Mongod_Port m, Mongod_ParentSlaveID m, Mongod_ReplicaSetID m)) <$> (map_to_list (mongods d)).*2,
   (λ p, (Problem_ProblemType p, Problem_SlaveID p, Problem_ReplicaSetID p)) <$> (map_to_list (problems d)).*2,
   (λ r, (ReplicaSet_Name r, ReplicaSet_Initiated r)) <$> (map_to_list (replica_sets d)).*2,
   length (deployer_queue example_master), length (manager_queue example_master)) =
  ([(3, 18081, 2, None); (2, 18080, 1, Some 1); (1, 18080, 2, Some 1)],
   [(ProblemTypeObservedReplicaSetConstraint, None, Some 1); (ProblemTypeConnection, Some 1, None)],
   [("rs1"%string, true)], 0%nat, 0%nat).
Proof. vm_compute. reflexivity. Qed.

Lemma example_uninitiated_reachable : master_reachable example_uninitiated.
Proof.
  apply (run_actions_reachable example_actions empty_master); [apply rtc_refl|]. repeat (apply Forall_cons; split; [by vm_compute|]). constructor.
Qed.

Lemma example_master_reachable : master_reachable example_master.
Proof.
  unfold example_master. destruct (run_action_step example_uninitiated DoDeploy I) as [->|Hstep]; [exact example_uninitiated_reachable|].
  exact (rtc_r _ _ _ example_uninitiated_reachable Hstep).
Qed.

Lemma master_reachable_sound_witness : consistent (stored example_master) ∧ foreign_keys (stored example_master).
Proof. apply (master_reachable_sound example_master), example_master_reachable. Defined.

(** A request in that state. *)
Definition example_post_step : master := run_action example_master (DoRequest (example_post 18080)).
Lemma example_post_is_step : master_step example_master (Request true (example_post 18080)) example_post_step.
Proof. apply (step_request example_master ref_engine ref_gorm ref_store true (example_post 18080) 0); [exact I|apply published_all]. Qed.

Lemma master_refines_specification_witness : stored example_post_step = stored example_master ∨
  event_allows (Request true (example_post 18080)) (stored example_master) (stored example_post_step).
Proof.
  apply (master_refines_specification example_master _ example_post_step); [apply example_master_reachable|apply example_post_is_step].
Defined.

Lemma example_master_slave : slaves (stored example_master) !! 1 =
  Some (mkSlave 1 "host1" 8081 18080 18082 true SlaveStateActive (Some 1) (Some 1)).
Proof. vm_compute. reflexivity. Qed.

Lemma master_protects_slaves_witness :
  match slaves (stored example_post_step) !! 1 with
  | Some s1 => slave_change_allowed (stored example_master) (mkSlave 1 "host1" 8081 18080 18082 true SlaveStateActive (Some 1) (Some 1)) s1
  | None => False
  end.
Proof.
  pose proof (master_protects_slaves example_master _ example_post_step 1 _ example_master_reachable example_post_is_step example_master_slave) as H.
  assert (is_Some (slaves (stored example_post_step) !! 1)) as [s1 Hs1] by (vm_compute; by eexists).
  rewrite Hs1 in H |- *. exact H.
Defined.

Lemma example_master_replica_set : replica_sets (stored example_uninitiated) !! 1 = Some (mkReplicaSet 1 "rs1" 2 0 "none" false).
Proof. vm_compute. reflexivity. Qed.

Lemma master_protects_replica_sets_witness : ∃ e r1, master_step example_uninitiated e example_master ∧
  replica_sets (stored example_master) !! 1 = Some r1 ∧ ReplicaSet_Initiated r1 = true ∧
  ∃ st target rs, e = Deploy (MsgInitiation st) [CallInitiateReplicaSet target rs].
Proof.
  destruct (run_action_step example_uninitiated DoDeploy I) as [Hsame|[e Hstep]]; [by vm_compute in Hsame|].
  pose proof (master_protects_replica_sets example_uninitiated e example_master 1 _ example_uninitiated_reachable Hstep example_master_replica_set) as H.
  assert (replica_sets (stored example_master) !! 1 = Some (mkReplicaSet 1 "rs1" 2 0 "none" true)) as Hafter by (vm_compute; reflexivity).
  rewrite Hafter in H. destruct H as (_ & _ & [Hno|(Hyes & st & target & rs & _ & He)]); [discriminate Hno|].
  exists e, (mkReplicaSet 1 "rs1" 2 0 "none" true). split; [exact Hstep|]. split; [exact Hafter|]. split; [exact Hyes|].
  exists st, target, rs. exact He.
Defined.
