(* ===== verification/Problems.v ===== *)
(** * The problems of a running master

    The problem manager keeps the table of problems in step with the messages it
    takes from the bus.  That a subject has at most one problem, which that relies on, is
    an invariant of the master: nothing else creates problems, and slaves and
    replica sets take theirs with them when they are deleted. *)

From stdpp Require Import base gmap sets list strings fin_maps relations.
From Stdlib Require Import Lia.
From S2P Require Import Prelude Msp Model Database Orm Store Session Secrets Allocator AllocatorRemoval AllocatorAdd AllocatorSpec ProblemManager.
From S2P Require Import Api ApiServer ApiInvariant ApiRules ApiRequests Coherence MonitorSafety Session System.

Open Scope Z_scope.
Set Warnings "-clear-no-such-hyp".

(** A problem about one slave or about one replica set. *)
Record well_shaped (p : Problem) : Prop := {
  shape_mongod : Problem_MongodID p = None;
  shape_subject :
    (Problem_ProblemType p = ProblemTypeConnection ∧ is_Some (Problem_SlaveID p) ∧ Problem_ReplicaSetID p = None) ∨
    (Problem_ProblemType p ∈ [ProblemTypeDesiredReplicaSetConstraint; ProblemTypeObservedReplicaSetConstraint] ∧
     is_Some (Problem_ReplicaSetID p) ∧ Problem_SlaveID p = None)
}.

Record problems_ok (d : db) : Prop := {
  problems_shaped id p : problems d !! id = Some p → well_shaped p;
  problems_single : problems_unique d
}.

Lemma problems_ok_subset d d' : problems d' ⊆ problems d → problems_ok d → problems_ok d'.
Proof.
  intros Hsub [Hshape Huniq]. split.
  - intros id p Hp. by eapply Hshape, lookup_weaken.
  - intros id1 id2 p1 p2 H1 H2. apply Huniq; by eapply lookup_weaken.
Qed.

(** ** The problem manager *)

Section manager.
Context `{ENG : Engine} `{UPSERT : GormUpsert}.

Lemma upserted_shaped w conditions text long now d id new : well_shaped conditions → problems_ok d →
  upserted w conditions (assign_text text long now) (attrs_first now) d id new → well_shaped new.
Proof.
  intros [Hcm Hcs] [Hshape _] Hup. destruct Hup as [id r Hr _|id _ _]; [|by split].
  destruct (Hshape _ _ Hr). by split.
Qed.

Lemma first_or_create_keeps w conditions text long now c : is_subject w conditions → well_shaped conditions → problems_ok (cdb c) →
  wp (first_or_create w conditions text long now) (λ _ c', problems_ok (cdb c')) (λ _ _, False) c.
Proof.
  intros Hsubj Hcond Hok. unfold wp, first_or_create.
  pose proof (upsert_law (cstmts c) (cdb c) w conditions (assign_text text long now) (attrs_first now)) as Hlaw.
  destruct (gorm_first_or_create _ _ _ _ _ _) as [d' [e|]]; [by subst|]. destruct Hlaw as (id & new & Hup & ->). simpl. split.
  - simpl. intros id' p [[_ <-]|[_ Hp]]%lookup_insert_Some; [by eapply upserted_shaped|by eapply problems_shaped].
  - eapply upserted_unique; [done|apply Hok|done].
Qed.

Lemma delete_where_keeps w c : problems_ok (cdb c) → wp (delete_where w) (λ _ c', problems_ok (cdb c')) (λ _ _, False) c.
Proof.
  intros Hok. unfold delete_where. wp_step. unfold wp at 1, sql_exec. destruct (eng_fault _); apply wp_ret; [done|].
  simpl. eapply problems_ok_subset; [|exact Hok]. apply map_filter_subseteq.
Qed.

Lemma slave_problem_shaped sid : well_shaped (slave_problem ProblemTypeConnection sid).
Proof. split; [done|]. left. by split_and!; [|eexists|]. Qed.

Lemma replica_set_problem_shaped t rid : t ∈ [ProblemTypeDesiredReplicaSetConstraint; ProblemTypeObservedReplicaSetConstraint] →
  well_shaped (replica_set_problem t rid).
Proof. intros Ht. split; [done|]. right. by split_and!; [|eexists|]. Qed.

Lemma handle_status_keeps now msg c : problems_ok (cdb c) →
  wp (handle_status now msg) (λ _ c', problems_ok (cdb c')) (λ _ _, False) c.
Proof.
  intros Hok. destruct msg as [s|s|s|s|s]; cbn [handle_status]; try by apply wp_ret.
  - case_match; [|by apply delete_where_keeps]. apply first_or_create_keeps; [apply about_slave_subject|apply slave_problem_shaped|done].
  - case_match; [|by apply delete_where_keeps]. apply first_or_create_keeps; [apply about_replica_set_subject| |done].
    apply replica_set_problem_shaped. set_solver.
  - case_match; [|by apply delete_where_keeps]. apply first_or_create_keeps; [apply about_replica_set_subject| |done].
    apply replica_set_problem_shaped. set_solver.
Qed.

Lemma handle_message_keeps now msg d n : problems_ok d → problems_ok (committed (handle_message now msg (open_session d n)).1).
Proof.
  intros Hok. apply wp_fst. unfold handle_message. wp_step. apply wp_session_begin. wp_step. apply wp_in_tx. simpl.
  eapply wp_mono; [by apply handle_status_keeps| |done]. intros [] c Hc. wp_step.
  apply wp_Commit; [intros _ _|intros e _]; by apply wp_ret.
Qed.
End manager.

(** ** Everything else only loses problems *)

Lemma delete_slave_problems d sid : problems (delete_slave d sid) ⊆ problems d.
Proof. simpl. etrans; apply map_filter_subseteq. Qed.

Lemma delete_replica_sets_problems d l : problems (foldr (delete_row (R := ReplicaSet)) d l) ⊆ problems d.
Proof. induction l as [|rid l IH]; simpl; [done|]. etrans; [apply map_filter_subseteq|exact IH]. Qed.

(** No request creates a problem; two of them delete some. *)
Lemma change_problems req d d1 : api_change req d d1 → problems d1 ⊆ problems d.
Proof.
  intros Hc. destruct (change_deletes req d d1 Hc) as [d1 _ _ Ep|sid|l].
  - by rewrite Ep.
  - apply delete_slave_problems.
  - apply delete_replica_sets_problems.
Qed.

Lemma same_layout_problems d d' : same_layout d d' → problems d' = problems d.
Proof. intros Hsame. by pose proof (same_others _ _ Hsame) as [= _ _ ->]. Qed.

Lemma allocated_problems has_bus d d' : allocated has_bus d d' → problems d' ⊆ problems d.
Proof.
  intros (d1 & d2 & unsat & ms & Hrun). destruct Hrun as [-> Hsame _ Hg _ _].
  pose proof (grown_others _ _ Hg) as [= _ _ ->]. rewrite (same_layout_problems _ _ Hsame). unfold cleaned, remove_destroyed.
  etrans; [apply map_filter_subseteq|]. by rewrite (same_layout_problems _ _ (mark_orphaned_layout d)).
Qed.

Definition manages (e : event) : bool := match e with Manage _ _ => true | _ => false end.

Lemma allows_problems e d d' : event_allows e d d' → manages e = false → problems d' ⊆ problems d.
Proof.
  intros Hallows He. destruct e as [|has_bus req|has_bus| |slave| |msg made|now msg]; simpl in Hallows; try done.
  - by destruct Hallows as (-> & _).
  - destruct Hallows as (d1 & Hc & _ & Hf). etrans; [|by apply (change_problems req)].
    assert (d1 = d' ∨ allocated has_bus d1 d') as [<-|Hrun]; [|done|by eapply allocated_problems].
    destruct req; simpl in Hf; auto.
  - by eapply allocated_problems.
  - by destruct (mnt_tables _ _ Hallows) as (_ & -> & _).
  - by destruct Hallows as (st & target & rs & _ & _ & _ & ->).
Qed.

(** In every state of the master, each problem is about one slave or one replica set,
    which has no other problem of that type. *)
Lemma reachable_problems m : master_reachable m → problems_ok (stored m).
Proof.
  revert m. apply rtc_ind_r; [by split|]. intros m1 m2 Hm [e Hstep] IH. pose proof (master_reachable_ok m1 Hm) as Hok.
  destruct (manages e) eqn:He.
  - destruct e as [| | | | | | |now msg]; try done. inversion Hstep; subst. by apply handle_message_keeps.
  - destruct (step_outcome m1 e m2 Hok Hstep) as [_ [->|Hallows]]; [done|].
    eapply problems_ok_subset; [by eapply allows_problems|done].
Qed.

(** ** A message, handled *)

(** The slave or the replica set a message speaks about is still in the database. *)
Definition subject_exists (message : StatusMessage) (d : db) : Prop :=
  match message with
  | MsgConnection s => is_Some (slaves d !! Slave_ID (Connection_Slave s))
  | MsgDesiredConstraint s => is_Some (replica_sets d !! ReplicaSet_ID (Desired_ReplicaSet s))
  | MsgObservedConstraint s => is_Some (replica_sets d !! ReplicaSet_ID (Observed_ReplicaSet s))
  | MsgMatch _ | MsgInitiation _ => True
  end.

(** The foreign keys of a problem are those of its subject. *)
Lemma subject_keys msg w p d : subject msg = Some w → w p = true → well_shaped p → problem_keys d p ↔ subject_exists msg d.
Proof.
  intros Hw Hp [Hm Hs]. unfold problem_keys. rewrite Hm.
  destruct msg as [s|s|s|s|s]; simpl in Hw; simplify_eq; apply andb_true_iff in Hp as [Ht Hkey]; apply bool_decide_eq_true in Ht, Hkey;
    destruct Hs as [(Ht' & _ & Hn)|(Ht' & _ & Hn)]; rewrite ?Ht in Ht'; try done; try set_solver;
    rewrite Hkey, Hn; simpl; tauto.
Qed.

Lemma tracked_foreign_keys now msg w text d p' : subject msg = Some w →
  tracked now w (trouble msg) text d (set_problems p' d) → foreign_keys d → problems_ok (set_problems p' d) →
  ¬ trouble msg ∨ subject_exists msg d → foreign_keys (set_problems p' d).
Proof.
  intros Hw Htr (Hs & Hm & Hst & Hp) [Hshape _] Hex. split_and!; [done..|]. intros id p Hin. destruct (w p) eqn:Hwp.
  - apply (subject_keys msg w p d Hw Hwp (Hshape _ _ Hin)). destruct Hex as [Hno|]; [|done].
    rewrite (tracked_resolved _ _ _ _ _ _ Htr Hno id p Hin) in Hwp. done.
  - apply (tracked_others _ _ _ _ _ _ Htr) in Hin; [|done]. exact (Hp id p Hin).
Qed.

Lemma tracked_dangling now msg w text d p' : subject msg = Some w →
  tracked now w (trouble msg) text d (set_problems p' d) → problems_ok (set_problems p' d) →
  trouble msg → ¬ subject_exists msg d → ¬ foreign_keys (set_problems p' d).
Proof.
  intros Hw Htr [Hshape _] Hbad Hgone (_ & _ & _ & Hp). destruct (tracked_raised _ _ _ _ _ _ Htr Hbad) as (id & p & Hin & Hwp & _).
  apply Hgone. apply (subject_keys msg w p d Hw Hwp (Hshape _ _ Hin)). exact (Hp id p Hin).
Qed.

(** The transaction of a message is committed when no reference dangles after it. *)
Lemma handle_message_run (ENG : Engine) (UPSERT : GormUpsert) now msg d n c' : (∀ k, eng_fault k = None) →
  handle_status now msg (mkConn d n []) = (c', Returned tt) →
  ∃ s', handle_message now msg (open_session d n) = (s', Returned tt) ∧
    committed s' = if decide (foreign_keys (cdb c')) then cdb c' else d.
Proof.
  intros Hno Hrun. exists (mkSession (if decide (foreign_keys (cdb c')) then cdb c' else d) (tick c') []). split; [|done]. unfold handle_message, mbind, gom_bind, Begin, modify_state, in_tx, Commit. cbn [open_session committed tx calls cstmts cbus].
  rewrite Hrun. cbn [committed tx calls]. rewrite Hno. by case_decide.
Qed.

(** C33: The problem manager keeps the problems in step with the messages, in every state
    the master can reach, when every statement is executed: a message about a slave or a
    replica set that exists, or that reports no trouble, leaves exactly one problem about
    its subject, with the current description and time and the time of its first occurrence
    kept, or none; problems of other subjects stay. When its slave or replica set has been
    removed since it was sent, a message that reports trouble changes nothing: the commit
    fails. *)
Theorem problems_follow_status (ENG : Engine) (UPSERT : GormUpsert) now msg m n :
  upsert_reliable ENG UPSERT → master_reachable m →
  ∃ s', handle_message now msg (open_session (stored m) n) = (s', Returned tt) ∧
    match subject msg with
    | None => committed s' = stored m
    | Some w =>
        problems_ok (committed s') ∧ committed s' = set_problems (problems (committed s')) (stored m) ∧
        (¬ trouble msg ∨ subject_exists msg (stored m) →
           tracked now w (trouble msg) (described msg) (stored m) (committed s')) ∧
        (trouble msg → ¬ subject_exists msg (stored m) → committed s' = stored m)
    end.
Proof.
  intros Hrel Hm. destruct (master_reachable_ok m Hm) as [[_ Hk] _]. pose proof (reachable_problems m Hm) as Hok.
  set (d := stored m) in *. set (c := mkConn d n []).
  destruct (problems_track_status ENG UPSERT now msg c Hrel (problems_single _ Hok)) as (c' & Hrun & [Hdb _] & Hpost).
  pose proof (handle_status_keeps now msg c Hok) as Hok'. unfold wp in Hok'. rewrite Hrun in Hok'. simpl in Hdb, Hpost.
  destruct (handle_message_run ENG UPSERT now msg d n c' (upsert_eng _ _ Hrel) Hrun) as (s' & Hs' & Heq). exists s'. split; [done|].
  rewrite Heq. clear Hs' Heq.
  destruct (subject msg) as [w|] eqn:Hw; [|subst c'; by case_decide].
  rewrite Hdb in *. set (p' := problems (cdb c')) in *. case_decide as Hk'; split_and!; try done.
  - intros Hbad Hgone. by destruct (tracked_dangling now msg w _ d p' Hw Hpost Hok' Hbad Hgone).
  - by destruct d.
  - intros Hex. destruct Hk'. by eapply tracked_foreign_keys.
Qed.

(** Slave 1 of the example cluster stays unreachable; of slave 9 nothing is known. *)
Definition slave_still_down (id : Z) : StatusMessage :=
  MsgConnection (mkConnectionStatus true (mkSlave id "h1" 8081 18080 18090 true SlaveStateActive None None)
    (msp.mkError msp.CommunicationError "Error communicating with slave." "timeout")).

Lemma problems_follow_status_witness :
  (∃ s', @handle_message ref_engine ref_upsert 200 (slave_still_down 1) (open_session (stored example_master) 0) = (s', Returned tt) ∧
     tracked 200 (about_slave ProblemTypeConnection 1) (trouble (slave_still_down 1))
       (described (slave_still_down 1)) (stored example_master) (committed s')) ∧
  (∃ s', @handle_message ref_engine ref_upsert 200 (slave_still_down 9) (open_session (stored example_master) 0) = (s', Returned tt) ∧
     committed s' = stored example_master).
Proof.
  split.
  - destruct (problems_follow_status ref_engine ref_upsert 200 (slave_still_down 1) example_master 0 ref_upsert_reliable example_master_reachable)
      as (s' & Hrun & _ & _ & Htracked & _).
    exists s'. split; [exact Hrun|]. apply Htracked. right. apply (bool_decide_unpack _); vm_compute; exact I.
  - destruct (problems_follow_status ref_engine ref_upsert 200 (slave_still_down 9) example_master 0 ref_upsert_reliable example_master_reachable)
      as (s' & Hrun & _ & _ & _ & Hgone).
    exists s'. split; [exact Hrun|]. apply Hgone; [exact (conj eq_refl eq_refl)|].
    apply (bool_decide_unpack (¬ is_Some (slaves (stored example_master) !! 9))). vm_compute. exact I.
Defined.
