(* ===== verification/ControlLoop.v ===== *)
(** * The control loop

    What an observation leads to: the monitor records the answer of a slave and reports
    on every mongod of it, and the deployer pushes to the slave, for each mongod that is
    not as desired, a message that says what is desired. *)

From stdpp Require Import base gmap sets list strings fin_maps relations.
From Stdlib Require Import Lia.
From S2P Require Import Prelude Msp Model Database Orm Store Members Projections Deployer Monitor Observation Recording ObservationProperties.
From S2P Require Import Api ApiServer ApiInvariant ApiRules ApiProperties Coherence DesiredStates MonitorSafety Session System.

Open Scope Z_scope.
Set Warnings "-clear-no-such-hyp".

(** ** What is desired can be pushed *)

Lemma allows_desires e d d' : consistent d → event_allows e d d' → desires_valid d → desires_valid d'.
Proof.
  intros Hd Hallows Hv. destruct e as [|has_bus req|has_bus| |slave| |msg made|now msg]; simpl in Hallows; try done.
  - destruct Hallows as (-> & _). exact Hv.
  - destruct Hallows as (d1 & Hc & Hd1 & Hf). pose proof (shrinks_valid _ _ (change_shrinks _ _ _ Hd Hc) Hv) as Hv1.
    assert (d1 = d' ∨ allocated has_bus d1 d') as [<-|Hrun]; [|done|by eapply allocated_desires].
    destruct req; simpl in Hf; auto.
  - by eapply allocated_desires.
  - by eapply maintained_desires.
  - destruct Hallows as (st & target & rs & _ & _ & _ & ->). exact Hv.
  - destruct Hallows as (-> & _). exact Hv.
Qed.

Lemma reachable_desires m : master_reachable m → desires_valid (stored m).
Proof.
  revert m. apply rtc_ind_r; [by intros id m st H|]. intros m1 m2 Hm [e Hstep] IH. pose proof (master_reachable_ok m1 Hm) as Hok.
  destruct (step_outcome m1 e m2 Hok Hstep) as [_ [->|Hallows]]; [done|]. eapply allows_desires; [|done..]. apply Hok.
Qed.

(** The deployer's answer to a mongod of a sound database. *)
Lemma pushed_representation (ENG : Engine) (ORM : Gorm) d id m c :
  reliable ENG ORM → sound d → desires_valid d → mongod_keyfiles d ≠ ∅ → mongods d !! id = Some m → cdb c = d →
  ∃ slave st c' msg, slaves d !! Mongod_ParentSlaveID m = Some slave ∧ mongod_states d !! Mongod_DesiredStateID m = Some st ∧
    mspMongodStateRepresentation m c = (c', Returned (msp.mkHostPort (Slave_Hostname slave) (Slave_Port slave), msg, None)) ∧
    represents d m st msg.
Proof.
  intros Hrel [Hd _] Hv Hkey Hm <-. pose proof (cons_ok _ Hd) as Hok.
  destruct (ok_parent _ Hok id m Hm) as [slave Hs]. destruct (ok_desired _ Hok id m Hm) as (st & Hst & _).
  destruct (Hv id m st Hm Hst) as [Hex Hrole].
  destruct (representation_spec ENG ORM Hrel c m slave st) as (c' & msg & Hrun & Hrep); try done.
  - rewrite !elem_of_cons in Hex. destruct Hex as [->|[->|[->|[]%not_elem_of_nil]]]; done.
  - rewrite !elem_of_cons in Hex. destruct Hex as [->|[->|[->|[]%not_elem_of_nil]]]; done.
  - by exists slave, st, c', msg.
Qed.

(** ** From an observation to the calls of the deployer *)

(** What the deployer does about a mongod: nothing if it is as desired, else one call to
    its slave, with what is desired of it. *)
Definition deployed (d : db) (mongod : Mongod) (mismatch : bool) (made : list msp_call) : Prop :=
  if mismatch
  then ∃ slave st msg, slaves d !! Mongod_ParentSlaveID mongod = Some slave ∧
         mongod_states d !! Mongod_DesiredStateID mongod = Some st ∧ represents d mongod st msg ∧
         made = [CallEstablishMongodState (msp.mkHostPort (Slave_Hostname slave) (Slave_Port slave)) msg]
  else made = [].

Lemma dispatch_match (ENG : Engine) (ORM : Gorm) (CLIENT : MSPClient) d id status n :
  reliable ENG ORM → sound d → desires_valid d → mongod_keyfiles d ≠ ∅ → mongods d !! id = Some (Match_Mongod status) →
  ∃ s', dispatch (MsgMatch status) (open_session d n) = (s', Returned tt) ∧ committed s' = d ∧
    deployed d (Match_Mongod status) (Match_Mismatch status) (calls s').
Proof.
  intros Hrel Hd Hv Hkey Hm. simpl. unfold handleMatchStatus. destruct (Match_Mismatch status); [|by eexists].
  destruct (push_spec ENG ORM (Match_Mongod status) (open_session d n)) as (target & msg & err & c' & Hrep & s' & Hrun & Hc & Hcalls).
  destruct (pushed_representation ENG ORM d id (Match_Mongod status) (fresh_tx (open_session d n)) Hrel Hd Hv Hkey Hm eq_refl)
    as (slave & st & c1 & msg1 & Hs & Hst & Hrep1 & Hr).
  rewrite Hrep in Hrep1. injection Hrep1 as _ -> -> _. exists s'. split_and!; [exact Hrun|exact Hc|].
  by exists slave, st, msg1.
Qed.

Lemma sound_well_kept d : sound d → well_kept d.
Proof. intros [Hd Hk]. split; [apply Hd|done|apply Hd]. Qed.

(** What is true after a reachable master has handled an answer. *)
Record answered (m : master) (slave : Slave) (l : list msp.Mongod) (s' : session) (idx : gmap Z msp.Mongod)
    (statuses : list MongodMatchStatus) : Prop := {
  answered_sound : sound (committed s');
  answered_maintained : maintained (stored m) (committed s');
  answered_by : observed_by slave l (error_cleared slave (stored m)) (committed s');
  answered_reports : reports_of slave l (committed s') idx;
  answered_statuses : status_report (committed s') slave idx statuses;
  answered_bus : cbus (tx s') = MsgConnection (connection_status slave None) :: (MsgMatch <$> statuses)
}.

Lemma answer_handled (ENG : Engine) (ORM : Gorm) (STORE : GormStore) (ASSOC : GormAssociations) m slave l n :
  reliable_monitor ENG ORM STORE ASSOC → master_reachable m → slaves (stored m) !! Slave_ID slave = Some slave →
  Forall identified l → NoDup (identity <$> l) →
  ∃ s' idx statuses, handleObservation l None slave (open_session (stored m) n) = (s', Returned tt) ∧ answered m slave l s' idx statuses.
Proof.
  intros Hrel Hm Hs Hl Hnd. destruct (master_reachable_ok m Hm) as [Hd _]. pose proof Hd as [Hc (Hks & _)].
  assert (Slave_ID slave ≠ 0) as Hid by (pose proof (cons_slave_ids _ Hc _ _ Hs); lia).
  assert (positive_key (Slave_ObservationErrorID slave)) as Hpos.
  { intros eid Heid. destruct (Hks _ _ Hs) as [_ Href]. rewrite Heid in Href. destruct Href as [e He]. by apply (cons_errors _ Hc eid e). }
  pose proof (handleObservation_safely l None slave (open_session (stored m) n) Hd Hpos) as Hsafe.
  destruct (wp_returns _ _ _ (handle_answer ENG ORM STORE ASSOC Hrel slave l (open_session (stored m) n)
    (sound_well_kept _ Hd) Hs Hid Hl Hnd)) as ([] & s' & Hrun & _ & _ & Hby & idx & statuses & Hreports & Hstatus & Hbus).
  unfold wp in Hsafe. rewrite Hrun in Hsafe. destruct Hsafe as [Hd' Hmt]. exists s', idx, statuses. split; [exact Hrun|].
  split; [done| |done..]. destruct Hmt as [->|Hmt]; [apply maintained_refl|exact Hmt].
Qed.

(** C7: The loop is closed: take any state the master can reach in which the keyfile of the
    cluster is stored, and a slave that answers with pairwise distinct reports, each with
    a port other than 0 and the name of a replica set; let the database execute every
    statement. Then the monitor reports on every mongod the database has on the slave
    after the answer, whether known or new, as a match exactly if it is as desired; and
    the deployer answers the report of a mismatch with one call, to that slave, which
    carries the port, the name, the desired state and role, all members of the replica
    set, the keyfile and the credential, and answers a match with none. *)
Theorem observation_drives_deployer (ENG : Engine) (ORM : Gorm) (STORE : GormStore) (ASSOC : GormAssociations) (CLIENT : MSPClient)
    m slave l n :
  reliable_monitor ENG ORM STORE ASSOC → master_reachable m → mongod_keyfiles (stored m) ≠ ∅ →
  slaves (stored m) !! Slave_ID slave = Some slave → Forall identified l → NoDup (identity <$> l) →
  ∃ s' idx, handleObservation l None slave (open_session (stored m) n) = (s', Returned tt) ∧ reports_of slave l (committed s') idx ∧
    ∀ id mongod, mongods (committed s') !! id = Some mongod → Mongod_ParentSlaveID mongod = Slave_ID slave →
      ∃ status, MsgMatch status ∈ cbus (tx s') ∧ Match_Mongod status = mongod ∧
        (Match_Mismatch status = false ↔ as_desired (committed s') mongod (default msp.zero_Mongod (idx !! id))) ∧
        ∀ k, ∃ s'', dispatch (MsgMatch status) (open_session (committed s') k) = (s'', Returned tt) ∧
          committed s'' = committed s' ∧ deployed (committed s') mongod (Match_Mismatch status) (calls s'').
Proof.
  intros Hrel Hm Hkey Hs Hl Hnd. pose proof (reachable_desires m Hm) as Hv.
  destruct (answer_handled ENG ORM STORE ASSOC m slave l n Hrel Hm Hs Hl Hnd)
    as (s' & idx & statuses & Hrun & [Hd' Hmt _ Hreports Hstatus Hbus]).
  assert (desires_valid (committed s')) as Hv' by by eapply maintained_desires.
  assert (mongod_keyfiles (committed s') ≠ ∅) as Hkey' by by destruct (mnt_tables _ _ Hmt) as (_ & _ & -> & _).
  exists s', idx. split; [exact Hrun|]. split; [exact Hreports|]. intros id mongod Hmongod Hpar.
  assert (Mongod_ID mongod = id) as <- by exact (ok_mongod_key _ (cons_ok _ (sound_consistent _ Hd')) _ _ Hmongod).
  destruct Hstatus as (_ & Hall & Hmatch). destruct (proj2 (Hall mongod) (conj Hmongod Hpar)) as (status & Hin & <-).
  exists status. split_and!; [|done|by apply Hmatch|].
  - rewrite Hbus. right. by apply list_elem_of_fmap_2.
  - intros k. apply (dispatch_match ENG ORM CLIENT (committed s') (Mongod_ID (Match_Mongod status)) status k); [apply Hrel|done..].
Qed.

(** ** A slave that is behind *)

(** The cluster of the API's example; its first slave reports that its mongod does not
    run, and a mongod of an earlier life. *)
Definition asked_master : master := run_actions empty_master (DoStart :: (DoRequest <$> example_requests)).
Definition asked_slave : Slave := mkSlave 1 "host1" 8081 18080 18082 true SlaveStateActive (Some 1) None.
Definition asked_answer : list msp.Mongod :=
  [reported_mongod 18080 "rs1" msp.MongodStateNotRunning; reported_mongod 18081 "old" msp.MongodStateRunning].

(** Both mismatches are answered: the member is to run, the other one to go. *)
Example asked_pushes :
  let s := (@handleObservation ref_engine ref_gorm ref_store ref_associations asked_answer None asked_slave (open_session (stored asked_master) 0)).1 in
  (λ msg, (λ k, match k with CallEstablishMongodState t m => (msp.Hostname t, msp.Mongod_Port m, msp.State m) | _ => (EmptyString, 0, EmptyString) end) <$>
     calls (@dispatch ref_engine ref_gorm accepting_client msg (open_session (committed s) 0)).1) <$> cbus (tx s) =
  [[]; [("host1"%string, 18081, msp.MongodStateForceDestroyed)]; [("host1"%string, 18080, msp.MongodStateRunning)]].
Proof. vm_compute. reflexivity. Qed.

Lemma asked_reachable : master_reachable asked_master.
Proof.
  apply (run_actions_reachable (DoStart :: (DoRequest <$> example_requests)) empty_master); [apply rtc_refl|].
  repeat (apply Forall_cons; split; [by vm_compute|]). constructor.
Qed.

Lemma observation_drives_deployer_witness : ∃ s' (idx : gmap Z msp.Mongod),
  @handleObservation ref_engine ref_gorm ref_store ref_associations asked_answer None asked_slave (open_session (stored asked_master) 0) =
    (s', Returned tt) ∧
  ∀ id mongod, mongods (committed s') !! id = Some mongod → Mongod_ParentSlaveID mongod = 1 →
    ∃ status, MsgMatch status ∈ cbus (tx s') ∧ Match_Mongod status = mongod ∧
      (Match_Mismatch status = false ↔ as_desired (committed s') mongod (default msp.zero_Mongod (idx !! id))) ∧
      ∀ k, ∃ s'', @dispatch ref_engine ref_gorm accepting_client (MsgMatch status) (open_session (committed s') k) = (s'', Returned tt) ∧
        committed s'' = committed s' ∧ deployed (committed s') mongod (Match_Mismatch status) (calls s'').
Proof.
  destruct (observation_drives_deployer ref_engine ref_gorm ref_store ref_associations accepting_client asked_master asked_slave asked_answer 0)
    as (s' & idx & Hrun & _ & Hall).
  - apply ref_reliable_monitor.
  - apply asked_reachable.
  - intros Hempty%(f_equal size). by vm_compute in Hempty.
  - vm_compute. reflexivity.
  - repeat (apply Forall_cons; split; [by vm_compute|]). by apply Forall_nil.
  - apply (bool_decide_unpack _). by vm_compute.
  - exists s', idx. split; [exact Hrun|exact Hall].
Defined.
