(* ===== verification/Removal.v ===== *)
(** * How a mongod is forgotten

    A mongod that is to go, because an operator deleted its replica set or the allocator
    chose it, stays in the database until its slave answers without it: the monitor then
    records it as destroyed, and the next tick of the allocator deletes its rows. *)

From stdpp Require Import base gmap sets list strings fin_maps relations.
From Stdlib Require Import Lia.
From S2P Require Import Prelude Msp Model Database Orm Store Allocator AllocatorRemoval AllocatorAdd AllocatorSpec AllocatorProperties.
From S2P Require Import Monitor Observation Recording ObservationProperties Api ApiServer ApiHandlers ApiInvariant ApiRules ApiRequests ApiProperties Coherence MonitorSafety Session System ControlLoop.

Open Scope Z_scope.
Set Warnings "-clear-no-such-hyp".

(** ** The allocator's half *)

(** No replica set has it any more, or it is to be destroyed. *)
Definition to_go (d : db) (m : Mongod) : Prop :=
  ¬ is_member m ∨ ∃ st, mongod_states d !! Mongod_DesiredStateID m = Some st ∧ doomed (MongodState_ExecutionState st).

(** Its slave has confirmed that it is gone. *)
Definition confirmed_gone (d : db) (m : Mongod) : Prop :=
  Mongod_ObservationErrorID m = None ∧
  ∃ st, observed_state d m = Some st ∧ MongodState_ExecutionState st = MongodExecutionStateDestroyed.

Lemma orphan_desired d id m : db_ok d → mongods d !! id = Some m →
  Mongod_DesiredStateID m ∈ orphaned_desired_states d ↔ ¬ is_member m.
Proof.
  intros Hok Hm. rewrite elem_of_orphaned. unfold is_member. split.
  - intros (id' & m' & Hm' & Hnone & Heq). assert (id' = id) as -> by by apply (desired_inj d Hok id' id m' m).
    assert (m' = m) as -> by congruence. rewrite Hnone. by intros [? ?].
  - intros Hno%eq_None_not_Some. by exists id, m.
Qed.

Lemma mark_orphaned_observed d id m : db_ok d → mongods d !! id = Some m → observed_state (mark_orphaned d) m = observed_state d m.
Proof.
  intros Hok Hm. unfold observed_state. destruct (Mongod_ObservedStateID m) as [o|] eqn:Ho; [|done]. simpl.
  rewrite lookup_update_where. destruct (ok_observed _ Hok _ _ _ Hm Ho) as (_ & st & -> & _). simpl. rewrite decide_False; [done|].
  rewrite elem_of_orphaned. intros (id' & m' & Hm' & _ & Heq). by apply (observed_not_desired d Hok id id' m m' o).
Qed.

Lemma destroyed_iff d id m : db_ok d → mongods d !! id = Some m →
  destroyed_mongod (mark_orphaned d) m = true ↔ to_go d m ∧ confirmed_gone d m.
Proof.
  intros Hok Hm. pose proof (orphan_desired d id m Hok Hm) as Horphan. destruct (ok_desired _ Hok _ _ Hm) as (des & Hdes & _).
  unfold destroyed_mongod, to_go, confirmed_gone. rewrite (mark_orphaned_observed d id m Hok Hm). simpl.
  rewrite lookup_update_where, Hdes. simpl.
  destruct (observed_state d m) as [st|]; [|split; [done|by intros (_ & _ & st & ? & _)]].
  rewrite !andb_true_iff, orb_true_iff, !bool_decide_eq_true. unfold doomed. case_decide as Hin; simpl.
  - split; [intros (_ & Hex & Herr)|intros (_ & Herr & st' & [= <-] & Hex); tauto].
    split; [left; tauto|]. split; [done|by exists st].
  - split; [intros (Hdoomed & Hex & Herr)|intros ([Hno|(st' & [= <-] & Hst')] & Herr & st0 & [= <-] & Hex); tauto].
    split; [right; by exists des|]. split; [done|by exists st].
Qed.

(** The clean-up forgets exactly the mongods that are to go and confirmed gone. *)
Lemma cleaned_forgets d id m : db_ok d → mongods d !! id = Some m →
  mongods (cleaned d) !! id = None ↔ to_go d m ∧ confirmed_gone d m.
Proof.
  intros Hok Hm. rewrite <- (destroyed_iff d id m Hok Hm). unfold cleaned, remove_destroyed.
  assert (db_ok (mark_orphaned d)) as Hokm by (eapply same_layout_ok; [apply mark_orphaned_layout|done]).
  rewrite eq_None_not_Some. unfold is_Some. setoid_rewrite delete_mongods_lookup; [|done]. setoid_rewrite elem_of_members_where. simpl. split.
  - intros Hno. destruct (destroyed_mongod _ m) eqn:E; [done|]. destruct Hno. exists m. split; [done|].
    intros (m' & Hm' & Hdes). congruence.
  - intros Hdes (m' & _ & Hno). apply Hno. by exists m.
Qed.

(** A mongod the allocator creates has not been observed. *)
Lemma grown_unobserved d d' : grown d d' → ∀ id m, mongods d' !! id = Some m → mongods d !! id = None → Mongod_ObservedStateID m = None.
Proof.
  intros Hg. generalize dependent d'. refine (grown_ind d _ _ _); [congruence|].
  intros d1 d2 p _ [r s mid sid port _ _ _ _ _ _ Hfresh] IH id m Hm Hnone. apply spawn_mongods in Hm as [[-> ->]|Hm]; [done|by eapply IH|done].
Qed.

(** What a tick of the allocator does to the mongods: those that are to go and confirmed gone
    are forgotten, the others stay; a key may be given again to a new mongod. *)
Record forgotten (d d' : db) : Prop := {
  forgotten_gone id m m' : mongods d !! id = Some m → to_go d m → confirmed_gone d m → mongods d' !! id = Some m' →
    Mongod_ObservedStateID m' = None;
  forgotten_kept id m : mongods d !! id = Some m → ¬ (to_go d m ∧ confirmed_gone d m) → mongods d' !! id = Some m
}.

Lemma allocated_forgotten has_bus d d' : db_ok d → allocated has_bus d d' → forgotten d d'.
Proof.
  intros Hok (d1 & d2 & unsat & ms & [-> Hsame _ Hg _ _]). split.
  - intros id m m' Hm Hgo Hgone Hm'. apply (grown_unobserved _ _ Hg id m' Hm'). rewrite (same_mongods _ _ Hsame).
    by apply (cleaned_forgets d id m Hok Hm).
  - intros id m Hm Hno. apply (grown_mongods _ _ id m Hg). rewrite (same_mongods _ _ Hsame).
    destruct (mongods (cleaned d) !! id) as [m1|] eqn:Hm1.
    + by rewrite <- Hm, (cleaned_mongods _ _ _ Hok Hm1).
    + apply (cleaned_forgets d id m Hok Hm) in Hm1. done.
Qed.

(** A tick on a sound database whose mongods all have ports of their own is committed. *)
Lemma allocator_tick_run (ENG : Engine) (ORM : Gorm) has_bus d n :
  reliable ENG ORM → sound d → slots_distinct d →
  ∃ s, allocator_tick has_bus (open_session d n) = (s, Returned tt) ∧ allocated has_bus d (committed s).
Proof.
  intros Hrel [Hd Hk] Hslots. set (c := mkConn d n []).
  destruct (compile_run ENG ORM Hrel has_bus c (cons_ok _ Hd) Hslots) as (c' & d1 & d2 & unsat & ms & Hrun & _ & Hcomp).
  pose proof (compiled_keys Hd Hcomp Hk) as Hk'. exists (mkSession (cdb c') (tick c') []). split; [|by exists d1, d2, unsat, ms].
  unfold allocator_tick, mbind, gom_bind, Begin, modify_state, in_tx, Commit. cbn [open_session committed tx calls cstmts cbus].
  fold c. rewrite Hrun. cbn [committed tx calls]. rewrite (reliable_eng _ _ Hrel). by rewrite decide_True.
Qed.

(** ** Both halves *)

Lemma error_cleared_row slave d id m : mongods d !! id = Some m →
  ∃ m', mongods (error_cleared slave d) !! id = Some m' ∧ Mongod_ParentSlaveID m' = Mongod_ParentSlaveID m ∧
    Mongod_Port m' = Mongod_Port m ∧ Mongod_ReplSetName m' = Mongod_ReplSetName m.
Proof.
  intros Hm. unfold error_cleared. destruct (Slave_ObservationErrorID slave) as [eid|]; [|by exists m].
  exists (mongod_forgets eid m). simpl. by rewrite lookup_fmap, Hm.
Qed.

Lemma to_go_decided d d' m m' : decided m' = decided m →
  mongod_states d' !! Mongod_DesiredStateID m = mongod_states d !! Mongod_DesiredStateID m → to_go d m → to_go d' m'.
Proof. intros [= _ _ _ _ Hrs Hdes] Hst. unfold to_go, is_member. by rewrite Hrs, Hdes, Hst. Qed.

(** C10: Whatever is to go is forgotten. In any state the master can reach, let the slave of
    a mongod that no replica set has, or that is to be destroyed, answer without it, with
    pairwise distinct reports that each have a port other than 0 and a name, and let the
    database execute every statement. Then the monitor records the mongod as destroyed,
    and the next tick of the allocator, if no two mongods of one slave have the same port
    by then, is committed and deletes its row, while every mongod that is wanted or not
    confirmed gone keeps its row, also one that has never been observed (of which the
    comment in the allocator says that it is removed). *)
Theorem removed_mongod_forgotten (ENG : Engine) (ORM : Gorm) (STORE : GormStore) (ASSOC : GormAssociations) m slave l n id mongod :
  reliable_monitor ENG ORM STORE ASSOC → master_reachable m →
  slaves (stored m) !! Slave_ID slave = Some slave → Forall identified l → NoDup (identity <$> l) →
  mongods (stored m) !! id = Some mongod → Mongod_ParentSlaveID mongod = Slave_ID slave → to_go (stored m) mongod →
  (∀ o, o ∈ l → ¬ same_mongod slave o mongod) →
  ∃ s1 row, handleObservation l None slave (open_session (stored m) n) = (s1, Returned tt) ∧
    mongods (committed s1) !! id = Some row ∧ decided row = decided mongod ∧ to_go (committed s1) row ∧ confirmed_gone (committed s1) row ∧
    (slots_distinct (committed s1) → ∀ has_bus k,
       ∃ s2, allocator_tick has_bus (open_session (committed s1) k) = (s2, Returned tt) ∧ forgotten (committed s1) (committed s2)).
Proof.
  intros Hrel Hm Hs Hl Hnd Hin Hpar Hgo Hno.
  destruct (answer_handled ENG ORM STORE ASSOC m slave l n Hrel Hm Hs Hl Hnd) as (s1 & idx & statuses & Hrun & [Hd1 Hmt Hby _ _ _]).
  destruct (kept_mongods _ _ (mnt_decisions _ _ Hmt) id mongod Hin) as (row & Hrow & Hdec & Hst). exists s1, row.
  split_and!; [exact Hrun|done..|by eapply to_go_decided| |].
  - destruct (error_cleared_row slave _ id mongod Hin) as (m' & Hm' & Hp' & Hport & Hname).
    destruct (by_gone _ _ _ _ Hby id m' Hm') as (row' & st & Hrow' & Herr & Hobs & Hex); [congruence| |].
    + intros o Ho (Hpo & Hporto & Hnameo). apply (Hno o Ho). split_and!; congruence.
    + assert (row' = row) as -> by congruence. split; [done|by exists st].
  - intros Hslots has_bus k. destruct (allocator_tick_run ENG ORM has_bus (committed s1) k (monitor_orm _ _ _ _ Hrel) Hd1 Hslots)
      as (s2 & Hrun2 & Halloc). exists s2. split; [exact Hrun2|]. eapply allocated_forgotten; [apply Hd1|exact Halloc].
Qed.


(** ** A replica set is deleted

    The replica set of the example is deleted; its mongod on the first slave, which has
    not answered yet, is to go. *)
Definition removing_master : master := run_actions asked_master [DoRequest (DeleteReplicaSet "1")].
Definition removed_mongod : Mongod := mkMongod 2 18080 "rs1" None None 1 None 2 None.
Definition first_slave : Slave := default zero_Slave (slaves (stored removing_master) !! 1).

Lemma removing_reachable : master_reachable removing_master.
Proof.
  apply (run_actions_reachable [DoRequest (DeleteReplicaSet "1")] asked_master asked_reachable).
  repeat (apply Forall_cons; split; [by vm_compute|]). constructor.
Qed.

(** The slave answers that it has no mongod; the tick of the allocator then forgets it. *)
Definition removing_answer : session * outcome unit :=
  @handleObservation ref_engine ref_gorm ref_store ref_associations [] None first_slave (open_session (stored removing_master) 0).

Lemma removed_mongod_forgotten_witness : ∃ s1 s2, removing_answer = (s1, Returned tt) ∧
  @allocator_tick ref_engine ref_gorm true (open_session (committed s1) 0) = (s2, Returned tt) ∧ forgotten (committed s1) (committed s2) ∧
  ∃ row, mongods (committed s1) !! 2 = Some row ∧ to_go (committed s1) row ∧ confirmed_gone (committed s1) row.
Proof.
  destruct (removed_mongod_forgotten ref_engine ref_gorm ref_store ref_associations removing_master first_slave [] 0 2 removed_mongod)
    as (s1 & row & Hrun & Hrow & _ & Hgo & Hgone & Htick).
  - apply ref_reliable_monitor.
  - apply removing_reachable.
  - vm_compute. reflexivity.
  - by apply Forall_nil.
  - by apply NoDup_nil.
  - vm_compute. reflexivity.
  - vm_compute. reflexivity.
  - left. by intros [? ?].
  - by intros o Ho%not_elem_of_nil.
  - assert (slots_distinct (committed s1)) as Hslots.
    { change (slots_distinct (committed (s1, Returned tt : outcome unit).1)). rewrite <- Hrun. apply slots_distinctb_sound. vm_compute. reflexivity. }
    destruct (Htick Hslots true 0%nat) as (s2 & Hrun2 & Hforgot). exists s1, s2. split_and!; [exact Hrun|exact Hrun2|exact Hforgot|].
    exact (ex_intro _ row (conj Hrow (conj Hgo Hgone))).
Defined.

(** Deleted, confirmed, forgotten. *)
Example removed_mongod_rows :
  let d0 := stored removing_master in
  let d1 := committed removing_answer.1 in
  let d2 := committed (@allocator_tick ref_engine ref_gorm true (open_session d1 0)).1 in
  (mongods d0 !! 2, Mongod_ObservedStateID <$> mongods d1 !! 2, mongods d2 !! 2) = (Some removed_mongod, Some (Some 3), None).
Proof. vm_compute. reflexivity. Qed.
