(* ===== verification/Convergence.v ===== *)
(** * When nothing is left to do

    A slave that runs what the deployer has pushed to it, and reports so, is left alone:
    the monitor finds no mismatch and the deployer sends nothing, until a decision
    changes.  What the monitor compares with is computed afresh from the database, so it
    first has to be seen that an observation does not change it. *)

From stdpp Require Import base gmap sets list strings fin_maps relations.
From Stdlib Require Import Lia.
From S2P Require Import Prelude Msp Model Database Orm Store Members Projections Deployer Monitor Observation Recording ObservationProperties.
From S2P Require Import Api ApiServer ApiInvariant ApiRules Coherence DesiredStates MonitorSafety Session System ControlLoop.

Open Scope Z_scope.
Set Warnings "-clear-no-such-hyp".

(** ** The wanted members depend on decisions only *)

Lemma unobserved_key d m : desired_member_key d (unobserved m) = desired_member_key d m.
Proof. done. Qed.

Lemma unobserved_member d m : member_of d (unobserved m) = member_of d m.
Proof. done. Qed.

(** Only observations differ, and what is new is no member. *)
Record same_decisions (d d' : db) : Prop := {
  sd_slaves : slaves d' = slaves d;
  sd_replica_sets : replica_sets d' = replica_sets d;
  sd_mongods id m : mongods d !! id = Some m → ∃ m', mongods d' !! id = Some m' ∧ unobserved m' = unobserved m ∧
    mongod_states d' !! Mongod_DesiredStateID m = mongod_states d !! Mongod_DesiredStateID m;
  sd_new id m : mongods d !! id = None → mongods d' !! id = Some m → Mongod_ReplicaSetID m = None
}.

Section same_decisions.
Context (d d' : db) (Hok : db_ok d) (Hok' : db_ok d') (Hsame : same_decisions d d').

Lemma unobserved_desired_member rid m m' : unobserved m' = unobserved m →
  mongod_states d' !! Mongod_DesiredStateID m = mongod_states d !! Mongod_DesiredStateID m →
  desired_member d' rid m' = desired_member d rid m.
Proof.
  intros Hu Hst. injection Hu as _ _ _ _ Hpar Hrs Hdes. unfold desired_member, member_join.
  by rewrite Hrs, Hpar, Hdes, (sd_slaves _ _ Hsame), (sd_replica_sets _ _ Hsame), Hst.
Qed.

(** The rows of the members, but for observations. *)
Lemma desired_rows_same rid : unobserved <$> desired_rows d' rid ≡ₚ unobserved <$> desired_rows d rid.
Proof.
  assert (∀ e, db_ok e → NoDup (unobserved <$> desired_rows e rid)) as Hnd.
  { intros e He. apply NoDup_fmap_2_strong.
    - intros x y (i & Hx & _)%elem_of_desired_rows (j & Hy & _)%elem_of_desired_rows [= Hid _ _ _ _ _].
      rewrite (ok_mongod_key _ He _ _ Hx), (ok_mongod_key _ He _ _ Hy) in Hid. congruence.
    - unfold desired_rows. rewrite order_by_perm. apply NoDup_fmap_2_strong; [|apply NoDup_map_to_list].
      intros [i x] [j y] [Hx _]%elem_of_map_to_list%map_lookup_filter_Some [Hy _]%elem_of_map_to_list%map_lookup_filter_Some Heq.
      simpl in Heq. subst. f_equal. by rewrite <- (ok_mongod_key _ He _ _ Hx), (ok_mongod_key _ He _ _ Hy). }
  apply NoDup_Permutation; [by apply Hnd..|]. intros u. rewrite !list_elem_of_fmap. split.
  - intros (m' & -> & (id & Hm' & Hdes)%elem_of_desired_rows). destruct (mongods d !! id) as [m|] eqn:Hm.
    + destruct (sd_mongods _ _ Hsame id m Hm) as (m1 & Hm1 & Hu & Hst). assert (m1 = m') as -> by congruence.
      exists m. split; [done|]. apply elem_of_desired_rows. exists id. split; [done|].
      by rewrite <- (unobserved_desired_member rid m m').
    + unfold desired_member, member_join in Hdes. by rewrite (sd_new _ _ Hsame id m' Hm Hm') in Hdes.
  - intros (m & -> & (id & Hm & Hdes)%elem_of_desired_rows). destruct (sd_mongods _ _ Hsame id m Hm) as (m' & Hm' & Hu & Hst).
    exists m'. split; [done|]. apply elem_of_desired_rows. exists id. split; [done|]. by rewrite (unobserved_desired_member rid m m').
Qed.

Lemma wanted_members_same rid : wanted_members d' rid = wanted_members d rid.
Proof.
  assert (∀ e, member_of e <$> desired_rows e rid = member_of e <$> (unobserved <$> desired_rows e rid)) as Hforget.
  { intros e. rewrite <- list_fmap_compose. apply list_fmap_ext. intros. apply unobserved_member. }
  assert (∀ e, db_ok e → ∀ x y, x ∈ desired_rows e rid → y ∈ desired_rows e rid → key_le (desired_member_key e x) (desired_member_key e y) →
    key_le (desired_member_key e y) (desired_member_key e x) → x = y) as Hanti.
  { intros e He x y (i & Hx & _)%elem_of_desired_rows (j & Hy & _)%elem_of_desired_rows H1 H2.
    pose proof (key_le_antisym _ _ _ H1 H2) as Hid. rewrite (ok_mongod_key _ He _ _ Hx), (ok_mongod_key _ He _ _ Hy) in Hid. congruence. }
  assert (∀ e, db_ok e → unobserved <$> desired_rows e rid = order_by (desired_member_key e) (unobserved <$> desired_rows e rid)) as Hsort.
  { intros e He. rewrite <- order_by_fmap; [|done|by intros; f_equal; eapply Hanti]. f_equal. symmetry.
    unfold desired_rows at 2. apply (order_by_unique _ (desired_rows e rid)); [by apply Hanti|apply order_by_perm]. }
  assert (desired_member_key d' = desired_member_key d) as Hkey
    by (unfold desired_member_key, slave_of; by rewrite (sd_slaves _ _ Hsame)).
  assert (member_of d' = member_of d) as Hmember by (unfold member_of, slave_of; by rewrite (sd_slaves _ _ Hsame)).
  unfold wanted_members. rewrite (Hforget d'), (Hforget d), (Hsort d'), (Hsort d), Hkey, Hmember by done. do 2 f_equal.
  apply order_by_unique; [|apply desired_rows_same]. intros x y Hx Hy. revert x y Hx Hy.
  setoid_rewrite desired_rows_same. intros x y (x0 & -> & Hx)%list_elem_of_fmap (y0 & -> & Hy)%list_elem_of_fmap H1 H2.
  f_equal. by apply (Hanti d Hok).
Qed.
End same_decisions.

(** ** An answer as pushed *)

(** The report [o] says of a mongod what the message [msg] asks for. *)
Record obeys (msg o : msp.Mongod) : Prop := {
  obeys_port : msp.Mongod_Port o = msp.Mongod_Port msg;
  obeys_name : msp.ReplicaSetName (msp.Mongod_ReplicaSetConfig o) = msp.ReplicaSetName (msp.Mongod_ReplicaSetConfig msg);
  obeys_state : msp.State o = msp.State msg;
  obeys_role : msp.Config_ShardingRole (msp.Mongod_ReplicaSetConfig o) = msp.Config_ShardingRole (msp.Mongod_ReplicaSetConfig msg);
  obeys_members : msp.ReplicaSetMembers (msp.Mongod_ReplicaSetConfig o) ≡ₚ msp.ReplicaSetMembers (msp.Mongod_ReplicaSetConfig msg);
  obeys_error : msp.StatusError o = None
}.

(** The slave reports of each of its mongods what was pushed, and of no other one. *)
Record as_pushed (d : db) (slave : Slave) (l : list msp.Mongod) : Prop := {
  pushed_mongods id mongod : mongods d !! id = Some mongod → Mongod_ParentSlaveID mongod = Slave_ID slave →
    is_member mongod ∧ ∃ st msg o, mongod_states d !! Mongod_DesiredStateID mongod = Some st ∧ represents d mongod st msg ∧
      o ∈ l ∧ obeys msg o;
  pushed_only o : o ∈ l → ∃ id mongod, mongods d !! id = Some mongod ∧ same_mongod slave o mongod;
  pushed_identified : Forall identified l;
  pushed_once : NoDup (identity <$> l)
}.

Lemma wanted_priority d rid m : m ∈ wanted_members d rid → msp.Member_Priority m ≠ SpecFloat.S754_nan.
Proof.
  intros [i Hi]%list_elem_of_lookup. unfold wanted_members in Hi. rewrite list_lookup_imap, list_lookup_fmap in Hi.
  destruct (desired_rows d rid !! i) as [row|]; [|done]. simpl in Hi. injection Hi as <-. unfold member_at, member_of, member_priority. simpl.
  repeat case_decide; try case_match; by vm_compute.
Qed.

(** A report tells the role it was asked to have. *)
Lemma known_role_reported o : msp.Config_ShardingRole (msp.Mongod_ReplicaSetConfig o) ∈ sharding_roles →
  reported_role o = msp.Config_ShardingRole (msp.Mongod_ReplicaSetConfig o).
Proof.
  intros Hr. unfold reported_role, sharding_roles in *. rewrite !elem_of_cons in Hr.
  destruct Hr as [->|[->|[->|[]%not_elem_of_nil]]]; reflexivity.
Qed.

(** What an answer as pushed makes of the database. *)
Section pushed.
Context (d d' : db) (slave : Slave) (l : list msp.Mongod).
Context (Hok : db_ok d) (Hok' : db_ok d') (Hapart : told_apart d').
Context (Hp : as_pushed d slave l) (Hby : observed_by slave l d d').

(** Two rows the same report is about. *)
Lemma same_row o id m id0 m0 : mongods d' !! id = Some m → mongods d !! id0 = Some m0 →
  same_mongod slave o m → same_mongod slave o m0 → id = id0.
Proof.
  intros Hm Hm0 (? & ? & ?) (? & ? & ?). destruct (by_kept _ _ _ _ Hby id0 m0 Hm0) as (m1 & Hm1 & Hu & _).
  injection Hu as _ ? ? _ ? _ _. apply (Hapart _ _ _ _ Hm Hm1). unfold mongod_identity. congruence.
Qed.

Lemma pushed_known id m : mongods d' !! id = Some m → is_Some (mongods d !! id).
Proof.
  intros Hm. destruct (mongods d !! id) as [m0|] eqn:Hm0; [by eexists|]. exfalso.
  destruct (by_new _ _ _ _ Hby id m Hm0 Hm) as (o & Ho & Hs & _). destruct (pushed_only _ _ _ Hp o Ho) as (i & m1 & Hm1 & Hs1).
  pose proof (same_row o id m i m1 Hm Hm1 Hs Hs1). congruence.
Qed.

Lemma pushed_same_decisions : same_decisions d d'.
Proof.
  destruct (by_tables _ _ _ _ Hby) as (Es & Er & _). split; [done..|exact (by_kept _ _ _ _ Hby)|].
  intros id m Hnone Hm. destruct (pushed_known id m Hm). congruence.
Qed.

(** The report about a mongod, and what is recorded of it. *)
Lemma pushed_shown idx id m m0 o : reports_of slave l d' idx → mongods d' !! id = Some m → mongods d !! id = Some m0 →
  o ∈ l → same_mongod slave o m0 → msp.StatusError o = None →
  idx !! id = Some o ∧ ∃ st, observed_state d' m = Some st ∧ reported_state o st.
Proof.
  intros [Hidx Hall] Hm Hm0 Ho Hs Herr. split.
  - destruct (Hall o Ho) as [id1 Hid1]. destruct (Hidx id1 o Hid1) as (m1 & Hm1 & Hs1).
    by rewrite <- (same_row o id1 m1 id m0 Hm1 Hm0 Hs1 Hs).
  - destruct (by_reported _ _ _ _ Hby o Ho) as (id1 & m1 & Hm1 & Hs1 & Hshow).
    assert (id1 = id) as -> by by eapply same_row. assert (m1 = m) as -> by congruence.
    unfold shows in Hshow. by rewrite Herr in Hshow.
Qed.

Lemma pushed_as_desired idx id mongod : desires_valid d → reports_of slave l d' idx →
  mongods d' !! id = Some mongod → Mongod_ParentSlaveID mongod = Slave_ID slave →
  as_desired d' mongod (default msp.zero_Mongod (idx !! id)).
Proof.
  intros Hv Hidx Hm Hpar. destruct (pushed_known id mongod Hm) as [m0 Hm0].
  destruct (by_kept _ _ _ _ Hby id m0 Hm0) as (m1 & Hm1 & Hu & Hst). assert (m1 = mongod) as -> by congruence. clear Hm1.
  injection Hu as _ _ _ _ Hpar0 Hrs Hdes.
  destruct (pushed_mongods _ _ _ Hp id m0 Hm0 ltac:(congruence)) as ([rid Hrid] & st & msg & o & Hst0 & Hrep & Ho & Hobeys).
  assert (same_mongod slave o m0) as Hs.
  { split_and!; [congruence|by rewrite (obeys_port _ _ Hobeys), (rep_port _ _ _ _ Hrep)|
      by rewrite (obeys_name _ _ Hobeys), (rep_name _ _ _ _ Hrep)]. }
  destruct (pushed_shown idx id mongod m0 o Hidx Hm Hm0 Ho Hs (obeys_error _ _ Hobeys)) as (-> & seen & Hseen & Hex & Hrole).
  assert (msp.Config_ShardingRole (msp.Mongod_ReplicaSetConfig o) = MongodState_ShardingRole st) as Hro
    by (by rewrite (obeys_role _ _ Hobeys), (rep_role _ _ _ _ Hrep)).
  exists st, seen, rid. split_and!; [congruence|done| | |congruence|].
  - by rewrite Hex, (obeys_state _ _ Hobeys), (rep_state _ _ _ _ Hrep).
  - rewrite Hrole, <- Hro. apply known_role_reported. rewrite Hro. by apply (valid_state_role _ (Hv id m0 st Hm0 Hst0)).
  - simpl. rewrite (wanted_members_same d d' Hok Hok' pushed_same_decisions). apply members_equal_ignores_order; [|apply wanted_priority].
    rewrite (obeys_members _ _ Hobeys), (rep_members _ _ _ _ Hrep). unfold members_for. by rewrite Hrid.
Qed.
End pushed.

Lemma dispatch_silent `{ENG : Engine} `{ORM : Gorm} `{CLIENT : MSPClient} status s :
  Match_Mismatch status = false → dispatch (MsgMatch status) s = (s, Returned tt).
Proof. intros Hm. simpl. unfold handleMatchStatus. by rewrite Hm. Qed.

Lemma left_alone (ENG : Engine) (ORM : Gorm) (STORE : GormStore) (ASSOC : GormAssociations) (CLIENT : MSPClient)
    m slave l n :
  reliable_monitor ENG ORM STORE ASSOC → master_reachable m → slaves (stored m) !! Slave_ID slave = Some slave →
  Slave_ObservationErrorID slave = None → as_pushed (stored m) slave l →
  ∃ s' statuses, handleObservation l None slave (open_session (stored m) n) = (s', Returned tt) ∧
    same_decisions (stored m) (committed s') ∧
    cbus (tx s') = MsgConnection (connection_status slave None) :: (MsgMatch <$> statuses) ∧
    (∀ id mongod, mongods (committed s') !! id = Some mongod → Mongod_ParentSlaveID mongod = Slave_ID slave →
       ∃ status, status ∈ statuses ∧ Match_Mongod status = mongod) ∧
    ∀ status, status ∈ statuses → Match_Mismatch status = false ∧ ∀ s, dispatch (MsgMatch status) s = (s, Returned tt).
Proof.
  intros Hrel Hm Hs Hno Hp. destruct (master_reachable_ok m Hm) as [Hd _]. pose proof (reachable_desires m Hm) as Hv.
  pose proof Hd as [Hc _].
  destruct (answer_handled ENG ORM STORE ASSOC m slave l n Hrel Hm Hs (pushed_identified _ _ _ Hp) (pushed_once _ _ _ Hp))
    as (s' & idx & statuses & Hrun & [[Hc' _] _ Hby Hreports Hstatus Hbus]).
  unfold error_cleared in Hby. rewrite Hno in Hby. destruct Hstatus as (_ & Hall & Hmatch).
  exists s', statuses. split; [exact Hrun|]. split; [by eapply pushed_same_decisions; [apply Hc'|..]|]. split; [done|]. split.
  { intros id mongod Hin Hpar. apply Hall. by rewrite (ok_mongod_key _ (cons_ok _ Hc') _ _ Hin). }
  intros status Hst. destruct (proj1 (Hall (Match_Mongod status)) ltac:(by exists status)) as [Hin Hpar].
  assert (Match_Mismatch status = false) as Hfalse; [|split; [done|intros s; by apply dispatch_silent]].
  apply (Hmatch status Hst). eapply (pushed_as_desired (stored m)); [apply Hc|apply Hc'|apply Hc'|done..].
Qed.

(** C8: A slave that does what it was told is left alone. Take any state the master can
    reach, and a slave without observation error all of whose mongods are members of
    replica sets (one of no replica set is never a match); let the slave report of each of
    its mongods what the deployer pushes for it, members in whatever order and no error,
    and of no other mongod, each once and with a port other than 0 and a name; let the
    database execute every statement. Then the monitor reports a match for each mongod,
    commits no decision, and the deployer answers every one of these reports by doing
    nothing. *)
Theorem obedient_slave_left_alone (ENG : Engine) (ORM : Gorm) (STORE : GormStore) (ASSOC : GormAssociations) (CLIENT : MSPClient)
    m slave l n :
  reliable_monitor ENG ORM STORE ASSOC → master_reachable m → slaves (stored m) !! Slave_ID slave = Some slave →
  Slave_ObservationErrorID slave = None → as_pushed (stored m) slave l →
  ∃ s' statuses, handleObservation l None slave (open_session (stored m) n) = (s', Returned tt) ∧
    same_decisions (stored m) (committed s') ∧
    cbus (tx s') = MsgConnection (connection_status slave None) :: (MsgMatch <$> statuses) ∧
    (∀ id mongod, mongods (committed s') !! id = Some mongod → Mongod_ParentSlaveID mongod = Slave_ID slave →
       ∃ status, status ∈ statuses ∧ Match_Mongod status = mongod) ∧
    ∀ status, status ∈ statuses → Match_Mismatch status = false ∧ ∀ s, dispatch (MsgMatch status) s = (s, Returned tt).
Proof. apply left_alone. Qed.

(** ** A cluster in which all is done *)

(** The first slave of the example, which now does what it was told. *)
Definition told_mongod : Mongod := mkMongod 2 18080 "rs1" None None 1 (Some 1) 2 None.
Definition told_message : msp.Mongod :=
  match (@mspMongodStateRepresentation ref_engine ref_gorm told_mongod (mkConn (stored asked_master) 0 [])).2 with
  | Returned (_, msg, _) => msg
  | _ => msp.zero_Mongod
  end.

(** It reports the members in its own order, and no keyfile. *)
Definition obedient_report : msp.Mongod :=
  msp.mkMongod 18080 EmptyString
    (msp.mkReplicaSetConfig "rs1" (reverse (wanted_members (stored asked_master) 1)) msp.ShardingRoleNone msp.zero_Credential)
    None None msp.MongodStateRunning.

Lemma told_mongods id mongod : mongods (stored asked_master) !! id = Some mongod → Mongod_ParentSlaveID mongod = 1 →
  mongod = told_mongod.
Proof.
  revert id mongod. change (map_Forall (λ _ mongod, Mongod_ParentSlaveID mongod = 1 → mongod = told_mongod) (mongods (stored asked_master))).
  apply (bool_decide_unpack _). by vm_compute.
Qed.

Lemma told_represents : represents (stored asked_master) told_mongod (mkMongodState 2 2 "none" MongodExecutionStateRunning) told_message.
Proof.
  split; [by vm_compute..| | |by vm_compute].
  - eexists 1, _. split; by vm_compute.
  - intros _. eexists 1, _. split; by vm_compute.
Qed.

Lemma obedient_as_pushed : as_pushed (stored asked_master) asked_slave [obedient_report].
Proof.
  split.
  - intros id mongod Hm Hpar. rewrite (told_mongods id mongod Hm Hpar). split; [by eexists|].
    exists (mkMongodState 2 2 "none" MongodExecutionStateRunning), told_message, obedient_report.
    split; [by vm_compute|]. split; [apply told_represents|]. split; [left|].
    split; [by vm_compute..| |done]. rewrite (rep_members _ _ _ _ told_represents). apply reverse_Permutation.
  - intros o [->|[]%not_elem_of_nil]%elem_of_cons. exists 2, told_mongod. split; by vm_compute.
  - apply Forall_singleton. split; by vm_compute.
  - apply NoDup_singleton.
Qed.

Lemma obedient_slave_left_alone_witness : ∃ s' statuses,
  @handleObservation ref_engine ref_gorm ref_store ref_associations [obedient_report] None asked_slave (open_session (stored asked_master) 0) =
    (s', Returned tt) ∧
  cbus (tx s') = MsgConnection (connection_status asked_slave None) :: (MsgMatch <$> statuses) ∧
  ∀ status, status ∈ statuses → Match_Mismatch status = false ∧
    ∀ s, @dispatch ref_engine ref_gorm accepting_client (MsgMatch status) s = (s, Returned tt).
Proof.
  destruct (obedient_slave_left_alone ref_engine ref_gorm ref_store ref_associations accepting_client asked_master asked_slave [obedient_report] 0)
    as (s' & statuses & Hrun & _ & Hbus & _ & Hall).
  - apply ref_reliable_monitor.
  - apply asked_reachable.
  - vm_compute. reflexivity.
  - reflexivity.
  - apply obedient_as_pushed.
  - exists s', statuses. split; [exact Hrun|]. split; [exact Hbus|exact Hall].
Defined.

(** One status, and no call. *)
Example obedient_round :
  let s := (@handleObservation ref_engine ref_gorm ref_store ref_associations [obedient_report] None asked_slave (open_session (stored asked_master) 0)).1 in
  (λ msg, length (calls (@dispatch ref_engine ref_gorm accepting_client msg (open_session (committed s) 0)).1)) <$> cbus (tx s) = [0; 0]%nat.
Proof. vm_compute. reflexivity. Qed.

(** ** What never matches *)

(** A report without members, as a slave gives of a mongod that is stopped or gone, is a
    match only for a replica set that wants no members at all; and a mongod of no replica
    set never matches.  So the monitor reports a mismatch, and the deployer pushes, as
    long as such a mongod has a row, also when it has been destroyed as it should. *)
Theorem memberless_report_mismatch d m observed :
  msp.ReplicaSetMembers (msp.Mongod_ReplicaSetConfig observed) = [] → as_desired d m observed →
  ∃ rid, Mongod_ReplicaSetID m = Some rid ∧ wanted_members d rid = [].
Proof.
  intros Hnone (st & seen & rid & _ & _ & _ & _ & Hrid & Heq). exists rid. split; [done|]. rewrite Hnone in Heq.
  unfold MSPReplicaSetMembersDeepEqualsIgnoringOrder in Heq. destruct (decide (_ ≠ _)) as [|Hlen]; [done|].
  apply length_zero_iff_nil, dec_stable. exact Hlen.
Qed.

(** The example's mongod, destroyed as desired and not reported, while the other member
    stays. *)
Definition destroyed_db : db :=
  set_mongod_states (<[2 := mkMongodState 2 2 "none" MongodExecutionStateDestroyed]>
    (<[3 := mkMongodState 3 2 "none" MongodExecutionStateDestroyed]> (mongod_states (stored asked_master))))
  (set_mongods (<[2 := Mongod_set_ObservedStateID (Some 3) told_mongod]> (mongods (stored asked_master))) (stored asked_master)).

Lemma memberless_report_mismatch_witness : ¬ as_desired destroyed_db (Mongod_set_ObservedStateID (Some 3) told_mongod) msp.zero_Mongod.
Proof.
  intros H. destruct (memberless_report_mismatch destroyed_db _ msp.zero_Mongod eq_refl H) as (rid & Hrid & Hnone).
  injection Hrid as <-. apply (f_equal length) in Hnone. by vm_compute in Hnone.
Defined.
