(* ===== verification/EndToEnd.v ===== *)
(** * From a desired state to its report

    The way of a pushed message through a slave and back: the controller hands it to the
    configurator, which reconfigures the replica set through its primary, and the next
    status request reads the configuration back.  What the mongod behind the connection
    does is an interface, [MongodDocs]: the replies MongoDB documents for a member of a
    replica set. *)

From Stdlib Require Import Ascii.
From stdpp Require Import base gmap sets list strings fin_maps relations.
From Stdlib Require Import Lia.
From S2P Require Import Prelude Msp Model Database Orm Strconv Rpc ProcessManager.
From S2P Require Import Store Members Projections Deployer ApiServer ApiInvariant ApiRules Coherence DesiredStates Session System ControlLoop Convergence.
From S2P Require Import Configurator MemberLists ConfiguratorProperties Controller.

Open Scope Z_scope.
Set Warnings "-clear-no-such-hyp".

(** ** What MongoDB documents *)

(** A mongod that is a member of a replica set, as primary or secondary: the name of the
    set, its configuration and the [clusterRole] of the command line. *)
Record member_status := mkMemberStatus {
  ms_primary : bool;
  ms_name : string;
  ms_config : gmap string bson;
  ms_role : string
}.

Definition is_cluster_role (parsed : gmap string bson) (role : string) : Prop :=
  match parsed !! "sharding"%string with
  | None => role = EmptyString
  | Some (BDoc options) => options !! "clusterRole"%string = Some (BString role)
  | Some _ => False
  end.

(** The configuration [got] a mongod reports after it has accepted [sent]: the members in
    their order, each with the fields it was given and possibly others, and the flag of
    a config server, which may be left out when it is false. *)
Record installs (sent got : gmap string bson) : Prop := {
  installs_members ms : sent !! "members"%string = Some (BArray (BDoc <$> ms)) →
    ∃ ms', got !! "members"%string = Some (BArray (BDoc <$> ms')) ∧ Forall2 (⊆) ms ms';
  installs_configsvr : got !! "configsvr"%string = sent !! "configsvr"%string ∨
    sent !! "configsvr"%string = Some (BBool false) ∧ got !! "configsvr"%string = None
}.

(** A command succeeds with a reply [P] describes, and [inv] still holds. *)
Definition answers {W} `{MONGO : Mongo W} (inv : W → Prop) (port : Z) (cmd : mongo_command) (P : gmap string bson → Prop) (w : W) : Prop :=
  ∃ w' r, mongo_run port cmd w = (w', (r, None)) ∧ inv w' ∧ P r.

Class MongodDocs (W : Type) `{MONGO : Mongo W} := {
  member : Z → member_status → W → Prop;
  member_dial port st w : member port st w → mongo_dial port w = None;
  member_create_user port st w user pwd roles : member port st w →
    member port st (mongo_run port (CmdCreateUser user pwd roles) w).1;
  member_is_master port st w : member port st w → answers (member port st) port CmdIsMaster
    (λ r, is_Some (r !! "setName"%string) ∧ r !! "ismaster"%string = Some (BBool (ms_primary st))) w;
  member_get_status port st w : member port st w → answers (member port st) port CmdReplSetGetStatus
    (λ r, r !! "set"%string = Some (BString (ms_name st)) ∧
          r !! "myState"%string = Some (BInt (if ms_primary st then replSetPrimary else replSetSecondary))) w;
  member_get_config port st w : member port st w → answers (member port st) port CmdReplSetGetConfig
    (λ r, r !! "config"%string = Some (BDoc (ms_config st))) w;
  member_cmdline port st w : member port st w → answers (member port st) port CmdGetCmdLineOpts
    (λ r, ∃ parsed, r !! "parsed"%string = Some (BDoc parsed) ∧ is_cluster_role parsed (ms_role st)) w;
  (** A reconfiguration is refused, or it installs the document, possibly completed with
      defaults; a new election may follow. *)
  member_reconfig port st w config : member port st w →
    let '(w', (_, err)) := mongo_run port (CmdReplSetReconfig config) w in
    match err with
    | Some _ => member port st w'
    | None => ∃ primary installed, installs config installed ∧
        member port (mkMemberStatus primary (ms_name st) installed (ms_role st)) w'
    end
}.

(** The [clusterRole] a mongod has that was started for a sharding role. *)
Definition cmdline_role (role : string) : string :=
  if decide (role = msp.ShardingRoleShardServer) then "shardsvr"
  else if decide (role = msp.ShardingRoleConfigServer) then "configsvr" else EmptyString.

(** The mongod was started for the message, and serves its replica set. *)
Record started_for (msg : msp.Mongod) (st : member_status) : Prop := {
  started_name : ms_name st = msp.ReplicaSetName (msp.Mongod_ReplicaSetConfig msg);
  started_role : ms_role st = cmdline_role (msp.Config_ShardingRole (msp.Mongod_ReplicaSetConfig msg))
}.

(** A message that can be carried out and read back. *)
Record plain_message (msg : msp.Mongod) : Prop := {
  plain_running : msp.State msg = msp.MongodStateRunning;
  plain_role : msp.Config_ShardingRole (msp.Mongod_ReplicaSetConfig msg) ∈ sharding_roles;
  plain_members : Forall plain_member (msp.ReplicaSetMembers (msp.Mongod_ReplicaSetConfig msg));
  plain_hosts : NoDup ((λ m, host_of m) <$> msp.ReplicaSetMembers (msp.Mongod_ReplicaSetConfig msg))
}.

(** The configuration is the one [updateConfig] makes for the message, as it is installed. *)
Definition configured_for (msg : msp.Mongod) (config : gmap string bson) : Prop :=
  ∃ old ds sent, reported_config old ds ∧ updateConfig old msg tt = (tt, Returned (MOk sent)) ∧ installs sent config.

Lemma member_document_weaken m d d' : member_document m d → d ⊆ d' → member_document m d'.
Proof. intros (Hh & Hp & Hv) Hsub. split_and!; by eapply lookup_weaken. Qed.

(** Taking a value of the right type apart. *)
Ltac parse_step := wp_step; cbn [as_int as_string as_double as_bool as_array as_doc]; wp_step.

Section slave.
Context {W : Type} `{MONGO : Mongo W} `{DOCS : !MongodDocs W} (timeout : Z).
Implicit Types (s : session W) (ctx : mgoContext) (msg : msp.Mongod) (st : member_status).

Lemma wp_Run_answers inv ctx cmd (P : gmap string bson → Prop) Q E s :
  answers inv (ctx_Port ctx) cmd P (world s) → (∀ r s', inv (world s') → P r → Q (r, None) s') → wp (Run ctx cmd) Q E s.
Proof. intros (w' & r & Hrun & Hinv & HP) HQ. unfold wp, Run. rewrite Hrun. by apply HQ. Qed.

(** ** Reading the status *)

Lemma wp_cluster_role port login st (Q : mres string → session W → Prop) E s :
  member port st (world s) → (∀ s', member port st (world s') → Q (MOk (ms_role st)) s') →
  wp (ParseCmdLineShardingRole (mkMgoContext port login)) Q E s.
Proof.
  intros Hm HQ. unfold ParseCmdLineShardingRole. wp_step. eapply (wp_Run_answers _ (mkMgoContext port login)); [by apply member_cmdline|].
  intros r s' Hm' (parsed & -> & Hrole). parse_step. unfold is_cluster_role in Hrole.
  destruct (parsed !! "sharding"%string) as [v|]; [|rewrite <- Hrole; wp_step; by apply HQ].
  destruct v as [| | | | |options]; try done. parse_step. rewrite Hrole. parse_step. wp_step. by apply HQ.
Qed.

(** The role, as [fetchConfiguration] puts it together. *)
Lemma configured_role msg config :
  configured_for msg config → NoDup ((λ m, host_of m) <$> msp.ReplicaSetMembers (msp.Mongod_ReplicaSetConfig msg)) →
  Forall plain_member (msp.ReplicaSetMembers (msp.Mongod_ReplicaSetConfig msg)) →
  (let is_configsvr := bool_decide (msp.Config_ShardingRole (msp.Mongod_ReplicaSetConfig msg) = msp.ShardingRoleConfigServer) in
   config !! "configsvr"%string = Some (BBool is_configsvr) ∨ is_configsvr = false ∧ config !! "configsvr"%string = None) ∧
  ∃ values, config !! "members"%string = Some (BArray values) ∧
    ∀ s, parse_members values s = (s, Returned (msp.ReplicaSetMembers (msp.Mongod_ReplicaSetConfig msg))).
Proof.
  intros (old & ds & sent & Hrep & Hrun & [Hmembers Hsvr]) Hhosts Hplain.
  destruct (updateConfig_spec old ds msg tt Hrep Hhosts) as (res & Hrun' & Hres).
  rewrite Hrun in Hrun'. simplify_eq. destruct Hres as (ms & Hconf & Hup & _).
  destruct (Hmembers ms) as (ms' & Hms' & Hsub); [apply Hconf|]. split.
  - cbn zeta. rewrite (updated_configsvr _ _ _ _ Hconf) in Hsvr. destruct Hsvr as [->|[[= ->] ->]]; [by left|by right].
  - exists (BDoc <$> ms'). split; [done|]. intros s. apply parse_member_documents; [done|].
    apply members_updated_documents in Hup. apply Forall2_same_length_lookup. split.
    { transitivity (length ms); [by eapply Forall2_length|by eapply Forall2_length]. }
    intros i m d' Hm Hd'. destruct (Forall2_lookup_l _ _ _ _ _ Hup Hm) as (d & Hd & Hdoc).
    eapply member_document_weaken; [exact Hdoc|]. by eapply Forall2_lookup_lr.
Qed.

Lemma running_state (primary : bool) mongod :
  (if decide ((if primary then replSetPrimary else replSetSecondary) = replSetRecovering) then set_state mongod msp.MongodStateRecovering
   else if decide ((if primary then replSetPrimary else replSetSecondary) = replSetPrimary) then set_state mongod msp.MongodStateRunning
   else if decide ((if primary then replSetPrimary else replSetSecondary) = replSetSecondary) then set_state mongod msp.MongodStateRunning
   else if decide ((if primary then replSetPrimary else replSetSecondary) = replSetRemoved) then set_state mongod msp.MongodStateRemoved
   else mongod) = set_state mongod msp.MongodStateRunning.
Proof. by destruct primary. Qed.

Lemma wp_configsvr (config : gmap string bson) (b : bool) (Q : bool → session W → Prop) E s :
  config !! "configsvr"%string = Some (BBool b) ∨ b = false ∧ config !! "configsvr"%string = None → Q b s →
  wp (match config !! "configsvr"%string with Some v => as_bool (Some v) | None => mret false end) Q E s.
Proof. intros [->|[-> ->]] HQ; by apply wp_ret. Qed.

Lemma fetch_obeys msg st login s :
  plain_message msg → member (msp.Mongod_Port msg) st (world s) → started_for msg st → configured_for msg (ms_config st) →
  wp (fetchConfiguration (mkMgoContext (msp.Mongod_Port msg) login))
    (λ r s', r.2 = None ∧ obeys msg r.1 ∧ member (msp.Mongod_Port msg) st (world s')) (λ _ _, False) s.
Proof.
  intros [Hrun Hrole Hplain Hhosts] Hm [Hname Hcmd] Hconf. destruct (configured_role _ _ Hconf Hhosts Hplain) as (Hsvr & values & Hvalues & Hparse).
  unfold fetchConfiguration. cbn zeta. wp_step. unfold IsMaster at 1. wp_step.
  eapply (wp_Run_answers _ (mkMgoContext (msp.Mongod_Port msg) login)); [by apply member_is_master|]. intros r1 s1 Hm1 [[v Hset] _].
  wp_step. rewrite Hset. wp_step. unfold ReplSetGetStatus at 1. wp_step.
  eapply (wp_Run_answers _ (mkMgoContext (msp.Mongod_Port msg) login)); [by apply member_get_status|]. intros r2 s2 Hm2 [Hname2 Hstate].
  cbn zeta. rewrite Hstate. parse_step. wp_step.
  rewrite running_state, decide_False by done. wp_step. unfold ReplSetGetConfig at 1. wp_step.
  eapply (wp_Run_answers _ (mkMgoContext (msp.Mongod_Port msg) login)); [by apply member_get_config|]. intros r3 s3 Hm3 Hconfig.
  rewrite Hconfig. parse_step. wp_step. rewrite Hname2. parse_step. rewrite Hvalues. wp_step. parse_step. unfold wp at 1. rewrite Hparse.
  wp_step. apply (wp_configsvr _ _ _ _ _ Hsvr). wp_step. simpl in Hm3.
  assert (∀ s', member (msp.Mongod_Port msg) st (world s') →
    wp (mret (M := GoM (session W)) (MOk (msp.Config_ShardingRole (msp.Mongod_ReplicaSetConfig msg))) ≫= λ role, match role with
        | MOk shardingRole => mret (set_config (set_state (msp.mkMongod (msp.Mongod_Port msg) EmptyString msp.zero_ReplicaSetConfig None None EmptyString)
            msp.MongodStateRunning) (msp.mkReplicaSetConfig (ms_name st) (msp.ReplicaSetMembers (msp.Mongod_ReplicaSetConfig msg)) shardingRole msp.zero_Credential), None)
        | MErr err => mret (msp.zero_Mongod, Some err)
        end) (λ r s'', r.2 = None ∧ obeys msg r.1 ∧ member (msp.Mongod_Port msg) st (world s'')) (λ _ _, False) s') as Hend.
  { intros s' Hm'. wp_steps. split_and!; [done| |done]. by split. }
  unfold cmdline_role in Hcmd. case_bool_decide as Hcfg.
  - wp_steps. specialize (Hend _ Hm3). rewrite Hcfg in Hend. exact Hend.
  - wp_step. apply (wp_cluster_role _ _ st); [done|]. intros s4 Hm4. rewrite Hcmd. specialize (Hend _ Hm4).
    unfold sharding_roles in Hrole. rewrite !elem_of_cons in Hrole.
    destruct Hrole as [E|[E|[E|[]%not_elem_of_nil]]]; rewrite E in *; [..|done]; exact Hend.
Qed.
(** ** Applying a message *)

(** A login that failed is answered by creating the user. *)
Lemma wp_ensure_user ctx st user pwd purpose roles (Q : option msp.Error → session W → Prop) E s :
  member (ctx_Port ctx) st (world s) → (∀ r s', member (ctx_Port ctx) st (world s') → Q r s') →
  wp (if LoginSuccessful ctx then mret None else CreateUser ctx user pwd purpose roles) Q E s.
Proof.
  intros Hm HQ. destruct (LoginSuccessful ctx); [by apply wp_ret, HQ|]. unfold CreateUser. wp_step. unfold wp at 1, Run.
  pose proof (member_create_user _ _ _ user pwd roles Hm) as Hm'. destruct (mongo_run _ _ _) as [w' [r [e|]]]; wp_step; by apply HQ.
Qed.

Lemma apply_member msg st ds s :
  plain_message msg → member (msp.Mongod_Port msg) st (world s) → ms_primary st = true → reported_config (ms_config st) ds →
  (length ds + length (msp.ReplicaSetMembers (msp.Mongod_ReplicaSetConfig msg)) ≤ 256)%nat →
  wp (ApplyMongodConfiguration timeout msg) (λ r s', r = None ∧ ∃ config reply,
    updateConfig (ms_config st) msg tt = (tt, Returned (MOk config)) ∧
    last (issued s') = Some (mkEvent (msp.Mongod_Port msg) (CmdReplSetReconfig config) reply) ∧
    match reply.2 with
    | Some _ => member (msp.Mongod_Port msg) st (world s')
    | None => ∃ primary installed, installs config installed ∧
        member (msp.Mongod_Port msg) (mkMemberStatus primary (ms_name st) installed (ms_role st)) (world s')
    end) (λ _ _, False) s.
Proof.
  intros [Hrun Hrole Hplain Hhosts] Hm Hprim Hrep Hsize. unfold ApplyMongodConfiguration, connect. cbn zeta. wp_steps.
  rewrite (member_dial _ _ _ Hm). wp_step. set (ctx := mkMgoContext _ _). change (ctx_Port ctx) with (msp.Mongod_Port msg) in *.
  wp_step. apply (wp_ensure_user _ st); [done|]. intros _ s1 Hm1. wp_step. unfold IsMaster at 1. wp_step.
  eapply (wp_Run_answers _ ctx); [by apply member_is_master|]. intros r1 s2 Hm2 [_ Hmaster]. wp_step.
  rewrite Hmaster, Hprim, Hrun, (decide_False (P := msp.MongodStateRunning = msp.MongodStateDestroyed)),
    (decide_False (P := msp.MongodStateRunning = msp.MongodStateNotRunning)), decide_True by done.
  wp_step. unfold ReplSetGetConfig at 1. wp_step. eapply (wp_Run_answers _ ctx); [by apply member_get_config|]. intros r2 s3 Hm3 Hconfig.
  rewrite Hconfig. parse_step. wp_step. wp_step.
  destruct (updateConfig_spec (ms_config st) ds msg s3 Hrep Hhosts) as (res & Hup & Hres). unfold wp at 1. rewrite Hup.
  destruct res as [config|e]; [|destruct Hres as [_ ?]; lia].
  wp_step. unfold ReplSetReconfig. wp_step. unfold wp at 1, Run. change (ctx_Port ctx) with (msp.Mongod_Port msg).
  pose proof (member_reconfig _ _ _ config Hm3) as Hnew. destruct (mongo_run _ _ _) as [w' [r err]] eqn:Hreply.
  destruct (updateConfig_stateless (T := unit) (ms_config st) msg s3 tt) as (x & Hup1 & Hup2 & _). rewrite Hup in Hup1. injection Hup1 as <-.
  destruct err as [err|]; wp_steps; (split; [done|]); eexists config, _; (split; [done|]); (split; [apply last_snoc|exact Hnew]).
Qed.
End slave.

(** ** Through the controller *)

(** The request leaves the processes alone, and its message is what a later report obeys. *)
Lemma establish_member {W} `{MONGO : Mongo W} `{DOCS : !MongodDocs W} (O : OS) timeout meanwhile msg st ds (c : Controller (session W)) :
  msp.Mongod_Port msg ∈ runningProcesses (procManager c) → plain_message msg →
  member (msp.Mongod_Port msg) st (world (configurator c)) → ms_primary st = true → started_for msg st → reported_config (ms_config st) ds →
  (length ds + length (msp.ReplicaSetMembers (msp.Mongod_ReplicaSetConfig msg)) ≤ 256)%nat →
  ∃ c' config reply, @Controller.EstablishMongodState _ (ConcreteMongodConfigurator timeout) O meanwhile msg c = (c', Returned None) ∧
    procManager c' = procManager c ∧
    last (issued (configurator c')) = Some (mkEvent (msp.Mongod_Port msg) (CmdReplSetReconfig config) reply) ∧
    (reply.2 = None → ∀ p, runningProcesses p = runningProcesses (procManager c) → ∃ c'' o,
       @report _ (ConcreteMongodConfigurator timeout) (msp.Mongod_Port msg, msp.ReplicaSetName (msp.Mongod_ReplicaSetConfig msg))
         (set_procManager p c') = (c'', Returned o) ∧ obeys msg o).
Proof.
  intros Hproc Hplain Hm Hprim Hstart Hrep Hsize. pose proof (plain_running _ Hplain) as Hrun.
  pose proof (apply_member timeout msg st ds (configurator c) Hplain Hm Hprim Hrep Hsize) as Happ.
  apply wp_returns in Happ as (r & s' & Hcall & -> & config & reply & Hup & Hlast & Hafter).
  exists (mkController (procManager c) s' (<[msp.Mongod_Port msg := msp.RootCredential (msp.Mongod_ReplicaSetConfig msg)]> (mongodCredentials c))), config, reply.
  split; [|split; [done|split; [exact Hlast|]]].
  - unfold Controller.EstablishMongodState. rewrite decide_True by done. unfold mbind, gom_bind, modify_state, has_process, HasProcess. cbn.
    rewrite bool_decide_true by done. unfold mret, gom_ret, in_configurator, in_part. cbn. by rewrite Hcall.
  - intros Hok p Hp. rewrite Hok in Hafter. destruct Hafter as (primary & installed & Hinst & Hm').
    assert (configured_for msg (ms_config (mkMemberStatus primary (ms_name st) installed (ms_role st)))) as Hconf
      by by exists (ms_config st), ds, config.
    pose proof (fetch_obeys msg (mkMemberStatus primary (ms_name st) installed (ms_role st))
      (mongo_login (msp.Mongod_Port msg) (msp.RootCredential (msp.Mongod_ReplicaSetConfig msg)) (world s')) s' Hplain Hm') as Hfetch.
    destruct Hstart as [Hname Hrole]. apply wp_returns in Hfetch as ([o err] & s2 & Hfetch & Herr & Hobeys & _); [|by split|done].
    simpl in Herr, Hobeys. subst err. eexists _, o. split; [|exact Hobeys].
    unfold report, mbind, gom_bind, has_process, HasProcess. cbn. rewrite bool_decide_true by by rewrite Hp. unfold get_state.
    cbn. rewrite lookup_insert_eq. unfold in_configurator, in_part. cbn. unfold MongodConfiguration, connect, mbind, gom_bind, get_state.
    rewrite (member_dial _ _ _ Hm'). unfold mret, gom_ret. by rewrite Hfetch.
Qed.

(** ** What the master pushes can be read back *)

Lemma running_text s : MspMongodStateToModelExecutionState s = MongodExecutionStateRunning → s = msp.MongodStateRunning.
Proof. unfold MspMongodStateToModelExecutionState. by repeat case_decide. Qed.

Lemma split_host h : free_of ":" (msp.Hostname h) → 0 ≤ msp.Port h →
  Split ":" (hostPortString h) = [msp.Hostname h; fmt_d (msp.Port h)].
Proof. intros Hfree Hp. apply (Split_app ":"); [done|]. by apply digits_free_of_colon, fmt_d_digits. Qed.

Lemma host_string_inj h1 h2 : free_of ":" (msp.Hostname h1) → free_of ":" (msp.Hostname h2) →
  0 ≤ msp.Port h1 → 0 ≤ msp.Port h2 → hostPortString h1 = hostPortString h2 → msp.Hostname h1 = msp.Hostname h2 ∧ msp.Port h1 = msp.Port h2.
Proof.
  intros H1 H2 P1 P2 Heq. apply (f_equal (Split ":")) in Heq. rewrite !split_host in Heq by done.
  injection Heq as Hname Hport. split; [done|]. apply (f_equal (parse_digits 0)) in Hport. rewrite !parse_pretty in Hport by done. congruence.
Qed.

(** No host name can be mistaken for the text [host:port]. *)
Definition plain_hostnames (d : db) : Prop := ∀ id s, slaves d !! id = Some s → free_of ":" (Slave_Hostname s).

Section pushed_message.
Context (d : db) (Hd : sound d) (Hnames : plain_hostnames d).

(** The slave and the port of a member. *)
Lemma member_place rid m : m ∈ desired_rows d rid → ∃ s, mongods d !! Mongod_ID m = Some m ∧ is_member m ∧
  slaves d !! Mongod_ParentSlaveID m = Some s ∧ slave_of d m = s ∧ 0 ≤ Mongod_Port m < 65536.
Proof.
  pose proof Hd as [Hc _]. intros (id & Hm & Hdes)%elem_of_desired_rows. rewrite (ok_mongod_key _ (cons_ok _ Hc) _ _ Hm).
  destruct (ok_parent _ (cons_ok _ Hc) _ _ Hm) as [s Hs]. unfold desired_member, member_join in Hdes.
  destruct (Mongod_ReplicaSetID m) as [r|] eqn:Hr; [|done]. assert (is_member m) as Hmem by (unfold is_member; rewrite Hr; by eexists).
  exists s. split_and!; [done..|unfold slave_of; by rewrite Hs| |].
  - destruct (cons_fit _ Hc id m s Hm Hmem Hs). destruct (cons_slaves _ Hc _ _ Hs). unfold PortNumberMin in *. lia.
  - destruct (cons_fit _ Hc id m s Hm Hmem Hs). destruct (cons_slaves _ Hc _ _ Hs). unfold PortNumberMax in *. lia.
Qed.

Lemma wanted_plain rid : Forall plain_member (wanted_members d rid).
Proof.
  apply Forall_lookup. intros i v Hv. unfold wanted_members in Hv. rewrite list_lookup_imap, list_lookup_fmap in Hv.
  destruct (desired_rows d rid !! i) as [m|] eqn:Hi; [|done]. injection Hv as <-.
  destruct (member_place rid m) as (s & _ & _ & Hs & Heq & Hp); [by eapply list_elem_of_lookup_2|].
  split; simpl; [rewrite Heq; by eapply Hnames|lia].
Qed.

Lemma desired_rows_NoDup rid : NoDup (desired_rows d rid).
Proof.
  pose proof Hd as [Hc _]. unfold desired_rows. rewrite order_by_perm. apply NoDup_fmap_2_strong; [|apply NoDup_map_to_list].
  intros [i x] [j y] [Hx _]%elem_of_map_to_list%map_lookup_filter_Some [Hy _]%elem_of_map_to_list%map_lookup_filter_Some Heq.
  simpl in Heq. subst. f_equal. by rewrite <- (ok_mongod_key _ (cons_ok _ Hc) _ _ Hx), (ok_mongod_key _ (cons_ok _ Hc) _ _ Hy).
Qed.

Lemma wanted_hosts rid : NoDup ((λ m, host_of m) <$> wanted_members d rid).
Proof.
  pose proof Hd as [Hc _]. apply NoDup_alt. intros i j h Hi Hj. unfold wanted_members in Hi, Hj.
  rewrite list_lookup_fmap, list_lookup_imap, list_lookup_fmap in Hi, Hj.
  destruct (desired_rows d rid !! i) as [x|] eqn:Hx, (desired_rows d rid !! j) as [y|] eqn:Hy; try done. injection Hi as <-. injection Hj as Hj.
  destruct (member_place rid x) as (sx & Hmx & Hmemx & Hsx & Ex & Hpx); [by eapply list_elem_of_lookup_2|].
  destruct (member_place rid y) as (sy & Hmy & Hmemy & Hsy & Ey & Hpy); [by eapply list_elem_of_lookup_2|].
  apply host_string_inj in Hj as [Hname Hport]; simpl in *; rewrite ?Ex, ?Ey in *; [|by eapply Hnames|by eapply Hnames|lia|lia].
  assert (Mongod_ParentSlaveID x = Mongod_ParentSlaveID y) as Hpar.
  { apply (cons_hostnames _ Hc _ _ sx sy (Slave_Hostname sx)); [done..|]. simpl. by rewrite Hname. }
  assert (Mongod_ID x = Mongod_ID y) as Hid by (by apply (cons_slots _ Hc (Mongod_ID x) (Mongod_ID y) x y)).
  rewrite Hid in Hmx. assert (x = y) as -> by congruence. by apply (NoDup_lookup _ _ _ y (desired_rows_NoDup rid)).
Qed.

Lemma represented_plain id m st msg : desires_valid d → mongods d !! id = Some m → mongod_states d !! Mongod_DesiredStateID m = Some st →
  MongodState_ExecutionState st = MongodExecutionStateRunning → represents d m st msg → plain_message msg.
Proof.
  intros Hv Hm Hst Hrun Hrep. split.
  - apply running_text. by rewrite (rep_state _ _ _ _ Hrep).
  - rewrite (rep_role _ _ _ _ Hrep). by apply (valid_state_role _ (Hv id m st Hm Hst)).
  - rewrite (rep_members _ _ _ _ Hrep). unfold members_for. destruct (Mongod_ReplicaSetID m); [apply wanted_plain|constructor].
  - rewrite (rep_members _ _ _ _ Hrep). unfold members_for. destruct (Mongod_ReplicaSetID m); [apply wanted_hosts|constructor].
Qed.
End pushed_message.

(** C11: What the master wants of a member comes back to it as wanted. Take any state the
    master can reach in which the keyfile is stored and no host name contains a colon, and
    a mongod that is to run; let the database execute every statement. Let the mongod be
    the primary of its replica set, started for its name and role, its process in the
    slave's table of processes, with a configuration of members with distinct ids and hosts
    which, together with the wanted members, are at most 256; let the connection be
    trusted, its URL well-formed and the message one that JSON can carry. Then the request the master sends
    succeeds, its last command is the reconfiguration, and if the mongod does not refuse
    it, the next status report obeys the message, members, role and state included, even
    if the mongod completes the configuration with defaults. *)
Theorem pushed_state_reported (ENG : Engine) (ORM : Gorm) (m : master) (n : conn) id mongod desired :
  reliable ENG ORM → master_reachable m → cdb n = stored m → mongod_keyfiles (stored m) ≠ ∅ → plain_hostnames (stored m) →
  mongods (stored m) !! id = Some mongod → mongod_states (stored m) !! Mongod_DesiredStateID mongod = Some desired →
  MongodState_ExecutionState desired = MongodExecutionStateRunning →
  ∃ n' slave msg, slaves (stored m) !! Mongod_ParentSlaveID mongod = Some slave ∧
    let target := msp.mkHostPort (Slave_Hostname slave) (Slave_Port slave) in
    mspMongodStateRepresentation mongod n = (n', Returned (target, msg, None)) ∧ represents (stored m) mongod desired msg ∧
    ∀ (W : Type) (MONGO : Mongo W) (DOCS : MongodDocs W) (O : OS) timeout meanwhile scheduled st ds (c : Controller (session W))
      (J : Json) (T : X509) (R : Mux) dials ReadFile addr caFile cert key srv client NewRequest,
      serves ReadFile (@controller_consumer _ (ConcreteMongodConfigurator timeout) O meanwhile scheduled) addr caFile cert key srv →
      trusted dials addr srv client target → (∀ p, NewRequest (constructBaseUrl target +:+ p) = Ok tt) → faithful_mongod msg →
      Mongod_Port mongod ∈ runningProcesses (procManager c) → member (Mongod_Port mongod) st (world (configurator c)) →
      ms_primary st = true → started_for msg st → reported_config (ms_config st) ds →
      (length ds + length (members_for (stored m) mongod) ≤ 256)%nat →
      ∃ c' config reply, client_EstablishMongodState (Rpc.exchange dials client srv) NewRequest target msg c = (c', Returned None) ∧
        last (issued (configurator c')) = Some (mkEvent (Mongod_Port mongod) (CmdReplSetReconfig config) reply) ∧
        (reply.2 = None → ∃ c'' o,
           @report _ (ConcreteMongodConfigurator timeout) (Mongod_Port mongod, Mongod_ReplSetName mongod) c' = (c'', Returned o) ∧ obeys msg o).
Proof.
  intros Hrel Hm Hn Hkey Hnames Hin Hst Hrun. destruct (master_reachable_ok m Hm) as [Hd _]. pose proof (reachable_desires m Hm) as Hv.
  destruct (pushed_representation ENG ORM (stored m) id mongod n Hrel Hd Hv Hkey Hin Hn) as (slave & st0 & n' & msg & Hslave & Hst0 & Hpush & Hrep).
  assert (st0 = desired) as -> by congruence. exists n', slave, msg. split; [exact Hslave|]. split; [exact Hpush|]. split; [exact Hrep|].
  intros W MONGO DOCS O timeout meanwhile scheduled st ds c J T R dials ReadFile addr caFile cert key srv client NewRequest
    Hserves Htrust Hnew Hfaith Hproc Hmember Hprim Hstart Hconf Hsize.
  rewrite <- (rep_port _ _ _ _ Hrep), <- (rep_name _ _ _ _ Hrep) in *. rewrite <- (rep_members _ _ _ _ Hrep) in Hsize.
  assert (plain_message msg) as Hplain by by eapply represented_plain.
  destruct (establish_member O timeout meanwhile msg st ds c) as (c' & config & reply & Hest & Hp & Hlast & Hreport); try done.
  exists c', config, reply. split; [|split; [exact Hlast|]].
  - eapply rpc_establish; eauto; [|apply error_none]. by rewrite (plain_running _ Hplain).
  - intros Hok. specialize (Hreport Hok (procManager c') (f_equal _ Hp)). by destruct c'.
Qed.

(** ** A mongod that keeps its word *)

(** The world is the status of the one mongod there is. *)
Definition reply_to (cmd : mongo_command) (st : member_status) : gmap string bson :=
  match cmd with
  | CmdIsMaster => {["setName"%string := BString (ms_name st); "ismaster"%string := BBool (ms_primary st)]}
  | CmdReplSetGetStatus => {["set"%string := BString (ms_name st);
      "myState"%string := BInt (if ms_primary st then replSetPrimary else replSetSecondary)]}
  | CmdReplSetGetConfig => {["config"%string := BDoc (ms_config st)]}
  | CmdGetCmdLineOpts => {["parsed"%string := BDoc {["sharding"%string := BDoc {["clusterRole"%string := BString (ms_role st)]}]}]}
  | _ => ∅
  end.

(** Every member document is completed with a default. *)
Definition fill_defaults (config : gmap string bson) : gmap string bson :=
  alter (λ v, match v with
              | BArray values => BArray ((λ v, match v with BDoc d => BDoc (d ∪ {["hidden"%string := BBool false]}) | _ => v end) <$> values)
              | _ => v
              end) "members"%string config.

Lemma fill_installs config : installs config (fill_defaults config).
Proof.
  unfold fill_defaults. split.
  - intros ms Hms. rewrite lookup_alter_eq, Hms. simpl. exists ((λ d, d ∪ {["hidden"%string := BBool false]}) <$> ms). split.
    + by rewrite <- !list_fmap_compose.
    + apply Forall2_fmap_r, Forall_Forall2_diag, Forall_true. intros d. apply map_union_subseteq_l.
  - left. by rewrite lookup_alter_ne.
Qed.

#[export] Instance word_mongod : Mongo member_status := {|
  mongo_dial _ _ := None;
  mongo_login _ _ _ := true;
  mongo_run _ cmd st :=
    (match cmd with CmdReplSetReconfig config => mkMemberStatus (ms_primary st) (ms_name st) (fill_defaults config) (ms_role st) | _ => st end,
     (reply_to cmd st, None));
  show_doc _ := EmptyString;
  show_error _ := EmptyString
|}.

#[export] Instance word_docs : MongodDocs member_status.
Proof.
  refine {| member _ st w := w = st |}; try done; intros port st w; try (intros ->; eexists st, _; split; [reflexivity|]; split; [done|]).
  - split; [by eexists|reflexivity].
  - split; reflexivity.
  - reflexivity.
  - by eexists.
  - intros config ->. simpl. exists (ms_primary st), (fill_defaults config). split; [apply fill_installs|done].
Defined.

(** The primary of the example's replica set, before the second member is added, and the
    slave it runs on. *)
Definition lone_member : gmap string bson :=
  {["_id"%string := BInt 0; "host"%string := BString "host1:18080"; "priority"%string := BDouble (float64_of_int 10); "votes"%string := BInt 1]}.
Definition lone_primary : member_status :=
  mkMemberStatus true "rs1" {["members"%string := BArray [BDoc lone_member]; "version"%string := BInt 1]} EmptyString.
Definition lone_slave : Controller (session member_status) :=
  mkController (mkProcessManager ["data"%string] {[["data"; "mongods"]%string; ["data"; "mongods"; "18080:rs1"]%string]} ∅ 0 {[18080]} [] [] [])
    (mkSession lone_primary []) ∅.
Definition told_conn : conn := mkConn (stored asked_master) 0 [].

Lemma pushed_state_reported_witness : 
  let srv := slave_server (@controller_consumer _ (ConcreteMongodConfigurator 10) working_os id id) in
  let Do := @Rpc.exchange wire_json ref_x509 ref_mux (Controller (session member_status)) example_dials example_client srv in
  ∃ n' target msg c' config reply,
  @mspMongodStateRepresentation ref_engine ref_gorm told_mongod told_conn = (n', Returned (target, msg, None)) ∧
  @client_EstablishMongodState wire_json _ Do (λ _, Ok tt) target msg lone_slave = (c', Returned None) ∧
  last (issued (configurator c')) = Some (mkEvent 18080 (CmdReplSetReconfig config) reply) ∧
  (reply.2 = None → ∃ c'' o, @report _ (ConcreteMongodConfigurator 10) (18080, "rs1"%string) c' = (c'', Returned o) ∧ obeys msg o).
Proof.
  intros srv Do. destruct (pushed_state_reported ref_engine ref_gorm asked_master told_conn 2 told_mongod (mkMongodState 2 2 "none" MongodExecutionStateRunning))
    as (n' & slave & msg & Hslave & Hpush & Hrep & Hall).
  - apply ref_reliable.
  - apply asked_reachable.
  - reflexivity.
  - intros Hempty%(f_equal size). by vm_compute in Hempty.
  - change (map_Forall (λ _ s, free_of ":" (Slave_Hostname s)) (slaves (stored asked_master))).
    apply map_Forall_to_list. vm_compute. repeat constructor; done.
  - vm_compute. reflexivity.
  - vm_compute. reflexivity.
  - reflexivity.
  - vm_compute in Hslave. injection Hslave as <-.
    destruct (Hall member_status word_mongod word_docs working_os 10 id id lone_primary [lone_member] lone_slave wire_json ref_x509 ref_mux
      example_dials example_ReadFile ":8081"%string "ca"%string "cert"%string "key"%string srv example_client (λ _, Ok tt)) as (c' & config & reply & H1 & H2 & H3).
    + apply slave_serves.
    + split; [split; simpl; repeat split; discriminate|]. split; [simpl; lia|]. by repeat split.
    + done.
    + done.
    + vm_compute. reflexivity.
    + reflexivity.
    + reflexivity.
    + split; [by rewrite (rep_name _ _ _ _ Hrep)|by rewrite (rep_role _ _ _ _ Hrep)].
    + split; [reflexivity| | |]; [repeat constructor; vm_compute; by eexists|apply NoDup_singleton..].
    + vm_compute. lia.
    + exists n', (msp.mkHostPort "host1" 8081), msg, c', config, reply. split; [exact Hpush|]. split; [exact H1|]. split; [exact H2|exact H3].
Defined.

(** What the slave then reports. *)
Example lone_primary_reports :
  let c := (@Controller.EstablishMongodState _ (ConcreteMongodConfigurator 10) working_os id told_message lone_slave).1 in
  match (@report _ (ConcreteMongodConfigurator 10) (18080, "rs1"%string) c).2 with
  | Returned o => ((λ v, hostPortString (msp.Member_HostPort v)) <$> msp.ReplicaSetMembers (msp.Mongod_ReplicaSetConfig o), msp.State o)
  | _ => ([], EmptyString)
  end = (["host2:18080"; "host1:18080"]%string, msp.MongodStateRunning).
Proof. vm_compute. reflexivity. Qed.
