(* ===== verification/LoopClosed.v ===== *)
(** * The control loop closes

    The two halves of the loop put together: the deployer's message for a mongod reaches
    the slave, the slave reconfigures the replica set, its next status reaches the
    master, and the monitor finds nothing to complain about.  Shown for a slave with one
    mongod that is the primary of its replica set. *)

From Stdlib Require Import Ascii.
From stdpp Require Import base gmap sets list strings fin_maps relations.
From Stdlib Require Import Lia.
From S2P Require Import Prelude Msp Model Database Orm Strconv Rpc ProcessManager.
From S2P Require Import Store Members Projections Deployer Monitor Observation Recording ApiServer ApiInvariant ApiRules Coherence DesiredStates Session System ControlLoop Convergence.
From S2P Require Import Configurator MemberLists ConfiguratorProperties Controller EndToEnd.

Open Scope Z_scope.
Set Warnings "-clear-no-such-hyp".

(** ** One mongod on a slave *)

Definition only_mongod (d : db) (slave : Slave) (id : Z) (mongod : Mongod) : Prop :=
  mongods d !! id = Some mongod ∧ Mongod_ParentSlaveID mongod = Slave_ID slave ∧
  ∀ id' mongod', mongods d !! id' = Some mongod' → Mongod_ParentSlaveID mongod' = Slave_ID slave → id' = id.

(** The directories of the slave are those of the one mongod; reading them takes the
    file system to [p1]. *)
Definition only_directory `{OS} (mongod : Mongod) (p p1 : ProcessManager) : Prop :=
  parseProcessDirTree p = (p1, Returned (Ok {[Mongod_Port mongod := Mongod_ReplSetName mongod]})).

Lemma parse_running `{OS} p p1 r : parseProcessDirTree p = (p1, r) → runningProcesses p1 = runningProcesses p.
Proof. unfold parseProcessDirTree. destruct (os_fault _); [by intros [= <- _]|]. by case_decide; intros [= <- _]. Qed.

(** The status of such a slave is the report of that mongod. *)
Lemma status_of_one {C} `{MC : MongodConfigurator C} `{OS} scheduled mongod (c c'' : Controller C) p1 o :
  (∀ l, scheduled l ≡ₚ l) → only_directory mongod (procManager c) p1 →
  report (Mongod_Port mongod, Mongod_ReplSetName mongod) (set_procManager p1 c) = (c'', Returned o) →
  RequestStatus scheduled c = (c'', Returned (Some [o], None)).
Proof.
  intros Hsched Hdir Hreport. unfold RequestStatus, in_procs, in_part, mbind, gom_bind. rewrite Hdir.
  rewrite map_to_list_singleton. assert (scheduled [(Mongod_Port mongod, Mongod_ReplSetName mongod)] = [(Mongod_Port mongod, Mongod_ReplSetName mongod)]) as ->
    by apply Permutation_singleton_r, Hsched.
  cbn [report_all]. unfold mbind, gom_bind. by rewrite Hreport.
Qed.

Lemma one_as_pushed d slave id mongod st msg o : only_mongod d slave id mongod → is_member mongod →
  mongod_states d !! Mongod_DesiredStateID mongod = Some st → represents d mongod st msg → obeys msg o →
  Mongod_Port mongod ≠ 0 → Mongod_ReplSetName mongod ≠ EmptyString → as_pushed d slave [o].
Proof.
  intros (Hin & Hpar & Honly) Hmem Hst Hrep Hobeys Hport Hname.
  assert (msp.Mongod_Port o = Mongod_Port mongod) as Ep by by rewrite (obeys_port _ _ Hobeys), (rep_port _ _ _ _ Hrep).
  assert (msp.ReplicaSetName (msp.Mongod_ReplicaSetConfig o) = Mongod_ReplSetName mongod) as En
    by by rewrite (obeys_name _ _ Hobeys), (rep_name _ _ _ _ Hrep).
  split.
  - intros id' mongod' Hin' Hpar'. assert (id' = id) as -> by by eapply Honly. assert (mongod' = mongod) as -> by congruence.
    split; [done|]. exists st, msg, o. split; [done|]. split; [done|]. split; [left|done].
  - intros o' ->%list_elem_of_singleton. exists id, mongod. split; [done|]. by split_and!.
  - apply Forall_singleton. split; congruence.
  - apply NoDup_singleton.
Qed.

(** C9: The control loop closes in one round. Take any state the master can reach in which
    the keyfile is stored and no host name contains a colon, and a member of a replica set
    that is to run, alone on a slave without observation error, with a name; let the
    database execute every statement. Let the slave have the directory of that mongod and
    no other one, its process in the table of processes, and the mongod be the primary of
    the replica set, started for its name and role, with a configuration of members with
    distinct ids and hosts which, together with the wanted members, are at most 256; let
    the connection be trusted, its URL well-formed and message and status such that JSON
    can carry them. Then the deployer's
    message succeeds, its last command is the reconfiguration, and if the mongod does not
    refuse it, the status the master is then sent is one report of that mongod, for which
    the monitor records no error, commits no decision and reports a match, and the
    deployer has nothing to do. *)
Theorem control_loop_closes (ENG : Engine) (ORM : Gorm) (STORE : GormStore) (ASSOC : GormAssociations) (CLIENT : MSPClient)
    (m : master) (n : conn) id mongod desired slave :
  reliable_monitor ENG ORM STORE ASSOC → master_reachable m → cdb n = stored m → mongod_keyfiles (stored m) ≠ ∅ →
  plain_hostnames (stored m) → slaves (stored m) !! Slave_ID slave = Some slave → Slave_ObservationErrorID slave = None →
  only_mongod (stored m) slave id mongod → is_member mongod → Mongod_ReplSetName mongod ≠ EmptyString →
  mongod_states (stored m) !! Mongod_DesiredStateID mongod = Some desired → MongodState_ExecutionState desired = MongodExecutionStateRunning →
  let target := msp.mkHostPort (Slave_Hostname slave) (Slave_Port slave) in
  ∃ n' msg, mspMongodStateRepresentation mongod n = (n', Returned (target, msg, None)) ∧ represents (stored m) mongod desired msg ∧
    ∀ (W : Type) (MONGO : Mongo W) (DOCS : MongodDocs W) (O : OS) timeout meanwhile scheduled st ds (c : Controller (session W)) p1
      (J : Json) (T : X509) (R : Mux) dials ReadFile addr caFile cert key srv client NewRequest,
      serves ReadFile (@controller_consumer _ (ConcreteMongodConfigurator timeout) O meanwhile scheduled) addr caFile cert key srv →
      trusted dials addr srv client target → (∀ p, NewRequest (constructBaseUrl target +:+ p) = Ok tt) → faithful_mongod msg →
      (∀ l, scheduled l ≡ₚ l) → only_directory mongod (procManager c) p1 →
      Mongod_Port mongod ∈ runningProcesses (procManager c) → member (Mongod_Port mongod) st (world (configurator c)) →
      ms_primary st = true → started_for msg st → reported_config (ms_config st) ds →
      (length ds + length (members_for (stored m) mongod) ≤ 256)%nat →
      let Do := Rpc.exchange dials client srv in
      ∃ c' config reply, client_EstablishMongodState Do NewRequest target msg c = (c', Returned None) ∧
        last (issued (configurator c')) = Some (mkEvent (Mongod_Port mongod) (CmdReplSetReconfig config) reply) ∧
        (reply.2 = None → ∃ c'' o, (faithful_status (Some [o]) → client_RequestStatus Do target c' = (c'', Returned (Some [o], None))) ∧
           ∀ k, ∃ s' statuses, handleObservation [o] None slave (open_session (stored m) k) = (s', Returned tt) ∧
             same_decisions (stored m) (committed s') ∧
             cbus (tx s') = MsgConnection (connection_status slave None) :: (MsgMatch <$> statuses) ∧
             ∀ status, status ∈ statuses → Match_Mismatch status = false ∧ ∀ s, dispatch (MsgMatch status) s = (s, Returned tt)).
Proof.
  intros Hrel Hm Hn Hkey Hnames Hslave Hnoerr Honly Hmem Hname Hst Hrun target. pose proof Honly as (Hin & Hpar & _).
  destruct (master_reachable_ok m Hm) as [Hd _]. pose proof (reachable_desires m Hm) as Hv. pose proof Hd as [Hc _].
  destruct (pushed_representation ENG ORM (stored m) id mongod n (monitor_orm _ _ _ _ Hrel) Hd Hv Hkey Hin Hn)
    as (slave0 & st0 & n' & msg & Hslave0 & Hst0 & Hpush & Hrep).
  assert (slave0 = slave) as -> by (rewrite Hpar in Hslave0; congruence). assert (st0 = desired) as -> by congruence.
  exists n', msg. split; [exact Hpush|]. split; [exact Hrep|].
  assert (Mongod_Port mongod ≠ 0) as Hport.
  { pose proof (cons_fit _ Hc id mongod slave Hin Hmem Hslave0) as Hfit. pose proof (cons_slaves _ Hc _ _ Hslave) as [_ Hb _ _ _ _].
    unfold in_range, PortNumberMin in *. lia. }
  intros W MONGO DOCS O timeout meanwhile scheduled st ds c p1 J T R dials ReadFile addr caFile cert key srv client NewRequest
    Hserves Htrust Hnew Hfaith Hsched Hdir Hproc Hmember Hprim Hstart Hconf Hsize Do.
  assert (plain_message msg) as Hplain by by eapply represented_plain.
  destruct (establish_member O timeout meanwhile msg st ds c) as (c' & config & reply & Hest & Hp & Hlast & Hreport);
    [by rewrite (rep_port _ _ _ _ Hrep)|done|by rewrite (rep_port _ _ _ _ Hrep)|done..|by rewrite (rep_members _ _ _ _ Hrep)|].
  exists c', config, reply. split; [|split; [by rewrite <- (rep_port _ _ _ _ Hrep)|]].
  { eapply rpc_establish; eauto; [|apply error_none]. by rewrite (plain_running _ Hplain). }
  intros Hok. destruct (Hreport Hok p1 (parse_running _ _ _ Hdir)) as (c'' & o & Hrep' & Hobeys). exists c'', o. split.
  - intros Hf. enough (∃ r, client_RequestStatus Do target c' = (c'', Returned r) ∧ status_received (Some [o]) None r) as (r & Hr & ->) by exact Hr.
    eapply rpc_status; [exact Hserves|exact Htrust| |exact Hf|apply error_none].
    apply (status_of_one (C := session W) scheduled mongod c' c'' p1); [done|by rewrite Hp|].
    by rewrite <- (rep_port _ _ _ _ Hrep), <- (rep_name _ _ _ _ Hrep).
  - intros k. destruct (left_alone ENG ORM STORE ASSOC CLIENT m slave [o] k Hrel Hm Hslave Hnoerr) as (s' & statuses & H1 & H2 & H3 & _ & H4).
    { by eapply one_as_pushed. }
    exists s', statuses. by split_and!.
Qed.

(** ** The example closes *)

Lemma told_only : only_mongod (stored asked_master) asked_slave 2 told_mongod.
Proof.
  split; [vm_compute; reflexivity|]. split; [reflexivity|]. intros id mongod Hin Hpar.
  pose proof (told_mongods id mongod Hin Hpar) as ->. destruct (master_reachable_ok _ asked_reachable) as [[Hc _] _].
  by rewrite <- (ok_mongod_key _ (cons_ok _ Hc) id _ Hin).
Qed.

Lemma told_hostnames : plain_hostnames (stored asked_master).
Proof.
  change (map_Forall (λ _ s, free_of ":" (Slave_Hostname s)) (slaves (stored asked_master))).
  apply map_Forall_to_list. vm_compute. repeat constructor; done.
Qed.

Lemma control_loop_closes_witness :
  let srv := slave_server (@controller_consumer _ (ConcreteMongodConfigurator 10) working_os id id) in
  let Do := @Rpc.exchange wire_json ref_x509 ref_mux (Controller (session member_status)) example_dials example_client srv in
  ∃ n' msg c' config reply,
    @mspMongodStateRepresentation ref_engine ref_gorm told_mongod told_conn = (n', Returned (msp.mkHostPort "host1" 8081, msg, None)) ∧
    @client_EstablishMongodState wire_json _ Do (λ _, Ok tt) (msp.mkHostPort "host1" 8081) msg lone_slave = (c', Returned None) ∧
    last (issued (configurator c')) = Some (mkEvent 18080 (CmdReplSetReconfig config) reply) ∧
    (reply.2 = None → ∃ c'' o s' (statuses : list MongodMatchStatus),
       @client_RequestStatus wire_json _ Do (msp.mkHostPort "host1" 8081) c' = (c'', Returned (Some [o], None)) ∧
       @handleObservation ref_engine ref_gorm ref_store ref_associations [o] None asked_slave (open_session (stored asked_master) 0) =
         (s', Returned tt) ∧
       cbus (tx s') = MsgConnection (connection_status asked_slave None) :: (MsgMatch <$> statuses) ∧
       ∀ status, status ∈ statuses → Match_Mismatch status = false).
Proof.
  intros srv Do.
  destruct (control_loop_closes ref_engine ref_gorm ref_store ref_associations accepting_client asked_master told_conn 2 told_mongod
    (mkMongodState 2 2 "none" MongodExecutionStateRunning) asked_slave) as (n' & msg & Hpush & Hrep & Hall).
  - apply ref_reliable_monitor.
  - apply asked_reachable.
  - reflexivity.
  - intros Hempty%(f_equal size). by vm_compute in Hempty.
  - apply told_hostnames.
  - vm_compute. reflexivity.
  - reflexivity.
  - apply told_only.
  - by eexists.
  - discriminate.
  - vm_compute. reflexivity.
  - reflexivity.
  - destruct (Hall member_status word_mongod word_docs working_os 10 id id lone_primary [lone_member] lone_slave
      (@parseProcessDirTree working_os (procManager lone_slave)).1 wire_json ref_x509 ref_mux
      example_dials example_ReadFile ":8081"%string "ca"%string "cert"%string "key"%string srv example_client (λ _, Ok tt))
      as (c' & config & reply & H1 & H2 & H3).
    + apply slave_serves.
    + split; [split; simpl; repeat split; discriminate|]. split; [simpl; lia|]. by repeat split.
    + done.
    + done.
    + done.
    + vm_compute. reflexivity.
    + vm_compute. reflexivity.
    + reflexivity.
    + reflexivity.
    + split; [by rewrite (rep_name _ _ _ _ Hrep)|by rewrite (rep_role _ _ _ _ Hrep)].
    + split; [reflexivity| | |]; [repeat constructor; vm_compute; by eexists|apply NoDup_singleton..].
    + vm_compute. lia.
    + exists n', msg, c', config, reply. split; [exact Hpush|]. split; [exact H1|]. split; [exact H2|].
      intros Hok. destruct (H3 Hok) as (c'' & o & Hstatus & Hrounds). destruct (Hrounds 0%nat) as (s' & statuses & Hrun & _ & Hbus & Hsilent).
      exists c'', o, s', statuses. split; [by apply Hstatus|]. split; [exact Hrun|]. split; [exact Hbus|]. intros status Hst. by apply Hsilent.
Defined.
