(* ===== verification/Types.v ===== *)
(** * The types of the columns

    [model/db.go] declares the columns as Go types: port numbers are 16 bits wide, and
    states, roles and counts are unsigned integers or strings of which only the declared
    constants mean something.  The database checks none of that; here it is shown of
    everything the master ever stores about slaves, replica sets and what it wants of
    mongods. *)

From stdpp Require Import base gmap sets list strings fin_maps relations.
From Stdlib Require Import Lia.
From S2P Require Import Prelude Msp Model Database Orm Store Api ApiServer ApiHandlers ApiInvariant ApiRules Coherence DesiredStates System Problems ControlLoop.

Open Scope Z_scope.
Set Warnings "-clear-no-such-hyp".

(** A port number in use: [PortNumber] is [uint16], and 0 is below [PortNumberMin]. *)
Definition port_number (p : PortNumber) : Prop := 0 < p < 2 ^ 16.

Definition slave_states : list SlaveState := [SlaveStateActive; SlaveStateMaintenance; SlaveStateDisabled].
(** The execution states but [Recovering], which the code calls invalid for a desired
    state, and those that are only observed. *)
Definition desired_states : list MongodExecutionState :=
  [MongodExecutionStateForceDestroyed; MongodExecutionStateDestroyed; MongodExecutionStateRunning].

Record well_typed (d : db) : Prop := {
  typed_slave id s : slaves d !! id = Some s →
    Slave_ID s = id ∧ port_number (Slave_Port s) ∧ port_number (Slave_MongodPortRangeBegin s) ∧ port_number (Slave_MongodPortRangeEnd s) ∧
    Slave_ConfiguredState s ∈ slave_states;
  typed_replica_set id r : replica_sets d !! id = Some r →
    ReplicaSet_ID r = id ∧ 0 ≤ ReplicaSet_PersistentMemberCount r ∧ 0 ≤ ReplicaSet_VolatileMemberCount r ∧
    ReplicaSet_ShardingRole r ∈ sharding_roles;
  typed_risk_group id g : risk_groups d !! id = Some g → RiskGroup_ID g = id;
  typed_mongod id m : mongods d !! id = Some m →
    Mongod_ID m = id ∧ (is_member m → port_number (Mongod_Port m)) ∧
    ∃ st, mongod_states d !! Mongod_DesiredStateID m = Some st ∧ MongodState_ParentMongodID st = id ∧
      MongodState_ExecutionState st ∈ desired_states ∧ MongodState_ShardingRole st ∈ sharding_roles;
  typed_observed id m o : mongods d !! id = Some m → Mongod_ObservedStateID m = Some o →
    o ≠ Mongod_DesiredStateID m ∧ ∃ st, mongod_states d !! o = Some st ∧ MongodState_ParentMongodID st = id;
  typed_state id st : mongod_states d !! id = Some st → MongodState_ID st = id;
  typed_problem id p : problems d !! id = Some p → well_shaped p
}.

Lemma valid_slave_ports s : valid_slave s →
  port_number (Slave_Port s) ∧ port_number (Slave_MongodPortRangeBegin s) ∧ port_number (Slave_MongodPortRangeEnd s).
Proof. intros [Hp Hb Hr He _ _]. unfold port_number, PortNumberMin, PortNumberMax in *. lia. Qed.

Lemma in_range_port s p : valid_slave s → in_range s p → port_number p.
Proof. intros [Hp Hb Hr He _ _] Hin. unfold in_range, port_number, PortNumberMin, PortNumberMax in *. lia. Qed.

Lemma consistent_well_typed d : consistent d → desires_valid d → problems_ok d → well_typed d.
Proof.
  intros Hd Hv Hp. pose proof (cons_ok _ Hd) as Hok. split.
  - intros id s Hs. pose proof (cons_slaves _ Hd _ _ Hs) as Hvalid. split; [by eapply ok_slave_key|].
    pose proof (valid_slave_ports s Hvalid) as (? & ? & ?). split_and!; [done..|]. apply Hvalid.
  - intros id r Hr. pose proof (cons_replica_sets _ Hd _ _ Hr) as Hvalid. split; [by eapply ok_rs_key|].
    split_and!; apply Hvalid.
  - intros id g Hg. apply (cons_risk_groups _ Hd _ _ Hg).
  - intros id m Hm. split; [by eapply ok_mongod_key|]. split.
    + intros Hmem. destruct (ok_parent _ Hok id m Hm) as [s Hs].
      apply (in_range_port s); [by apply (cons_slaves _ Hd _ _ Hs)|]. by apply (cons_fit _ Hd id m s).
    + destruct (ok_desired _ Hok id m Hm) as (st & Hst & Hpar). exists st. split; [done|]. split; [done|].
      destruct (Hv id m st Hm Hst) as [Hex Hrole]. split; [|exact Hrole]. unfold desired_states. set_solver.
  - intros id m o Hm Ho. by apply (ok_observed _ Hok).
  - intros id st Hst. apply (cons_states _ Hd _ _ Hst).
  - intros id p. apply (problems_shaped _ Hp).
Qed.

(** C16: Every database the master can reach is well typed, whatever fails in between. The
    keys are those of the rows. The three ports of a slave and the port of a mongod that
    is a member of a replica set are non-zero 16-bit numbers (an unknown mongod a slave
    reports has the port it reports). The configured state of a slave, the role of a
    replica set, and the state and role wanted of a mongod are declared constants, the
    wanted state never one that can only be observed; the counts of a replica set are not
    negative. Each mongod has a desired state of its own and an observed state, if any,
    that is a different row of its own, whose content is whatever was observed. A problem
    is about one slave or one replica set, as its type says. *)
Theorem reachable_well_typed m : master_reachable m → well_typed (stored m).
Proof.
  intros Hm. destruct (master_reachable_ok m Hm) as [[Hc _] _]. apply consistent_well_typed; [exact Hc|by apply reachable_desires|by apply reachable_problems].
Qed.

Lemma reachable_well_typed_witness : well_typed (stored example_master).
Proof. apply (reachable_well_typed example_master), example_master_reachable. Defined.
