(* ===== verification/EntryPoints.v ===== *)
(** * The processes

    [master/cmd/master.go] and [slave/cmd/slave.go]: the checks of the command line and
    the way the master listens.  Package [flag], the reading of files, PEM and X.509 are
    parameters; what the processes start is the subject of the other files. *)

From stdpp Require Import base strings.
From Stdlib Require Import Lia.
From S2P Require Import Prelude Msp Rpc.

Open Scope Z_scope.
Set Warnings "-clear-no-such-hyp".

Module main.

(** ** The log level *)

Record LogLevelFlag := mkLogLevelFlag { lvl : Z }.
Definition DebugLevel : Z := 5.

(** [func (f LogLevelFlag) Set(val string) error]: the receiver is a copy of the flag
    [f]; the new value of the copy comes first. *)
Definition Set_copy (ParseLevel : string → Z * option gerror) (f : LogLevelFlag) (val : string) : LogLevelFlag * option gerror :=
  let '(l, err) := ParseLevel val in
  (match err with Some _ => mkLogLevelFlag l | None => f end, err).
(** What [flag.Parse] does for [-log.level] with the flag [&logLevel]. *)
Definition parse_log_level (ParseLevel : string → Z * option gerror) (logLevel : LogLevelFlag) (val : string) : LogLevelFlag * option gerror :=
  let '(_, err) := Set_copy ParseLevel logLevel val in (logLevel, err).

(** ** The flags of the master *)

Record master_flags := mkMasterFlags {
  logLevel : LogLevelFlag;
  dbDriver : string; dbDSN : string;
  listenString : string;
  slaveVerifyCA : string; slaveAuthCert : string; slaveAuthKey : string;
  apiCert : string; apiKey : string; apiVerifyCA : string
}.

(** The first [masterLog.Fatal], if any. *)
Definition check_master_flags (f : master_flags) : option string :=
  if negb (bool_decide (dbDriver f = "postgres"%string)) then Some "-db.driver: only 'postgres' is supported"%string
  else if bool_decide (dbDSN f = EmptyString) then Some "-db.dsn cannot be empty"%string
  else if bool_decide (slaveVerifyCA f = EmptyString) then
    Some "No root certificate for the slave server communication passed. Specify with -slave.verifyCA"%string
  else if bool_decide (slaveAuthCert f = EmptyString) then
    Some "No client certificate for the slave server communication passed. Specify with -slave.auth.cert"%string
  else if bool_decide (slaveAuthKey f = EmptyString) then
    Some "No key for the client certificate for the slave server communication passed. Specify with -slave.auth.key"%string
  else
    let check := apiKey f +:+ apiCert f in
    if negb (bool_decide (check = EmptyString)) && (bool_decide (check = apiKey f) || bool_decide (check = apiCert f))
    then Some "Either -apiCert specified without -apiKey or vice versa."%string
    else None.

(** ** Listening *)

Inductive listening `{X509} :=
  | ListenAndServe (addr : string)
  | ListenAndServeTLS (addr cert key : string)
  | ServerListenAndServeTLS (addr cert key : string) (tlsConfig : tls_config).

Section files.
Context `{X509} (ReadFile : string → gres string).

(** [func loadCertificateFromFile(file string)]: [pem.Decode] returns a nil block for a
    text that is not PEM, and [block.Bytes] panics. *)
Definition loadCertificateFromFile (file : string) : GoM unit (gres Certificate) :=
  match ReadFile file with
  | Err e => mret (Err e)
  | Ok certFile =>
      match Decode certFile with
      | None => panic (VString "invalid memory address or nil pointer dereference")
      | Some block => mret (ParseCertificate block)
      end
  end.

(** [func listenAndServe(...)] up to the server that then runs; [dieOnError] panics. *)
Definition listenAndServe (f : master_flags) : GoM unit listening :=
  if negb (bool_decide (apiCert f = EmptyString)) then
    if bool_decide (apiVerifyCA f = EmptyString)
    then mret (ListenAndServeTLS (listenString f) (apiCert f) (apiKey f))
    else
      caCertContent ← or_panic (ReadFile (apiVerifyCA f));
      mret (ServerListenAndServeTLS (listenString f) (apiCert f) (apiKey f)
              (mkTlsConfig (AppendCertsFromPEM caCertContent) RequireAndVerifyClientCert))
  else mret (ListenAndServe (listenString f)).
End files.

(** ** The flags of the slave *)

Record slave_flags := mkSlaveFlags { dataDir : string; x509CertFile : string; x509KeyFile : string; caCert : string }.

Definition check_slave_flags (f : slave_flags) : option string :=
  if bool_decide (dataDir f = EmptyString) then Some "No root data directory passed; specify with -data=/path/to/root/dir"%string
  else if bool_decide (x509CertFile f = EmptyString) then Some "No server cert file passed; specify with -slave.auth.cert=/path/to/cert"%string
  else if bool_decide (x509KeyFile f = EmptyString) then Some "No server cert key file passed; specify with -slave.auth.key=/path/to/cert"%string
  else if bool_decide (caCert f = EmptyString) then Some "No master verification ca passed; specify with -master.verifyCA=/path/to/cert"%string
  else None.
End main.
Import main.

(** ** What the checks mean *)

Lemma string_app_nil_iff (a b : string) : a +:+ b = EmptyString ↔ a = EmptyString ∧ b = EmptyString.
Proof. destruct a; simpl; naive_solver. Qed.

Lemma string_app_self_r (a b : string) : a +:+ b = a ↔ b = EmptyString.
Proof.
  induction a as [|x a IH]; simpl; [done|]. rewrite <- IH. split; [by intros [= H]|intros H; change (String x (a +:+ b) = String x a); by rewrite H].
Qed.

Lemma string_app_length (a b : string) : (String.length (a +:+ b) = String.length a + String.length b)%nat.
Proof. induction a as [|x a IH]; [done|]. exact (f_equal S IH). Qed.

Lemma string_app_self_l (a b : string) : a +:+ b = b ↔ a = EmptyString.
Proof.
  split; [|by intros ->]. intros H%(f_equal String.length). rewrite string_app_length in H.
  destruct a; [done|]. simpl in H. lia.
Qed.

(** The concatenation trick of the last check: one is given without the other. *)
Lemma given_together (key cert : string) :
  negb (bool_decide (key +:+ cert = EmptyString)) && (bool_decide (key +:+ cert = key) || bool_decide (key +:+ cert = cert)) = true ↔
  ¬ (key = EmptyString ↔ cert = EmptyString).
Proof.
  rewrite andb_true_iff, orb_true_iff, negb_true_iff, bool_decide_eq_false, !bool_decide_eq_true.
  rewrite string_app_nil_iff, string_app_self_r, string_app_self_l.
  destruct (decide (key = EmptyString)), (decide (cert = EmptyString)); tauto.
Qed.

(** The master starts only with the flags it needs; by the concatenation trick of the
    last check, a certificate comes with a key and the other way round. *)
Theorem master_flags_checked f : check_master_flags f = None ↔
  dbDriver f = "postgres"%string ∧ dbDSN f ≠ EmptyString ∧ slaveVerifyCA f ≠ EmptyString ∧ slaveAuthCert f ≠ EmptyString ∧
  slaveAuthKey f ≠ EmptyString ∧ (apiKey f = EmptyString ↔ apiCert f = EmptyString).
Proof.
  unfold check_master_flags. cbv zeta. case_bool_decide; simpl; [|split; [done|by intros (? & _)]].
  case_bool_decide; [split; [done|by intros (_ & ? & _)]|].
  case_bool_decide; [split; [done|by intros (_ & _ & ? & _)]|].
  case_bool_decide; [split; [done|by intros (_ & _ & _ & ? & _)]|].
  case_bool_decide; [split; [done|by intros (_ & _ & _ & _ & ? & _)]|].
  pose proof (given_together (apiKey f) (apiCert f)) as Hpair. destruct (_ && _).
  - split; [done|]. intros (_ & _ & _ & _ & _ & Htogether). by destruct (proj1 Hpair eq_refl).
  - split; [intros _|done]. do 5 (split; [done|]). apply dec_stable. intros Hno. by apply Hpair in Hno.
Qed.

(** The API asks for client certificates exactly if it has both a certificate of its own
    and a CA: a CA without a certificate is silently ignored. *)
Theorem client_certificates `{X509} ReadFile f mode : listenAndServe ReadFile f tt = (tt, Returned mode) →
  (∃ addr cert key c, mode = ServerListenAndServeTLS addr cert key c ∧ ClientAuth c = RequireAndVerifyClientCert) ↔
  apiCert f ≠ EmptyString ∧ apiVerifyCA f ≠ EmptyString.
Proof.
  unfold listenAndServe. case_bool_decide; simpl; [intros [= <-]; naive_solver|].
  case_bool_decide; simpl; [intros [= <-]; naive_solver|].
  unfold mbind, gom_bind. destruct (ReadFile _) as [content|e]; simpl; intros [= <-]. split; [done|]. intros _. by eexists _, _, _, _.
Qed.

Lemma client_certificates_witness :
  (∃ addr cert key c, ListenAndServe (H := ref_x509) ":8080" = ServerListenAndServeTLS addr cert key c ∧ ClientAuth c = RequireAndVerifyClientCert) ↔
  EmptyString ≠ EmptyString ∧ "ca.pem"%string ≠ EmptyString.
Proof.
  apply (client_certificates (H := ref_x509) (λ _, Ok "-----BEGIN"%string)
    (mkMasterFlags (mkLogLevelFlag DebugLevel) "postgres" "dsn" ":8080" "ca" "cert" "key" "" "" "ca.pem") (ListenAndServe ":8080")).
  reflexivity.
Defined.

(** The log level given on the command line has no effect. *)
Theorem log_level_ignored ParseLevel f val : (parse_log_level ParseLevel f val).1 = f.
Proof. unfold parse_log_level. by destruct (Set_copy ParseLevel f val). Qed.
