(* ===== verification/Startup.v ===== *)
(** * The start of master and slave

    [main] of [master/cmd/master.go] and of [slave/cmd/slave.go]: the components are put
    together in the order of the code.  What has been started is recorded as a list of
    goroutines; what these do is the subject of the other files. *)

From stdpp Require Import base gmap sets list strings fin_maps.
From Stdlib Require Import Lia.
From S2P Require Import Prelude Msp Model Strconv Schema Rpc Database Orm Store Session Secrets System EntryPoints ProcessManager Configurator Controller.

Open Scope Z_scope.
Set Warnings "-clear-no-such-hyp".
Import main.

(** ** The master *)

(** The [go] statements of [main], with the client of the slaves where there is one. *)
Inductive goroutine `{X509} :=
  | BusRun
  | ClusterAllocatorRun
  | MonitorRun (mspClient : http_client)
  | DeployerRun (mspClient : http_client)
  | ProblemManagerRun.

(** The schema and the content of the database, and the goroutines that run. *)
Record boot `{X509} := mkBoot { schema_of : schema; session_of : Session.session; started : list goroutine }.

Section master.
Context `{X509} `{ENG : Engine} `{ORM : Gorm} (rand_read : nat → nat → gres (list Z)).
Context (ReadFile : string → gres string) (fault : nat → option gerror) (Asset : string → gres string) (Open : option gerror).

(** [masterLog.Fatal] *)
Definition Fatal {S A} (text : string) : GoM S A := panic (VString text).
(** [func dieOnError(err error)] *)
Definition dieOnError {S} (err : option gerror) : GoM S unit :=
  match err with Some err => panic (VError err) | None => mret tt end.

Definition go (g : goroutine) : GoM boot unit := modify_state (λ s, mkBoot _ (schema_of s) (session_of s) (started s ++ [g])).
Definition on_schema {A} (m : GoM schema A) : GoM boot A :=
  in_part schema_of (λ x s, mkBoot _ x (session_of s) (started s)) m.
Definition on_session {A} (m : GoM Session.session A) : GoM boot A :=
  in_part session_of (λ x s, mkBoot _ (schema_of s) x (started s)) m.
Definition on_files {A} (m : GoM unit A) : GoM boot A := in_part (λ _, tt) (λ _ s, s) m.

(** The client of the slaves; the timeout is left out. *)
Definition load_client (f : master_flags) : GoM boot http_client :=
  cert ← on_files (loadCertificateFromFile ReadFile (slaveVerifyCA f));
  cert ← or_panic cert;
  clientAuthCert ← or_panic (LoadX509KeyPair (slaveAuthCert f) (slaveAuthKey f));
  mret (mkHttpClient (AddCert cert) (Some clientAuthCert)).

(** [func main()] of the master, up to the server that then runs. *)
Definition master_main (f : master_flags) : GoM boot listening :=
  match check_master_flags f with
  | Some text => Fatal text
  | None =>
      _ ← go BusRun;
      err ← on_schema (InitializeDB fault Asset Open);
      _ ← dieOnError err;
      _ ← on_session (initialize_secrets rand_read);
      _ ← go ClusterAllocatorRun;
      mspClient ← load_client f;
      _ ← go (MonitorRun mspClient);
      _ ← go (DeployerRun mspClient);
      _ ← go ProblemManagerRun;
      on_files (listenAndServe ReadFile f)
  end.
End master.

(** ** The slave *)

Section slave.
Context `{X509} `{Json} {C : Type} `{MC : MongodConfigurator C} `{O : OS}.
Context (meanwhile : ProcessManager → ProcessManager) (scheduled : list (Z * string) → list (Z * string)).
Context (ReadFile : string → gres string).

(** [func NewController(...) *Controller] *)
Definition NewController (processManager : ProcessManager) (configurator : C) : Controller C := mkController processManager configurator ∅.

(** [func main()] of the slave, up to the server that then runs and its controller;
    [configurator] is the one built from the timeouts, [root] the directory of the flag
    [-data], which [NewProcessManager] has put into the state. *)
Definition slave_main (f : slave_flags) (listenString : string) (configurator : C) : GoM ProcessManager (Controller C * http_server) :=
  match check_slave_flags f with
  | Some text => Fatal text
  | None =>
      err ← CreateManagedDirs;
      match err with
      | Some err => Fatal ("cannot not create or access slave data directory `" +:+ main.dataDir f +:+ "` (-data): " +:+ error_text err)
      | None =>
          processManager ← get_state;
          let controller := NewController processManager configurator in
          server ← in_part (λ _, tt) (λ _ s, s)
            (NewServer ReadFile (controller_consumer meanwhile scheduled) listenString (caCert f) (x509CertFile f) (x509KeyFile f));
          match Rpc.Run server with
          | Err err => Fatal (error_text err)
          | Ok srv => mret (controller, srv)
          end
      end
  end.
End slave.

(** ** What runs when the master serves *)

Section master_start.
Context `{X509} `{ENG : Engine} `{ORM : Gorm} (rand_read : nat → nat → gres (list Z)).
Context (ReadFile : string → gres string) (fault : nat → option gerror) (Asset : string → gres string) (Open : option gerror).

Definition components (c : http_client) : list goroutine := [BusRun; ClusterAllocatorRun; MonitorRun c; DeployerRun c; ProblemManagerRun].

(** The client from the files of the flags: it trusts the given CA and shows the given
    certificate. *)
Definition client_of (f : master_flags) (c : http_client) : Prop :=
  ∃ content block ca own, ReadFile (slaveVerifyCA f) = Ok content ∧ Decode content = Some block ∧ ParseCertificate block = Ok ca ∧
    LoadX509KeyPair (slaveAuthCert f) (slaveAuthKey f) = Ok own ∧ c = mkHttpClient (AddCert ca) (Some own).

Definition has_secrets (d : db) : Prop := mongod_keyfiles d ≠ ∅ ∧ mongodb_root_credentials d ≠ ∅.

(** What the transaction of the secrets leaves: both secrets, where those that existed are
    kept and no other table is changed; or the database as it was, and then the last
    statement, the commit, failed, or the database had a dangling reference already. *)
Definition secrets_initialized (s s' : Session.session) : Prop :=
  (has_secrets (committed s') ∧ secrets_created (committed s) (committed s')) ∨
  (committed s' = committed s ∧
   ((∃ n e, (cstmts (tx s) < n)%nat ∧ cstmts (tx s') = S n ∧ eng_fault n = Some e) ∨ ¬ foreign_keys (committed s))).

Lemma secrets_created_keys d d' : secrets_created d d' → foreign_keys d → foreign_keys d'.
Proof. intros (-> & _). exact id. Qed.

Lemma initialize_secrets_stored s :
  wp (initialize_secrets rand_read) (λ _, secrets_initialized s) (λ _ s', committed s' = committed s) s.
Proof.
  unfold initialize_secrets. wp_step. apply wp_session_begin. wp_step. apply wp_in_tx. simpl.
  assert (∀ c, wp (InitializeGlobalSecrets rand_read) (λ err c', secrets_created (cdb c) (cdb c') ∧ (cstmts c < cstmts c')%nat ∧
    (err = None → has_secrets (cdb c'))) (λ _ _, True) c) as Hcreates by apply InitializeGlobalSecrets_creates.
  eapply wp_mono; [apply Hcreates| |done]. intros [e|] c (Hcreated & Hlt & Hsecrets); simpl in *.
  - wp_step. apply wp_Rollback, wp_panic. done.
  - specialize (Hsecrets eq_refl). wp_step. unfold wp at 1, Commit. simpl.
    destruct (eng_fault (cstmts c)) as [e|] eqn:Hfault; [|destruct (decide (foreign_keys (cdb c))) as [Hk|Hk]]; apply wp_ret.
    + right. split; [done|left]. by exists (cstmts c), e.
    + by left.
    + right. split; [done|right]. intros Hf. apply Hk. by eapply secrets_created_keys.
Qed.

(** The state of a master that serves, started from [s0]. *)
Record master_started (f : master_flags) (s0 s : boot) : Prop := {
  start_flags : check_master_flags f = None;
  start_schema : up_to_date (schema_of s);
  start_components : ∃ c, client_of f c ∧ started s = started s0 ++ components c;
  start_secrets : secrets_initialized (session_of s0) (session_of s)
}.

(** Why a start can fail: a flag, the database, its secrets, the certificates for the slaves,
    the file with the CA of the API. *)
Definition start_obstacle (f : master_flags) (s0 : boot) : Prop :=
  check_master_flags f ≠ None ∨
  (∃ e sch, InitializeDB fault Asset Open (schema_of s0) = (sch, Returned (Some e))) ∨
  (∃ v ses, initialize_secrets rand_read (session_of s0) = (ses, Panicked v)) ∨
  (¬ ∃ c, client_of f c) ∨
  (apiCert f ≠ EmptyString ∧ ∃ e, ReadFile (apiVerifyCA f) = Err e).

(** What may run when the start fails. *)
Record start_failed (f : master_flags) (s0 s : boot) : Prop := {
  failed_components : started s `prefix_of` started s0 ++ [BusRun; ClusterAllocatorRun] ∨
    ∃ c, client_of f c ∧ started s = started s0 ++ components c;
  failed_reason : start_obstacle f s0
}.

Lemma wp_load_client f (Q : http_client → boot → Prop) (E : goval → boot → Prop) s :
  (∀ c, client_of f c → Q c s) → (∀ v, (¬ ∃ c, client_of f c) → E v s) → wp (load_client ReadFile f) Q E s.
Proof.
  intros HQ HE.
  assert ((¬ ∃ content block ca own, ReadFile (slaveVerifyCA f) = Ok content ∧ Decode content = Some block ∧
    ParseCertificate block = Ok ca ∧ LoadX509KeyPair (slaveAuthCert f) (slaveAuthKey f) = Ok own) → ∀ v, E v s) as Hno.
  { intros Hno v. apply HE. intros (c & content & block & ca & own & ? & ? & ? & ? & _). apply Hno. by exists content, block, ca, own. }
  unfold load_client. wp_step. apply wp_in_part. unfold loadCertificateFromFile.
  destruct (ReadFile (slaveVerifyCA f)) as [content|e] eqn:Hread.
  - destruct (Decode content) as [block|] eqn:Hdec; [|apply wp_panic, Hno; intros (? & ? & ? & ? & ? & ? & ? & ?); congruence]. apply wp_ret. wp_step.
    apply wp_or_panic; [|intros e He; apply Hno; intros (? & ? & ? & ? & ? & ? & ? & ?); congruence].
    intros ca Hca. wp_step. apply wp_or_panic; [|intros e He; apply Hno; intros (? & ? & ? & ? & ? & ? & ? & ?); congruence].
    intros own Hown. apply wp_ret, HQ. by exists content, block, ca, own.
  - apply wp_ret. wp_step. apply wp_panic, Hno. intros (? & ? & ? & ? & ? & ? & ? & ?). congruence.
Qed.

Lemma wp_listenAndServe f (Q : listening → unit → Prop) (E : goval → unit → Prop) s :
  (∀ mode, Q mode s) → (∀ v, apiCert f ≠ EmptyString → (∃ e, ReadFile (apiVerifyCA f) = Err e) → E v s) →
  wp (listenAndServe ReadFile f) Q E s.
Proof.
  intros HQ HE. unfold listenAndServe. case_bool_decide as Hcert; simpl; [by apply wp_ret|].
  case_bool_decide; [by apply wp_ret|]. wp_step. apply wp_or_panic; [intros content _; by apply wp_ret|].
  intros e He. apply HE; [done|]. by exists e.
Qed.

(** A specification together with the run itself. *)
Lemma wp_run {S A} (m : GoM S A) (Q : A → S → Prop) (E : goval → S → Prop) s :
  wp m Q E s → wp m (λ a s', m s = (s', Returned a) ∧ Q a s') (λ v s', m s = (s', Panicked v) ∧ E v s') s.
Proof. unfold wp. by destruct (m s) as [s' [a|v|]]. Qed.

Lemma master_main_spec f s0 : schema_ok (schema_of s0) →
  wp (master_main rand_read ReadFile fault Asset Open f) (λ _, master_started f s0) (λ _, start_failed f s0) s0.
Proof.
  intros Hok. unfold master_main. destruct (check_master_flags f) eqn:Hflags.
  { apply wp_panic. split; [left; by apply prefix_app_r|]. left. by rewrite Hflags. }
  assert (∀ sch ses, start_obstacle f s0 → start_failed f s0 (mkBoot _ sch ses (started s0 ++ [BusRun]))) as Hbus.
  { intros sch ses Hobst. split; [|done]. left. apply prefix_app. by exists [ClusterAllocatorRun]. }
  wp_step. apply wp_modify. wp_step. apply wp_in_part. eapply wp_mono; [by apply wp_run, InitializeDB_spec| |by intros v sch [_ []]].
  intros [e|] sch [Hdb Hsch]; wp_step; [apply wp_panic, Hbus; right; left; by exists e, sch|]. apply wp_ret. specialize (Hsch eq_refl).
  wp_step. apply wp_in_part. eapply wp_mono; [apply wp_run, initialize_secrets_stored| |].
  2: { intros v ses [Hsecrets _]. apply Hbus. do 2 right. left. by exists v, ses. }
  intros [] ses [_ Hses]. simpl. wp_step. apply wp_modify. wp_step. apply wp_load_client.
  2: { intros v Hno. split; [left; simpl; by rewrite <- app_assoc|]. do 3 right. by left. }
  intros c Hc. wp_step. apply wp_modify. wp_step. apply wp_modify. wp_step. apply wp_modify. apply wp_in_part.
  simpl. rewrite <- !app_assoc. simpl. apply wp_listenAndServe.
  - intros mode. split; [done|done|by exists c|exact Hses].
  - intros v Hcert Herr. split; [right; by exists c|]. by do 4 right.
Qed.
End master_start.

(** C38: A master that serves, started on a database without metadata where there are no
    tables, is complete: the flags are checked, the schema of the database is up to date,
    the five components run in the order of the code, the monitor and the deployer with a
    client that trusts exactly the given CA and shows the given certificate, and both
    secrets exist, those that existed before being kept and no other table changed; unless
    the commit of their transaction failed, because the database failed or held a dangling
    reference, which is not noticed. The start always ends. It
    fails only for a reason: a missing flag, a database that is not initialised, secrets
    that are not created, certificates for the slaves that cannot be loaded, or a CA of the
    API that cannot be read; then at most the bus and the allocator run, or all of
    them. *)
Theorem master_startup `{X509} `{ENG : Engine} `{ORM : Gorm} rand_read ReadFile fault Asset Open f s0 :
  schema_ok (schema_of s0) →
  ∃ s r, master_main rand_read ReadFile fault Asset Open f s0 = (s, r) ∧ r ≠ OutOfFuel ∧
    match r with Returned _ => master_started ReadFile f s0 s | _ => start_failed rand_read ReadFile fault Asset Open f s0 s end.
Proof.
  intros Hok. pose proof (master_main_spec rand_read ReadFile fault Asset Open f s0 Hok) as Hwp. unfold wp in Hwp.
  destruct (master_main rand_read ReadFile fault Asset Open f s0) as [s [mode|v|]]; [by exists s, (Returned mode)|by exists s, (Panicked v)|done].
Qed.

(** ** A first start *)

Definition example_flags : master_flags :=
  mkMasterFlags (mkLogLevelFlag DebugLevel) "postgres" "dsn" ":8080" "ca" "cert" "key" "" "" "".
Definition nothing_started : boot (H := ref_x509) := mkBoot _ empty_schema (open_session empty_db 0) [].
Definition first_start (ENG : Engine) : boot (H := ref_x509) * outcome listening :=
  @master_main ref_x509 ENG ref_gorm ref_random example_ReadFile (λ _, None) (λ _, Ok "CREATE TABLE"%string) None example_flags nothing_started.

Lemma master_startup_witness : ∃ s mode, first_start ref_engine = (s, Returned mode) ∧
  @master_started ref_x509 ref_engine example_ReadFile example_flags nothing_started s.
Proof.
  destruct (@master_startup ref_x509 ref_engine ref_gorm ref_random example_ReadFile (λ _, None) (λ _, Ok "CREATE TABLE"%string) None
    example_flags nothing_started) as (s & r & Hrun & _ & Hs); [done|].
  change (first_start ref_engine = (s, r)) in Hrun. destruct r as [mode|v|].
  - by exists s, mode.
  - exfalso. apply (f_equal (λ x, match x.2 with Returned _ => true | _ => false end)) in Hrun. vm_compute in Hrun. discriminate.
  - exfalso. apply (f_equal (λ x, match x.2 with Returned _ => true | _ => false end)) in Hrun. vm_compute in Hrun. discriminate.
Defined.

(** The commit of the secrets fails: the master serves all the same, without secrets. *)
Definition commit_fails : Engine := {|
  eng_fault n := if decide (n = 4%nat) then Some (TextError "connection reset") else None;
  eng_order _ _ l := l;
  eng_order_perm _ _ _ := reflexivity _
|}.
Definition serving {A B} (x : A * outcome B) : bool := match x.2 with Returned _ => true | _ => false end.

Example commit_failure_unnoticed :
  (serving (first_start commit_fails), bool_decide (mongod_keyfiles (committed (session_of (first_start commit_fails).1)) = ∅)) = (true, true) ∧
  (serving (first_start ref_engine), bool_decide (mongod_keyfiles (committed (session_of (first_start ref_engine).1)) = ∅)) = (true, false).
Proof. split; vm_compute; reflexivity. Qed.

(** ** What runs when the slave serves *)

(** A slave that serves: its data directory is there with the directory of the mongods,
    nothing else has changed, no process and no credential is known, and the server is
    that of its controller, with the certificates of the flags. *)
Record slave_started `{X509} `{Json} {C} `{MongodConfigurator C} `{OS} meanwhile scheduled ReadFile
    (f : slave_flags) (listenString : string) (configurator : C) (p p' : ProcessManager) (c : Controller C) (srv : http_server) : Prop := {
  slave_flags_given : main.dataDir f ≠ EmptyString ∧ x509CertFile f ≠ EmptyString ∧ x509KeyFile f ≠ EmptyString ∧ caCert f ≠ EmptyString;
  slave_directories : dirs p' = dirs p ∪ {[managedDirMongods p]};
  slave_data_directory : ProcessManager.dataDir p ∈ dirs p;
  slave_rest : files p' = files p ∧ runningProcesses p' = runningProcesses p ∧ ProcessManager.dataDir p' = ProcessManager.dataDir p;
  slave_controller : c = mkController p' configurator ∅;
  slave_serves : serves ReadFile (controller_consumer meanwhile scheduled) listenString (caCert f) (x509CertFile f) (x509KeyFile f) srv
}.

Lemma check_slave_flags_none f : check_slave_flags f = None →
  main.dataDir f ≠ EmptyString ∧ x509CertFile f ≠ EmptyString ∧ x509KeyFile f ≠ EmptyString ∧ caCert f ≠ EmptyString.
Proof. unfold check_slave_flags. repeat case_bool_decide; done. Qed.

Lemma CreateManagedDirs_spec `{OS} p :
  wp CreateManagedDirs (λ err p', files p' = files p ∧ runningProcesses p' = runningProcesses p ∧
    ProcessManager.dataDir p' = ProcessManager.dataDir p ∧
    match err with
    | Some _ => dirs p' = dirs p
    | None => ProcessManager.dataDir p ∈ dirs p ∧ dirs p' = dirs p ∪ {[managedDirMongods p]}
    end) (λ _ _, False) p.
Proof.
  unfold CreateManagedDirs. wp_step. apply wp_get. wp_step. unfold Access, wp at 1.
  destruct (os_fault _); [by apply wp_ret|]. destruct (decide (ProcessManager.dataDir p ∈ dirs p)) as [Hin|]; [|by apply wp_ret].
  wp_step. unfold Mkdir, wp at 1. destruct (os_fault _); [by apply wp_ret|].
  destruct (decide _) as [Hdir|]; [apply wp_ret; split_and!; [done..|]; simpl in *; set_solver|].
  destruct (decide _); by apply wp_ret.
Qed.

(** A slave starts only with its flags, an accessible data directory and a server that can
    be set up; it then serves the protocol with its controller, which knows no process
    and no credential, and on disk at most the directory of the mongods is new. A start that
    fails changes no file. The start always ends. *)
Theorem slave_startup `{X509} `{Json} {C} `{MongodConfigurator C} `{OS} meanwhile scheduled ReadFile f listenString (configurator : C) p :
  ∃ p' r, slave_main meanwhile scheduled ReadFile f listenString configurator p = (p', r) ∧ r ≠ OutOfFuel ∧
    match r with
    | Returned (c, srv) => slave_started meanwhile scheduled ReadFile f listenString configurator p p' c srv
    | _ => files p' = files p ∧ dirs p ⊆ dirs p' ∧ dirs p' ⊆ dirs p ∪ {[managedDirMongods p]}
    end.
Proof.
  assert (wp (slave_main meanwhile scheduled ReadFile f listenString configurator)
    (λ r p', slave_started meanwhile scheduled ReadFile f listenString configurator p p' r.1 r.2)
    (λ _ p', files p' = files p ∧ dirs p ⊆ dirs p' ∧ dirs p' ⊆ dirs p ∪ {[managedDirMongods p]}) p) as Hwp.
  { unfold slave_main. destruct (check_slave_flags f) eqn:Hflags; [apply wp_panic; set_solver|].
    wp_step. eapply wp_mono; [apply CreateManagedDirs_spec| |done]. intros [e|] p' (Hf & Hr & Hd & Hdirs); [apply wp_panic; set_solver|].
    destruct Hdirs as [Hdata Hdirs]. wp_step. apply wp_get. wp_step. apply wp_in_part. unfold NewServer.
    wp_step. apply wp_or_panic; [intros content Hread|intros e _; set_solver].
    apply wp_ret. unfold Rpc.Run. cbn [certFile keyFile new_listener]. destruct (LoadX509KeyPair (x509CertFile f) (x509KeyFile f)) as [own|e] eqn:Hload; [|cbv beta iota zeta; apply wp_panic; set_solver].
    apply wp_ret. simpl. split; [by apply check_slave_flags_none|done|done|done|done|].
    by eapply started_serves. }
  unfold wp in Hwp. destruct (slave_main _ _ _ _ _ _ p) as [p' [[c srv]|v|]]; [|by exists p', (Panicked v)|done].
  by exists p', (Returned (c, srv)).
Qed.
